(* ===== verification/_CoqProject ===== *)
-Q . S2P
Prelude.v
Memory.v
PageAlloc.v
Buddy.v
BuddyProofs.v
Progress.v
BuddySpec.v
Chain.v
Slab.v
SlabProofs.v
SlabHeap.v
SlabSpec.v
Pmm.v
KmallocSpec.v
HeapClaims.v
HeapPages.v
Klib.v
KlibSpec.v
Vmm.v
VmmProofs.v
VmmDestroy.v
VmmSpec.v
VmmRange.v
VmmClaims.v
Memmgr.v
MemmgrSpec.v
Locks.v
LocksSpec.v
Lists.v
Tasks.v
TasksSpec.v
TasksClaims.v
Vfs.v
DcacheSpec.v
VfsClaims.v
Console.v
ConsoleSpec.v
ConsoleClaims.v
Klog.v
KlogSpec.v
KlogClaims.v
Devices.v
DevicesSpec.v
TimerSpec.v
Descr.v
DescrSpec.v
Interrupts.v
InterruptsSpec.v
InterruptsClaims.v
HeapFrame.v
VmmRoute.v
MemmgrHeap.v
TaskHeap.v
Boot.v
BootSpec.v
BootClock.v
Startup.v
StartupSpec.v
BootClaims.v
MemmgrFree.v
StartSpec.v
MemmgrClaims.v
StartClaims.v
Diag.v
DiagSpec.v
