(* ===== verification/Prelude.v ===== *)
(** * LunOS: a verification development

    LunOS is a small 64-bit kernel for x86.  This library models it as
    executable functions, from the first instruction of [_start] to the tasks
    its processors run, and proves the properties that make it correct.

    ** The program and how its parts interact

    - The buddy allocator (arch/x86_64/memory/buddy_allocator.c) hands out
      blocks of 2^k pages of physical memory, one arena per usable region of
      the boot loader's memory map.
    - The slab allocator (slab_allocator.c) cuts pairs of pages into objects of
      eight size classes; [kmalloc] and [kfree] (pmm.c) choose between it and
      the buddy allocator.
    - The virtual memory manager (vmm.c) keeps the four-level page tables, in
      pages of the buddy allocator; the task memory manager (memmgr.c) keeps
      the regions of a task on top of it.
    - Tasks (tasks.c), the scheduler (scheduler.c, context_switch.S) and the
      task manager (task_manager.c) keep tasks on intrusive lists
      (include/ds/lists.h), one run queue per CPU.
    - The virtual file system (vfs.c) resolves paths over dentries that it
      caches in a hash table (dentry_cache.c).
    - The terminal (tty.c, framebuffer.c, tty_font.c) draws cells of text into
      the framebuffer; the kernel log (klogging.c) formats messages for it.
    - The descriptor tables (gdt_init.c, gdt.S, idt_init.c, idt.S) send
      interrupts to the stubs (isr_stubs.S) and from there to [isr_dispatch]
      (isr_handler.c), which calls the timer handler and through it [schedule].
    - The interrupt controllers and timers (pic.c, apic.c, timer.c) are
      programmed through ports and registers.
    - [_start] (kernel.c) initialises all of them in turn and ends in
      [smp_init] (smp.c), which starts the other processors.
    - All of them use the kernel library (kernel/klib) and the locks
      (include/kernel/atomic.h, spinlock.h).

    ** How the code is modelled

    Memory is one map from addresses to bytes ([Memory]); every struct lives in
    it at its C layout, and a field is a little-endian load or store at its
    offset.  Pointers are [Z], NULL is 0.  Integers keep their C width: [w64],
    [w32], [w8] wrap, [s32], [s64] read two's complement.  Global variables are
    records passed along.  Each function is the body that runs while its lock
    is held; the locks are modelled by themselves, one step per atomic access.

    Accesses to devices (port and register reads and writes, privileged
    instructions) are recorded in order in a history ([dev] of Devices); what a
    device answers is a function of the history, the class [Platform].  A
    message of a component that is not the console is an event of that history
    ([Kprintf], [Klog]); messages of the allocators, of the page tables and of
    the file system layer are left out.  What becomes of a message on its way
    to the screen is Klog and Console, where the text is formatted byte by byte
    in memory and the pixels are stored to the framebuffer.

    What the boot loader and the linker decide (direct-map offset, addresses of
    globals and of string literals) and the functions of file systems are type
    classes ([Hhdm], [Linker], [TaskLinker], [VfsLinker], [KlogLinker],
    [DescrLinker], [BootLinker], [FileSystems]) the development is parametric
    in.  The interface between the page allocator and its clients is the class
    [PageAllocator] of PageAlloc.v; the buddy allocator is its instance, and
    the slab, kmalloc, paging, region, task and start-up theorems are proved
    against the class.

    The start of the processors is a step relation ([boot_step] of Boot): in
    each step one processor runs to its next access to state it shares with
    the others.  The tables of a processor ([init_gdt] and [reload_idt], both
    on tables all processors share) are one such step.

    Loops whose bound is not a structure of the data take fuel and return
    [None] when it runs out.  Where a theorem says that a function finishes, it
    gives the fuel that is enough: one more than the pages of an arena for the
    walks of the buddy allocator, one more than the slabs of a cache for the
    slab lists, one more than the pages of a range for mapping loops, 64 for
    the order computation of [kmalloc], the length of the strings and chains
    for searches, the cycles a wait covers for the calibration loops.  [_start]
    takes two: 64 for its memory operations, and [wait] for the clock, more than
    the polls and the counter reads of one wait ([keeps_time]).  An index
    outside an array is [None].

    ** Files

    Each component has a file of operations, with the names of the C functions
    in a Module; a C function that contains a loop has the loop as a definition
    of its own.  The files that follow it hold its invariants and theorems.

    - Prelude: machine integers, bit lemmas, tactics, the hint database.
      Memory: loads, stores, agreement of memories, the direct map.
      Chain: NULL-terminated lists, sums.
    - PageAlloc: the page allocator interface and the set of free bytes.
    - Buddy, BuddyProofs (invariant), Progress (an allocation succeeds while a
      block of its order is free), BuddySpec (boot and theorems).
    - Slab, SlabProofs, SlabHeap, SlabSpec (invariant of the caches), Pmm
      (kmalloc, kfree), KmallocSpec, HeapClaims (theorems about the heap).
      HeapPages: the heap together with the pages its clients hold.
      HeapFrame: the heap as its clients see it, and the number of requests it
      still has room for.
    - Klib, KlibSpec: memory and string routines, number printing.
    - Vmm, VmmProofs, VmmSpec, VmmRange, VmmClaims: page tables.  VmmRoute: the
      walk to one page in tables of which nothing else is known.  VmmDestroy:
      the tables of an address space as a tree, and what destroying it frees.
    - Memmgr, MemmgrSpec: the regions of a task.  MemmgrHeap, MemmgrClaims: its
      descriptor and address space on the heap, from creation to stack growth.
      MemmgrFree: freeing them.
    - Locks, LocksSpec: atomics, spinlock, read-write lock, ticket lock.
    - Lists: intrusive lists on memory and their reference on functions.
    - Tasks, TasksSpec, TasksClaims: tasks and scheduling.  TaskHeap: tasks
      that are created on the heap.
    - Vfs, DcacheSpec, VfsClaims: dentry cache and file system layer.
    - Console, ConsoleSpec, ConsoleClaims: framebuffer and terminal.
    - Klog, KlogSpec, KlogClaims: the formatter and the log.
    - Devices, DevicesSpec, TimerSpec: interrupt controllers and timers.
      BootClock: the first wait, on a clock that is not calibrated yet.
    - Descr, DescrSpec: GDT, TSS and IDT.  Interrupts, InterruptsSpec,
      InterruptsClaims: stubs, dispatch and preemption.
    - Boot: [_start], [smp_init] and the processors.  BootSpec: what the boot
      processor prepares.  Startup: the start-up as an abstract protocol;
      StartupSpec: the processors follow it; BootClaims: theorems.  StartSpec,
      StartClaims: [_start] as a whole.
    - Diag, DiagSpec: the reports and self-tests of the kernel.

    ** What the theorems show

    - Buddy allocator: every operation refines one on the set of free bytes;
      free blocks are aligned, disjoint and never two unmerged buddies; boot
      makes exactly the usable pages free, in the largest blocks their
      alignment allows; freeing undoes allocating.
    - Heap: objects in use never overlap, no operation touches the contents of
      an object in use, a client cannot break the heap through its own object,
      kmalloc followed by kfree restores the free set, and an allocation
      succeeds while a block of its order is free (a small one fails only when
      no block of two pages or more is).  Three theorems state where
      the code fails: the end marker that overruns, the pattern that is taken
      for a double free, the order loop that does not end.
    - Virtual memory: mapping and unmapping refine one update of the abstract
      page map, translation returns what was mapped, a range is mapped as a
      whole or not at all, TLB entries are flushed; destroying an address space
      frees each table of its lower half once and nothing of the upper half.
    - Task memory: with room in the heap a task gets an address space and the
      regions of its executable, accesses are allowed as the layout says, and
      the stack grows into fresh frames; insertion of a region, and what a
      failed heap expansion leaves; freeing the memory of a task undoes its
      creation, and loses the frames that its tables map.
    - Kernel library: memmove for every overlap, printing and reading back of
      numbers.
    - Locks: mutual exclusion in every interleaving of any number of CPUs, the
      reader count of the read-write lock, first come first served for the
      ticket lock (by invariants over reachable states).
    - Scheduling: run queues as lists, round robin, load balancing, orphaning,
      process numbers, and that [task_exit] resumes the task that exited.
    - File system layer: lookup, insertion and removal in the dentry cache,
      the divergence after a double insertion, opening and closing.
    - Console: the terminal draws what a grid of cells with a cursor shows, and
      stays inside the framebuffer.  Log: the formatter prints what the
      directives of its format string mean, and never past its buffer.
    - Descriptor tables: read the way the CPU reads them, every vector reaches
      its stub and every selector its segment.  Interrupts: an interrupted
      task is resumed with the registers it had, after the other tasks of its
      queue; what becomes of a CPU after each exception.
    - Timers: calibration ends and measures the rate of the platform, the local
      timer is programmed to the frequency asked for.
    - Start: from what the boot loader hands over [_start] gets through all
      initialisers, none undoes what another did, and it ends in a state that
      the start-up theorems begin with.
    - Start-up: in every interleaving each processor gets its own number and
      runs a task of its own queue, at most once; every run ends, and in the
      end every processor runs; where the steps lead is the abstract protocol
      of Startup.
    - Reports: the free memory the arena summary prints is the free memory.

    Witnesses run the theorems on concrete states: a booted machine with the
    memory map of the emulator, two queued tasks, a cache with one file, a
    terminal, a platform with a clock, four processors.

    ** Not modelled

    The runtime tests (kernel/tests: malloc_tests.c, vmm_tests.c) exercise the
    allocators this development proves correct.  The loader of executables
    (kernel/tools) is an empty file.  limine.h and limine_requests.c are
    data the boot loader reads; its answers are [boot_info] of Boot, and its
    own code is a step of the machine only where it jumps to [goto_address].
    [fork], [waitpid], mounting and the directory operations are declared and
    defined nowhere.  What follows [load_next_task] in [smp_init] is never
    reached.  The return addresses that calls push on the stack are not in the
    memory of the model.  The memory model is sequentially consistent;
    interrupts arrive between, not inside, the modelled bodies; the race of two
    processors on the one TSS descriptor inside [init_gdt] is not modelled. *)
From Stdlib Require Export ZArith Lia.
From stdpp Require Export base numbers gmap fin_maps functions.
From stdpp Require Export list.

#[global] Open Scope Z_scope.

(** ** Machine integers

    The C types are kept at their width: a [uint64_t] is a [Z] in [0 .. 2^64),
    and an operation whose result can leave that range is followed by the
    wrap-around of its type. *)
Definition wrap (w x : Z) : Z := x mod 2 ^ w.
Notation w64 := (wrap 64).
Notation w32 := (wrap 32).
Notation w16 := (wrap 16).
Notation w8 := (wrap 8).

(** Two's-complement reading of the low [w] bits: the value of a C [int]. *)
Definition swrap (w x : Z) : Z := (x + 2 ^ (w - 1)) mod 2 ^ w - 2 ^ (w - 1).
Notation s32 := (swrap 32).
Notation s64 := (swrap 64).

(** ** Shared proof automation *)

(** Splits the boolean tests of a goal (or hypothesis) into arithmetic facts. *)
Ltac zbool :=
  repeat match goal with
  | |- context [Z.eqb ?a ?b] => destruct (Z.eqb_spec a b)
  | |- context [Z.ltb ?a ?b] => destruct (Z.ltb_spec a b)
  | |- context [Z.leb ?a ?b] => destruct (Z.leb_spec a b)
  | H : context [Z.eqb ?a ?b] |- _ => destruct (Z.eqb_spec a b)
  | H : context [Z.ltb ?a ?b] |- _ => destruct (Z.ltb_spec a b)
  | H : context [Z.leb ?a ?b] |- _ => destruct (Z.leb_spec a b)
  end.

Create HintDb lunos.

(** [lunos]: linear arithmetic first, then the lemmas of the hint database. *)
Ltac lunos := first [lia | done | eauto with lunos lia].

(** Unfolds the option binds of a hypothesis [H : mbind ... = Some _] into its
    successive results. *)
Ltac inv_bind H :=
  repeat match type of H with
  | mbind _ ?c = Some _ =>
      let r := fresh "r" in let Hr := fresh "Hr" in
      destruct c as [r|] eqn:Hr; [cbn [mbind option_bind] in H|discriminate H]
  end.

(** ** Wrap-around *)

Lemma wrap_range w x : 0 <= w -> 0 <= wrap w x < 2 ^ w.
Proof. intros. apply Z.mod_pos_bound. by apply Z.pow_pos_nonneg. Qed.

Lemma wrap_small w x : 0 <= x < 2 ^ w -> wrap w x = x.
Proof. apply Z.mod_small. Qed.

Lemma swrap_small w x :
  0 < w -> - 2 ^ (w - 1) <= x < 2 ^ (w - 1) -> swrap w x = x.
Proof.
  intros Hw Hx. unfold swrap.
  replace (2 ^ w) with (2 * 2 ^ (w - 1)) by (rewrite <- Z.pow_succ_r by lia; f_equal; lia).
  rewrite Z.mod_small by lia. lia.
Qed.

Lemma swrap_range w x : 0 < w -> - 2 ^ (w - 1) <= swrap w x < 2 ^ (w - 1).
Proof.
  intros Hw. unfold swrap.
  assert (2 ^ w = 2 * 2 ^ (w - 1)) as E
    by (rewrite <- Z.pow_succ_r by lia; f_equal; lia).
  pose proof (Z.mod_pos_bound (x + 2 ^ (w - 1)) (2 ^ w)). rewrite E in *.
  assert (0 < 2 ^ (w - 1)) by (apply Z.pow_pos_nonneg; lia). lia.
Qed.

#[export] Hint Resolve wrap_range swrap_range : lunos.
#[export] Hint Rewrite wrap_small swrap_small using lia : lunos.

(** ** Alignment and bit masks *)

(** [a & ~(2^k - 1)] rounds [a] down to a multiple of [2^k]. *)
Lemma land_lnot_ones a k :
  0 <= k -> Z.land a (Z.lnot (Z.ones k)) = a - a mod 2 ^ k.
Proof.
  intros Hk. rewrite <- Z.ldiff_land, Z.ldiff_ones_r by lia.
  rewrite Z.shiftl_mul_pow2, Z.shiftr_div_pow2 by lia.
  pose proof (Z.div_mod a (2 ^ k)). assert (2 ^ k <> 0) by (apply Z.pow_nonzero; lia). lia.
Qed.

(** [a & (2^k - 1)] is the remainder of [a]. *)
Lemma land_pow2_pred a k : 0 <= k -> Z.land a (2 ^ k - 1) = a mod 2 ^ k.
Proof.
  intros Hk. replace (2 ^ k - 1) with (Z.ones k) by (rewrite Z.ones_equiv; lia).
  by apply Z.land_ones.
Qed.

Lemma lor_range a b w :
  0 <= w -> 0 <= a < 2 ^ w -> 0 <= b < 2 ^ w -> 0 <= Z.lor a b < 2 ^ w.
Proof.
  intros Hw Ha Hb. assert (Z.lor a b = Z.lor a b mod 2 ^ w) as ->.
  { rewrite <- Z.land_ones, Z.land_lor_distr_l, !Z.land_ones, !Z.mod_small by lia. done. }
  apply Z.mod_pos_bound, Z.pow_pos_nonneg; lia.
Qed.

Lemma testbit_1 n : 0 <= n -> Z.testbit 1 n = (0 =? n).
Proof. intros. change 1 with (2 ^ 0). by rewrite Z.pow2_bits_eqb. Qed.

Lemma lxor_1 q : Z.lxor q 1 = if Z.even q then q + 1 else q - 1.
Proof.
  destruct (Z.even q) eqn:E.
  - symmetry. apply Z.add_nocarry_lxor, Z.bits_inj'. intros n Hn.
    rewrite Z.land_spec, Z.bits_0, testbit_1 by done. zbool; subst.
    + by rewrite Z.bit0_odd, <- Z.negb_even, E.
    + apply andb_false_r.
  - assert (Z.testbit q 0 = true) as H0 by (by rewrite Z.bit0_odd, <- Z.negb_even, E).
    rewrite Z.sub_nocarry_ldiff; apply Z.bits_inj'; intros n Hn;
      rewrite ?Z.lxor_spec, ?Z.ldiff_spec, ?Z.bits_0, testbit_1 by done;
      zbool; subst; rewrite ?H0, ?xorb_false_r, ?andb_true_r; done.
Qed.

(** Flipping bit [k] of a multiple of [2^k] gives its neighbour of that size:
    Knuth's buddy address. *)
Lemma lxor_buddy p k :
  0 <= k -> p mod 2 ^ k = 0 ->
  Z.lxor p (2 ^ k) = if Z.even (p / 2 ^ k) then p + 2 ^ k else p - 2 ^ k.
Proof.
  intros Hk Hp. assert (0 < 2 ^ k) by (apply Z.pow_pos_nonneg; lia).
  assert (p = (p / 2 ^ k) * 2 ^ k) as Ep.
  { pose proof (Z.div_mod p (2 ^ k)). lia. }
  set (q := p / 2 ^ k) in *. rewrite Ep.
  rewrite <- (Z.mul_1_l (2 ^ k)) at 2.
  rewrite <- !Z.shiftl_mul_pow2, <- Z.shiftl_lxor by lia.
  rewrite lxor_1, !Z.shiftl_mul_pow2 by lia. destruct (Z.even q); lia.
Qed.

(** ** Lists *)

(** Distinct multiples of [k] inside a window of [n * k] bytes are at most [n]. *)
Lemma aligned_count (l : list Z) k b n :
  0 < k -> 0 <= n -> b mod k = 0 ->
  NoDup l -> (forall p, p ∈ l -> p mod k = 0 /\ b <= p < b + n * k) ->
  (length l <= Z.to_nat n)%nat.
Proof.
  intros Hk Hn Hb Hnd Hl.
  rewrite <- (length_fmap (fun p => p / k) l), <- (length_seqZ (b / k) n).
  apply submseteq_length, NoDup_submseteq.
  - apply NoDup_fmap_2_strong; [|done].
    intros x y Hx Hy E. destruct (Hl _ Hx), (Hl _ Hy).
    pose proof (Z.div_mod x k). pose proof (Z.div_mod y k). nia.
  - intros y (p & -> & Hp)%list_elem_of_fmap. destruct (Hl _ Hp) as [Hm Hr].
    apply elem_of_seqZ. pose proof (Z.div_mod p k). pose proof (Z.div_mod b k). nia.
Qed.
