(* ===== verification/Memory.v ===== *)
(** * The machine memory

    Physical memory is seen by the kernel through the higher-half direct map
    as one byte-addressed store.  The allocators, the page tables and the
    string routines overlay structures on raw bytes, so the store is kept at
    byte granularity: a structure field is a little-endian load or store at
    the field's offset.  Bytes outside the finite map read as 0, so a memory
    with arbitrary initial contents is a map that binds them.

    The second half states the memory part of the boot protocol ([Hhdm]): the
    bootloader, not code of the repository, chooses where the direct map
    starts (src/kernel/include/kernel/memutils.h, [get_hhdm_offset]). *)
From S2P Require Import Prelude.

Notation mem := (gmap Z Z).

(** ** Loads and stores *)

(** The byte at address [a]. *)
Definition read8 (m : mem) (a : Z) : Z := default 0 (m !! a) mod 256.

(** Little-endian load of [n] bytes at [a]. *)
Fixpoint load (n : nat) (m : mem) (a : Z) : Z :=
  match n with
  | O => 0
  | S n => read8 m a + 256 * load n m (a + 1)
  end.

(** Little-endian store of the low [n] bytes of [v] at [a]. *)
Fixpoint store (n : nat) (m : mem) (a v : Z) : mem :=
  match n with
  | O => m
  | S n => store n (<[a := v mod 256]> m) (a + 1) (v / 256)
  end.

Arguments load : simpl never.
Arguments store : simpl never.

(** [agree P m m']: the two memories hold the same bytes on the set [P]. *)
Definition agree (P : Z -> Prop) (m m' : mem) : Prop :=
  forall a, P a -> read8 m a = read8 m' a.

(** The byte range [a .. a + n). *)
Definition in_range (a n x : Z) : Prop := a <= x < a + n.

(** ** Lemmas *)

Lemma read8_range m a : 0 <= read8 m a < 256.
Proof. apply Z.mod_pos_bound. lia. Qed.

Lemma read8_insert m a b v :
  read8 (<[b := v]> m) a = if decide (a = b) then v mod 256 else read8 m a.
Proof.
  unfold read8. case_decide as E.
  - subst. by rewrite lookup_insert_eq.
  - by rewrite lookup_insert_ne by congruence.
Qed.

Lemma load_range n m a : 0 <= load n m a < 256 ^ Z.of_nat n.
Proof.
  revert a. induction n as [|n IH]; intros a; [done|].
  unfold load; fold load. rewrite Nat2Z.inj_succ, Z.pow_succ_r by lia.
  pose proof (read8_range m a). pose proof (IH (a + 1)). nia.
Qed.

Lemma load8_range m a : 0 <= load 8 m a < 2 ^ 64.
Proof. apply (load_range 8). Qed.

(** A load depends only on the bytes it covers. *)
Lemma load_agree n m m' a :
  agree (in_range a (Z.of_nat n)) m m' -> load n m a = load n m' a.
Proof.
  revert a. induction n as [|n IH]; intros a Ha; [done|].
  unfold load; fold load. rewrite (Ha a) by (unfold in_range; lia).
  rewrite (IH (a + 1)); [done|]. intros x Hx. apply Ha. unfold in_range in *. lia.
Qed.

(** A store changes only the bytes it covers. *)
Lemma store_read8_out n m a v x :
  ~ in_range a (Z.of_nat n) x -> read8 (store n m a v) x = read8 m x.
Proof.
  revert m a v. induction n as [|n IH]; intros m a v Hx; [done|].
  unfold store; fold store. unfold in_range in *. rewrite IH by lia.
  rewrite read8_insert. case_decide; [lia|done].
Qed.

Lemma load_store_ne n k m a b v :
  a + Z.of_nat n <= b \/ b + Z.of_nat k <= a ->
  load n (store k m b v) a = load n m a.
Proof.
  intros H. apply load_agree. intros x Hx. apply store_read8_out.
  unfold in_range in *. lia.
Qed.

Lemma load_store_eq n m a v :
  load n (store n m a v) a = v mod 256 ^ Z.of_nat n.
Proof.
  revert m a v. induction n as [|n IH]; intros m a v.
  - by rewrite Z.mod_1_r.
  - unfold load, store; fold load; fold store. rewrite IH.
    rewrite store_read8_out by (unfold in_range; lia).
    rewrite read8_insert, decide_True by done.
    rewrite Z.mod_mod by lia.
    rewrite Nat2Z.inj_succ, Z.pow_succ_r, Z.rem_mul_r by lia. lia.
Qed.

Lemma load_store_same n m a v :
  0 <= v < 256 ^ Z.of_nat n -> load n (store n m a v) a = v.
Proof. intros. rewrite load_store_eq. by apply Z.mod_small. Qed.

Lemma load8_store8 m a v : 0 <= v < 2 ^ 64 -> load 8 (store 8 m a v) a = v.
Proof. apply (load_store_same 8). Qed.

(** ** Agreement *)

#[export] Instance agree_equivalence P : Equivalence (agree P).
Proof.
  split.
  - by intros m a.
  - intros m m' H a Ha. symmetry. by apply H.
  - intros m1 m2 m3 H1 H2 a Ha. by rewrite H1, H2.
Qed.

Lemma agree_sub (P Q : Z -> Prop) m m' :
  agree P m m' -> (forall a, Q a -> P a) -> agree Q m m'.
Proof. intros H HQ a Ha. by apply H, HQ. Qed.

Lemma agree_store (P : Z -> Prop) n m a v :
  (forall x, P x -> ~ in_range a (Z.of_nat n) x) -> agree P m (store n m a v).
Proof. intros H x Hx. symmetry. by apply store_read8_out, H. Qed.

(** ** The higher-half direct map

    [phys + offset] is a 64-bit sum in the code; the protocol places the map so
    that the physical memory the kernel uses does not wrap around
    ([hhdm_phys_limit] bounds it; the architecture bounds physical addresses to
    52 bits), at an offset aligned to a large page, and away from the null
    page. *)
Class Hhdm := {
  hhdm_offset : Z;
  hhdm_phys_limit : Z;
  hhdm_positive : 0 < hhdm_offset;
  hhdm_aligned : hhdm_offset mod 2 ^ 21 = 0;
  hhdm_no_wrap : hhdm_offset + hhdm_phys_limit <= 2 ^ 64;
  hhdm_phys_nonneg : 0 <= hhdm_phys_limit;
  hhdm_phys_bits : hhdm_phys_limit <= 2 ^ 52;
}.

Section Translation.
Context `{Hhdm}.

(** Rounding up to a page: [(x + PAGE_SIZE - 1) & ~(PAGE_SIZE - 1)]. *)
Definition page_round_up (x : Z) : Z := Z.land (w64 (x + 4096 - 1)) (Z.lnot (4096 - 1)).

Lemma page_round_up_spec x :
  0 <= x < 2 ^ 64 - 4096 ->
  page_round_up x mod 4096 = 0 /\ x <= page_round_up x < x + 4096.
Proof.
  intros Hx. unfold page_round_up. rewrite wrap_small by lia.
  change (Z.lnot (4096 - 1)) with (Z.lnot (Z.ones 12)). rewrite land_lnot_ones by lia.
  change (2 ^ 12) with 4096. pose proof (Z.mod_pos_bound (x + 4096 - 1) 4096).
  pose proof (Z.div_mod (x + 4096 - 1) 4096 ltac:(lia)). split; [|lia].
  replace (x + 4096 - 1 - (x + 4096 - 1) mod 4096) with ((x + 4096 - 1) / 4096 * 4096) by lia.
  by apply Z.mod_mul.
Qed.

(** [phys_to_virt] of buddy_allocator.h. *)
Definition phys_to_virt (phys_addr : Z) : Z := w64 (phys_addr + hhdm_offset).

(** [virt_to_phys] of buddy_allocator.h. *)
Definition virt_to_phys (virt_addr : Z) : Z := w64 (virt_addr - hhdm_offset).

(** The virtual image of a set of physical bytes. *)
Definition image (F : Z -> Prop) (v : Z) : Prop := F (v - hhdm_offset).

Lemma phys_to_virt_in p :
  0 <= p < hhdm_phys_limit -> phys_to_virt p = p + hhdm_offset.
Proof.
  intros Hp. apply wrap_small. pose proof hhdm_positive. pose proof hhdm_no_wrap. lia.
Qed.

Lemma virt_to_phys_to_virt p :
  0 <= p < hhdm_phys_limit -> virt_to_phys (phys_to_virt p) = p.
Proof.
  intros Hp. rewrite phys_to_virt_in by done. unfold virt_to_phys.
  rewrite Z.add_simpl_r. apply wrap_small.
  pose proof hhdm_positive. pose proof hhdm_no_wrap. lia.
Qed.

Lemma phys_to_virt_nonzero p : 0 <= p < hhdm_phys_limit -> phys_to_virt p <> 0.
Proof. intros Hp. rewrite phys_to_virt_in by done. pose proof hhdm_positive. lia. Qed.

Lemma phys_to_virt_word p : 0 <= phys_to_virt p < 2 ^ 64.
Proof. by apply wrap_range. Qed.

End Translation.

#[export] Hint Resolve load8_range phys_to_virt_word : lunos.

(** The direct map of the machine the kernel is developed on: offset
    0xffff800000000000, with 1 TiB of addressable memory. *)
Definition qemu_hhdm : Hhdm.
Proof.
  refine {| hhdm_offset := 0xffff800000000000; hhdm_phys_limit := 2 ^ 40 |};
    vm_compute; congruence.
Defined.
