(* ===== verification/PageAlloc.v ===== *)
(** * The page-frame allocator interface

    The slab allocator, [kmalloc] and the page-table code only use two
    operations of the buddy allocator.  This class states what they promise:
    the set of free physical bytes, and how it moves.  Clients are proved
    against the class; BuddyProofs.v gives the instance. *)
From S2P Require Import Prelude Memory.

(** The bytes of a block of order [o]. *)
Definition block_bytes (o : nat) : Z := 2 ^ (12 + Z.of_nat o).

(** Set difference and union on footprints. *)
Definition fminus (F G : Z -> Prop) (x : Z) : Prop := F x /\ ~ G x.
Definition fplus (F G : Z -> Prop) (x : Z) : Prop := F x \/ G x.

(** Extensional equality of footprints. *)
#[export] Instance footprint_equiv : Equiv (Z -> Prop) := fun F G => forall x, F x <-> G x.

#[export] Instance footprint_equivalence : Equivalence (≡@{Z -> Prop}).
Proof.
  split.
  - by intros F x.
  - intros F G E x. symmetry. apply E.
  - intros F G K E1 E2 x. by rewrite (E1 x).
Qed.

#[export] Instance fminus_proper : Proper ((≡) ==> (≡) ==> (≡)) fminus.
Proof. intros F F' EF G G' EG x. unfold fminus. by rewrite (EF x), (EG x). Qed.

#[export] Instance fplus_proper : Proper ((≡) ==> (≡) ==> (≡)) fplus.
Proof. intros F F' EF G G' EG x. unfold fplus. by rewrite (EF x), (EG x). Qed.

Class PageAllocator `{Hhdm} (S : Type) := {
  (** [alloc_pages order]: the physical address of a block, 0 on failure. *)
  alloc_pages : nat -> mem -> S -> mem * S * Z;
  (** [free_pages phys order] *)
  free_pages : Z -> nat -> mem -> S -> option (mem * S);

  (** The allocator is in order and its free physical bytes are [F]. *)
  pa_inv : mem -> S -> (Z -> Prop) -> Prop;
  (** The allocator manages the block at [p] of order [o]. *)
  pa_block : S -> Z -> nat -> Prop;

  pa_inv_proper m s F F' : F ≡ F' -> pa_inv m s F -> pa_inv m s F';
  (** The allocator reads nothing but its free memory. *)
  pa_inv_agree m m' s F : agree (image F) m m' -> pa_inv m s F -> pa_inv m' s F;

  pa_block_bounds s p o :
    pa_block s p o ->
    (o <= 20)%nat /\ 0 < p /\ p mod block_bytes o = 0 /\ p + block_bytes o <= hhdm_phys_limit;

  (** Allocation: either nothing changes and the result is 0, or a managed
      block of free memory leaves the free set, and no byte outside the
      remaining free memory is written. *)
  pa_alloc o m s F m' s' p :
    (o <= 20)%nat -> pa_inv m s F -> alloc_pages o m s = (m', s', p) ->
    (p = 0 /\ m' = m /\ s' = s) \/
    (pa_block s' p o /\
     (forall x, in_range p (block_bytes o) x -> F x) /\
     pa_inv m' s' (fminus F (in_range p (block_bytes o))) /\
     agree (fun v => ~ image (fminus F (in_range p (block_bytes o))) v) m m' /\
     (forall q k, pa_block s' q k <-> pa_block s q k));

  (** Freeing a managed block that is not free always succeeds, adds exactly
      its bytes to the free set and writes only free memory. *)
  pa_free o m s F p :
    pa_inv m s F -> pa_block s p o ->
    (forall x, in_range p (block_bytes o) x -> ~ F x) ->
    exists m' s', free_pages p o m s = Some (m', s') /\
      pa_inv m' s' (fplus F (in_range p (block_bytes o))) /\
      agree (fun v => ~ image (fplus F (in_range p (block_bytes o))) v) m m' /\
      (forall q k, pa_block s' q k <-> pa_block s q k);

  (** Allocation fails only when no managed block of that order or a larger
      one is free as a whole. *)
  pa_progress o k m s F m' s' p q :
    (o <= k)%nat -> pa_inv m s F -> pa_block s q k ->
    (forall x, in_range q (block_bytes k) x -> F x) ->
    alloc_pages o m s = (m', s', p) -> p <> 0;
}.

(** ** Room *)

(** [n] managed blocks of order [o] are free as a whole. *)
Definition pa_room `{Hhdm} {P : Type} `{!PageAllocator P} (s : P) (F : Z -> Prop) (o n : nat) : Prop :=
  exists qs, NoDup qs /\ length qs = n /\
    forall q, q ∈ qs -> pa_block s q o /\ forall x, in_range q (block_bytes o) x -> F x.

Section Room.
Context `{Hhdm} {P : Type} `{!PageAllocator P}.

Lemma pa_room_zero s F o : pa_room s F o 0.
Proof. exists []. split_and!; [constructor|done|set_solver]. Qed.

Lemma pa_room_weaken s F o n : pa_room s F o (S n) -> pa_room s F o n.
Proof.
  intros (qs & Hnd & Hlen & Hq). destruct qs as [|q qs]; [done|]. apply NoDup_cons in Hnd as [_ Hnd].
  exists qs. split_and!; [done|by injection Hlen|]. intros q' Hq'. apply Hq. by right.
Qed.

Lemma pa_room_mono s s' (F F' : Z -> Prop) o n :
  (forall x, F x -> F' x) -> (forall q k, pa_block s' q k <-> pa_block s q k) ->
  pa_room s F o n -> pa_room s' F' o n.
Proof.
  intros HF Hb (qs & Hnd & Hlen & Hq). exists qs. split_and!; [done..|]. intros q [Hbl Hin]%Hq.
  split; [by apply Hb|]. auto.
Qed.

Lemma block_bytes_divide o k : (o <= k)%nat -> (block_bytes o | block_bytes k).
Proof.
  intros Ho. exists (2 ^ (Z.of_nat k - Z.of_nat o)). unfold block_bytes. rewrite <- Z.pow_add_r by lia. f_equal. lia.
Qed.

(** An aligned block lies in one aligned block of every larger order. *)
Lemma block_within p o k q x :
  (o <= k)%nat -> 0 <= p -> p mod block_bytes o = 0 -> q mod block_bytes k = 0 ->
  in_range p (block_bytes o) x -> in_range q (block_bytes k) x -> q = p / block_bytes k * block_bytes k.
Proof.
  intros Ho Hp Hpm Hqm Hxp Hxq. destruct (block_bytes_divide o k Ho) as [d Hd].
  assert (0 < block_bytes o) as Hpos by (unfold block_bytes; apply Z.pow_pos_nonneg; lia).
  assert (0 < block_bytes k) as Hposk by (unfold block_bytes; apply Z.pow_pos_nonneg; lia).
  pose proof (Z.div_mod p (block_bytes o) ltac:(lia)) as Ep. rewrite Hpm in Ep.
  pose proof (Z.div_mod q (block_bytes k) ltac:(lia)) as Eq. rewrite Hqm in Eq.
  unfold in_range in *. set (a := p / block_bytes o) in *. set (b := q / block_bytes k) in *.
  assert (b * d <= a) as H1' by nia. assert (a < (b + 1) * d) as H2' by nia.
  assert (p / block_bytes k = b) as ->; [|lia]. symmetry. apply (Z.div_unique_pos _ _ _ (p - q)); nia.
Qed.

(** Taking a block uses up one larger block at most. *)
Lemma pa_room_take s s' F p o k n :
  (o <= k)%nat -> 0 <= p -> p mod block_bytes o = 0 -> (forall q j, pa_block s' q j <-> pa_block s q j) ->
  pa_room s F k (S n) -> pa_room s' (fminus F (in_range p (block_bytes o))) k n.
Proof.
  intros Ho Hp Hpm Hb (qs & Hnd & Hlen & Hq). set (c := p / block_bytes k * block_bytes k).
  assert (exists qs', NoDup qs' /\ length qs' = n /\ forall q, q ∈ qs' -> q ∈ qs /\ q <> c) as (qs' & Hnd' & Hlen' & Hq').
  { destruct (decide (c ∈ qs)) as [Hin|Hn].
    - apply elem_of_Permutation in Hin as [qs' E]. rewrite E in Hnd. apply NoDup_cons in Hnd as [Hn Hnd].
      exists qs'. split_and!; [done| |intros q Hin; rewrite E; split; [by right|congruence]].
      apply Permutation_length in E. simpl in E. lia.
    - destruct qs as [|q qs]; [done|]. apply NoDup_cons in Hnd as [_ Hnd]. exists qs.
      split_and!; [done|by injection Hlen|]. intros q' Hin. split; [by right|]. intros ->. apply Hn. by right. }
  exists qs'. split_and!; [done..|]. intros q [Hin Hne]%Hq'. destruct (Hq q Hin) as [Hbl HF]. split; [by apply Hb|].
  intros x Hx. split; [auto|]. intros Hxp. apply Hne. eapply block_within; eauto.
  by destruct (pa_block_bounds _ _ _ Hbl) as (_ & _ & ? & _).
Qed.

(** While there is room an allocation succeeds and leaves room for the others. *)
Lemma pa_room_alloc o k n m s F m' s' p :
  (o <= k <= 20)%nat -> pa_inv m s F -> alloc_pages o m s = (m', s', p) -> pa_room s F k (S n) ->
  p <> 0 /\ pa_room s' (fminus F (in_range p (block_bytes o))) k n.
Proof.
  intros [Ho Hk] Hinv E Hroom.
  assert (p <> 0) as Hp.
  { destruct Hroom as ([|q qs] & _ & Hlen & Hq); [done|]. destruct (Hq q) as [Hb HF]; [by left|].
    by eapply (pa_progress o k). }
  split; [done|]. destruct (pa_alloc o m s F m' s' p ltac:(lia) Hinv E) as [(? & _)|(Hb & _ & _ & _ & Hbs)]; [done|].
  destruct (pa_block_bounds _ _ _ Hb) as (_ & ? & ? & _). by apply (pa_room_take s); [lia..|done|done|].
Qed.
End Room.
