(* ===== verification/Buddy.v ===== *)
(** * The buddy allocator: data and operations

    Models src/kernel/arch/x86_64/memory/buddy_allocator.c and its header.
    The arena table is a C global, kept as a record; the [struct free_block]
    headers live in the free pages themselves and are read and written through
    the byte memory.  An operation takes the memory and the allocator state and
    returns the new ones.  Console output is left out.  [None] is a loop that
    has not finished within its fuel; BuddyProofs.v shows it does not happen. *)
From S2P Require Import Prelude Memory.

Module Buddy.

Definition MAX_SUPPORTED_ORDER : nat := 20.
Definition MAX_BUDDY_ARENAS : nat := 32.
Definition PAGE_FRAME_SIZE : Z := 4096.

(** ** struct free_block: { uint8_t current_order; uint64_t phys_addr; next }

    [current_order] is at offset 0, [phys_addr] at 8 and [next] at 16. *)
Definition fb_current_order (m : mem) (b : Z) : Z := load 1 m b.
Definition fb_phys_addr (m : mem) (b : Z) : Z := load 8 m (b + 8).
Definition fb_next (m : mem) (b : Z) : Z := load 8 m (b + 16).
Definition set_fb_current_order (m : mem) (b v : Z) : mem := store 1 m b v.
Definition set_fb_phys_addr (m : mem) (b v : Z) : mem := store 8 m (b + 8) v.
Definition set_fb_next (m : mem) (b v : Z) : mem := store 8 m (b + 16) v.

(** ** struct buddy_arena *)
Record buddy_arena := mk_arena {
  base : Z;
  arena_length : Z;
  max_arena_order : nat;
  free_list : list Z;         (* 21 list heads, NULL is 0 *)
}.

(** The C globals [buddy_arenas] and [buddy_arena_counter]. *)
Record buddy_state := mk_buddy {
  buddy_arenas : list buddy_arena;
  buddy_arena_counter : Z;
}.

Definition zero_arena : buddy_arena :=
  mk_arena 0 0 0 (replicate (S MAX_SUPPORTED_ORDER) 0).

(** The state before [buddy_allocator_init]: zero-initialised globals. *)
Definition buddy_boot : buddy_state := mk_buddy (replicate MAX_BUDDY_ARENAS zero_arena) 0.

Definition head (ar : buddy_arena) (o : nat) : Z := nth o (free_list ar) 0.
Definition set_head (ar : buddy_arena) (o : nat) (b : Z) : buddy_arena :=
  mk_arena (base ar) (arena_length ar) (max_arena_order ar) (<[o := b]> (free_list ar)).

Definition get_arena (st : buddy_state) (i : nat) : buddy_arena :=
  nth i (buddy_arenas st) zero_arena.
Definition set_arena (st : buddy_state) (i : nat) (ar : buddy_arena) : buddy_state :=
  mk_buddy (<[i := ar]> (buddy_arenas st)) (buddy_arena_counter st).

(** [(1ULL << order) * PAGE_FRAME_SIZE] *)
Definition block_size (o : nat) : Z := w64 (Z.shiftl 1 (Z.of_nat o) * PAGE_FRAME_SIZE).

Section Ops.
Context `{Hhdm}.

(** Writes a block header and links it at the head of its list: the four
    statements that [populate_buddy_blocks], [buddy_alloc_pages] and
    [buddy_free_pages] all end with. *)
Definition link_block (m : mem) (ar : buddy_arena) (o : nat) (phys : Z) : mem * buddy_arena :=
  let block := phys_to_virt phys in
  let m := set_fb_current_order m block (Z.of_nat o) in
  let m := set_fb_phys_addr m block phys in
  let m := set_fb_next m block (head ar o) in
  (m, set_head ar o block).

(** ** populate_buddy_blocks *)

(** The descending search for the largest order that fits and is aligned;
    [None] is [best_order == -1]. *)
Fixpoint best_order (o : nat) (current_addr remaining : Z) : option nat :=
  let continue := match o with O => None | S o' => best_order o' current_addr remaining end in
  if remaining <? block_size o then continue
  else if Z.land current_addr (block_size o - 1) =? 0 then Some o else continue.

Fixpoint populate_loop (fuel : nat) (m : mem) (ar : buddy_arena) (current_addr end_addr : Z)
    : option (mem * buddy_arena) :=
  match fuel with
  | O => None
  | S fuel =>
    if current_addr <? end_addr then
      let remaining := w64 (end_addr - current_addr) in
      if remaining <? PAGE_FRAME_SIZE then Some (m, ar) else
      match best_order (max_arena_order ar) current_addr remaining with
      | None =>
        populate_loop fuel m ar
          (page_round_up current_addr) end_addr
      | Some o =>
        let '(m, ar) := link_block m ar o current_addr in
        populate_loop fuel m ar (w64 (current_addr + block_size o)) end_addr
      end
    else Some (m, ar)
  end.

Definition populate_buddy_blocks (m : mem) (ar : buddy_arena) : option (mem * buddy_arena) :=
  populate_loop (S (Z.to_nat (arena_length ar / PAGE_FRAME_SIZE))) m ar
    (base ar) (w64 (base ar + arena_length ar)).

(** ** add_buddy_arena *)

(** [while (((1ULL << (max_order + 1)) * PAGE_FRAME_SIZE) <= aligned_len) max_order++] *)
Fixpoint max_order_loop (fuel : nat) (max_order : nat) (aligned_len : Z) : option nat :=
  match fuel with
  | O => None
  | S fuel =>
    if block_size (S max_order) <=? aligned_len
    then max_order_loop fuel (S max_order) aligned_len
    else Some max_order
  end.

(** Result: the new memory and state, and the C return value. *)
Definition add_buddy_arena (arena_idx : nat) (bs len : Z) (m : mem) (st : buddy_state)
    : option (mem * buddy_state * Z) :=
  if (MAX_BUDDY_ARENAS <=? arena_idx)%nat then Some (m, st, -1) else
  if (arena_idx =? 0)%nat then
    Some (m, mk_buddy (buddy_arenas st) (w8 (buddy_arena_counter st + 1)), 0)
  else
  let aligned_base := page_round_up bs in
  let end_ := w64 (bs + len) in
  if end_ <=? aligned_base then Some (m, st, -1) else
  let aligned_len := end_ - aligned_base in
  if aligned_len <? PAGE_FRAME_SIZE then Some (m, st, -1) else
  max_order ← max_order_loop 64 0 aligned_len;
  let max_order := if (MAX_SUPPORTED_ORDER <? max_order)%nat then MAX_SUPPORTED_ORDER else max_order in
  let ar := mk_arena aligned_base aligned_len max_order
              (replicate (S MAX_SUPPORTED_ORDER) 0) in
  '(m, ar) ← populate_buddy_blocks m ar;
  Some (m, set_arena st arena_idx ar, 0).

(** ** buddy_allocator_init

    A memory-map entry of the bootloader: (base, length, type). *)
Record memmap_entry := mk_entry { e_base : Z; e_length : Z; e_type : Z }.

Fixpoint buddy_allocator_init (entries : list memmap_entry) (m : mem) (st : buddy_state)
    : option (mem * buddy_state) :=
  match entries with
  | [] => Some (m, st)
  | e :: rest =>
    if negb (e_type e =? 0) then buddy_allocator_init rest m st else
    if Z.of_nat MAX_BUDDY_ARENAS <=? buddy_arena_counter st then Some (m, st) else
    let b := if e_base e =? 0 then PAGE_FRAME_SIZE else e_base e in
    '(m, st, ret) ← add_buddy_arena (Z.to_nat (buddy_arena_counter st)) b (e_length e) m st;
    let st := if ret =? 0
              then mk_buddy (buddy_arenas st) (w8 (buddy_arena_counter st + 1)) else st in
    buddy_allocator_init rest m st
  end.

(** ** buddy_alloc_pages *)

(** The loop [for (k = j - 1; k >= order; --k)] that puts the right halves of
    the block at [addr] back and keeps the left one; [n] is [j - order]. *)
Fixpoint split_loop (n order : nat) (m : mem) (ar : buddy_arena) (addr : Z) : mem * buddy_arena :=
  match n with
  | O => (m, ar)
  | S n =>
    let k := (order + n)%nat in
    let buddy_addr := w64 (addr + block_size k) in
    let '(m, ar) := link_block m ar k buddy_addr in
    split_loop n order m ar addr
  end.

(** The loop [for (j = order + 1; j <= max_arena_order; j++)]; [n] counts the
    orders left to try.  [None]: no block of this arena is large enough. *)
Fixpoint split_search (n j order : nat) (m : mem) (ar : buddy_arena)
    : option (mem * buddy_arena * Z) :=
  match n with
  | O => None
  | S n =>
    let block := head ar j in
    if block =? 0 then split_search n (S j) order m ar else
    let ar := set_head ar j (fb_next m block) in
    let addr := fb_phys_addr m block in
    let '(m, ar) := split_loop (j - order) order m ar addr in
    Some (m, ar, addr)
  end.

(** One iteration of the arena loop; [None] continues with the next arena. *)
Definition arena_alloc (order : nat) (m : mem) (ar : buddy_arena)
    : option (mem * buddy_arena * Z) :=
  let block := head ar order in
  if negb (block =? 0) then
    Some (m, set_head ar order (fb_next m block), fb_phys_addr m block)
  else split_search (max_arena_order ar - order) (S order) order m ar.

Fixpoint alloc_loop (n i order : nat) (m : mem) (st : buddy_state) : mem * buddy_state * Z :=
  match n with
  | O => (m, st, 0)
  | S n =>
    match arena_alloc order m (get_arena st i) with
    | Some (m, ar, addr) => (m, set_arena st i ar, addr)
    | None => alloc_loop n (S i) order m st
    end
  end.

Definition buddy_alloc_pages (order : nat) (m : mem) (st : buddy_state) : mem * buddy_state * Z :=
  if (MAX_SUPPORTED_ORDER <? order)%nat then (m, st, 0)
  else alloc_loop (Z.to_nat (buddy_arena_counter st)) 0 order m st.

Definition buddy_alloc_page := buddy_alloc_pages 0.

(** ** buddy_free_pages *)

(** [for (i = 0; i < buddy_arena_counter; i++)] looking for the arena that
    holds the address. *)
Fixpoint find_arena (n i : nat) (st : buddy_state) (phys_addr : Z) : option nat :=
  match n with
  | O => None
  | S n =>
    let ar := get_arena st i in
    if (base ar <=? phys_addr) && (phys_addr <? w64 (base ar + arena_length ar)) then Some i
    else find_arena n (S i) st phys_addr
  end.

(** [struct free_block **current]: the list head of the arena, or the [next]
    field of a block. *)
Inductive cell := Head | Next (b : Z).

Definition read_cell (m : mem) (ar : buddy_arena) (o : nat) (c : cell) : Z :=
  match c with Head => head ar o | Next b => fb_next m b end.

Definition write_cell (m : mem) (ar : buddy_arena) (o : nat) (c : cell) (v : Z)
    : mem * buddy_arena :=
  match c with Head => (m, set_head ar o v) | Next b => (set_fb_next m b v, ar) end.

(** The walk along [current]: unlinks the block at [buddy_addr] when the list has it. *)
Fixpoint unlink_buddy (fuel : nat) (m : mem) (ar : buddy_arena) (o : nat) (c : cell)
    (buddy_addr : Z) : option (mem * buddy_arena * bool) :=
  match fuel with
  | O => None
  | S fuel =>
    let b := read_cell m ar o c in
    if b =? 0 then Some (m, ar, false)
    else if fb_phys_addr m b =? buddy_addr then
      let '(m, ar) := write_cell m ar o c (fb_next m b) in Some (m, ar, true)
    else unlink_buddy fuel m ar o (Next b) buddy_addr
  end.

Definition walk_fuel (ar : buddy_arena) : nat :=
  S (Z.to_nat (arena_length ar / PAGE_FRAME_SIZE)).

(** [while (order < arena->max_arena_order)]; [n] is
    [max_arena_order - order].  Returns the merged block. *)
Fixpoint coalesce (n : nat) (m : mem) (ar : buddy_arena) (phys_addr : Z) (order : nat)
    : option (mem * buddy_arena * Z * nat) :=
  match n with
  | O => Some (m, ar, phys_addr, order)
  | S n =>
    let buddy_addr := Z.lxor phys_addr (block_size order) in
    '(m, ar, found_buddy) ← unlink_buddy (walk_fuel ar) m ar order Head buddy_addr;
    if negb found_buddy then Some (m, ar, phys_addr, order)
    else
      let phys_addr := if buddy_addr <? phys_addr then buddy_addr else phys_addr in
      coalesce n m ar phys_addr (S order)
  end.

Definition arena_free (phys_addr : Z) (order : nat) (m : mem) (ar : buddy_arena)
    : option (mem * buddy_arena) :=
  '(m, ar, phys_addr, order) ← coalesce (max_arena_order ar - order) m ar phys_addr order;
  Some (link_block m ar order phys_addr).

Definition buddy_free_pages (phys_addr : Z) (order : nat) (m : mem) (st : buddy_state)
    : option (mem * buddy_state) :=
  if (MAX_SUPPORTED_ORDER <? order)%nat then Some (m, st) else
  match find_arena (Z.to_nat (buddy_arena_counter st)) 0 st phys_addr with
  | None => Some (m, st)
  | Some i =>
    '(m, ar) ← arena_free phys_addr order m (get_arena st i);
    Some (m, set_arena st i ar)
  end.

Definition buddy_free_page (phys_addr : Z) := buddy_free_pages phys_addr 0.

End Ops.

End Buddy.
