(* ===== verification/BuddyProofs.v ===== *)
(** * The buddy allocator: invariant and correctness

    The invariant relates the heads and the headers stored in memory to ghost
    lists of blocks: every free list is a well-linked chain of blocks of its
    order, the blocks are aligned to their size, lie in their arena and are
    pairwise disjoint.  Everything is proved for one arena first ([arena_ok])
    and lifted to the arena table ([buddy_ok]). *)
From S2P Require Import Prelude Memory Buddy PageAlloc.
Import Buddy.

(** ** Block sizes *)

Lemma block_size_pow o : (o <= 51)%nat -> block_size o = 2 ^ (12 + Z.of_nat o).
Proof.
  intros Ho. unfold block_size, PAGE_FRAME_SIZE. rewrite Z.shiftl_1_l.
  change 4096 with (2 ^ 12). rewrite <- Z.pow_add_r by lia.
  rewrite Z.add_comm. apply wrap_small. split; [apply Z.pow_nonneg; lia|].
  apply Z.pow_lt_mono_r; lia.
Qed.

Lemma block_size_S o : (o <= 50)%nat -> block_size (S o) = 2 * block_size o.
Proof.
  intros. rewrite !block_size_pow by lia. rewrite <- Z.pow_succ_r by lia. f_equal. lia.
Qed.

Lemma block_size_ge o : (o <= 51)%nat -> 4096 <= block_size o.
Proof.
  intros. rewrite block_size_pow by lia. change 4096 with (2 ^ 12).
  apply Z.pow_le_mono_r; lia.
Qed.

Lemma block_size_0 : block_size 0 = 4096.
Proof. done. Qed.

Lemma aligned_S p o : (o <= 50)%nat -> p mod block_size (S o) = 0 -> p mod block_size o = 0.
Proof.
  intros Ho Hp. rewrite block_size_S in Hp by done.
  pose proof (block_size_ge o). rewrite Z.mul_comm in Hp.
  rewrite Z.rem_mul_r in Hp by lia.
  pose proof (Z.mod_pos_bound p (block_size o)).
  pose proof (Z.mod_pos_bound (p / block_size o) 2). nia.
Qed.

Lemma aligned_page p o : (o <= 51)%nat -> p mod block_size o = 0 -> p mod 4096 = 0.
Proof.
  intros Ho. induction o as [|o IH]; [done|]. intros Hp.
  apply IH; [lia|]. apply aligned_S; [lia|done].
Qed.

Opaque block_size.
#[local] Arguments link_block : simpl never.
#[local] Arguments walk_fuel : simpl never.

(** ** Heads *)

Lemma head_set_head ar o b o' :
  (o < length (free_list ar))%nat ->
  head (set_head ar o b) o' = if decide (o = o') then b else head ar o'.
Proof.
  intros Ho. unfold head, set_head; simpl. rewrite !nth_lookup.
  case_decide; subst.
  - by rewrite list_lookup_insert_eq.
  - by rewrite list_lookup_insert_ne.
Qed.

Section Arena.
Context `{Hhdm}.

(** ** Chains of free blocks *)

(** [chain m o h l]: following [next] from [h] visits the blocks [l] of order
    [o], and every header records its own order and physical address. *)
Fixpoint chain (m : mem) (o : nat) (h : Z) (l : list Z) : Prop :=
  match l with
  | [] => h = 0
  | p :: l =>
    h = phys_to_virt p /\ fb_current_order m h = Z.of_nat o /\ fb_phys_addr m h = p /\
    chain m o (fb_next m h) l
  end.

Definition in_map (p : Z) : Prop := 0 <= p /\ p + 24 <= hhdm_phys_limit.

(** The 24 header bytes of a block. *)
Definition header (p : Z) : Z -> Prop := in_range (p + hhdm_offset) 24.

Lemma in_map_virt p : in_map p -> phys_to_virt p = p + hhdm_offset.
Proof. intros []. apply phys_to_virt_in. lia. Qed.

Lemma header_agree m m' p :
  in_map p -> agree (header p) m m' ->
  fb_current_order m (phys_to_virt p) = fb_current_order m' (phys_to_virt p) /\
  fb_phys_addr m (phys_to_virt p) = fb_phys_addr m' (phys_to_virt p) /\
  fb_next m (phys_to_virt p) = fb_next m' (phys_to_virt p).
Proof.
  intros Hp Ha. rewrite (in_map_virt p) by done.
  split_and!; apply load_agree; eapply agree_sub; eauto;
    unfold header, in_range; intros; lia.
Qed.

Lemma chain_agree m m' o h l :
  (forall p, p ∈ l -> in_map p /\ agree (header p) m m') ->
  chain m o h l -> chain m' o h l.
Proof.
  revert h. induction l as [|p l IH]; intros h Hl Hc; [done|].
  destruct Hc as (-> & Ho & Hp & Hc). destruct (Hl p) as [Him Ha]; [by left|].
  destruct (header_agree m m' p Him Ha) as (E1 & E2 & E3).
  simpl. rewrite <- E1, <- E2, <- E3. split_and!; try done.
  apply IH; [|done]. intros q Hq. apply Hl. by right.
Qed.

(** The [struct free_block **] that the walk holds after passing [l]. *)
Definition cell_after (l : list Z) : cell :=
  match last l with None => Head | Some p => Next (phys_to_virt p) end.

Lemma chain_app m ar o l1 l2 :
  chain m o (head ar o) (l1 ++ l2) ->
  chain m o (read_cell m ar o (cell_after l1)) l2.
Proof.
  assert (read_cell m ar o (cell_after l1) =
    match last l1 with None => head ar o | Some p => fb_next m (phys_to_virt p) end) as ->
    by (unfold cell_after; by destruct (last l1)).
  generalize (head ar o) as h. induction l1 as [|p l1 IH]; intros h Hc; [done|].
  destruct Hc as (-> & _ & _ & Hc). specialize (IH _ Hc).
  rewrite last_cons. by destruct (last l1).
Qed.

(** Redirecting the [next] field of [q] past its successor [b]. *)
Lemma chain_skip m o h l1 q b l2 :
  in_map q ->
  (forall p, p ∈ l1 ++ l2 -> in_map p /\ (p + 24 <= q \/ q + 24 <= p)) ->
  chain m o h (l1 ++ q :: b :: l2) ->
  chain (set_fb_next m (phys_to_virt q) (fb_next m (phys_to_virt b))) o h (l1 ++ q :: l2).
Proof.
  intros Hq. revert h. induction l1 as [|p l1 IH]; intros h Hd Hc.
  - destruct Hc as (-> & Eo & Ep & Hb & _ & _ & Hc). simpl.
    unfold set_fb_next, fb_current_order, fb_phys_addr, fb_next in *.
    rewrite !load_store_ne by lia. split_and!; try done.
    rewrite load8_store8 by apply load8_range. rewrite Hb in Hc.
    eapply chain_agree; [|exact Hc]. intros p Hp. destruct (Hd p Hp) as [Hm Hdis].
    split; [done|]. apply agree_store. unfold header, in_range.
    rewrite (in_map_virt q) by done. intros; lia.
  - destruct Hc as (-> & Eo & Ep & Hc). destruct (Hd p) as [Hm Hdis]; [by left|].
    simpl. destruct (header_agree m
      (set_fb_next m (phys_to_virt q) (fb_next m (phys_to_virt b))) p Hm) as (E1 & E2 & E3).
    { apply agree_store. unfold header, in_range. rewrite (in_map_virt q) by done. intros; lia. }
    rewrite <- E1, <- E2, <- E3. split_and!; try done.
    apply IH; [|done]. intros x Hx. apply Hd. by right.
Qed.

(** ** The arena invariant *)

(** A block that the arena may hold. *)
Definition arena_block (ar : buddy_arena) (p : Z) (o : nat) : Prop :=
  (o <= max_arena_order ar)%nat /\ p mod block_size o = 0 /\
  base ar <= p /\ p + block_size o <= base ar + arena_length ar.

(** The free bytes of the blocks in the lists [L]. *)
Definition free_bytes (L : nat -> list Z) (x : Z) : Prop :=
  exists o p, p ∈ L o /\ in_range p (block_size o) x.

(** Knuth's buddy address. *)
Definition buddy_of (p : Z) (o : nat) : Z := Z.lxor p (block_size o).

(** The last clause says that the lists are fully coalesced: no two free
    buddies below the arena's maximal order are left unmerged. *)
Record arena_ok (m : mem) (ar : buddy_arena) (L : nat -> list Z) : Prop := {
  ok_heads : length (free_list ar) = S MAX_SUPPORTED_ORDER;
  ok_max : (max_arena_order ar <= MAX_SUPPORTED_ORDER)%nat;
  ok_base : 0 <= base ar /\ base ar mod PAGE_FRAME_SIZE = 0;
  ok_base_pos : 0 < arena_length ar -> 0 < base ar;
  ok_length : 0 <= arena_length ar /\ base ar + arena_length ar <= hhdm_phys_limit;
  ok_chain o : (o <= MAX_SUPPORTED_ORDER)%nat -> chain m o (head ar o) (L o);
  ok_block o p : p ∈ L o -> arena_block ar p o;
  ok_nodup o : NoDup (L o);
  ok_disj o1 p1 o2 p2 : p1 ∈ L o1 -> p2 ∈ L o2 ->
    (o1 = o2 /\ p1 = p2) \/ p1 + block_size o1 <= p2 \/ p2 + block_size o2 <= p1;
  ok_merged o p : (o < max_arena_order ar)%nat -> p ∈ L o -> buddy_of p o ∉ L o;
}.

(** Operations change the lists, not the extent of the arena. *)
Definition same_extent (ar ar' : buddy_arena) : Prop :=
  base ar' = base ar /\ arena_length ar' = arena_length ar /\
  max_arena_order ar' = max_arena_order ar.

Lemma same_extent_refl ar : same_extent ar ar.
Proof. done. Qed.

Lemma same_extent_trans a b c : same_extent a b -> same_extent b c -> same_extent a c.
Proof. unfold same_extent. intuition congruence. Qed.

Lemma same_extent_sym a b : same_extent a b -> same_extent b a.
Proof. unfold same_extent. intuition congruence. Qed.

Lemma same_extent_set_head ar o b : same_extent ar (set_head ar o b).
Proof. done. Qed.

Lemma arena_block_extent ar ar' p o :
  same_extent ar ar' -> arena_block ar p o -> arena_block ar' p o.
Proof. unfold arena_block. intros (-> & -> & ->). done. Qed.

Lemma arena_block_facts m ar L p o :
  arena_ok m ar L -> arena_block ar p o ->
  (o <= 20)%nat /\ 4096 <= block_size o /\ 0 < p /\ in_map p /\
  p + block_size o <= hhdm_phys_limit /\ p mod 4096 = 0.
Proof.
  intros Hok (Ho & Hal & Hlo & Hhi). pose proof (ok_max _ _ _ Hok) as Hmax.
  unfold MAX_SUPPORTED_ORDER in Hmax. pose proof (block_size_ge o).
  pose proof (ok_length _ _ _ Hok) as []. pose proof (ok_base _ _ _ Hok) as [].
  pose proof (ok_base_pos _ _ _ Hok). unfold in_map.
  split_and!; try lia. apply (aligned_page p o); [lia|done].
Qed.

Lemma free_bytes_insert L o p :
  free_bytes (<[o := p :: L o]> L) ≡ fplus (free_bytes L) (in_range p (block_size o)).
Proof.
  intros x. unfold free_bytes, fplus. split.
  - intros (k & q & Hq & Hx). destruct (decide (o = k)) as [<-|Hne].
    + rewrite fn_lookup_insert in Hq. apply elem_of_cons in Hq as [->|Hq]; eauto 6.
    + rewrite fn_lookup_insert_ne in Hq by done. eauto 6.
  - intros [(k & q & Hq & Hx)|Hx].
    + exists k, q. split; [|done]. destruct (decide (o = k)) as [<-|Hne].
      * rewrite fn_lookup_insert. by right.
      * by rewrite fn_lookup_insert_ne.
    + exists o, p. rewrite fn_lookup_insert. split; [by left|done].
Qed.

(** Taking the block [p] out of its list takes exactly its bytes out. *)
Lemma free_bytes_remove m ar L o p l1 l2 :
  arena_ok m ar L -> L o = l1 ++ p :: l2 ->
  free_bytes (<[o := l1 ++ l2]> L) ≡ fminus (free_bytes L) (in_range p (block_size o)).
Proof.
  intros Hok E x. unfold free_bytes, fminus. split.
  - intros (k & q & Hq & Hx).
    assert (q ∈ L k /\ (k = o -> q <> p)) as [Hk Hne].
    { destruct (decide (o = k)) as [<-|Hne].
      - rewrite fn_lookup_insert in Hq. pose proof (ok_nodup _ _ _ Hok o) as Hnd.
        rewrite E in Hnd |- *. apply NoDup_app in Hnd as (_ & H1 & Hnd).
        apply NoDup_cons in Hnd as [H2 _].
        apply elem_of_app in Hq as [Hq|Hq].
        + split; [set_solver|]. intros _ ->. apply (H1 p Hq). by left.
        + split; [set_solver|]. by intros _ ->.
      - rewrite fn_lookup_insert_ne in Hq by done. done. }
    split; [by exists k, q|].
    destruct (ok_disj _ _ _ Hok k q o p) as [[-> ->]|Hd]; [done|rewrite E; set_solver|by destruct Hne|].
    unfold in_range in *. lia.
  - intros [(k & q & Hq & Hx) Hn]. exists k, q. split; [|done].
    destruct (decide (o = k)) as [<-|Hne].
    + rewrite fn_lookup_insert. rewrite E in Hq.
      apply elem_of_app in Hq as [Hq|[->|Hq]%elem_of_cons]; [set_solver|done|set_solver].
    + by rewrite fn_lookup_insert_ne.
Qed.

(** ** Linking, popping and unlinking a block *)

Lemma link_block_mem m ar o p :
  in_map p -> (o <= 20)%nat -> 0 <= head ar o < 2 ^ 64 ->
  let m' := (link_block m ar o p).1 in
  agree (fun v => ~ header p v) m m' /\
  fb_current_order m' (phys_to_virt p) = Z.of_nat o /\
  fb_phys_addr m' (phys_to_virt p) = p /\
  fb_next m' (phys_to_virt p) = head ar o.
Proof.
  intros Hp Ho Hh. pose proof (in_map_virt p Hp) as Ev. destruct Hp.
  pose proof hhdm_positive. pose proof hhdm_no_wrap.
  unfold link_block, set_fb_current_order, set_fb_phys_addr, set_fb_next,
    fb_current_order, fb_phys_addr, fb_next, header; simpl. rewrite Ev.
  split_and!.
  - intros x Hx. unfold in_range in Hx.
    rewrite !store_read8_out by (unfold in_range; lia). done.
  - rewrite !load_store_ne by lia. rewrite (load_store_same 1) by lia. done.
  - rewrite load_store_ne by lia. apply load8_store8. lia.
  - by apply load8_store8.
Qed.

Lemma head_range m ar L o :
  arena_ok m ar L -> (o <= 20)%nat -> 0 <= head ar o < 2 ^ 64.
Proof.
  intros Hok Ho. pose proof (ok_chain _ _ _ Hok o Ho) as Hc.
  destruct (L o); simpl in Hc; [by rewrite Hc|]. destruct Hc as [-> _].
  apply phys_to_virt_word.
Qed.

Lemma buddy_of_invol p o : buddy_of (buddy_of p o) o = p.
Proof. unfold buddy_of. by rewrite Z.lxor_assoc, Z.lxor_nilpotent, Z.lxor_0_r. Qed.

Lemma buddy_of_ne p o : (o <= 20)%nat -> buddy_of p o <> p.
Proof.
  intros Ho E. unfold buddy_of in E.
  assert (Z.lxor p (Z.lxor p (block_size o)) = Z.lxor p p) as E' by congruence.
  rewrite <- Z.lxor_assoc, Z.lxor_nilpotent, Z.lxor_0_l in E'.
  pose proof (block_size_ge o). lia.
Qed.

Lemma elem_fn_cons (L : nat -> list Z) o p k q :
  q ∈ (<[o := p :: L o]> L) k <-> (k = o /\ q = p) \/ q ∈ L k.
Proof.
  destruct (decide (o = k)) as [<-|Hne].
  - rewrite fn_lookup_insert, elem_of_cons. intuition.
  - rewrite fn_lookup_insert_ne by done. intuition congruence.
Qed.

(** A block that meets no free byte lies beside every free block. *)
Lemma fresh_sep m ar L o p k q :
  arena_ok m ar L -> (o <= 20)%nat ->
  (forall x, in_range p (block_size o) x -> ~ free_bytes L x) ->
  q ∈ L k -> q + block_size k <= p \/ p + block_size o <= q.
Proof.
  intros Hok Ho Hfresh Hq. pose proof (block_size_ge o).
  destruct (arena_block_facts _ _ _ _ _ Hok (ok_block _ _ _ Hok k q Hq)) as (? & ? & _).
  destruct (decide (q + block_size k <= p)); [by left|].
  destruct (decide (p + block_size o <= q)); [by right|]. exfalso.
  apply (Hfresh (Z.max p q)); [unfold in_range; lia|].
  exists k, q. split; [done|]. unfold in_range. lia.
Qed.

(** A fresh block, disjoint from the free memory, can be linked. *)
Lemma arena_ok_link m ar L o p :
  arena_ok m ar L -> arena_block ar p o ->
  (forall x, in_range p (block_size o) x -> ~ free_bytes L x) ->
  ((o < max_arena_order ar)%nat -> buddy_of p o ∉ L o) ->
  let '(m', ar') := link_block m ar o p in
  arena_ok m' ar' (<[o := p :: L o]> L) /\ same_extent ar ar' /\
  agree (fun v => ~ image (in_range p (block_size o)) v) m m'.
Proof.
  intros Hok Hb Hfresh Hbud.
  destruct (arena_block_facts _ _ _ _ _ Hok Hb) as (Ho & Hsz & Hpos & Him & Hlim & _).
  destruct (link_block_mem m ar o p Him Ho (head_range _ _ _ _ Hok Ho)) as (Ha & E1 & E2 & E3).
  destruct (link_block m ar o p) as [m' ar'] eqn:El.
  assert (ar' = set_head ar o (phys_to_virt p)) as -> by (by inversion El). clear El.
  simpl in *. pose proof (fun k q => fresh_sep _ _ _ o p k q Hok Ho Hfresh) as Hsep.
  split_and!; [|done|].
  2:{ eapply agree_sub; [exact Ha|]. unfold image, header, in_range. intros v Hv Hh. apply Hv. lia. }
  assert (forall k, (k <= 20)%nat -> chain m' k (head ar k) (L k)) as Hch.
  { intros k Hk. eapply chain_agree; [|by apply (ok_chain _ _ _ Hok)]. intros q Hq.
    destruct (arena_block_facts _ _ _ _ _ Hok (ok_block _ _ _ Hok k q Hq)) as (? & ? & ? & ? & _).
    split; [done|]. eapply agree_sub; [exact Ha|]. intros v.
    pose proof (Hsep k q Hq). unfold header, in_range. lia. }
  pose proof (ok_heads _ _ _ Hok) as Hlen.
  split; simpl; try apply Hok.
  - by rewrite length_insert, Hlen.
  - intros k Hk. rewrite head_set_head by (rewrite Hlen; unfold MAX_SUPPORTED_ORDER; lia).
    case_decide as Ek; [subst k; rewrite fn_lookup_insert|rewrite fn_lookup_insert_ne by done; by apply Hch].
    simpl. rewrite E3. auto.
  - intros k q [[-> ->]|Hq]%elem_fn_cons; [done|by apply (ok_block _ _ _ Hok)].
  - intros k. destruct (decide (o = k)) as [<-|Hne]; [|rewrite fn_lookup_insert_ne by done; apply Hok].
    rewrite fn_lookup_insert. apply NoDup_cons. split; [|by apply Hok].
    intros Hin. pose proof (Hsep o p Hin). lia.
  - intros o1 p1 o2 p2 [[-> ->]|H1]%elem_fn_cons [[-> ->]|H2]%elem_fn_cons.
    + by left.
    + pose proof (Hsep _ _ H2). lia.
    + pose proof (Hsep _ _ H1). lia.
    + by apply (ok_disj _ _ _ Hok).
  - intros k q Hk [[-> ->]|Hq]%elem_fn_cons [[Ek E]|Hin]%elem_fn_cons.
    + pose proof (buddy_of_ne p o Ho). lia.
    + by apply Hbud.
    + subst k. apply Hbud; [done|]. by rewrite <- E, buddy_of_invol.
    + by apply (ok_merged _ _ _ Hok k q).
Qed.

(** Removing a block from the ghost lists keeps every clause but the chain. *)
Lemma arena_ok_remove m ar L o p l1 l2 m' ar' :
  arena_ok m ar L -> L o = l1 ++ p :: l2 -> same_extent ar ar' ->
  length (free_list ar') = S MAX_SUPPORTED_ORDER ->
  (forall k, (k <= 20)%nat -> chain m' k (head ar' k) ((<[o := l1 ++ l2]> L) k)) ->
  arena_ok m' ar' (<[o := l1 ++ l2]> L).
Proof.
  intros Hok E (Eb & El & Em) Hlen Hch.
  assert (forall k q, q ∈ (<[o := l1 ++ l2]> L) k -> q ∈ L k) as Hsub.
  { intros k q. destruct (decide (o = k)) as [<-|Hne].
    - rewrite fn_lookup_insert, E. set_solver.
    - by rewrite fn_lookup_insert_ne. }
  split; rewrite ?Eb, ?El, ?Em; try apply Hok; try done.
  - intros k q Hq. unfold arena_block. rewrite Eb, El, Em. apply (ok_block _ _ _ Hok). auto.
  - intros k. destruct (decide (o = k)) as [<-|Hne].
    + rewrite fn_lookup_insert. pose proof (ok_nodup _ _ _ Hok o) as Hnd. rewrite E in Hnd.
      apply NoDup_app in Hnd as (? & Hx & [? ?]%NoDup_cons). apply NoDup_app. set_solver.
    + rewrite fn_lookup_insert_ne by done. apply Hok.
  - intros o1 p1 o2 p2 H1 H2. apply (ok_disj _ _ _ Hok); auto.
  - intros k q Hk Hq Hin. apply (ok_merged _ _ _ Hok k q); auto.
Qed.

(** Popping the head of a list. *)
Lemma arena_ok_pop m ar L o p l :
  arena_ok m ar L -> (o <= 20)%nat -> L o = p :: l ->
  head ar o = phys_to_virt p /\ fb_phys_addr m (head ar o) = p /\
  arena_ok m (set_head ar o (fb_next m (head ar o))) (<[o := l]> L).
Proof.
  intros Hok Ho E. pose proof (ok_chain _ _ _ Hok o Ho) as Hc. rewrite E in Hc.
  destruct Hc as (Eh & _ & Ep & Hc). split_and!; try done.
  apply (arena_ok_remove m ar L o p [] l); [done|done|done|..].
  - simpl. rewrite length_insert. apply Hok.
  - intros k Hk. rewrite head_set_head.
    2:{ rewrite (ok_heads _ _ _ Hok). unfold MAX_SUPPORTED_ORDER. lia. }
    case_decide; [subst; by rewrite fn_lookup_insert|].
    rewrite fn_lookup_insert_ne by done. by apply Hok.
Qed.

(** Unlinking a block from the middle of a list rewrites one [next] field or
    the list head. *)
Lemma arena_ok_unlink m ar L o p l1 l2 :
  arena_ok m ar L -> (o <= 20)%nat -> L o = l1 ++ p :: l2 ->
  let '(m', ar') := write_cell m ar o (cell_after l1) (fb_next m (phys_to_virt p)) in
  arena_ok m' ar' (<[o := l1 ++ l2]> L) /\ same_extent ar ar' /\
  agree (fun v => ~ image (free_bytes (<[o := l1 ++ l2]> L)) v) m m'.
Proof.
  intros Hok Ho E. destruct l1 as [|q l1 _] using rev_ind.
  { simpl. destruct (arena_ok_pop m ar L o p l2 Hok Ho E) as (Eh & _ & Hok').
    rewrite Eh in Hok'. by split_and!. }
  unfold cell_after. rewrite last_snoc. simpl. rewrite <- app_assoc in E; simpl in E.
  pose proof (ok_nodup _ _ _ Hok o) as Hnd. rewrite E in Hnd.
  assert (forall k x, x ∈ (<[o := (l1 ++ [q]) ++ l2]> L) k -> (k, x) <> (o, q) ->
    in_map x /\ (x + 24 <= q \/ q + 24 <= x)) as Hsep.
  { intros k x Hx Hne. assert (x ∈ L k) as Hx'.
    { destruct (decide (o = k)) as [<-|?]; [rewrite fn_lookup_insert in Hx; rewrite E|
        rewrite fn_lookup_insert_ne in Hx by done]; set_solver. }
    assert (q ∈ L o) as Hq by (rewrite E; set_solver).
    destruct (arena_block_facts _ _ _ _ _ Hok (ok_block _ _ _ Hok k x Hx')) as (? & ? & ? & ? & _).
    destruct (arena_block_facts _ _ _ _ _ Hok (ok_block _ _ _ Hok o q Hq)) as (? & ? & ? & ? & _).
    split; [done|]. destruct (ok_disj _ _ _ Hok k x o q Hx' Hq) as [[-> ->]|?]; [done|lia]. }
  assert (in_map q) as Hq.
  { apply (arena_block_facts _ _ _ _ _ Hok (ok_block _ _ _ Hok o q ltac:(rewrite E; set_solver))). }
  split_and!; [|done|].
  - apply (arena_ok_remove m ar L o p (l1 ++ [q]) l2); [done|by rewrite <- app_assoc|done|apply Hok|].
    intros k Hk. destruct (decide (o = k)) as [<-|Hne].
    + rewrite fn_lookup_insert, <- app_assoc. simpl.
      apply (chain_skip _ _ _ l1 q p l2 Hq); [|rewrite <- E; by apply Hok].
      intros x Hx. apply (Hsep o x); [rewrite fn_lookup_insert, <- app_assoc; set_solver|].
      intros [= ->]. apply NoDup_app in Hnd as (_ & H1 & [H2 _]%NoDup_cons). set_solver.
    + rewrite fn_lookup_insert_ne by done. eapply chain_agree; [|by apply Hok].
      intros x Hx. destruct (Hsep k x) as [Hm Hd]; [by rewrite fn_lookup_insert_ne|congruence|].
      split; [done|]. apply agree_store. unfold header, in_range. rewrite (in_map_virt q) by done. lia.
  - apply agree_store. intros v Hv Hr. apply Hv. exists o, q.
    rewrite fn_lookup_insert. split; [set_solver|]. rewrite in_map_virt in Hr by done.
    pose proof (block_size_ge o). unfold in_range in *. lia.
Qed.

(** ** The walk of [buddy_free_pages] *)

Lemma length_walk_fuel m ar L o :
  arena_ok m ar L -> (o <= 20)%nat -> (length (L o) < walk_fuel ar)%nat.
Proof.
  intros Hok Ho. unfold walk_fuel. apply Nat.lt_succ_r.
  pose proof (ok_length _ _ _ Hok) as []. pose proof (ok_base _ _ _ Hok) as [].
  apply (aligned_count (L o) PAGE_FRAME_SIZE (base ar)); unfold PAGE_FRAME_SIZE in *;
    [lia|apply Z.div_pos; lia|done|apply Hok|].
  intros p Hp. pose proof (ok_block _ _ _ Hok o p Hp) as Hb.
  destruct (arena_block_facts _ _ _ _ _ Hok Hb) as (? & ? & ? & ? & ? & ?).
  destruct Hb as (? & ? & ? & ?). split; [done|].
  pose proof (Z.div_mod (arena_length ar) 4096).
  pose proof (Z.mod_pos_bound (arena_length ar) 4096).
  pose proof (Z.div_mod p 4096). pose proof (Z.div_mod (base ar) 4096). lia.
Qed.

Lemma unlink_walk m ar L o b fuel l1 l2 :
  arena_ok m ar L -> (o <= 20)%nat -> L o = l1 ++ l2 -> (length l2 < fuel)%nat ->
  (b ∉ l2 /\ unlink_buddy fuel m ar o (cell_after l1) b = Some (m, ar, false)) \/
  (exists l2a l2b, l2 = l2a ++ b :: l2b /\
    unlink_buddy fuel m ar o (cell_after l1) b =
      Some (write_cell m ar o (cell_after (l1 ++ l2a)) (fb_next m (phys_to_virt b)), true)).
Proof.
  intros Hok Ho. revert l1 fuel. induction l2 as [|x l2 IH]; intros l1 fuel E Hf;
    (destruct fuel as [|fuel]; [simpl in Hf; lia|]).
  all: pose proof (ok_chain _ _ _ Hok o Ho) as Hc; rewrite E in Hc;
    apply chain_app in Hc; simpl.
  - left. simpl in Hc. rewrite Hc. split; [set_solver|done].
  - destruct Hc as (-> & _ & -> & _).
    assert (x ∈ L o) as Hx by (rewrite E; set_solver).
    destruct (arena_block_facts _ _ _ _ _ Hok (ok_block _ _ _ Hok o x Hx)) as (_ & _ & _ & [] & _).
    rewrite (proj2 (Z.eqb_neq _ _)) by (apply phys_to_virt_nonzero; lia).
    destruct (Z.eqb_spec x b) as [->|Hne].
    + right. exists [], l2. split; [done|]. rewrite app_nil_r. by destruct (write_cell _ _ _ _ _).
    + replace (Next (phys_to_virt x)) with (cell_after (l1 ++ [x]))
        by (unfold cell_after; by rewrite last_snoc).
      destruct (IH (l1 ++ [x]) fuel) as [[Hn ->]|(l2a & l2b & -> & ->)];
        [by rewrite <- app_assoc|simpl in Hf; lia|left; split; [set_solver|done]|].
      right. exists (x :: l2a), l2b. split; [done|]. by rewrite <- app_assoc.
Qed.

(** The walk finds the buddy exactly when the list has it, and removes it. *)
Lemma unlink_buddy_spec m ar L o b :
  arena_ok m ar L -> (o <= 20)%nat ->
  (b ∉ L o /\ unlink_buddy (walk_fuel ar) m ar o Head b = Some (m, ar, false)) \/
  (exists m' ar' L', b ∈ L o /\
    unlink_buddy (walk_fuel ar) m ar o Head b = Some (m', ar', true) /\
    arena_ok m' ar' L' /\ same_extent ar ar' /\
    free_bytes L' ≡ fminus (free_bytes L) (in_range b (block_size o)) /\
    agree (fun v => ~ image (free_bytes L) v) m m').
Proof.
  intros Hok Ho.
  destruct (unlink_walk m ar L o b (walk_fuel ar) [] (L o) Hok Ho eq_refl
    (length_walk_fuel _ _ _ _ Hok Ho)) as [?|(l1 & l2 & E & Eu)]; [by left|right].
  pose proof (arena_ok_unlink m ar L o b l1 l2 Hok Ho E) as Hu.
  simpl in Eu. destruct (write_cell _ _ _ _ _) as [m' ar']. destruct Hu as (Hok' & Hext & Ha).
  pose proof (free_bytes_remove _ _ _ _ _ _ _ Hok E) as Ef.
  exists m', ar', (<[o := l1 ++ l2]> L). split_and!; try done.
  - rewrite E. set_solver.
  - eapply agree_sub; [exact Ha|]. intros v Hv Hi. apply Hv. by apply (Ef _) in Hi as [].
Qed.

(** ** Coalescing *)

(** The block and its buddy together are the aligned block of the next order. *)
Lemma buddy_merge p o :
  (o <= 20)%nat -> 0 <= p -> p mod block_size o = 0 ->
  let b := Z.lxor p (block_size o) in
  let q := if b <? p then b else p in
  q mod block_size (S o) = 0 /\ b mod block_size o = 0 /\
  in_range q (block_size (S o)) ≡ fplus (in_range p (block_size o)) (in_range b (block_size o)) /\
  (b = p + block_size o \/ b = p - block_size o).
Proof.
  intros Ho Hp Hal. pose proof (block_size_ge o). pose proof (block_size_S o).
  assert (Z.lxor p (block_size o) =
    if Z.even (p / block_size o) then p + block_size o else p - block_size o) as ->.
  { rewrite block_size_pow in * by lia. apply lxor_buddy; lia. }
  set (s := block_size o) in *. rewrite H1 by lia.
  pose proof (Z.div_mod p s ltac:(lia)) as Ep.
  destruct (Z.even (p / s)) eqn:Ev; cbv zeta; zbool; try lia.
  - apply Z.even_spec in Ev as [k Ek].
    split_and!; [| |unfold equiv, footprint_equiv, fplus, in_range; lia|lia].
    + replace p with (k * (2 * s)) by lia. apply Z.mod_mul. lia.
    + rewrite <- Z.add_mod_idemp_l, Hal by lia. rewrite Z.add_0_l. apply Z.mod_same. lia.
  - assert (Z.odd (p / s) = true) as Od by (by rewrite <- Z.negb_even, Ev).
    apply Z.odd_spec in Od as [k Ek].
    split_and!; [| |unfold equiv, footprint_equiv, fplus, in_range; lia|lia].
    + replace (p - s) with (k * (2 * s)) by lia. apply Z.mod_mul. lia.
    + replace (p - s) with ((p / s - 1) * s) by lia. apply Z.mod_mul. lia.
Qed.

(** The right half of a block is the buddy of its left half. *)
Lemma buddy_right_half p o :
  (o <= 20)%nat -> 0 <= p -> p mod block_size (S o) = 0 -> buddy_of p o = p + block_size o.
Proof.
  intros Ho Hp Hal. unfold buddy_of.
  pose proof (block_size_S o ltac:(lia)) as ES. pose proof (block_size_ge o ltac:(lia)).
  pose proof (aligned_S p o ltac:(lia) Hal) as Hal'.
  assert (Z.even (p / block_size o) = true) as Ev.
  { rewrite ES in Hal. pose proof (Z.div_mod p (2 * block_size o) ltac:(lia)) as D.
    rewrite Hal, Z.add_0_r in D.
    replace (p / block_size o) with (2 * (p / (2 * block_size o))); [by rewrite Z.even_mul|].
    apply Z.div_unique with 0; lia. }
  revert Ev Hal'. rewrite block_size_pow by lia. intros Ev Hal'.
  rewrite lxor_buddy by lia. by rewrite Ev.
Qed.

(** A block in hand: managed by the arena and sharing no byte with its lists. *)
Definition in_hand (ar : buddy_arena) (L : nat -> list Z) (p : Z) (o : nat) : Prop :=
  arena_block ar p o /\ forall x, in_range p (block_size o) x -> ~ free_bytes L x.

(** One successful step of the loop: the buddy leaves its list and joins the
    block in hand. *)
Lemma in_hand_merge m ar L p o m' ar' L' :
  arena_ok m ar L -> arena_ok m' ar' L' -> same_extent ar ar' ->
  (o < max_arena_order ar)%nat -> in_hand ar L p o ->
  let b := Z.lxor p (block_size o) in
  let q := if b <? p then b else p in
  b ∈ L o -> free_bytes L' ≡ fminus (free_bytes L) (in_range b (block_size o)) ->
  in_hand ar' L' q (S o) /\
  fplus (free_bytes L') (in_range q (block_size (S o))) ≡
  fplus (free_bytes L) (in_range p (block_size o)).
Proof.
  intros Hok Hok' Hext Hlt [Hb Hfr] b q Hin Ef.
  destruct (arena_block_facts _ _ _ _ _ Hok Hb) as (Ho & Hsz & Hpos & _).
  pose proof (ok_block _ _ _ Hok o b Hin) as Hbb.
  pose proof Hb as (_ & Hal & Hlo & Hhi). pose proof Hbb as (_ & _ & Hlo' & Hhi').
  destruct (buddy_merge p o Ho ltac:(lia) Hal) as (Eq & Eb & Er & Hadj). fold b q in Eq, Eb, Er, Hadj.
  pose proof (block_size_S o ltac:(lia)) as ES.
  split.
  - split.
    + apply (arena_block_extent ar); [done|]. split_and!; [lia|done| |]; unfold q; zbool; lia.
    + intros x Hx [Hf Hnb]%(Ef x). apply (Er x) in Hx as [Hx|Hx]; [by apply (Hfr x)|done].
  - intros x. unfold fplus. rewrite (Ef x), (Er x). unfold fminus, fplus.
    assert (in_range b (block_size o) x -> free_bytes L x) by (exists o, b; done).
    destruct (decide (b <= x < b + block_size o)); unfold in_range in *; tauto.
Qed.

Lemma coalesce_spec n m ar L p o :
  arena_ok m ar L -> in_hand ar L p o -> n = (max_arena_order ar - o)%nat ->
  exists m' ar' L' p' o',
    coalesce n m ar p o = Some (m', ar', p', o') /\
    arena_ok m' ar' L' /\ same_extent ar ar' /\ in_hand ar' L' p' o' /\
    ((o' < max_arena_order ar')%nat -> buddy_of p' o' ∉ L' o') /\
    fplus (free_bytes L') (in_range p' (block_size o')) ≡
      fplus (free_bytes L) (in_range p (block_size o)) /\
    agree (fun v => ~ image (fplus (free_bytes L) (in_range p (block_size o))) v) m m'.
Proof.
  revert m ar L p o. induction n as [|n IH]; intros m ar L p o Hok Hh En; cbn [coalesce].
  { exists m, ar, L, p, o. split_and!; auto using same_extent_refl; try reflexivity. lia. }
  destruct (arena_block_facts _ _ _ _ _ Hok (proj1 Hh)) as (Ho & _).
  destruct (unlink_buddy_spec m ar L o (Z.lxor p (block_size o)) Hok Ho)
    as [[Hn ->]|(m1 & ar1 & L1 & Hin & -> & Hok1 & Hext & Ef & Ha)]; cbn [mbind option_bind negb].
  { exists m, ar, L, p, o. split_and!; auto using same_extent_refl; reflexivity. }
  destruct (in_hand_merge m ar L p o m1 ar1 L1) as [Hh1 Ef1]; try done; [lia|].
  destruct (IH m1 ar1 L1 _ (S o) Hok1 Hh1) as
    (m' & ar' & L' & p' & o' & -> & Hok' & Hext' & Hh' & Hbud' & Ef' & Ha').
  { destruct Hext as (_ & _ & ->). lia. }
  exists m', ar', L', p', o'. split_and!; try done.
  - eauto using same_extent_trans.
  - by rewrite Ef', Ef1.
  - etransitivity; [eapply agree_sub; [exact Ha|]|eapply agree_sub; [exact Ha'|]];
      unfold image; intros v Hv Hc; apply Hv.
    + by left.
    + by apply (Ef1 _).
Qed.

Lemma arena_free_spec m ar L p o :
  arena_ok m ar L -> in_hand ar L p o ->
  exists m' ar' L', arena_free p o m ar = Some (m', ar') /\
    arena_ok m' ar' L' /\ same_extent ar ar' /\
    free_bytes L' ≡ fplus (free_bytes L) (in_range p (block_size o)) /\
    agree (fun v => ~ image (fplus (free_bytes L) (in_range p (block_size o))) v) m m'.
Proof.
  intros Hok Hh. unfold arena_free.
  destruct (coalesce_spec _ m ar L p o Hok Hh eq_refl) as
    (m1 & ar1 & L1 & q & k & -> & Hok1 & Hext1 & [Hb1 Hf1] & Hbud & Ef1 & Ha1). simpl.
  pose proof (arena_ok_link m1 ar1 L1 k q Hok1 Hb1 Hf1 Hbud) as Hl.
  destruct (link_block m1 ar1 k q) as [m' ar']. destruct Hl as (Hok' & Hext' & Ha').
  exists m', ar', (<[k := q :: L1 k]> L1). split_and!; try done.
  - eauto using same_extent_trans.
  - by rewrite free_bytes_insert.
  - etransitivity; [exact Ha1|]. eapply agree_sub; [exact Ha'|].
    unfold image. intros v Hv Hc. apply Hv. apply (Ef1 _). by right.
Qed.

(** ** Splitting and allocating *)

(** Putting the right half of the block in hand back. *)
Lemma split_loop_spec n m ar L p o :
  arena_ok m ar L -> in_hand ar L p (o + n) ->
  let '(m', ar') := split_loop n o m ar p in
  exists L', arena_ok m' ar' L' /\ same_extent ar ar' /\ in_hand ar' L' p o /\
    fplus (free_bytes L') (in_range p (block_size o)) ≡
      fplus (free_bytes L) (in_range p (block_size (o + n))) /\
    agree (fun v => ~ image (free_bytes L') v) m m'.
Proof.
  revert m ar L. induction n as [|n IH]; intros m ar L Hok Hh.
  { exists L. rewrite Nat.add_0_r in *. split_and!; auto using same_extent_refl; reflexivity. }
  cbn [split_loop]. destruct (arena_block_facts _ _ _ _ _ Hok (proj1 Hh)) as (Ho & Hsz & Hpos & _ & Hlim & _).
  destruct Hh as [Hb Hf]. rewrite Nat.add_succ_r in *.
  pose proof (block_size_S (o + n) ltac:(lia)) as ES. pose proof (block_size_ge (o + n)).
  replace (w64 (p + block_size (o + n))) with (p + block_size (o + n)).
  2:{ symmetry. apply wrap_small. pose proof hhdm_no_wrap. pose proof hhdm_positive. lia. }
  destruct Hb as (Hmax & Hal & Hlo & Hhi).
  assert (p mod block_size (o + n) = 0) as Hal' by (apply aligned_S; [lia|done]).
  assert (in_hand ar L (p + block_size (o + n)) (o + n)) as [Hb' Hf'].
  { split; [|intros x Hx; apply Hf; unfold in_range in *; lia].
    split_and!; try lia. rewrite <- Z.add_mod_idemp_l, Hal' by lia. apply Z.mod_same. lia. }
  assert (buddy_of (p + block_size (o + n)) (o + n) ∉ L (o + n)%nat) as Hbud.
  { rewrite <- (buddy_right_half p (o + n)), buddy_of_invol by (done || lia). intros Hin.
    apply (Hf p); [unfold in_range; lia|]. exists (o + n)%nat, p. split; [done|]. unfold in_range. lia. }
  pose proof (arena_ok_link m ar L (o + n) (p + block_size (o + n)) Hok Hb' Hf' (fun _ => Hbud)) as Hl.
  destruct (link_block m ar (o + n) (p + block_size (o + n))) as [m1 ar1].
  destruct Hl as (Hok1 & Hext1 & Ha1).
  assert (in_hand ar1 (<[(o + n)%nat := p + block_size (o + n) :: L (o + n)%nat]> L) p (o + n)) as Hh1.
  { split.
    - apply (arena_block_extent ar); [done|]. split_and!; try done; lia.
    - intros x Hx [Hfx|Hx']%free_bytes_insert.
      + apply (Hf x); [|done]. unfold in_range in *. lia.
      + unfold in_range in *. lia. }
  specialize (IH m1 ar1 _ Hok1 Hh1). destruct (split_loop n o m1 ar1 p) as [m2 ar2].
  destruct IH as (L2 & Hok2 & Hext2 & Hh2 & Ef2 & Ha2).
  exists L2. split_and!; try done.
  - eauto using same_extent_trans.
  - rewrite Ef2, free_bytes_insert. intros x. unfold fplus, in_range. rewrite ES. intuition lia.
  - etransitivity; [|exact Ha2]. eapply agree_sub; [exact Ha1|]. unfold image.
    intros v Hv Hc. apply Hv.
    assert (fplus (free_bytes L2) (in_range p (block_size o)) (v - hhdm_offset)) as [|Hin].
    { apply (Ef2 _). left. apply free_bytes_insert. by right. }
    + done.
    + exfalso. unfold in_range in *. pose proof (block_size_ge o). 
      assert (block_size o <= block_size (o + n)) by (rewrite !block_size_pow by lia; apply Z.pow_le_mono_r; lia).
      lia.
Qed.

(** What a successful allocation from one arena establishes. *)
Definition arena_alloc_post (m : mem) (ar : buddy_arena) (L : nat -> list Z) (o : nat)
    (m' : mem) (ar' : buddy_arena) (p : Z) : Prop :=
  exists L', arena_ok m' ar' L' /\ same_extent ar ar' /\ arena_block ar p o /\
    (forall x, in_range p (block_size o) x -> free_bytes L x) /\
    free_bytes L' ≡ fminus (free_bytes L) (in_range p (block_size o)) /\
    agree (fun v => ~ image (free_bytes L') v) m m'.

(** Popping a block of order [j >= o] and splitting it down to [o]. *)
Lemma pop_split_spec m ar L o j p l :
  arena_ok m ar L -> (o <= j <= 20)%nat -> L j = p :: l ->
  let '(m', ar') :=
    split_loop (j - o) o m (set_head ar j (fb_next m (head ar j))) (fb_phys_addr m (head ar j)) in
  arena_alloc_post m ar L o m' ar' p.
Proof.
  intros Hok Hj E. destruct (arena_ok_pop m ar L j p l Hok ltac:(lia) E) as (_ & -> & Hok1).
  assert (p ∈ L j) as Hin by (rewrite E; by left).
  pose proof (ok_block _ _ _ Hok j p Hin) as Hb.
  pose proof (free_bytes_remove m ar L j p [] l Hok E) as Ef. simpl in Ef.
  assert (forall x, in_range p (block_size j) x -> free_bytes L x) as Hsub by (intros; by exists j, p).
  pose proof (split_loop_spec (j - o) m _ _ p o Hok1) as Hs.
  replace (o + (j - o))%nat with j in Hs by lia.
  destruct (split_loop _ _ _ _ _) as [m' ar'].
  destruct Hs as (L' & Hok' & Hext' & Hh' & Ef' & Ha').
  { split; [done|]. intros x Hx [_ Hn]%(Ef x). done. }
  destruct Hh' as [Hb' Hd'].
  exists L'. split_and!; try done.
  - revert Hb'. by apply arena_block_extent, same_extent_sym.
  - intros x Hx. assert (fplus (free_bytes L') (in_range p (block_size o)) x) as Hfp by (by right).
    apply (Ef' x) in Hfp as [[? _]%(Ef x)|?]; auto.
  - intros x. unfold fminus. split.
    + intros Hx. split; [|intros Hr; by apply (Hd' x)].
      assert (fplus (free_bytes L') (in_range p (block_size o)) x) as Hfp by (by left).
      apply (Ef' x) in Hfp as [[? _]%(Ef x)|?]; auto.
    + intros [Hx Hn]. assert (fplus (free_bytes L') (in_range p (block_size o)) x) as [|]; [|done|done].
      apply (Ef' x). destruct (decide (p <= x < p + block_size j)); [by right|left].
      apply (Ef x). done.
Qed.

Lemma split_search_spec n j m ar L o :
  arena_ok m ar L -> (o < j)%nat -> (j + n <= 21)%nat ->
  match split_search n j o m ar with
  | Some (m', ar', p) => arena_alloc_post m ar L o m' ar' p
  | None => forall k, (j <= k < j + n)%nat -> L k = []
  end.
Proof.
  intros Hok. revert j. induction n as [|n IH]; intros j Ho Hn; [simpl; intros; lia|].
  cbn [split_search]. pose proof (ok_chain _ _ _ Hok j ltac:(unfold MAX_SUPPORTED_ORDER; lia)) as Hc.
  destruct (L j) as [|p l] eqn:E.
  - simpl in Hc. rewrite Hc. simpl. specialize (IH (S j) ltac:(lia) ltac:(lia)).
    destruct (split_search n (S j) o m ar) as [[[m' ar'] p]|]; [done|].
    intros k Hk. destruct (decide (k = j)) as [->|]; [done|]. apply IH. lia.
  - destruct Hc as [Eh _]. rewrite (proj2 (Z.eqb_neq _ _)).
    2:{ rewrite Eh. apply phys_to_virt_nonzero.
        destruct (arena_block_facts _ _ _ _ _ Hok
          (ok_block _ _ _ Hok j p ltac:(rewrite E; by left))) as (_ & _ & _ & [] & _). lia. }
    pose proof (pop_split_spec m ar L o j p l Hok ltac:(lia) E) as Hp.
    destruct (arena_ok_pop m ar L j p l Hok ltac:(lia) E) as (_ & Ep & _).
    destruct (split_loop _ _ _ _ _) as [m' ar']. by rewrite Ep.
Qed.

Lemma arena_alloc_spec m ar L o :
  arena_ok m ar L -> (o <= 20)%nat ->
  match arena_alloc o m ar with
  | Some (m', ar', p) => arena_alloc_post m ar L o m' ar' p
  | None => forall k, (o <= k)%nat -> L k = []
  end.
Proof.
  intros Hok Ho. unfold arena_alloc. pose proof (ok_chain _ _ _ Hok o Ho) as Hc.
  pose proof (ok_max _ _ _ Hok) as Hmax. unfold MAX_SUPPORTED_ORDER in Hmax.
  destruct (L o) as [|p l] eqn:E.
  - simpl in Hc. rewrite Hc. simpl.
    destruct (decide (o <= max_arena_order ar)%nat) as [Hle|Hgt].
    + pose proof (split_search_spec (max_arena_order ar - o) (S o) m ar L o Hok
        ltac:(lia) ltac:(lia)) as Hs.
      destruct (split_search _ _ _ _ _) as [[[m' ar'] p]|]; [done|].
      intros k Hk. destruct (decide (k = o)) as [->|]; [done|].
      destruct (decide (k <= max_arena_order ar)%nat); [apply Hs; lia|].
      destruct (L k) as [|q l] eqn:Ek; [done|].
      destruct (ok_block _ _ _ Hok k q) as [? _]; [rewrite Ek; by left|lia].
    + replace (max_arena_order ar - o)%nat with 0%nat by lia. simpl.
      intros k Hk. destruct (L k) as [|q l] eqn:Ek; [done|].
      destruct (ok_block _ _ _ Hok k q) as [? _]; [rewrite Ek; by left|lia].
  - pose proof (pop_split_spec m ar L o o p l Hok ltac:(lia) E) as Hp.
    destruct (arena_ok_pop m ar L o p l Hok Ho E) as (Eh & Ep & _).
    rewrite (proj2 (Z.eqb_neq _ _)).
    2:{ rewrite Eh. apply phys_to_virt_nonzero.
        destruct (arena_block_facts _ _ _ _ _ Hok
          (ok_block _ _ _ Hok o p ltac:(rewrite E; by left))) as (_ & _ & _ & [] & _). lia. }
    simpl. rewrite Nat.sub_diag in Hp. simpl in Hp. by rewrite Ep.
Qed.

(** The invariant depends on the free memory only. *)
Lemma arena_ok_agree m m' ar L :
  agree (image (free_bytes L)) m m' -> arena_ok m ar L -> arena_ok m' ar L.
Proof.
  intros Ha Hok. split; try apply Hok.
  intros o Ho. eapply chain_agree; [|by apply Hok]. intros p Hp.
  destruct (arena_block_facts _ _ _ _ _ Hok (ok_block _ _ _ Hok o p Hp)) as (? & ? & ? & ? & _).
  split; [done|]. eapply agree_sub; [exact Ha|]. intros v Hv. exists o, p. split; [done|].
  unfold header, in_range in *. lia.
Qed.

Lemma free_in_extent m ar L x :
  arena_ok m ar L -> free_bytes L x -> in_range (base ar) (arena_length ar) x.
Proof.
  intros Hok (o & p & Hp & Hx). destruct (ok_block _ _ _ Hok o p Hp) as (_ & _ & ? & ?).
  unfold in_range in *. lia.
Qed.

(** ** Populating an arena *)

Lemma best_order_step o cur rem :
  (o <= 20)%nat ->
  best_order o cur rem =
    if decide (block_size o <= rem /\ cur mod block_size o = 0) then Some o
    else match o with O => None | S o' => best_order o' cur rem end.
Proof.
  intros Ho.
  assert (Z.land cur (block_size o - 1) = cur mod block_size o) as E.
  { rewrite block_size_pow by lia. apply land_pow2_pred. lia. }
  destruct o; cbn [best_order]; rewrite E; case_decide; zbool; done || lia.
Qed.

Lemma best_order_sound o cur rem k :
  (o <= 20)%nat -> best_order o cur rem = Some k ->
  (k <= o)%nat /\ block_size k <= rem /\ cur mod block_size k = 0.
Proof.
  intros Ho. induction o as [|o IH]; rewrite best_order_step by done; case_decide; intros E;
    try discriminate; simplify_eq; try done.
  destruct (IH ltac:(lia) E). split; [lia|done].
Qed.

Lemma best_order_maximal o cur rem k j :
  (o <= 20)%nat -> best_order o cur rem = Some k -> (k < j <= o)%nat ->
  ~ (block_size j <= rem /\ cur mod block_size j = 0).
Proof.
  intros Ho. induction o as [|o IH]; rewrite best_order_step by done; case_decide; intros E Hj;
    simplify_eq; try lia.
  destruct (decide (j = S o)) as [->|]; [done|]. apply IH; [lia|done|lia].
Qed.

(** Every block was the largest that fitted where it starts. *)
Definition maximal (ar : buddy_arena) (L : nat -> list Z) : Prop :=
  forall o p, p ∈ L o -> (o < max_arena_order ar)%nat ->
    ~ (p mod block_size (S o) = 0 /\ p + block_size (S o) <= base ar + arena_length ar).

(** So a block at the frontier never has its buddy in the lists. *)
Lemma maximal_buddy m ar L cur o :
  arena_ok m ar L -> maximal ar L -> arena_block ar cur o ->
  (forall x, free_bytes L x -> x < cur) -> (o < max_arena_order ar)%nat ->
  buddy_of cur o ∉ L o.
Proof.
  intros Hok Hmx Hb Hlt Ho Hin. destruct (arena_block_facts _ _ _ _ _ Hok Hb) as (Hle & Hsz & Hpos & _).
  destruct Hb as (_ & Hal & Hlo & Hhi).
  assert (buddy_of cur o < cur) as Hb.
  { apply Hlt. exists o, (buddy_of cur o). split; [done|]. unfold in_range. lia. }
  pose proof (buddy_merge cur o Hle ltac:(lia) Hal) as Hm. cbv zeta in Hm. fold (buddy_of cur o) in Hm.
  rewrite (proj2 (Z.ltb_lt _ _)) in Hm by done. destruct Hm as (Hal' & _ & _ & Hadj).
  apply (Hmx o _ Hin Ho). split; [done|]. rewrite block_size_S by lia. lia.
Qed.

Lemma best_order_complete o cur rem :
  (o <= 20)%nat -> 4096 <= rem -> cur mod 4096 = 0 -> best_order o cur rem <> None.
Proof.
  intros Ho Hr Hc. induction o as [|o IH]; rewrite best_order_step by done; case_decide; try done.
  - rewrite block_size_0 in *. lia.
  - apply IH. lia.
Qed.

(** The loop tiles the pages from [cur] to the end of the arena. *)
Lemma populate_loop_spec fuel m ar L cur :
  arena_ok m ar L -> base ar <= cur <= base ar + arena_length ar -> cur mod 4096 = 0 ->
  0 < arena_length ar ->
  free_bytes L ≡ in_range (base ar) (cur - base ar) -> maximal ar L ->
  (Z.to_nat ((base ar + arena_length ar - cur) / 4096) < fuel)%nat ->
  exists m' ar' L', populate_loop fuel m ar cur (base ar + arena_length ar) = Some (m', ar') /\
    arena_ok m' ar' L' /\ same_extent ar ar' /\
    free_bytes L' ≡ in_range (base ar) (arena_length ar / 4096 * 4096) /\
    agree (fun v => ~ image (in_range (base ar) (arena_length ar)) v) m m'.
Proof.
  revert m ar L cur. induction fuel as [|fuel IH]; intros m ar L cur Hok Hcur Hal Hpos Ef Hmx Hfuel; [lia|].
  cbn [populate_loop]. pose proof (ok_length _ _ _ Hok) as [_ Hlim].
  pose proof (ok_base _ _ _ Hok) as [Hb0 Hbal]. unfold PAGE_FRAME_SIZE in *.
  pose proof hhdm_no_wrap as Hnw. pose proof hhdm_positive as Hhp.
  pose proof (Z.div_mod (arena_length ar) 4096 ltac:(lia)) as Dl.
  pose proof (Z.mod_pos_bound (arena_length ar) 4096 ltac:(lia)) as Ml.
  pose proof (Z.div_mod cur 4096 ltac:(lia)) as Dc. pose proof (Z.div_mod (base ar) 4096 ltac:(lia)) as Db.
  assert (cur < base ar + arena_length ar /\ 4096 <= base ar + arena_length ar - cur \/
          base ar + arena_length ar - cur < 4096) as [[Hlt Hge]|Hend] by lia.
  2:{ exists m, ar, L. split_and!; try done.
      - rewrite wrap_small by lia. zbool; done || lia.
      - rewrite Ef. assert (cur - base ar = arena_length ar / 4096 * 4096) as -> by lia. done. }
  rewrite (proj2 (Z.ltb_lt _ _)) by done.
  rewrite wrap_small by lia. rewrite (proj2 (Z.ltb_ge _ _)) by lia.
  pose proof (ok_max _ _ _ Hok) as Hmax. unfold MAX_SUPPORTED_ORDER in Hmax.
  destruct (best_order (max_arena_order ar) cur _) as [o|] eqn:Eo.
  2:{ by apply best_order_complete in Eo. }
  pose proof (fun j => best_order_maximal _ _ _ _ j Hmax Eo) as Hbest.
  apply best_order_sound in Eo as (Ho & Hfit & Halo); [|done].
  pose proof (block_size_ge o ltac:(lia)) as Hsz.
  assert (in_hand ar L cur o) as [Hb Hfr].
  { split; [split_and!; try done; lia|]. intros x Hx Hf%(Ef x). unfold in_range in *. lia. }
  assert ((o < max_arena_order ar)%nat -> buddy_of cur o ∉ L o) as Hbud.
  { eapply maximal_buddy; eauto. intros x Hx%(Ef x). unfold in_range in *. lia. }
  pose proof (arena_ok_link m ar L o cur Hok Hb Hfr Hbud) as Hl.
  destruct (link_block m ar o cur) as [m1 ar1]. destruct Hl as (Hok1 & Hext1 & Ha1).
  rewrite wrap_small by lia. pose proof Hext1 as (Eb & El & Em).
  destruct (IH m1 ar1 _ (cur + block_size o) Hok1) as (m' & ar' & L' & Ep & Hok' & Hext' & Ef' & Ha').
  - lia.
  - rewrite Z.add_mod, Hal, (aligned_page (block_size o) o) by (lia || apply Z.mod_same; lia). done.
  - lia.
  - rewrite free_bytes_insert, Eb. intros x. unfold fplus. rewrite (Ef x). unfold in_range. lia.
  - unfold maximal. rewrite Eb, El, Em. intros k q [[-> ->]|Hq]%elem_fn_cons Hk.
    + intros [? ?]. apply (Hbest (S o)); [lia|]. split; [lia|done].
    + by apply Hmx.
  - rewrite Eb, El. eapply Nat.lt_le_trans; [|apply Nat.lt_succ_r, Hfuel].
    apply Z2Nat.inj_lt; [apply Z.div_pos; lia|apply Z.div_pos; lia|].
    apply Z.lt_le_trans with ((base ar + arena_length ar - cur - 4096) / 4096 + 1).
    + apply Z.lt_succ_r. apply Z.div_le_mono; lia.
    + rewrite <- Z.div_add by lia. apply Z.div_le_mono; lia.
  - rewrite Eb, El in *. exists m', ar', L'. split_and!; try done.
    + eauto using same_extent_trans.
    + etransitivity; [eapply agree_sub; [exact Ha1|]|exact Ha'].
      unfold image, in_range. intros v Hv Hc. apply Hv. lia.
Qed.

(** An arena with empty lists and a proper extent. *)
Lemma arena_ok_empty m b len k :
  (k <= 20)%nat -> 0 <= b -> b mod 4096 = 0 -> (0 < len -> 0 < b) -> 0 <= len ->
  b + len <= hhdm_phys_limit ->
  arena_ok m (mk_arena b len k (replicate (S MAX_SUPPORTED_ORDER) 0)) (fun _ => []).
Proof.
  intros. split; cbn [base arena_length max_arena_order free_list]; try done; try set_solver.
  - intros o Ho. unfold head. cbn [free_list]. rewrite nth_lookup, lookup_replicate_2; [done|].
    unfold MAX_SUPPORTED_ORDER in *. lia.
  - intros. apply NoDup_nil_2.
Qed.

Lemma populate_spec m b len k :
  (k <= 20)%nat -> 0 < b -> b mod 4096 = 0 -> 0 < len -> b + len <= hhdm_phys_limit ->
  let ar := mk_arena b len k (replicate (S MAX_SUPPORTED_ORDER) 0) in
  exists m' ar' L', populate_buddy_blocks m ar = Some (m', ar') /\
    arena_ok m' ar' L' /\ same_extent ar ar' /\
    free_bytes L' ≡ in_range b (len / 4096 * 4096) /\
    agree (fun v => ~ image (in_range b len) v) m m'.
Proof.
  intros Hk Hb Hal Hlen Hlim ar. unfold populate_buddy_blocks.
  pose proof hhdm_no_wrap. pose proof hhdm_positive.
  change (base ar) with b; change (arena_length ar) with len.
  rewrite wrap_small by lia.
  apply (populate_loop_spec _ m ar (fun _ => []) b); simpl; try done; try lia.
  - apply arena_ok_empty; lia.
  - intros x. rewrite Z.sub_diag. unfold free_bytes, in_range. split; [set_solver|lia].
  - intros o p Hp. set_solver.
  - replace (b + len - b) with len by lia. unfold PAGE_FRAME_SIZE. lia.
Qed.

End Arena.

(** ** The arena table *)
Section Table.
Context `{Hhdm}.

Definition arena_count (st : buddy_state) : nat := Z.to_nat (buddy_arena_counter st).

Definition extents_disjoint (a b : buddy_arena) : Prop :=
  base a + arena_length a <= base b \/ base b + arena_length b <= base a.

(** The allocator invariant: [G i] are the ghost lists of arena [i]. *)
Record buddy_ok (m : mem) (st : buddy_state) (G : nat -> nat -> list Z) : Prop := {
  ok_table : length (buddy_arenas st) = MAX_BUDDY_ARENAS;
  ok_counter : 0 <= buddy_arena_counter st <= Z.of_nat MAX_BUDDY_ARENAS;
  ok_arena i : (i < arena_count st)%nat -> arena_ok m (get_arena st i) (G i);
  ok_extents i j : (i < j < arena_count st)%nat ->
    extents_disjoint (get_arena st i) (get_arena st j);
}.

(** The free physical bytes of the whole table. *)
Definition buddy_free (st : buddy_state) (G : nat -> nat -> list Z) (x : Z) : Prop :=
  exists i, (i < arena_count st)%nat /\ free_bytes (G i) x.

(** A block that some arena manages. *)
Definition buddy_block (st : buddy_state) (p : Z) (o : nat) : Prop :=
  (o <= 20)%nat /\ 0 < p /\ p + block_size o <= hhdm_phys_limit /\
  exists i, (i < arena_count st)%nat /\ arena_block (get_arena st i) p o.

Lemma get_set_arena st i ar j :
  (i < length (buddy_arenas st))%nat ->
  get_arena (set_arena st i ar) j = if decide (i = j) then ar else get_arena st j.
Proof.
  intros Hi. unfold get_arena, set_arena; simpl. rewrite !nth_lookup. case_decide; subst.
  - by rewrite list_lookup_insert_eq.
  - by rewrite list_lookup_insert_ne.
Qed.

Lemma extents_apart m st G i j x :
  buddy_ok m st G -> (i < arena_count st)%nat -> (j < arena_count st)%nat -> i <> j ->
  in_range (base (get_arena st i)) (arena_length (get_arena st i)) x ->
  ~ in_range (base (get_arena st j)) (arena_length (get_arena st j)) x.
Proof.
  intros Hok Hi Hj Hne. unfold in_range.
  destruct (decide (i < j)%nat).
  - pose proof (ok_extents _ _ _ Hok i j ltac:(lia)) as [|]; lia.
  - pose proof (ok_extents _ _ _ Hok j i ltac:(lia)) as [|]; lia.
Qed.

(** Replacing arena [i] after an operation that only wrote inside it. *)
Lemma buddy_ok_set_arena m st G i m' ar' L' :
  buddy_ok m st G -> (i < arena_count st)%nat ->
  arena_ok m' ar' L' -> same_extent (get_arena st i) ar' ->
  agree (fun v => ~ image (in_range (base ar') (arena_length ar')) v) m m' ->
  buddy_ok m' (set_arena st i ar') (<[i := L']> G).
Proof.
  intros Hok Hi Hok' Hext Ha. pose proof Hext as (Eb & El & Em).
  pose proof (ok_counter _ _ _ Hok) as Hc. unfold MAX_BUDDY_ARENAS, arena_count in *.
  assert (i < length (buddy_arenas st))%nat as Hlen by (rewrite (ok_table _ _ _ Hok); unfold MAX_BUDDY_ARENAS; lia).
  split.
  - simpl. rewrite length_insert. apply Hok.
  - apply Hok.
  - intros j Hj. rewrite get_set_arena by done. case_decide as E.
    + subst j. by rewrite fn_lookup_insert.
    + rewrite fn_lookup_insert_ne by done. apply (arena_ok_agree m); [|by apply Hok].
      eapply agree_sub; [exact Ha|]. intros v Hv Hc'. unfold image in *. rewrite Eb, El in Hc'.
      apply (free_in_extent _ _ _ _ (ok_arena _ _ _ Hok j Hj)) in Hv.
      by apply (extents_apart _ _ _ i j _ Hok Hi Hj E Hc').
  - intros j k Hjk. change (arena_count (set_arena st i ar')) with (arena_count st) in Hjk.
    pose proof (ok_extents _ _ _ Hok j k Hjk) as He. unfold extents_disjoint in *.
    rewrite !get_set_arena by done. repeat case_decide; subst; rewrite ?Eb, ?El; done.
Qed.

Lemma buddy_free_set_arena m st G i ar' L' R :
  buddy_ok m st G -> (i < arena_count st)%nat ->
  (forall x, R x -> in_range (base (get_arena st i)) (arena_length (get_arena st i)) x) ->
  (free_bytes L' ≡ fplus (free_bytes (G i)) R ->
   buddy_free (set_arena st i ar') (<[i := L']> G) ≡ fplus (buddy_free st G) R) /\
  (free_bytes L' ≡ fminus (free_bytes (G i)) R ->
   buddy_free (set_arena st i ar') (<[i := L']> G) ≡ fminus (buddy_free st G) R).
Proof.
  intros Hok Hi HR.
  assert (forall x, buddy_free (set_arena st i ar') (<[i := L']> G) x <->
    free_bytes L' x \/ exists j, j <> i /\ (j < arena_count st)%nat /\ free_bytes (G j) x) as E1.
  { intros x. split.
    - intros (j & Hj & Hx). destruct (decide (i = j)) as [<-|Hne].
      + rewrite fn_lookup_insert in Hx. by left.
      + rewrite fn_lookup_insert_ne in Hx by done. right. by exists j.
    - intros [Hx|(j & Hne & Hj & Hx)].
      + exists i. by rewrite fn_lookup_insert.
      + exists j. by rewrite fn_lookup_insert_ne. }
  assert (forall x j, j <> i -> (j < arena_count st)%nat -> free_bytes (G j) x -> ~ R x) as E2.
  { intros x j Hne Hj Hx Hr. apply (extents_apart _ _ _ i j x Hok Hi Hj ltac:(done) (HR x Hr)).
    by apply (free_in_extent m _ (G j)); [apply Hok|]. }
  unfold buddy_free, fplus, fminus in *. split; intros E x; rewrite (E1 x), (E x); split.
  - intros [[?|?]|(j & ? & ? & ?)]; eauto.
  - intros [(j & Hj & Hx)|?]; [|by left; right].
    destruct (decide (j = i)) as [->|]; [by left; left|right; eauto].
  - intros [[? ?]|(j & ? & ? & ?)]; eauto.
  - intros [(j & Hj & Hx) ?]. destruct (decide (j = i)) as [->|]; [by left|right; eauto].
Qed.

Lemma buddy_block_set_arena st i ar' q k :
  (i < length (buddy_arenas st))%nat -> same_extent (get_arena st i) ar' ->
  buddy_block (set_arena st i ar') q k <-> buddy_block st q k.
Proof.
  intros Hi Hext. unfold buddy_block.
  change (arena_count (set_arena st i ar')) with (arena_count st).
  enough (forall j, arena_block (get_arena (set_arena st i ar') j) q k <->
    arena_block (get_arena st j) q k) as E by (setoid_rewrite E; done).
  intros j. rewrite get_set_arena by done. case_decide; [subst j|done].
  split; apply arena_block_extent; [by apply same_extent_sym|done].
Qed.

Lemma arena_block_managed m st G i p o :
  buddy_ok m st G -> (i < arena_count st)%nat -> arena_block (get_arena st i) p o ->
  buddy_block st p o.
Proof.
  intros Hok Hi Hb.
  destruct (arena_block_facts _ _ _ _ _ (ok_arena _ _ _ Hok i Hi) Hb) as (? & ? & ? & ? & ? & ?).
  unfold buddy_block. split_and!; try done. by exists i.
Qed.

(** What a successful [buddy_alloc_pages] establishes. *)
Definition buddy_alloc_post (m : mem) (st : buddy_state) (G : nat -> nat -> list Z) (o : nat)
    (m' : mem) (st' : buddy_state) (p : Z) : Prop :=
  exists G', buddy_ok m' st' G' /\ buddy_block st' p o /\
    (forall q k, buddy_block st' q k <-> buddy_block st q k) /\
    (forall x, in_range p (block_size o) x -> buddy_free st G x) /\
    buddy_free st' G' ≡ fminus (buddy_free st G) (in_range p (block_size o)) /\
    agree (fun v => ~ image (buddy_free st' G') v) m m'.

Lemma table_index m st G i :
  buddy_ok m st G -> (i < arena_count st)%nat -> (i < length (buddy_arenas st))%nat.
Proof.
  intros Hok Hi. rewrite (ok_table _ _ _ Hok). pose proof (ok_counter _ _ _ Hok).
  unfold arena_count in *. lia.
Qed.

Lemma arena_alloc_lift m st G i o m' ar' p :
  buddy_ok m st G -> (i < arena_count st)%nat ->
  arena_alloc_post m (get_arena st i) (G i) o m' ar' p ->
  buddy_alloc_post m st G o m' (set_arena st i ar') p.
Proof.
  intros Hok Hi (L' & Hok' & Hext & Hb & Hsub & Ef & Ha).
  pose proof (table_index _ _ _ _ Hok Hi) as Hlen.
  assert (forall x, in_range p (block_size o) x ->
    in_range (base (get_arena st i)) (arena_length (get_arena st i)) x) as HR.
  { intros x Hx. destruct Hb as (_ & _ & ? & ?). unfold in_range in *. lia. }
  destruct (buddy_free_set_arena m st G i ar' L' _ Hok Hi HR) as [_ Ef']. specialize (Ef' Ef).
  exists (<[i := L']> G). split_and!; try done.
  - apply (buddy_ok_set_arena m); try done. eapply agree_sub; [exact Ha|].
    intros v Hv Hc. apply Hv. by apply (free_in_extent m' _ L').
  - apply buddy_block_set_arena; [done|done|]. by eapply arena_block_managed.
  - intros q k. by apply buddy_block_set_arena.
  - intros x Hx. exists i. auto.
  - eapply agree_sub; [exact Ha|]. intros v Hv Hc. apply Hv. exists i.
    by rewrite fn_lookup_insert.
Qed.

Lemma alloc_loop_spec n i m st G o :
  buddy_ok m st G -> (o <= 20)%nat -> (i + n = arena_count st)%nat ->
  let '(m', st', p) := alloc_loop n i o m st in
  (p = 0 /\ m' = m /\ st' = st /\
     forall j k, (i <= j < arena_count st)%nat -> (o <= k)%nat -> G j k = []) \/
  (p <> 0 /\ buddy_alloc_post m st G o m' st' p).
Proof.
  intros Hok Ho. revert i. induction n as [|n IH]; intros i Hi.
  { simpl. left. split_and!; try done. intros; lia. }
  cbn [alloc_loop].
  pose proof (arena_alloc_spec m (get_arena st i) (G i) o (ok_arena _ _ _ Hok i ltac:(lia)) Ho) as Hs.
  destruct (arena_alloc o m (get_arena st i)) as [[[m' ar'] p]|].
  - right. pose proof (arena_alloc_lift _ _ _ i _ _ _ _ Hok ltac:(lia) Hs) as Hp. split; [|done].
    destruct Hp as (? & _ & (_ & ? & _) & _). lia.
  - specialize (IH (S i) ltac:(lia)). destruct (alloc_loop n (S i) o m st) as [[m' st'] p].
    destruct IH as [(-> & -> & -> & Hn)|?]; [left|by right]. split_and!; try done.
    intros j k Hj Hk. destruct (decide (j = i)) as [->|]; [by apply Hs|apply Hn; lia].
Qed.

Lemma buddy_alloc_pages_spec m st G o :
  buddy_ok m st G -> (o <= 20)%nat ->
  let '(m', st', p) := buddy_alloc_pages o m st in
  (p = 0 /\ m' = m /\ st' = st /\
     forall j k, (j < arena_count st)%nat -> (o <= k)%nat -> G j k = []) \/
  (p <> 0 /\ buddy_alloc_post m st G o m' st' p).
Proof.
  intros Hok Ho. unfold buddy_alloc_pages.
  rewrite (proj2 (Nat.ltb_ge _ _)) by (unfold MAX_SUPPORTED_ORDER; lia).
  pose proof (alloc_loop_spec _ 0 m st G o Hok Ho eq_refl) as Hs. unfold arena_count in *.
  destruct (alloc_loop _ 0 o m st) as [[m' st'] p].
  destruct Hs as [(?&?&?&Hn)|?]; [left|by right]. split_and!; try done.
  intros; apply Hn; lia.
Qed.

(** ** Freeing *)

Lemma find_arena_spec m st G n i p o :
  buddy_ok m st G -> (n + i = arena_count st)%nat ->
  (exists j, (i <= j < arena_count st)%nat /\ arena_block (get_arena st j) p o) ->
  exists j, find_arena n i st p = Some j /\ (j < arena_count st)%nat /\
    arena_block (get_arena st j) p o.
Proof.
  intros Hok. revert i. induction n as [|n IH]; intros i Hn (j & Hj & Hb); [lia|].
  cbn [find_arena].
  pose proof (ok_length _ _ _ (ok_arena _ _ _ Hok i ltac:(lia))) as [Hl Hlim].
  pose proof (ok_base _ _ _ (ok_arena _ _ _ Hok i ltac:(lia))) as [Hb0 _].
  pose proof hhdm_no_wrap. pose proof hhdm_positive. rewrite wrap_small by lia.
  destruct (arena_block_facts _ _ _ _ _ (ok_arena _ _ _ Hok j ltac:(lia)) Hb) as (? & ? & _).
  pose proof Hb as (_ & _ & ? & ?).
  destruct (decide (i = j)) as [->|Hne].
  - exists j. zbool; simpl; try lia. split_and!; try done. lia.
  - pose proof (extents_apart _ _ _ j i p Hok ltac:(lia) ltac:(lia) ltac:(done)) as Hap.
    unfold in_range in Hap. specialize (Hap ltac:(lia)). zbool; simpl; try lia; apply IH; try lia;
      (exists j; split; [lia|done]).
Qed.

Lemma buddy_free_pages_spec m st G p o :
  buddy_ok m st G -> buddy_block st p o ->
  (forall x, in_range p (block_size o) x -> ~ buddy_free st G x) ->
  exists m' st' G', buddy_free_pages p o m st = Some (m', st') /\
    buddy_ok m' st' G' /\
    (forall q k, buddy_block st' q k <-> buddy_block st q k) /\
    buddy_free st' G' ≡ fplus (buddy_free st G) (in_range p (block_size o)) /\
    agree (fun v => ~ image (buddy_free st' G') v) m m'.
Proof.
  intros Hok (Ho & _ & _ & Hb) Hfr. unfold buddy_free_pages.
  rewrite (proj2 (Nat.ltb_ge _ _)) by (unfold MAX_SUPPORTED_ORDER; lia).
  destruct (find_arena_spec m st G (arena_count st) 0 p o Hok ltac:(lia)) as (i & Ei & Hi & Hbi).
  { destruct Hb as (j & ? & ?). exists j. split; [lia|done]. }
  unfold arena_count in Ei. rewrite Ei. pose proof (table_index _ _ _ _ Hok Hi) as Hlen.
  destruct (arena_free_spec m (get_arena st i) (G i) p o) as
    (m' & ar' & L' & -> & Hok' & Hext & Ef & Ha).
  { by apply Hok. }
  { split; [done|]. intros x Hx Hc. apply (Hfr x Hx). by exists i. }
  assert (forall x, in_range p (block_size o) x ->
    in_range (base (get_arena st i)) (arena_length (get_arena st i)) x) as HR.
  { intros x Hx. destruct Hbi as (_ & _ & ? & ?). unfold in_range in *. lia. }
  destruct (buddy_free_set_arena m st G i ar' L' _ Hok Hi HR) as [Ef' _]. specialize (Ef' Ef).
  exists m', (set_arena st i ar'), (<[i := L']> G). split_and!; try done.
  - apply (buddy_ok_set_arena m); try done. eapply agree_sub; [exact Ha|].
    intros v Hv Hc. apply Hv. apply (free_in_extent m' _ L'); [done|]. by apply (Ef _).
  - intros q k. by apply buddy_block_set_arena.
  - eapply agree_sub; [exact Ha|]. intros v Hv Hc. apply Hv. exists i.
    rewrite fn_lookup_insert. split; [done|]. by apply (Ef _).
Qed.

End Table.
