(* ===== verification/Progress.v ===== *)
(** * The buddy allocator: allocation succeeds while there is memory

    The free lists are fully coalesced, so a block that is free as a whole lies
    in a free block of its order or a larger one, and an allocation of its order
    or a smaller one finds it. *)
From S2P Require Import Prelude Memory Buddy PageAlloc BuddyProofs.
Import Buddy.

Opaque block_size.

Section Progress.
Context `{Hhdm}.

(** Aligned addresses: multiples of the block size. *)
Lemma block_divides o j : (o <= j)%nat -> (j <= 20)%nat -> (block_size o | block_size j).
Proof.
  intros Hoj Hj. rewrite !block_size_pow by lia. exists (2 ^ (Z.of_nat j - Z.of_nat o)).
  rewrite <- Z.pow_add_r by lia. f_equal. lia.
Qed.

Lemma aligned_divides p o j : (o <= j)%nat -> (j <= 20)%nat -> p mod block_size j = 0 -> (block_size o | p).
Proof.
  intros Hoj Hj Hp. pose proof (block_size_ge j ltac:(lia)). etransitivity; [by apply block_divides|].
  apply Z.mod_divide; [lia|done].
Qed.

Lemma divide_gap n x y : 0 < n -> (n | x) -> (n | y) -> x < y -> x + n <= y.
Proof. intros Hn Hx Hy Hlt. destruct (Z.divide_sub_r n y x Hy Hx) as [k Hk]. assert (1 <= k) by nia. nia. Qed.

(** Lists that are fully coalesced: when all bytes of an aligned block are free,
    some free block is at least as large. *)
Lemma coalesced_block m ar L p j :
  arena_ok m ar L -> (j <= max_arena_order ar)%nat -> 0 <= p -> p mod block_size j = 0 ->
  (forall x, in_range p (block_size j) x -> free_bytes L x) -> exists k, (j <= k <= 20)%nat /\ L k <> [].
Proof.
  intros Hok Hj Hp Hal Hfree. pose proof (ok_max _ _ _ Hok) as Hmax. unfold MAX_SUPPORTED_ORDER in Hmax.
  pose proof (block_size_ge j ltac:(lia)) as Hge.
  destruct (decide (Exists (fun k => L k <> []) (seq j (21 - j)))) as [(k & Hk%elem_of_seq & Hne)%Exists_exists|Hnone].
  { exists k. split; [lia|done]. }
  exfalso. assert (forall o q, q ∈ L o -> (o < j)%nat) as Hsmall.
  { intros o q Hq. destruct (decide (o < j)%nat) as [|Hge']; [done|]. exfalso. apply Hnone, Exists_exists. exists o.
    pose proof (proj1 (ok_block _ _ _ Hok o q Hq)). split; [apply elem_of_seq; lia|]. intros E. rewrite E in Hq. set_solver. }
  assert (forall o q, q ∈ L o -> p <= q < p + block_size j -> False) as Hno.
  { induction o as [o IH] using lt_wf_ind. intros q Hq Hr. pose proof (Hsmall o q Hq) as Ho.
    pose proof (ok_block _ _ _ Hok o q Hq) as (_ & Hqal & _ & _). pose proof (block_size_ge o ltac:(lia)).
    destruct (buddy_merge q o ltac:(lia) ltac:(lia) Hqal) as (Hsal & Hbal & Hsup & Hb). fold (buddy_of q o) in *.
    set (b := buddy_of q o) in *. set (s := if b <? q then b else q) in *.
    assert (p <= s < p + block_size j) as Hs.
    { assert (s = q \/ s = q - block_size o) as [->|Es]; [unfold s; destruct (Z.ltb_spec b q); lia|lia|].
      split; [|lia]. destruct (Z.le_gt_cases p s) as [|Hlt]; [done|].
      pose proof (block_size_S o ltac:(lia)). pose proof (divide_gap (block_size (S o)) s p ltac:(lia)
        (aligned_divides _ (S o) (S o) ltac:(lia) ltac:(lia) Hsal) (aligned_divides _ (S o) j ltac:(lia) ltac:(lia) Hal) Hlt). lia. }
    pose proof (block_size_S o ltac:(lia)) as ES.
    assert (s <= b /\ b + block_size o <= s + block_size (S o) /\ s <= q /\ q + block_size o <= s + block_size (S o)) as Hbs
      by (unfold s; destruct (Z.ltb_spec b q); lia).
    pose proof (divide_gap (block_size (S o)) s (p + block_size j) ltac:(lia)
      (aligned_divides _ (S o) (S o) ltac:(lia) ltac:(lia) Hsal)
      (Z.divide_add_r _ _ _ (aligned_divides _ (S o) j ltac:(lia) ltac:(lia) Hal) (block_divides (S o) j ltac:(lia) ltac:(lia)))
      ltac:(lia)) as Hsup'.
    destruct (Hfree b) as (o2 & q2 & Hq2 & Hx2); [unfold in_range in *; lia|]. unfold in_range in Hx2.
    pose proof (Hsmall o2 q2 Hq2) as Ho2. pose proof (ok_block _ _ _ Hok o2 q2 Hq2) as (_ & Hal2 & _ & _).
    pose proof (block_size_ge o2 ltac:(lia)). pose proof (aligned_divides _ o2 o2 ltac:(lia) ltac:(lia) Hal2) as Hd2.
    destruct (lt_eq_lt_dec o2 o) as [[Hlt| ->]|Hgt].
    - apply (IH o2 Hlt q2 Hq2). split; [|lia]. destruct (Z.le_gt_cases p q2) as [|Hlt2]; [done|].
      pose proof (divide_gap (block_size o2) q2 p ltac:(lia) Hd2 (aligned_divides _ o2 j ltac:(lia) ltac:(lia) Hal) Hlt2). lia.
    - assert (q2 = b) as ->; [|exact (ok_merged _ _ _ Hok o q ltac:(lia) Hq Hq2)].
      destruct (Z.lt_total q2 b) as [Hlt|[?|?]]; [|done|lia].
      pose proof (divide_gap (block_size o) q2 b ltac:(lia) Hd2 (aligned_divides _ o o ltac:(lia) ltac:(lia) Hbal) Hlt). lia.
    - pose proof (block_divides (S o) o2 ltac:(lia) ltac:(lia)) as Hdo.
      pose proof (aligned_divides _ (S o) (S o) ltac:(lia) ltac:(lia) Hsal) as Hds.
      assert (q2 <= s) as Hle.
      { destruct (Z.le_gt_cases q2 s) as [|Hlt]; [done|].
        pose proof (divide_gap (block_size (S o)) s q2 ltac:(lia) Hds (Z.divide_trans _ _ _ Hdo Hd2) Hlt). lia. }
      pose proof (divide_gap (block_size (S o)) s (q2 + block_size o2) ltac:(lia) Hds
        (Z.divide_add_r _ _ _ (Z.divide_trans _ _ _ Hdo Hd2) Hdo) ltac:(lia)).
      destruct (ok_disj _ _ _ Hok o q o2 q2 Hq Hq2) as [[? _]|[?|?]]; lia. }
  destruct (Hfree p) as (o & q & Hq & Hx); [unfold in_range; lia|]. unfold in_range in Hx.
  pose proof (Hsmall o q Hq) as Ho. pose proof (ok_block _ _ _ Hok o q Hq) as (_ & Hqal & _ & _).
  pose proof (block_size_ge o ltac:(lia)).
  assert (q = p) as ->; [|by apply (Hno o p Hq); lia].
  destruct (Z.lt_total q p) as [Hlt|[?|?]]; [|done|lia].
  pose proof (divide_gap (block_size o) q p ltac:(lia) (aligned_divides _ o o ltac:(lia) ltac:(lia) Hqal)
    (aligned_divides _ o j ltac:(lia) ltac:(lia) Hal) Hlt). lia.
Qed.

(** The free bytes inside an arena are those of its own lists. *)
Lemma free_in_arena m st G i x :
  buddy_ok m st G -> (i < arena_count st)%nat -> buddy_free st G x ->
  in_range (base (get_arena st i)) (arena_length (get_arena st i)) x -> free_bytes (G i) x.
Proof.
  intros Hok Hi (j & Hj & Hx) Hr. destruct (decide (i = j)) as [->|Hne]; [done|]. exfalso.
  pose proof (free_in_extent _ _ _ _ (ok_arena _ _ _ Hok j Hj) Hx) as Hx'. unfold in_range in *.
  destruct (Nat.lt_gt_cases i j) as [[Hlt|Hlt] _]; [done|..];
    [pose proof (ok_extents _ _ _ Hok i j ltac:(lia))|pose proof (ok_extents _ _ _ Hok j i ltac:(lia))];
    unfold extents_disjoint in *; lia.
Qed.

Lemma buddy_progress o k m st G m' st' p q :
  (o <= k)%nat -> buddy_ok m st G -> buddy_block st q k ->
  (forall x, in_range q (block_size k) x -> buddy_free st G x) ->
  buddy_alloc_pages o m st = (m', st', p) -> p <> 0.
Proof.
  intros Ho Hok (Hk & Hq & _ & i & Hi & Hmax & Hal & Hb & Hl) Hfree E.
  pose proof (buddy_alloc_pages_spec m st G o Hok ltac:(lia)) as Hs. rewrite E in Hs.
  destruct Hs as [(_ & _ & _ & Hn)|[? _]]; [|done].
  destruct (coalesced_block m (get_arena st i) (G i) q k (ok_arena _ _ _ Hok i Hi) Hmax ltac:(lia) Hal) as (j & Hj & Hne).
  - intros x Hx. apply (free_in_arena m st G i x Hok Hi (Hfree x Hx)). unfold in_range in *. lia.
  - by destruct Hne; apply Hn; lia.
Qed.
End Progress.
