(* ===== verification/BuddySpec.v ===== *)
(** * The buddy allocator: boot, interface instance and main theorems *)
From S2P Require Import Prelude Memory Buddy PageAlloc BuddyProofs Progress.
Import Buddy.

Opaque block_size.

Section Init.
Context `{Hhdm}.

(** ** Adding an arena *)

(** A usable region of the bootloader's memory map. *)
Definition region_ok (e : memmap_entry) : Prop :=
  0 < e_base e /\ 0 <= e_length e /\ e_base e + e_length e <= hhdm_phys_limit.

(** The whole pages of a region. *)
Definition region_pages (e : memmap_entry) : Z -> Prop :=
  let b := page_round_up (e_base e) in
  in_range b ((e_base e + e_length e - b) / 4096 * 4096).

Definition region_apart (ar : buddy_arena) (e : memmap_entry) : Prop :=
  base ar + arena_length ar <= e_base e \/ e_base e + e_length e <= base ar.

Definition regions_apart (e f : memmap_entry) : Prop :=
  e_base e + e_length e <= e_base f \/ e_base f + e_length f <= e_base e.

(** The loop that computes the maximal order stops before its shift wraps. *)
Lemma max_order_loop_total fuel k len :
  (k <= 40)%nat -> (41 < fuel + k)%nat -> 0 <= len <= 2 ^ 52 ->
  exists k', max_order_loop fuel k len = Some k'.
Proof.
  intros Hk. revert k Hk. induction fuel as [|fuel IH]; intros k Hk Hf Hlen; [lia|].
  cbn [max_order_loop]. rewrite block_size_pow by lia. zbool; [|by eexists].
  apply IH; [|lia|done].
  destruct (decide (k = 40)%nat) as [->|]; [|lia]. exfalso.
  change (12 + Z.of_nat 41) with 53 in *. lia.
Qed.

Lemma max_order_loop_max fuel k len k' :
  max_order_loop fuel k len = Some k' -> len < block_size (S k').
Proof.
  revert k. induction fuel as [|fuel IH]; intros k; [done|]. cbn [max_order_loop]. zbool; [apply IH|].
  by intros [= <-].
Qed.

Lemma add_buddy_arena_spec m st i e :
  (0 < i < MAX_BUDDY_ARENAS)%nat -> region_ok e ->
  (exists m' ar' L', add_buddy_arena i (e_base e) (e_length e) m st = Some (m', set_arena st i ar', 0) /\
     arena_ok m' ar' L' /\ free_bytes L' ≡ region_pages e /\
     e_base e <= base ar' /\ base ar' + arena_length ar' = e_base e + e_length e /\
     agree (fun v => ~ image (in_range (base ar') (arena_length ar')) v) m m' /\
     (forall j, (j <= 20)%nat -> block_size j <= arena_length ar' -> (j <= max_arena_order ar')%nat)) \/
  (add_buddy_arena i (e_base e) (e_length e) m st = Some (m, st, -1) /\
     forall x, ~ region_pages e x).
Proof.
  intros Hi (Hb & Hl & Hlim). pose proof hhdm_phys_bits as Hbits. unfold add_buddy_arena, region_pages.
  rewrite (proj2 (Nat.leb_gt _ _)), (proj2 (Nat.eqb_neq _ _)) by lia.
  pose proof (page_round_up_spec (e_base e) ltac:(lia)) as [Hal Hru].
  set (b := page_round_up (e_base e)) in *. rewrite wrap_small by lia.
  assert (forall n, n < 4096 -> forall x, ~ in_range b (n / 4096 * 4096) x) as Hnone.
  { intros n Hn x. pose proof (Z.div_mod n 4096 ltac:(lia)).
    pose proof (Z.mod_pos_bound n 4096). unfold in_range. lia. }
  zbool; unfold PAGE_FRAME_SIZE in *; try (right; split; [done|apply Hnone; lia]).
  left. set (len := e_base e + e_length e - b) in *.
  destruct (max_order_loop_total 64 0 len) as [k Ek]; [lia|lia|lia|]. rewrite Ek.
  pose proof (max_order_loop_max _ _ _ _ Ek) as Hmax.
  cbn [mbind option_bind].
  set (k' := if (MAX_SUPPORTED_ORDER <? k)%nat then MAX_SUPPORTED_ORDER else k).
  assert (k' <= 20)%nat by (unfold k', MAX_SUPPORTED_ORDER; destruct (Nat.ltb_spec 20 k); lia).
  destruct (populate_spec m b len k') as (m' & ar' & L' & -> & Hok & (Eb & El & Em) & Ef & Ha);
    try done; try lia.
  simpl in Eb, El, Em. cbn [mbind option_bind]. exists m', ar', L'. rewrite Eb, El, Em.
  split_and!; try done; try lia. intros j Hj Hle. unfold k', MAX_SUPPORTED_ORDER.
  destruct (Nat.ltb_spec 20 k); [done|]. destruct (decide (j <= k)%nat); [done|]. exfalso.
  rewrite !block_size_pow in * by lia.
  assert (2 ^ (12 + Z.of_nat (S k)) <= 2 ^ (12 + Z.of_nat j)) by (apply Z.pow_le_mono_r; lia). lia.
Qed.

(** Registering a new arena at the end of the table. *)
Lemma buddy_ok_push m st G m' ar' L' :
  let i := arena_count st in
  buddy_ok m st G -> buddy_arena_counter st < 32 ->
  arena_ok m' ar' L' ->
  (forall j, (j < i)%nat -> extents_disjoint (get_arena st j) ar') ->
  agree (fun v => ~ image (in_range (base ar') (arena_length ar')) v) m m' ->
  let st' := mk_buddy (<[i := ar']> (buddy_arenas st)) (buddy_arena_counter st + 1) in
  buddy_ok m' st' (<[i := L']> G) /\
  buddy_free st' (<[i := L']> G) ≡ fplus (buddy_free st G) (free_bytes L').
Proof.
  intros i Hok Hc Hok' Hd Ha st'. pose proof (ok_counter _ _ _ Hok) as Hcnt.
  assert (arena_count st' = S i) as Ei by (unfold i, st', arena_count; simpl; lia).
  assert (forall j, get_arena st' j = if decide (i = j) then ar' else get_arena st j) as Eg.
  { intros j. apply (get_set_arena st i ar' j). rewrite (ok_table _ _ _ Hok).
    unfold i, arena_count, MAX_BUDDY_ARENAS. lia. }
  split; [split|].
  - simpl. rewrite length_insert. apply Hok.
  - unfold st', MAX_BUDDY_ARENAS in *; simpl. lia.
  - intros j Hj. rewrite Ei in Hj. rewrite Eg. case_decide as E.
    + subst j. by rewrite fn_lookup_insert.
    + rewrite fn_lookup_insert_ne by done. assert (j < i)%nat as Hj' by lia.
      apply (arena_ok_agree m); [|by apply Hok]. eapply agree_sub; [exact Ha|].
      intros v Hv Hc'. apply (free_in_extent m _ _ _ (ok_arena _ _ _ Hok j Hj')) in Hv.
      unfold image, in_range in *. destruct (Hd j Hj'); lia.
  - intros j k Hjk. rewrite Ei in Hjk. rewrite !Eg. repeat case_decide; subst; try lia.
    + apply Hd. lia.
    + apply Hok. lia.
  - intros x. unfold buddy_free, fplus. rewrite Ei. split.
    + intros (j & Hj & Hx). destruct (decide (i = j)) as [<-|Hne].
      * rewrite fn_lookup_insert in Hx. by right.
      * rewrite fn_lookup_insert_ne in Hx by done. left. exists j. split; [lia|done].
    + intros [(j & Hj & Hx)|Hx].
      * exists j. rewrite fn_lookup_insert_ne by (unfold i; lia). split; [lia|done].
      * exists i. rewrite fn_lookup_insert. split; [lia|done].
Qed.

(** ** The boot loop *)

(** The physical bytes of some regions. *)
Definition region_bytes (es : list memmap_entry) (x : Z) : Prop :=
  exists e, e ∈ es /\ in_range (e_base e) (e_length e) x.

(** What registering the regions [es] leads to: the old arenas stay, and every
    region with a whole page gets an arena of its own with all of them free. *)
Record registered es m st G m' st' G' : Prop := {
  rg_ok : buddy_ok m' st' G';
  rg_free : buddy_free st' G' ≡ fplus (buddy_free st G) (fun x => exists e, e ∈ es /\ region_pages e x);
  rg_frame : agree (fun v => ~ image (region_bytes es) v) m m';
  rg_old i : (i < arena_count st)%nat -> (i < arena_count st')%nat /\ get_arena st' i = get_arena st i /\ G' i = G i;
  rg_new e : e ∈ es -> (forall x, ~ region_pages e x) \/
    exists i, (i < arena_count st')%nat /\ free_bytes (G' i) ≡ region_pages e /\
      forall j, (j <= 20)%nat -> block_size j <= arena_length (get_arena st' i) -> (j <= max_arena_order (get_arena st' i))%nat;
}.

Lemma region_bytes_cons e es m m1 m' :
  agree (fun v => ~ image (in_range (e_base e) (e_length e)) v) m m1 ->
  agree (fun v => ~ image (region_bytes es) v) m1 m' -> agree (fun v => ~ image (region_bytes (e :: es)) v) m m'.
Proof.
  intros H1' H2'. etransitivity; [eapply agree_sub; [exact H1'|]|eapply agree_sub; [exact H2'|]]; intros v Hv Hi; apply Hv.
  - exists e. split; [by left|done].
  - destruct Hi as (f & Hf & Hi). exists f. split; [by right|done].
Qed.

(** One region more, with or without an arena. *)
Lemma registered_push e es m st G m1 ar L m' st' G' :
  length (buddy_arenas st) = MAX_BUDDY_ARENAS -> 0 <= buddy_arena_counter st < 32 ->
  let st1 := mk_buddy (<[arena_count st := ar]> (buddy_arenas st)) (buddy_arena_counter st + 1) in
  let G1 := <[arena_count st := L]> G in
  buddy_free st1 G1 ≡ fplus (buddy_free st G) (free_bytes L) -> free_bytes L ≡ region_pages e ->
  agree (fun v => ~ image (in_range (e_base e) (e_length e)) v) m m1 ->
  (forall j, (j <= 20)%nat -> block_size j <= arena_length ar -> (j <= max_arena_order ar)%nat) ->
  registered es m1 st1 G1 m' st' G' -> registered (e :: es) m st G m' st' G'.
Proof.
  intros Hl Hc st1 G1 Hfree HL Ha Hmax Hr.
  assert (forall i, get_arena st1 i = if decide (arena_count st = i) then ar else get_arena st i) as Eg.
  { intros i. apply (get_set_arena st (arena_count st) ar i). rewrite Hl. unfold arena_count, MAX_BUDDY_ARENAS. lia. }
  assert (arena_count st1 = S (arena_count st)) as Ec by (unfold st1, arena_count; simpl; lia).
  split.
  - apply Hr.
  - rewrite (rg_free _ _ _ _ _ _ _ Hr), Hfree. intros x. unfold fplus. rewrite (HL x). set_solver.
  - eapply region_bytes_cons; [exact Ha|apply Hr].
  - intros i Hi. destruct (rg_old _ _ _ _ _ _ _ Hr i) as (? & E1 & E2); [lia|]. split; [done|].
    rewrite E1, E2, Eg, decide_False by lia. split; [done|]. unfold G1. by rewrite fn_lookup_insert_ne by lia.
  - intros f [->|Hf]%elem_of_cons; [right|by apply Hr].
    destruct (rg_old _ _ _ _ _ _ _ Hr (arena_count st)) as (? & E1 & E2); [lia|].
    exists (arena_count st). rewrite E1, E2, Eg, decide_True by done. split_and!; [done| |done].
    unfold G1. by rewrite fn_lookup_insert.
Qed.

Lemma registered_skip e es m st G m' st' G' :
  (forall x, ~ region_pages e x) -> registered es m st G m' st' G' -> registered (e :: es) m st G m' st' G'.
Proof.
  intros Hn Hr. split; try apply Hr.
  - rewrite (rg_free _ _ _ _ _ _ _ Hr). intros x. unfold fplus. set_solver.
  - by eapply region_bytes_cons; [|apply Hr].
  - intros f [->|Hf]%elem_of_cons; [by left|by apply Hr].
Qed.

Lemma init_loop_spec es m st G :
  buddy_ok m st G -> 1 <= buddy_arena_counter st ->
  buddy_arena_counter st + Z.of_nat (length es) <= 32 ->
  Forall (fun e => e_type e = 0 /\ region_ok e) es ->
  ForallOrdPairs regions_apart es ->
  (forall i e, (i < arena_count st)%nat -> e ∈ es -> region_apart (get_arena st i) e) ->
  exists m' st' G', buddy_allocator_init es m st = Some (m', st') /\ registered es m st G m' st' G'.
Proof.
  revert m st G. induction es as [|e es IH]; intros m st G Hok Hc1 Hc2 Hes Hap Hst.
  { exists m, st, G. split; [done|]. split; try done; [|set_solver].
    intros x. unfold fplus. set_solver. }
  apply Forall_cons in Hes as [[Ht He] Hes]. inversion Hap as [|? ? Hap1 Hap2]; subst.
  rewrite List.Forall_forall in Hap1.
  cbn [buddy_allocator_init]. rewrite Ht. simpl negb. cbn iota.
  simpl length in Hc2. rewrite (proj2 (Z.leb_gt _ _)) by (unfold MAX_BUDDY_ARENAS; lia).
  pose proof He as (Hb & _). rewrite (proj2 (Z.eqb_neq _ _)) by lia.
  destruct (add_buddy_arena_spec m st (arena_count st) e) as
    [(m1 & ar1 & L1 & Ea & Hok1 & Ef1 & Hb1 & He1 & Ha1 & Hm1)|[Ea Hnone]]; [|done|..].
  { unfold arena_count, MAX_BUDDY_ARENAS. lia. }
  - unfold arena_count in Ea. rewrite Ea. cbn [mbind option_bind buddy_arena_counter set_arena].
    rewrite (wrap_small 8) by lia.
    destruct (buddy_ok_push m st G m1 ar1 L1 Hok ltac:(lia) Hok1) as [Hok2 Ef2]; [|done|].
    { intros j Hj. destruct (Hst j e Hj ltac:(by left)); unfold extents_disjoint; lia. }
    destruct (IH m1 _ _ Hok2) as (m' & st' & G' & Ei & Hr); simpl; try done; try lia.
    { intros i f Hi Hf. unfold arena_count in Hi; simpl in Hi.
      pose proof (get_set_arena st (arena_count st) ar1 i) as Eg. unfold get_arena in *. simpl in *.
      rewrite Eg by (rewrite (ok_table _ _ _ Hok); unfold arena_count, MAX_BUDDY_ARENAS; lia).
      case_decide as E.
      - destruct (Hap1 f ltac:(by apply list_elem_of_In)); unfold region_apart; lia.
      - apply Hst; [unfold arena_count in *; lia|by right]. }
    exists m', st', G'. split; [exact Ei|].
    apply (registered_push e es m st G m1 ar1 L1 m' st' G'); try done; [apply Hok|lia|].
    eapply agree_sub; [exact Ha1|]. intros v Hv Hi. apply Hv. unfold image, in_range in *. lia.
  - unfold arena_count in Ea. rewrite Ea. cbn [mbind option_bind].
    change (-1 =? 0) with false. cbn iota.
    destruct (IH m st G Hok) as (m' & st' & G' & Ei & Hr); try done; [lia| |].
    { intros i f Hi Hf. apply Hst; [done|by right]. }
    exists m', st', G'. split; [exact Ei|]. by apply registered_skip.
Qed.

End Init.

Section Boot.
Context `{Hhdm}.

(** Regions that are not usable memory are passed over. *)
Lemma init_filter es m st :
  buddy_allocator_init es m st =
  buddy_allocator_init (filter (fun e => e_type e = 0) es) m st.
Proof.
  revert m st. induction es as [|e es IH]; intros m st; [done|].
  rewrite filter_cons. cbn [buddy_allocator_init]. case_decide as E.
  - rewrite E. cbn [buddy_allocator_init]. rewrite E. simpl negb. cbn iota.
    destruct (_ <=? _); [done|].
    destruct (add_buddy_arena _ _ _ _ _) as [[[m1 st1] r]|]; [|done].
    cbn [mbind option_bind]. apply IH.
  - rewrite (proj2 (Z.eqb_neq _ _)) by done. simpl. apply IH.
Qed.

(** After the first usable region, which the code skips, both counters
    increments have happened and two empty arenas are registered. *)
Definition buddy_skipped : buddy_state := mk_buddy (buddy_arenas buddy_boot) 2.

Lemma init_first e rest m :
  e_type e = 0 ->
  buddy_allocator_init (e :: rest) m buddy_boot = buddy_allocator_init rest m buddy_skipped.
Proof. intros Ht. cbn [buddy_allocator_init]. by rewrite Ht. Qed.

Lemma buddy_ok_skipped m : buddy_ok m buddy_skipped (fun _ _ => []).
Proof.
  assert (forall i, (i < 2)%nat -> get_arena buddy_skipped i = zero_arena) as Ez.
  { intros i Hi. destruct i as [|[|]]; [done|done|lia]. }
  split; [done|done|..]; unfold arena_count, buddy_skipped, buddy_arena_counter.
  - intros i Hi. rewrite Ez by lia. apply arena_ok_empty; try lia; [done|].
    pose proof hhdm_phys_nonneg. lia.
  - intros i j Hij. rewrite !Ez by lia. by left.
Qed.

Lemma buddy_init_registered es e0 rest m :
  filter (fun e => e_type e = 0) es = e0 :: rest ->
  (length rest <= 30)%nat -> Forall region_ok rest -> ForallOrdPairs regions_apart rest ->
  exists m' st' G', buddy_allocator_init es m buddy_boot = Some (m', st') /\
    registered rest m buddy_skipped (fun _ _ => []) m' st' G' /\
    buddy_free st' G' ≡ (fun x => exists e, e ∈ rest /\ region_pages e x).
Proof.
  intros Ef Hlen Hr Hap. rewrite init_filter, Ef.
  assert (Forall (fun e => e_type e = 0) (e0 :: rest)) as Hty.
  { rewrite <- Ef. apply Forall_forall. by intros e [? _]%list_elem_of_filter. }
  apply Forall_cons in Hty as [Ht0 Hty]. rewrite init_first by done.
  destruct (init_loop_spec rest m buddy_skipped (fun _ _ => [])) as (m' & st' & G' & Ei & Hreg).
  - apply buddy_ok_skipped.
  - done.
  - unfold buddy_skipped; simpl. lia.
  - apply Forall_and. done.
  - done.
  - intros i e Hi He. unfold arena_count, buddy_skipped in Hi; simpl in Hi.
    left. rewrite Forall_forall in Hr. destruct (Hr e He) as [? _].
    destruct i as [|[|]]; [..|lia]; simpl; lia.
  - exists m', st', G'. split_and!; try done. rewrite (rg_free _ _ _ _ _ _ _ Hreg). intros x. unfold fplus.
    split; [|by right]. intros [(? & _ & ? & ? & ? & _)|?]; [set_solver|done].
Qed.

Lemma buddy_init_spec es e0 rest m :
  filter (fun e => e_type e = 0) es = e0 :: rest ->
  (length rest <= 30)%nat -> Forall region_ok rest -> ForallOrdPairs regions_apart rest ->
  exists m' st' G', buddy_allocator_init es m buddy_boot = Some (m', st') /\ buddy_ok m' st' G' /\
    buddy_free st' G' ≡ (fun x => exists e, e ∈ rest /\ region_pages e x).
Proof.
  intros Ef Hlen Hr Hap. destruct (buddy_init_registered es e0 rest m Ef Hlen Hr Hap) as (m' & st' & G' & E & Hreg & Hfree).
  exists m', st', G'. split_and!; [done|apply Hreg|done].
Qed.

(** ** The interface instance *)

Lemma block_bytes_size o : (o <= 51)%nat -> block_bytes o = block_size o.
Proof. intros. by rewrite block_size_pow. Qed.

#[export] Program Instance buddy_allocator : PageAllocator buddy_state := {|
  alloc_pages := buddy_alloc_pages;
  free_pages := buddy_free_pages;
  pa_inv m st F := exists G, buddy_ok m st G /\ F ≡ buddy_free st G;
  pa_block := buddy_block;
|}.
Next Obligation. intros m s F F' E (G & Hok & EF). exists G. split; [done|]. by rewrite <- E. Qed.
Next Obligation.
  intros m m' s F Ha (G & Hok & EF). exists G. split; [|done]. split; try apply Hok.
  intros i Hi. apply (arena_ok_agree m); [|by apply Hok]. eapply agree_sub; [exact Ha|].
  intros v Hv. apply (EF _). by exists i.
Qed.
Next Obligation.
  intros s p o (Ho & Hp & Hl & i & Hi & _ & Hal & _). rewrite block_bytes_size by lia. done.
Qed.
Next Obligation.
  intros o m s F m' s' p Ho (G & Hok & EF) E.
  pose proof (buddy_alloc_pages_spec m s G o Hok Ho) as Hs. rewrite E in Hs.
  rewrite block_bytes_size by lia.
  destruct Hs as [(-> & -> & -> & _)|(_ & G' & Hok' & Hb & Hbs & Hsub & Ef & Ha)]; [by left|right].
  assert (fminus F (in_range p (block_size o)) ≡ buddy_free s' G') as E' by (by rewrite EF, Ef).
  split_and!; try done.
  - intros x Hx. apply (EF x). auto.
  - exists G'. done.
  - eapply agree_sub; [exact Ha|]. intros v Hv Hc. apply Hv. by apply (E' _).
Qed.
Next Obligation.
  intros o m s F p (G & Hok & EF) Hb Hfr. pose proof Hb as [Ho _].
  rewrite block_bytes_size in * by lia.
  destruct (buddy_free_pages_spec m s G p o Hok Hb) as (m' & s' & G' & E & Hok' & Hbs & Ef & Ha).
  { intros x Hx Hc. apply (Hfr x Hx). by apply (EF x). }
  assert (fplus F (in_range p (block_size o)) ≡ buddy_free s' G') as E' by (by rewrite EF, Ef).
  exists m', s'. split_and!; try done.
  - exists G'. done.
  - eapply agree_sub; [exact Ha|]. intros v Hv Hc. apply Hv. by apply (E' _).
Qed.

Next Obligation.
  intros o k m s F m' s' p q Ho (G & Hok & EF) Hb HF E. pose proof Hb as [Hk _].
  apply (buddy_progress o k m s G m' s' p q Ho Hok Hb); [|exact E].
  intros x Hx. apply (EF x), HF. by rewrite block_bytes_size by lia.
Qed.

(** After boot: the aligned blocks inside a usable region are room. *)
Lemma registered_room es m st G m' st' G' e p o n :
  registered es m st G m' st' G' -> e ∈ es -> (o <= 20)%nat -> (0 < n)%nat -> 0 < p -> p mod block_size o = 0 ->
  (forall x, in_range p (Z.of_nat n * block_size o) x -> region_pages e x) ->
  pa_room st' (buddy_free st' G') o n.
Proof.
  intros Hr He Ho Hn Hp Hal Hin. pose proof (block_size_ge o ltac:(lia)).
  destruct (rg_new _ _ _ _ _ _ _ Hr e He) as [Hno|(i & Hi & Hf & Hmax)].
  { destruct (Hno p). apply Hin. unfold in_range. nia. }
  pose proof (ok_arena _ _ _ (rg_ok _ _ _ _ _ _ _ Hr) i Hi) as Hok.
  assert (forall x, in_range p (Z.of_nat n * block_size o) x -> free_bytes (G' i) x) as Hfree
    by (intros x Hx; by apply (Hf x), Hin).
  pose proof (free_in_extent _ _ _ _ Hok (Hfree p ltac:(unfold in_range; nia))) as H1'.
  pose proof (free_in_extent _ _ _ _ Hok (Hfree (p + Z.of_nat n * block_size o - 1) ltac:(unfold in_range; nia))) as H2'.
  pose proof (ok_length _ _ _ Hok) as [_ Hlim]. unfold in_range in H1', H2'.
  assert (o <= max_arena_order (get_arena st' i))%nat as Hmo by (apply Hmax; [done|nia]).
  exists (map (fun j => p + Z.of_nat j * block_size o) (seq 0 n)). split_and!.
  - apply NoDup_fmap_2; [intros a b E; nia|apply NoDup_seq].
  - by rewrite length_map, length_seq.
  - intros q (j & -> & Hj%elem_of_seq)%list_elem_of_fmap. assert (Z.of_nat j + 1 <= Z.of_nat n) as Hjn by lia.
    assert ((Z.of_nat j + 1) * block_size o <= Z.of_nat n * block_size o) as Hle by (apply Z.mul_le_mono_nonneg_r; lia).
    split.
    + split_and!; [done|nia|nia|]. exists i. split; [done|]. split_and!; [done| |nia|nia].
      by rewrite Z.mod_add by lia.
    + rewrite block_bytes_size by lia. intros x Hx. exists i. split; [done|]. apply Hfree. unfold in_range in *. nia.
Qed.

End Boot.

(** ** Main theorems *)
Section Theorems.
Context `{Hhdm}.

(** C3. Boot: from a memory map whose usable regions are disjoint, non-null and
    inside the direct map (30 of them after the first, which the code skips on
    purpose), [buddy_allocator_init] terminates in a state that satisfies the
    allocator invariant, and the free memory is exactly the set of whole pages
    of those regions. *)
Theorem buddy_init_correct es e0 rest m :
  filter (fun e => e_type e = 0) es = e0 :: rest ->
  (length rest <= 30)%nat -> Forall region_ok rest -> ForallOrdPairs regions_apart rest ->
  exists m' st' G', buddy_allocator_init es m buddy_boot = Some (m', st') /\ buddy_ok m' st' G' /\
    buddy_free st' G' ≡ (fun x => exists e, e ∈ rest /\ region_pages e x).
Proof. apply buddy_init_spec. Qed.

(** C1. Allocation: [buddy_alloc_pages] keeps the invariant (chains intact,
    blocks aligned, disjoint and fully coalesced).  It returns 0 only when no
    list holds a block of the requested order or a larger one, and then changes
    nothing; otherwise the result is a positive address aligned to the block
    size, the block was free, exactly its bytes leave the free set, and nothing
    outside the remaining free memory is written. *)
Theorem buddy_alloc_correct m st G o m' st' p :
  buddy_ok m st G -> (o <= 20)%nat -> buddy_alloc_pages o m st = (m', st', p) ->
  (p = 0 /\ m' = m /\ st' = st /\
   forall j k, (j < arena_count st)%nat -> (o <= k)%nat -> G j k = []) \/
  (0 < p /\ p mod block_size o = 0 /\
   exists G', buddy_ok m' st' G' /\
     (forall x, in_range p (block_size o) x -> buddy_free st G x) /\
     buddy_free st' G' ≡ fminus (buddy_free st G) (in_range p (block_size o)) /\
     agree (fun v => ~ image (buddy_free st' G') v) m m').
Proof.
  intros Hok Ho E. pose proof (buddy_alloc_pages_spec m st G o Hok Ho) as Hs. rewrite E in Hs.
  destruct Hs as [?|(_ & G' & Hok' & (_ & Hp & _ & i & _ & _ & Hal & _) & _ & Hsub & Ef & Ha)];
    [by left|right]. split_and!; eauto.
Qed.

(** C2. Freeing: giving back a managed block that is not free always finishes,
    keeps the invariant (in particular every pair of free buddies is merged),
    adds exactly the bytes of the block to the free set and writes nothing
    outside free memory. *)
Theorem buddy_free_correct m st G p o :
  buddy_ok m st G -> buddy_block st p o ->
  (forall x, in_range p (block_size o) x -> ~ buddy_free st G x) ->
  exists m' st' G', buddy_free_pages p o m st = Some (m', st') /\ buddy_ok m' st' G' /\
    buddy_free st' G' ≡ fplus (buddy_free st G) (in_range p (block_size o)) /\
    agree (fun v => ~ image (buddy_free st' G') v) m m'.
Proof.
  intros Hok Hb Hfr. destruct (buddy_free_pages_spec m st G p o Hok Hb Hfr) as
    (m' & st' & G' & ? & ? & _ & ? & ?). eauto 8.
Qed.

(** C4. Round trip: freeing what [buddy_alloc_pages] returned restores the set
    of free bytes, and no byte outside it has changed. *)
Theorem buddy_alloc_free_roundtrip m st G o m1 st1 p :
  buddy_ok m st G -> (o <= 20)%nat -> buddy_alloc_pages o m st = (m1, st1, p) -> p <> 0 ->
  exists m2 st2 G2, buddy_free_pages p o m1 st1 = Some (m2, st2) /\ buddy_ok m2 st2 G2 /\
    buddy_free st2 G2 ≡ buddy_free st G /\
    agree (fun v => ~ image (buddy_free st G) v) m m2.
Proof.
  intros Hok Ho E Hp. pose proof (buddy_alloc_pages_spec m st G o Hok Ho) as Hs. rewrite E in Hs.
  destruct Hs as [[? _]|(_ & G1 & Hok1 & Hb & _ & Hsub & Ef & Ha)]; [done|].
  destruct (buddy_free_pages_spec m1 st1 G1 p o Hok1 Hb) as (m2 & st2 & G2 & E2 & Hok2 & _ & Ef2 & Ha2).
  { intros x Hx [_ Hn]%(Ef x). done. }
  assert (buddy_free st2 G2 ≡ buddy_free st G) as E'.
  { rewrite Ef2, Ef. intros x. unfold fplus, fminus.
    destruct (decide (p <= x < p + block_size o)) as [Hr|Hr]; [|unfold in_range; tauto].
    specialize (Hsub x Hr). unfold in_range. tauto. }
  exists m2, st2, G2. split_and!; try done.
  etransitivity; [eapply agree_sub; [exact Ha|]|eapply agree_sub; [exact Ha2|]];
    unfold image; intros v Hv Hc; apply Hv; [by apply (Ef _) in Hc as []|by apply (E' _)].
Qed.

(** Guards: a request above the largest order fails, and freeing an address
    that no arena holds (or with an order out of range) changes nothing. *)
Theorem buddy_guards m st p o :
  ((20 < o)%nat -> buddy_alloc_pages o m st = (m, st, 0)) /\
  ((20 < o)%nat \/ find_arena (arena_count st) 0 st p = None ->
   buddy_free_pages p o m st = Some (m, st)).
Proof.
  unfold buddy_alloc_pages, buddy_free_pages, MAX_SUPPORTED_ORDER, arena_count.
  destruct (Nat.ltb_spec 20 o); split; try done; try lia. intros [?| ->]; [lia|done].
Qed.

End Theorems.

(** ** Witnesses: a machine with two usable regions above the first *)

Definition demo_map : list memmap_entry :=
  [ mk_entry 0 0x9f000 0; mk_entry 0x9f000 0x1000 1;
    mk_entry 0x100000 0x10000 0; mk_entry 0x200800 0x9000 0 ].

Lemma demo_regions :
  Forall (region_ok (H := qemu_hhdm)) [mk_entry 0x100000 0x10000 0; mk_entry 0x200800 0x9000 0] /\
  ForallOrdPairs regions_apart [mk_entry 0x100000 0x10000 0; mk_entry 0x200800 0x9000 0].
Proof.
  split; [repeat constructor; vm_compute; congruence|].
  constructor; [|repeat constructor]. constructor; [left; vm_compute; congruence|constructor].
Qed.

Lemma buddy_init_witness :
  exists m st G, buddy_allocator_init (H := qemu_hhdm) demo_map ∅ buddy_boot = Some (m, st) /\
    buddy_ok (H := qemu_hhdm) m st G /\ buddy_arena_counter st = 4.
Proof.
  destruct (buddy_init_correct (H := qemu_hhdm) demo_map (mk_entry 0 0x9f000 0)
    [mk_entry 0x100000 0x10000 0; mk_entry 0x200800 0x9000 0] ∅) as (m & st & G & E & Hok & _).
  - reflexivity.
  - simpl. lia.
  - apply demo_regions.
  - apply demo_regions.
  - exists m, st, G. split_and!; [exact E|exact Hok|].
    assert (fmap (fun r : mem * buddy_state => buddy_arena_counter r.2)
      (buddy_allocator_init (H := qemu_hhdm) demo_map ∅ buddy_boot) = Some 4) as E'
      by (vm_compute; reflexivity).
    rewrite E in E'. simpl in E'. congruence.
Defined.

Lemma demo_state :
  exists m st G, buddy_allocator_init (H := qemu_hhdm) demo_map ∅ buddy_boot = Some (m, st) /\
    buddy_ok (H := qemu_hhdm) m st G.
Proof.
  destruct (buddy_init_spec (H := qemu_hhdm) demo_map (mk_entry 0 0x9f000 0)
    [mk_entry 0x100000 0x10000 0; mk_entry 0x200800 0x9000 0] ∅) as (m & st & G & E & Hok & _);
    [reflexivity|simpl; lia|apply demo_regions|apply demo_regions|eauto].
Qed.

(** The result of an allocation on the booted machine, computed. *)
Definition demo_alloc (o : nat) : option Z :=
  r ← buddy_allocator_init (H := qemu_hhdm) demo_map ∅ buddy_boot;
  Some (buddy_alloc_pages (H := qemu_hhdm) o r.1 r.2).2.

Lemma demo_alloc_eq m st o :
  buddy_allocator_init (H := qemu_hhdm) demo_map ∅ buddy_boot = Some (m, st) ->
  demo_alloc o = Some (buddy_alloc_pages (H := qemu_hhdm) o m st).2.
Proof. intros E. unfold demo_alloc. by rewrite E. Qed.

Lemma buddy_alloc_witness :
  exists m st G m' st' G', buddy_ok (H := qemu_hhdm) m st G /\
    buddy_alloc_pages (H := qemu_hhdm) 1 m st = (m', st', 0x100000) /\
    buddy_ok (H := qemu_hhdm) m' st' G'.
Proof.
  destruct demo_state as (m & st & G & E & Hok).
  assert ((buddy_alloc_pages (H := qemu_hhdm) 1 m st).2 = 0x100000) as Ep.
  { apply Some_inj. rewrite <- (demo_alloc_eq m st 1 E). vm_compute. reflexivity. }
  destruct (buddy_alloc_pages (H := qemu_hhdm) 1 m st) as [[m' st'] p] eqn:Ea.
  simpl in Ep. subst p.
  destruct (buddy_alloc_correct (H := qemu_hhdm) m st G 1 m' st' 0x100000 Hok ltac:(lia) Ea)
    as [[? _]|(_ & _ & G' & Hok' & _)]; [discriminate|].
  exists m, st, G, m', st', G'. split_and!; assumption.
Defined.

Lemma buddy_free_witness :
  exists m st m' st' G', buddy_free_pages (H := qemu_hhdm) 0x100000 1 m st = Some (m', st') /\
    buddy_ok (H := qemu_hhdm) m' st' G'.
Proof.
  destruct demo_state as (m & st & G & E & Hok).
  assert ((buddy_alloc_pages (H := qemu_hhdm) 1 m st).2 = 0x100000) as Ep.
  { apply Some_inj. rewrite <- (demo_alloc_eq m st 1 E). vm_compute. reflexivity. }
  pose proof (buddy_alloc_pages_spec (H := qemu_hhdm) m st G 1 Hok ltac:(lia)) as Hs.
  destruct (buddy_alloc_pages (H := qemu_hhdm) 1 m st) as [[m1 st1] p]. simpl in Ep. subst p.
  destruct Hs as [[? _]|(_ & G1 & Hok1 & Hb & _ & _ & Ef & _)]; [discriminate|].
  destruct (buddy_free_correct (H := qemu_hhdm) m1 st1 G1 0x100000 1 Hok1 Hb)
    as (m2 & st2 & G2 & E2 & Hok2 & _).
  - intros x Hx Hf. apply (Ef x) in Hf. destruct Hf as [_ Hn]. exact (Hn Hx).
  - exists m1, st1, m2, st2, G2. split; assumption.
Defined.

Lemma buddy_roundtrip_witness :
  exists m st G m1 st1 m2 st2 G2, buddy_ok (H := qemu_hhdm) m st G /\
    buddy_alloc_pages (H := qemu_hhdm) 0 m st = (m1, st1, 0x100000) /\
    buddy_free_pages (H := qemu_hhdm) 0x100000 0 m1 st1 = Some (m2, st2) /\
    buddy_free st2 G2 ≡ buddy_free st G.
Proof.
  destruct demo_state as (m & st & G & E & Hok).
  assert ((buddy_alloc_pages (H := qemu_hhdm) 0 m st).2 = 0x100000) as Ep.
  { apply Some_inj. rewrite <- (demo_alloc_eq m st 0 E). vm_compute. reflexivity. }
  destruct (buddy_alloc_pages (H := qemu_hhdm) 0 m st) as [[m1 st1] p] eqn:Ea.
  simpl in Ep. subst p.
  destruct (buddy_alloc_free_roundtrip (H := qemu_hhdm) m st G 0 m1 st1 0x100000 Hok ltac:(lia) Ea)
    as (m2 & st2 & G2 & E2 & _ & Ef & _); [discriminate|].
  exists m, st, G, m1, st1, m2, st2, G2. split_and!; assumption.
Defined.

Lemma buddy_guards_witness :
  buddy_alloc_pages (H := qemu_hhdm) 21 ∅ buddy_boot = (∅, buddy_boot, 0) /\
  buddy_free_pages (H := qemu_hhdm) 0x1000 0 ∅ buddy_boot = Some (∅, buddy_boot).
Proof.
  split.
  - apply (buddy_guards (H := qemu_hhdm) ∅ buddy_boot 0 21). lia.
  - apply (buddy_guards (H := qemu_hhdm) ∅ buddy_boot 0x1000 0). right. reflexivity.
Defined.
