(* ===== verification/Chain.v ===== *)
(** * Singly linked lists in memory

    The NULL-terminated lists the kernel threads through its own structures:
    [lchain off m h l] says that following the link word at offset [off] from
    [h] visits the nodes [l].  Shared by the slab lists (offset 40), the lists
    of free objects (offset 8) and the region lists of a task. *)
From S2P Require Import Prelude Memory.

Fixpoint lchain (off : Z) (m : mem) (h : Z) (l : list Z) : Prop :=
  match l with
  | [] => h = 0
  | a :: l => h = a /\ a <> 0 /\ lchain off m (load 8 m (a + off)) l
  end.

(** The word a walk reads after passing [l], starting from the head [h]. *)
Definition link_after (off : Z) (m : mem) (h : Z) (l : list Z) : Z :=
  match last l with None => h | Some a => load 8 m (a + off) end.

Lemma lchain_agree off m m' h l :
  (forall a, a ∈ l -> agree (in_range (a + off) 8) m m') ->
  lchain off m h l -> lchain off m' h l.
Proof.
  revert h. induction l as [|a l IH]; intros h Hl Hc; [done|].
  destruct Hc as (-> & Hne & Hc). simpl. split_and!; try done.
  rewrite <- (load_agree 8 m m') by (apply Hl; by left).
  apply IH; [|done]. intros b Hb. apply Hl. by right.
Qed.

Lemma lchain_app off m h l1 l2 :
  lchain off m h (l1 ++ l2) -> lchain off m (link_after off m h l1) l2.
Proof.
  unfold link_after. revert h. induction l1 as [|a l1 IH]; intros h Hc; [done|].
  destruct Hc as (-> & _ & Hc). specialize (IH _ Hc). rewrite last_cons. by destruct (last l1).
Qed.

(** Writing the link of [q] so that the list continues with [l2]. *)
Lemma lchain_relink off m h l1 q r l2 v :
  0 <= v < 2 ^ 64 -> lchain off m v l2 ->
  (forall a, a ∈ l1 ++ l2 -> a + 8 <= q \/ q + 8 <= a) ->
  lchain off m h (l1 ++ q :: r) ->
  lchain off (store 8 m (q + off) v) h (l1 ++ q :: l2).
Proof.
  intros Hv H2. revert h. induction l1 as [|p l1 IH]; intros h Hd Hc.
  - destruct Hc as (-> & Hne & _). simpl. split_and!; try done.
    rewrite load8_store8 by done. eapply lchain_agree; [|exact H2].
    intros a Ha. apply agree_store. pose proof (Hd a Ha). unfold in_range. lia.
  - destruct Hc as (-> & Hne & Hc). simpl. split_and!; try done.
    rewrite load_store_ne by (pose proof (Hd p ltac:(by left)); lia).
    apply IH; [|done]. intros a Ha. apply Hd. by right.
Qed.

(** Removing one node: its predecessor, or the head, takes over its link. *)
Lemma lchain_unlink off m h l1 a l2 :
  lchain off m h (l1 ++ a :: l2) -> lchain off m (load 8 m (a + off)) l2.
Proof. intros Hc. apply lchain_app in Hc. by destruct Hc as (_ & _ & Hc). Qed.

Lemma lchain_nonnull off m h l a : lchain off m h l -> a ∈ l -> a <> 0.
Proof.
  revert h. induction l as [|b l IH]; intros h Hc Ha; [set_solver|].
  destruct Hc as (-> & Hne & Hc). apply elem_of_cons in Ha as [->|Ha]; eauto.
Qed.

(** Two descriptions of the same list agree. *)
Lemma lchain_det off m h l l' : lchain off m h l -> lchain off m h l' -> l = l'.
Proof.
  revert h l'. induction l as [|a l IH]; intros h [|b l']; simpl; naive_solver.
Qed.

(** ** Sums over lists *)

Definition lsum {A} (f : A -> Z) (l : list A) : Z := foldr (fun a s => f a + s) 0 l.

Lemma lsum_app {A} (f : A -> Z) l1 l2 : lsum f (l1 ++ l2) = lsum f l1 + lsum f l2.
Proof. induction l1 as [|a l1 IH]; simpl; [done|]. unfold lsum in *. simpl. lia. Qed.

Lemma lsum_perm {A} (f : A -> Z) l1 l2 : l1 ≡ₚ l2 -> lsum f l1 = lsum f l2.
Proof. unfold lsum. induction 1; simpl; lia. Qed.

Lemma lsum_ext {A} (f g : A -> Z) l : (forall a, a ∈ l -> f a = g a) -> lsum f l = lsum g l.
Proof.
  unfold lsum. induction l as [|a l IH]; intros E; [done|]. simpl.
  rewrite E by (by left). rewrite IH; [done|]. intros. apply E. by right.
Qed.

Lemma lsum_bounds {A} (f : A -> Z) l lo hi :
  (forall a, a ∈ l -> lo <= f a <= hi) ->
  Z.of_nat (length l) * lo <= lsum f l <= Z.of_nat (length l) * hi.
Proof.
  unfold lsum. induction l as [|a l IH]; intros Hb; simpl; [lia|].
  pose proof (Hb a ltac:(by left)). specialize (IH (fun b Hb' => Hb b ltac:(by right))). lia.
Qed.
