(* ===== verification/Slab.v ===== *)
(** * The slab allocator: data and operations

    Models src/kernel/arch/x86_64/memory/slab_allocator.c and its header.  The
    table of caches is a C global, kept as a list of records; slab headers and
    free objects are overlaid on the pages of the page allocator and live in
    the byte memory.  A [struct slab_cache *] is the address of an entry of the
    table, whose base [slab_caches_addr] the linker chooses.  The page
    allocator is any instance of [PageAllocator].  [None] is a list walk that
    has not finished within its fuel. *)
From S2P Require Import Prelude Memory PageAlloc.

(** Where the linker places the C global [slab_caches]. *)
Class Linker := {
  slab_caches_addr : Z;
  slab_caches_nonnull : 0 < slab_caches_addr;
  slab_caches_fit : slab_caches_addr + 8 * 72 <= 2 ^ 64;
}.

Module Slab.

Definition SLAB_MAGIC : Z := 0xCAFEBABEDEADBABE.
Definition OBJECT_POISON : Z := 0xDEADDEADDEADDEAD.
Definition PAGE_FRAME_SIZE : Z := 4096.

Definition slab_sizes : list Z := [16; 32; 64; 128; 256; 512; 1024; 2048].
Definition NUM_SLAB_SIZES : nat := length slab_sizes.

(** ** struct free_object: { uint64_t magic; struct free_object *next } *)
Definition obj_magic (m : mem) (o : Z) : Z := load 8 m o.
Definition obj_next (m : mem) (o : Z) : Z := load 8 m (o + 8).
Definition set_obj_magic (m : mem) (o v : Z) : mem := store 8 m o v.
Definition set_obj_next (m : mem) (o v : Z) : mem := store 8 m (o + 8) v.

(** ** struct slab: magic, cache, phys_addr, free_count, free_list, next *)
Definition sizeof_slab : Z := 48.
Definition slab_magic (m : mem) (s : Z) : Z := load 8 m s.
Definition slab_cache_ptr (m : mem) (s : Z) : Z := load 8 m (s + 8).
Definition slab_phys_addr (m : mem) (s : Z) : Z := load 8 m (s + 16).
Definition slab_free_count (m : mem) (s : Z) : Z := load 8 m (s + 24).
Definition slab_free_list (m : mem) (s : Z) : Z := load 8 m (s + 32).
Definition slab_next (m : mem) (s : Z) : Z := load 8 m (s + 40).
Definition set_slab_magic (m : mem) (s v : Z) : mem := store 8 m s v.
Definition set_slab_cache_ptr (m : mem) (s v : Z) : mem := store 8 m (s + 8) v.
Definition set_slab_phys_addr (m : mem) (s v : Z) : mem := store 8 m (s + 16) v.
Definition set_slab_free_count (m : mem) (s v : Z) : mem := store 8 m (s + 24) v.
Definition set_slab_free_list (m : mem) (s v : Z) : mem := store 8 m (s + 32) v.
Definition set_slab_next (m : mem) (s v : Z) : mem := store 8 m (s + 40) v.

(** ** struct slab_cache *)
Record slab_cache := mk_cache {
  object_size : Z;
  objects_per_slab : Z;
  slab_size : Z;
  full_slabs : Z;
  partial_slabs : Z;
  empty_slabs : Z;
  total_objects : Z;
  allocated_objects : Z;
  total_slabs : Z;
}.

(** The three lists of a cache, in the order [slab_remove_from_list] tries. *)
Inductive slab_list := Partial | Full | Empty.

Definition list_head (c : slab_cache) (k : slab_list) : Z :=
  match k with
  | Partial => partial_slabs c | Full => full_slabs c | Empty => empty_slabs c
  end.

Definition set_list_head (c : slab_cache) (k : slab_list) (v : Z) : slab_cache :=
  let '(mk_cache os n sz f p e t a ts) := c in
  match k with
  | Partial => mk_cache os n sz f v e t a ts
  | Full => mk_cache os n sz v p e t a ts
  | Empty => mk_cache os n sz f p v t a ts
  end.

Definition set_stats (c : slab_cache) (t a ts : Z) : slab_cache :=
  mk_cache (object_size c) (objects_per_slab c) (slab_size c)
    (full_slabs c) (partial_slabs c) (empty_slabs c) t a ts.

(** ** Initialisation *)

Definition calculate_objects_per_slab (object_size : Z) : Z :=
  let usable_space := 2 * PAGE_FRAME_SIZE - sizeof_slab in
  usable_space / object_size.

Definition slab_cache_init (object_size : Z) : slab_cache :=
  mk_cache object_size (calculate_objects_per_slab object_size) (2 * PAGE_FRAME_SIZE)
    0 0 0 0 0 0.

Definition slab_allocator_init : list slab_cache := slab_cache_init <$> slab_sizes.

Section Ops.
Context `{Hhdm} `{Linker} {P : Type} `{!PageAllocator P}.

(** The heap: memory, page allocator and the [slab_caches] table. *)
Record heap := mk_heap { h_mem : mem; h_pages : P; h_caches : list slab_cache }.

Definition set_mem (h : heap) (m : mem) : heap := mk_heap m (h_pages h) (h_caches h).
Definition set_cache (h : heap) (i : nat) (c : slab_cache) : heap :=
  mk_heap (h_mem h) (h_pages h) (<[i := c]> (h_caches h)).
Definition get_cache (h : heap) (i : nat) : slab_cache :=
  nth i (h_caches h) (slab_cache_init 0).

(** [&slab_caches[i]] and back. *)
Definition cache_ptr (i : nat) : Z := slab_caches_addr + 72 * Z.of_nat i.
Definition cache_index (p : Z) : nat := Z.to_nat ((p - slab_caches_addr) / 72).

(** ** slab_create *)

(** The loop that threads the objects on the slab's free list; [k] objects are
    already linked and [n] are left. *)
Fixpoint carve (n : nat) (k : Z) (m : mem) (slab osize : Z) : mem :=
  match n with
  | O => m
  | S n =>
    let obj := slab + sizeof_slab + k * osize in
    let m := set_obj_next m obj (slab_free_list m slab) in
    let m := set_slab_free_list m slab obj in
    carve n (k + 1) m slab osize
  end.

(** Returns the new slab, 0 (NULL) when there is no page left. *)
Definition slab_create (i : nat) (h : heap) : heap * Z :=
  let c := get_cache h i in
  let '(m, pg, phys_addr) := alloc_pages 1 (h_mem h) (h_pages h) in
  let h := mk_heap m pg (h_caches h) in
  if phys_addr =? 0 then (h, 0) else
  let slab := phys_to_virt phys_addr in
  let m := set_slab_cache_ptr m slab (cache_ptr i) in
  let m := set_slab_phys_addr m slab phys_addr in
  let m := set_slab_free_count m slab (objects_per_slab c) in
  let m := set_slab_next m slab 0 in
  let m := set_slab_magic m slab SLAB_MAGIC in
  let m := set_slab_free_list m slab 0 in
  let m := carve (Z.to_nat (objects_per_slab c)) 0 m slab (object_size c) in
  let m := set_slab_next m slab (empty_slabs c) in
  let c := set_list_head c Empty slab in
  let c := set_stats c (w64 (total_objects c + objects_per_slab c)) (allocated_objects c)
             (w64 (total_slabs c + 1)) in
  (set_cache (set_mem h m) i c, slab).

(** ** slab_remove_from_list *)

(** [struct slab **current]: a list head of the cache or a [next] field. *)
Inductive slab_cell := SHead (k : slab_list) | SNext (s : Z).

Definition read_scell (m : mem) (c : slab_cache) (p : slab_cell) : Z :=
  match p with SHead k => list_head c k | SNext s => slab_next m s end.

Definition write_scell (m : mem) (c : slab_cache) (p : slab_cell) (v : Z) : mem * slab_cache :=
  match p with SHead k => (m, set_list_head c k v) | SNext s => (set_slab_next m s v, c) end.

(** One list: the inner [while]; the flag tells whether the slab was found. *)
Fixpoint remove_walk (fuel : nat) (m : mem) (c : slab_cache) (p : slab_cell) (slab : Z)
    : option (mem * slab_cache * bool) :=
  match fuel with
  | O => None
  | S fuel =>
    let s := read_scell m c p in
    if s =? 0 then Some (m, c, false)
    else if s =? slab then
      let '(m, c) := write_scell m c p (slab_next m slab) in
      Some (set_slab_next m slab 0, c, true)
    else remove_walk fuel m c (SNext s) slab
  end.

Definition remove_fuel (c : slab_cache) : nat := S (Z.to_nat (total_slabs c)).

Fixpoint remove_lists (ks : list slab_list) (m : mem) (c : slab_cache) (slab : Z)
    : option (mem * slab_cache) :=
  match ks with
  | [] => Some (m, c)
  | k :: ks =>
    '(m, c, found) ← remove_walk (remove_fuel c) m c (SHead k) slab;
    if (found : bool) then Some (m, c) else remove_lists ks m c slab
  end.

Definition slab_remove_from_list (slab : Z) (i : nat) (h : heap) : option heap :=
  '(m, c) ← remove_lists [Partial; Full; Empty] (h_mem h) (get_cache h i) slab;
  Some (set_cache (set_mem h m) i c).

(** [slab->next = cache->list; cache->list = slab] *)
Definition push_slab (k : slab_list) (slab : Z) (i : nat) (h : heap) : heap :=
  let c := get_cache h i in
  set_cache (set_mem h (set_slab_next (h_mem h) slab (list_head c k))) i (set_list_head c k slab).

(** ** slab_alloc *)

(** The part after a slab with free objects was chosen. *)
Definition take_object (slab : Z) (i : nat) (h : heap) : option (heap * Z) :=
  let m := h_mem h in
  if slab_free_list m slab =? 0 then Some (h, 0) else
  let obj := slab_free_list m slab in
  let m := set_slab_free_list m slab (obj_next m obj) in
  let m := set_slab_free_count m slab (w64 (slab_free_count m slab - 1)) in
  let c := get_cache h i in
  let c := set_stats c (total_objects c) (w64 (allocated_objects c + 1)) (total_slabs c) in
  let h := set_cache (set_mem h m) i c in
  if slab_free_count m slab =? 0 then
    h ← slab_remove_from_list slab i h;
    Some (push_slab Full slab i h, obj)
  else if slab_free_count m slab =? w64 (objects_per_slab c - 1) then
    h ← slab_remove_from_list slab i h;
    Some (push_slab Partial slab i h, obj)
  else Some (h, obj).

Definition slab_alloc (i : nat) (h : heap) : option (heap * Z) :=
  let c := get_cache h i in
  if negb (partial_slabs c =? 0) then take_object (partial_slabs c) i h
  else if negb (empty_slabs c =? 0) then take_object (empty_slabs c) i h
  else
    let '(h, slab) := slab_create i h in
    if slab =? 0 then Some (h, 0) else take_object slab i h.

(** The first cache whose objects are large enough. *)
Fixpoint find_size (sizes : list Z) (i : nat) (size : Z) : option nat :=
  match sizes with
  | [] => None
  | sz :: sizes => if size <=? sz then Some i else find_size sizes (S i) size
  end.

Definition slab_alloc_size (size : Z) (h : heap) : option (heap * Z) :=
  match find_size slab_sizes 0 size with
  | Some i => slab_alloc i h
  | None => Some (h, 0)
  end.

(** ** slab_free *)
Definition slab_free (slab ptr : Z) (h : heap) : option heap :=
  if ptr =? 0 then Some h else
  if slab =? 0 then Some h else
  let m := h_mem h in
  let i := cache_index (slab_cache_ptr m slab) in
  let obj := ptr in
  let m := set_obj_magic m obj OBJECT_POISON in
  let m := set_obj_next m obj (slab_free_list m slab) in
  let m := set_slab_free_list m slab obj in
  let m := set_slab_free_count m slab (w64 (slab_free_count m slab + 1)) in
  let c := get_cache h i in
  let c := set_stats c (total_objects c) (w64 (allocated_objects c - 1)) (total_slabs c) in
  let h := set_cache (set_mem h m) i c in
  if slab_free_count m slab =? 1 then
    h ← slab_remove_from_list slab i h;
    Some (push_slab Partial slab i h)
  else if slab_free_count m slab =? objects_per_slab c then
    h ← slab_remove_from_list slab i h;
    Some (push_slab Empty slab i h)
  else Some h.

(** ** slab_find_containing, is_slab_address: 0 is NULL *)
Definition slab_find_containing (ptr : Z) (h : heap) : Z :=
  let m := h_mem h in
  let slab := Z.land ptr (Z.lnot (2 * PAGE_FRAME_SIZE - 1)) in
  if negb (slab_magic m slab =? SLAB_MAGIC) then 0 else
  if slab_cache_ptr m slab =? 0 then 0 else
  let c := get_cache h (cache_index (slab_cache_ptr m slab)) in
  let objects_start := slab + sizeof_slab in
  let objects_end := objects_start + objects_per_slab c * object_size c in
  if (objects_start <=? ptr) && (ptr <? objects_end) then slab else 0.

Definition is_slab_address (ptr : Z) (h : heap) : bool := negb (slab_find_containing ptr h =? 0).

(** ** slab_destroy *)
Definition slab_destroy (slab : Z) (h : heap) : option heap :=
  let i := cache_index (slab_cache_ptr (h_mem h) slab) in
  h ← slab_remove_from_list slab i h;
  let c := get_cache h i in
  let c := set_stats c (w64 (total_objects c - objects_per_slab c)) (allocated_objects c)
             (w64 (total_slabs c - 1)) in
  let h := set_cache h i c in
  '(m, pg) ← free_pages (slab_phys_addr (h_mem h) slab) 1 (h_mem h) (h_pages h);
  Some (mk_heap m pg (h_caches h)).

(** ** slab_cache_shrink *)

(** Skips the two slabs that are kept; [current] as a cell. *)
Fixpoint skip_kept (n : nat) (m : mem) (c : slab_cache) (p : slab_cell) : slab_cell :=
  match n with
  | O => p
  | S n => if read_scell m c p =? 0 then p else skip_kept n m c (SNext (read_scell m c p))
  end.

Fixpoint shrink_loop (fuel : nat) (i : nat) (p : slab_cell) (h : heap) : option heap :=
  match fuel with
  | O => None
  | S fuel =>
    let m := h_mem h in let c := get_cache h i in
    let rms := read_scell m c p in
    if rms =? 0 then Some h else
    let '(m, c) := write_scell m c p (slab_next m rms) in
    h ← slab_destroy rms (set_cache (set_mem h m) i c);
    shrink_loop fuel i p h
  end.

Definition slab_cache_shrink (i : nat) (h : heap) : option heap :=
  let c := get_cache h i in
  shrink_loop (remove_fuel c) i (skip_kept 2 (h_mem h) c (SHead Empty)) h.

(** ** slab_print_cache_stats: the numbers it prints *)
Definition slab_cache_stats (c : slab_cache) : Z * Z * Z * Z * Z :=
  (total_objects c, allocated_objects c, w64 (total_objects c - allocated_objects c),
   total_slabs c,
   if total_objects c =? 0 then 0 else w64 (allocated_objects c * 100) / total_objects c).

End Ops.

Arguments heap : clear implicits.
Arguments mk_heap {P} _ _ _.

End Slab.
