(* ===== verification/SlabProofs.v ===== *)
(** * The slab allocator: invariant

    Three layers.  [cache_lists] says that the three lists of a cache are
    well-linked and disjoint; [slab_ok] describes one slab (header fields and
    the list of its free objects); [cache_ok] adds the classification into
    partial, full and empty slabs and the statistics; [heap_ok] puts the caches
    next to the page allocator. *)
From S2P Require Import Prelude Memory PageAlloc Chain Slab.
Import Slab.

#[export] Instance slab_list_eq_dec : EqDecision slab_list.
Proof. solve_decision. Defined.

(** ** List heads *)

Lemma list_head_set c k v k' :
  list_head (set_list_head c k v) k' = if decide (k = k') then v else list_head c k'.
Proof. destruct c, k, k'; done. Qed.

(** A change of list heads keeps the sizes and the statistics. *)
Definition same_stats (c c' : slab_cache) : Prop :=
  object_size c' = object_size c /\ objects_per_slab c' = objects_per_slab c /\
  slab_size c' = slab_size c /\ total_objects c' = total_objects c /\
  allocated_objects c' = allocated_objects c /\ total_slabs c' = total_slabs c.

Lemma same_stats_set c k v : same_stats c (set_list_head c k v).
Proof. by destruct c, k. Qed.

Lemma same_stats_trans a b c : same_stats a b -> same_stats b c -> same_stats a c.
Proof. unfold same_stats. intuition congruence. Qed.

(** ** The lists of a cache *)

Definition all_slabs (L : slab_list -> list Z) : list Z := L Partial ++ L Full ++ L Empty.

Lemma elem_of_all_slabs L s : s ∈ all_slabs L <-> exists k, s ∈ L k.
Proof.
  unfold all_slabs. rewrite !elem_of_app. split.
  - intros [?|[?|?]]; eauto.
  - intros [[] ?]; auto.
Qed.

(** A slab occupies two pages, aligned to their size. *)
Definition slab_addr (s : Z) : Prop := 0 < s /\ s + 8192 <= 2 ^ 64 /\ s mod 8192 = 0.

Lemma slab_addr_disjoint s t :
  slab_addr s -> slab_addr t -> s <> t -> s + 8192 <= t \/ t + 8192 <= s.
Proof.
  intros (_ & _ & Hs) (_ & _ & Ht) Hne.
  pose proof (Z.div_mod s 8192). pose proof (Z.div_mod t 8192). lia.
Qed.

Record cache_lists (m : mem) (c : slab_cache) (L : slab_list -> list Z) : Prop := {
  cl_chain k : lchain 40 m (list_head c k) (L k);
  cl_nodup : NoDup (all_slabs L);
  cl_addr s : s ∈ all_slabs L -> slab_addr s;
}.

(** The [next] words of the slabs of a cache. *)
Definition next_words (L : slab_list -> list Z) (v : Z) : Prop :=
  exists s, s ∈ all_slabs L /\ in_range (s + 40) 8 v.

Lemma cl_unique m c L k k' s :
  cache_lists m c L -> s ∈ L k -> s ∈ L k' -> k = k'.
Proof.
  intros Hc Hk Hk'. pose proof (cl_nodup _ _ _ Hc) as Hnd. unfold all_slabs in Hnd.
  apply NoDup_app in Hnd as (_ & Hd1 & Hnd). apply NoDup_app in Hnd as (_ & Hd2 & _).
  destruct k, k'; try done; exfalso; set_solver.
Qed.

Lemma cl_nodup_list m c L k : cache_lists m c L -> NoDup (L k).
Proof.
  intros Hc. pose proof (cl_nodup _ _ _ Hc) as Hnd. unfold all_slabs in Hnd.
  apply NoDup_app in Hnd as (? & _ & Hnd). apply NoDup_app in Hnd as (? & _ & ?).
  by destruct k.
Qed.

(** Moving one slab out of or into a list, on the ghost side. *)
Lemma all_slabs_remove L k l1 s l2 :
  L k = l1 ++ s :: l2 -> all_slabs L ≡ₚ s :: all_slabs (<[k := l1 ++ l2]> L).
Proof.
  intros E. unfold all_slabs. destruct k; rewrite ?fn_lookup_insert, ?fn_lookup_insert_ne by done;
    rewrite E; solve_Permutation.
Qed.

Lemma all_slabs_cons L k s : all_slabs (<[k := s :: L k]> L) ≡ₚ s :: all_slabs L.
Proof.
  unfold all_slabs. destruct k; rewrite ?fn_lookup_insert, ?fn_lookup_insert_ne by done;
    solve_Permutation.
Qed.

Lemma head_word m c L k : cache_lists m c L -> 0 <= list_head c k < 2 ^ 64.
Proof.
  intros Hc. pose proof (cl_chain _ _ _ Hc k) as Hch.
  destruct (L k) as [|s l] eqn:E; simpl in Hch; [lia|]. destruct Hch as [-> _].
  destruct (cl_addr _ _ _ Hc s) as (? & ? & _); [|lia].
  apply elem_of_all_slabs. exists k. rewrite E. by left.
Qed.

(** ** Pushing a slab *)
Lemma cache_lists_push m c L k s :
  cache_lists m c L -> slab_addr s -> s ∉ all_slabs L ->
  let m' := set_slab_next m s (list_head c k) in
  cache_lists m' (set_list_head c k s) (<[k := s :: L k]> L) /\
  agree (fun v => ~ in_range (s + 40) 8 v) m m'.
Proof.
  intros Hc Hs Hn m'.
  assert (forall k', lchain 40 m' (list_head c k') (L k')) as Hch.
  { intros k'. eapply lchain_agree; [|apply Hc]. intros a Ha. apply agree_store.
    destruct (slab_addr_disjoint s a Hs) as [|]; [| |unfold in_range; lia..].
    - apply (cl_addr _ _ _ Hc). apply elem_of_all_slabs. eauto.
    - intros ->. apply Hn. apply elem_of_all_slabs. eauto. }
  split; [split|].
  - intros k'. rewrite list_head_set. case_decide as E.
    + subst k'. rewrite fn_lookup_insert. simpl. split_and!; [done|destruct Hs; lia|].
      unfold m', set_slab_next. rewrite load8_store8 by (by eapply head_word). apply Hch.
    + rewrite fn_lookup_insert_ne by done. apply Hch.
  - rewrite all_slabs_cons. apply NoDup_cons. split; [done|apply Hc].
  - intros t. rewrite all_slabs_cons, elem_of_cons. intros [->|?]; [done|by apply Hc].
  - apply agree_store. tauto.
Qed.

(** ** Removing a slab *)

Definition scell_after (k : slab_list) (l : list Z) : slab_cell :=
  match last l with None => SHead k | Some a => SNext a end.

Lemma read_scell_after m c k l :
  read_scell m c (scell_after k l) = link_after 40 m (list_head c k) l.
Proof. unfold scell_after, link_after. by destruct (last l). Qed.

Lemma remove_walk_step m c L k s fuel l1 l2 :
  cache_lists m c L -> L k = l1 ++ l2 -> (length l2 < fuel)%nat ->
  (s ∉ l2 /\ remove_walk fuel m c (scell_after k l1) s = Some (m, c, false)) \/
  (exists l2a l2b, l2 = l2a ++ s :: l2b /\
    remove_walk fuel m c (scell_after k l1) s =
      let '(m', c') := write_scell m c (scell_after k (l1 ++ l2a)) (slab_next m s) in
      Some (set_slab_next m' s 0, c', true)).
Proof.
  intros Hc. revert l1 fuel. induction l2 as [|x l2 IH]; intros l1 fuel E Hf;
    (destruct fuel as [|fuel]; [simpl in Hf; lia|]); cbn [remove_walk];
    pose proof (cl_chain _ _ _ Hc k) as Hch; rewrite E in Hch;
    apply lchain_app in Hch; rewrite read_scell_after.
  - left. simpl in Hch. rewrite Hch. split; [set_solver|done].
  - destruct Hch as (-> & Hne & _). rewrite (proj2 (Z.eqb_neq _ _)) by done.
    destruct (Z.eqb_spec x s) as [->|Hxs].
    + right. exists [], l2. split; [done|]. by rewrite app_nil_r.
    + replace (SNext x) with (scell_after k (l1 ++ [x]))
        by (unfold scell_after; by rewrite last_snoc).
      destruct (IH (l1 ++ [x]) fuel) as [[Hn ->]|(l2a & l2b & -> & ->)];
        [by rewrite <- app_assoc|simpl in Hf; lia|left; split; [set_solver|done]|].
      right. exists (x :: l2a), l2b. split; [done|]. by rewrite <- app_assoc.
Qed.

(** The stores of a removal leave the other slabs linked. *)
Lemma cache_lists_remove m c L k l1 s l2 :
  cache_lists m c L -> L k = l1 ++ s :: l2 ->
  let '(m', c') := write_scell m c (scell_after k l1) (slab_next m s) in
  cache_lists (set_slab_next m' s 0) c' (<[k := l1 ++ l2]> L) /\ same_stats c c' /\
  agree (fun v => ~ next_words L v) m (set_slab_next m' s 0).
Proof.
  intros Hc E.
  pose proof (all_slabs_remove L k l1 s l2 E) as Hperm.
  pose proof (cl_nodup _ _ _ Hc) as Hnd. rewrite Hperm in Hnd. apply NoDup_cons in Hnd as [Hs Hnd].
  assert (forall t, t ∈ all_slabs L -> slab_addr t) as Haddr by apply Hc.
  assert (s ∈ all_slabs L) as Hin by (rewrite Hperm; by left).
  assert (forall a b, a ∈ all_slabs L -> b ∈ all_slabs L -> a <> b -> a + 8 <= b \/ b + 8 <= a) as Hdis.
  { intros a b Ha Hb Hne. destruct (slab_addr_disjoint a b); auto; lia. }
  (* the chains after the predecessor was redirected *)
  assert (exists m', (exists c', write_scell m c (scell_after k l1) (slab_next m s) = (m', c') /\
      same_stats c c' /\ agree (fun v => ~ next_words L v) m m' /\
      forall k', lchain 40 m' (list_head c' k') ((<[k := l1 ++ l2]> L) k'))) as
    (m' & c' & -> & Hst & Ha & Hch).
  { pose proof (cl_chain _ _ _ Hc k) as Hck. rewrite E in Hck.
    pose proof (lchain_unlink _ _ _ _ _ _ Hck) as Hl2.
    destruct l1 as [|q l1 _] using rev_ind.
    - exists m, (set_list_head c k (slab_next m s)). split_and!; [done|apply same_stats_set|done|].
      intros k'. rewrite list_head_set. case_decide as Ek.
      + subst. by rewrite fn_lookup_insert.
      + rewrite fn_lookup_insert_ne by done. apply Hc.
    - unfold scell_after. rewrite last_snoc. simpl write_scell.
      assert (q ∈ all_slabs L) as Hq by (apply elem_of_all_slabs; exists k; rewrite E; set_solver).
      eexists _, c. split_and!; [done|done| |].
      + apply agree_store. intros v Hv Hr. apply Hv. by exists q.
      + intros k'. destruct (decide (k = k')) as [<-|Hk].
        * rewrite fn_lookup_insert, <- app_assoc. simpl. rewrite <- app_assoc in Hck; simpl in Hck.
          apply (lchain_relink _ _ _ l1 q (s :: l2) l2); [apply load8_range|done| |done].
          intros a Haa. pose proof (cl_nodup_list _ _ _ k Hc) as Hndk. rewrite E, <- app_assoc in Hndk.
          apply NoDup_app in Hndk as (_ & H1 & [H2 _]%NoDup_cons).
          apply Hdis; [apply elem_of_all_slabs; exists k; rewrite E; set_solver|done|set_solver].
        * rewrite fn_lookup_insert_ne by done. eapply lchain_agree; [|apply Hc].
          intros a Haa. apply agree_store. unfold in_range.
          assert (a + 8 <= q \/ q + 8 <= a); [|lia].
          apply Hdis; [apply elem_of_all_slabs; eauto|done|].
          intros ->. apply Hk. eapply cl_unique; [done| |done]. rewrite E. set_solver. }
  split_and!; [split|done|].
  - intros k'. eapply lchain_agree; [|apply Hch]. intros a Haa. apply agree_store.
    assert (a ∈ all_slabs (<[k:=l1 ++ l2]> L)) as Ha' by (apply elem_of_all_slabs; eauto).
    assert (a + 8 <= s \/ s + 8 <= a); [|unfold in_range; lia].
    apply Hdis; [rewrite Hperm; by right|done|]. by intros ->.
  - done.
  - intros t Ht. apply Haddr. rewrite Hperm. by right.
  - etransitivity; [exact Ha|]. apply agree_store. intros v Hv Hr. apply Hv. by exists s.
Qed.

Lemma length_list_le L k : (length (L k) <= length (all_slabs L))%nat.
Proof. unfold all_slabs. rewrite !length_app. destruct k; lia. Qed.

Lemma remove_walk_absent m c L k s :
  cache_lists m c L -> Z.of_nat (length (all_slabs L)) <= total_slabs c -> s ∉ L k ->
  remove_walk (remove_fuel c) m c (SHead k) s = Some (m, c, false).
Proof.
  intros Hc Hf Hn. pose proof (length_list_le L k).
  destruct (remove_walk_step m c L k s (remove_fuel c) [] (L k) Hc eq_refl) as
    [[_ ?]|(? & ? & E & _)]; [unfold remove_fuel; lia|done|].
  exfalso. apply Hn. rewrite E. set_solver.
Qed.

Lemma remove_walk_present m c L k s :
  cache_lists m c L -> Z.of_nat (length (all_slabs L)) <= total_slabs c -> s ∈ L k ->
  exists m' c' l1 l2, L k = l1 ++ s :: l2 /\
    remove_walk (remove_fuel c) m c (SHead k) s = Some (m', c', true) /\
    cache_lists m' c' (<[k := l1 ++ l2]> L) /\ same_stats c c' /\
    agree (fun v => ~ next_words L v) m m'.
Proof.
  intros Hc Hf Hin. pose proof (length_list_le L k).
  destruct (remove_walk_step m c L k s (remove_fuel c) [] (L k) Hc eq_refl) as
    [[? _]|(l1 & l2 & E & Ew)]; [unfold remove_fuel; lia|done|].
  pose proof (cache_lists_remove m c L k l1 s l2 Hc E) as Hr. simpl in Ew.
  destruct (write_scell _ _ _ _) as [m' c']. destruct Hr as (? & ? & ?).
  exists (set_slab_next m' s 0), c', l1, l2. split_and!; done.
Qed.

Lemma remove_lists_spec m c L k s :
  cache_lists m c L -> Z.of_nat (length (all_slabs L)) <= total_slabs c -> s ∈ L k ->
  exists m' c' l1 l2, L k = l1 ++ s :: l2 /\
    remove_lists [Partial; Full; Empty] m c s = Some (m', c') /\
    cache_lists m' c' (<[k := l1 ++ l2]> L) /\ same_stats c c' /\
    agree (fun v => ~ next_words L v) m m'.
Proof.
  intros Hc Hf Hin.
  destruct (remove_walk_present m c L k s Hc Hf Hin) as (m' & c' & l1 & l2 & E & Ew & ?).
  exists m', c', l1, l2. split; [done|]. split; [|done]. cbn [remove_lists].
  assert (forall k', k' <> k -> remove_walk (remove_fuel c) m c (SHead k') s = Some (m, c, false)) as Hn.
  { intros k' Hk. apply (remove_walk_absent m c L); [done|done|].
    intros ?. apply Hk. by eapply cl_unique. }
  destruct k; repeat (rewrite Hn by done; cbn [mbind option_bind]); by rewrite Ew.
Qed.

(** ** One slab *)

(** The objects of a slab. *)
Definition is_obj (c : slab_cache) (s o : Z) : Prop :=
  exists k, 0 <= k < objects_per_slab c /\ o = s + 48 + k * object_size c.

(** The sizes of a cache: at least two objects, all inside the two pages. *)
Definition sizes_ok (c : slab_cache) : Prop :=
  16 <= object_size c /\ 2 <= objects_per_slab c <= 509 /\
  48 + objects_per_slab c * object_size c <= 8192.

Lemma slab_sizes_ok i : (i < NUM_SLAB_SIZES)%nat -> sizes_ok (slab_cache_init (nth i slab_sizes 0)).
Proof.
  unfold NUM_SLAB_SIZES, slab_sizes, sizes_ok. simpl.
  intros Hi. do 8 (destruct i as [|i]; [vm_compute; intuition congruence|]). lia.
Qed.

Lemma is_obj_range c s o :
  sizes_ok c -> is_obj c s o -> s + 48 <= o /\ o + object_size c <= s + 8192.
Proof. intros (? & ? & ?) (k & Hk & ->). nia. Qed.

Lemma is_obj_disjoint c s o o' :
  sizes_ok c -> is_obj c s o -> is_obj c s o' -> o <> o' ->
  o + object_size c <= o' \/ o' + object_size c <= o.
Proof. intros (? & ? & ?) (k & Hk & ->) (k' & Hk' & ->) Hne. assert (k <> k') by congruence. nia. Qed.

(** A slab has room for [objects_per_slab] objects. *)
Lemma objs_count c s fl :
  sizes_ok c -> NoDup fl -> (forall o, o ∈ fl -> is_obj c s o) ->
  Z.of_nat (length fl) <= objects_per_slab c.
Proof.
  intros (? & ? & ?) Hnd Ho.
  pose proof (aligned_count ((fun x => x - s - 48) <$> fl) (object_size c) 0 (objects_per_slab c)) as Hc.
  rewrite length_fmap in Hc.
  assert (length fl <= Z.to_nat (objects_per_slab c))%nat; [|lia].
  apply Hc; [lia|lia|done| |].
  - apply NoDup_fmap_2; [|done]. intros x y. lia.
  - intros p (x & -> & Hx)%list_elem_of_fmap. destruct (Ho x Hx) as (k & Hk & ->).
    replace (s + 48 + k * object_size c - s - 48) with (k * object_size c) by lia.
    rewrite Z.mod_mul by lia. nia.
Qed.

Section Slabs.
Context `{Hhdm} `{Linker}.

Record slab_ok (m : mem) (i : nat) (c : slab_cache) (s : Z) (fl : list Z) : Prop := {
  sl_magic : slab_magic m s = SLAB_MAGIC;
  sl_cache : slab_cache_ptr m s = cache_ptr i;
  sl_phys : slab_phys_addr m s = s - hhdm_offset;
  sl_count : slab_free_count m s = Z.of_nat (length fl);
  sl_chain : lchain 8 m (slab_free_list m s) fl;
  sl_nodup : NoDup fl;
  sl_objs o : o ∈ fl -> is_obj c s o;
}.

(** The bytes [slab_ok] depends on: the header without its [next] word, and
    the free objects' first two words. *)
Definition slab_meta (s : Z) (fl : list Z) (v : Z) : Prop :=
  in_range s 40 v \/ exists o, o ∈ fl /\ in_range o 16 v.

Lemma slab_ok_agree m m' i c s fl :
  agree (slab_meta s fl) m m' -> slab_ok m i c s fl -> slab_ok m' i c s fl.
Proof.
  intros Ha Hok.
  assert (forall d, 0 <= d <= 32 -> load 8 m' (s + d) = load 8 m (s + d)) as E.
  { intros d Hd. symmetry. apply load_agree. eapply agree_sub; [exact Ha|].
    intros v Hv. left. unfold in_range in *. lia. }
  assert (load 8 m' s = load 8 m s) as E0 by (rewrite <- (Z.add_0_r s); apply E; lia).
  split; unfold slab_magic, slab_cache_ptr, slab_phys_addr, slab_free_count, slab_free_list;
    rewrite ?E0, ?E by lia; try apply Hok.
  eapply lchain_agree; [|apply Hok]. intros o Ho. eapply agree_sub; [exact Ha|].
  intros v Hv. right. exists o. split; [done|]. unfold in_range in *. lia.
Qed.

(** Only the sizes of the cache record matter to [slab_ok]. *)
Lemma slab_ok_sizes m i c c' s fl :
  object_size c' = object_size c -> objects_per_slab c' = objects_per_slab c ->
  slab_ok m i c s fl -> slab_ok m i c' s fl.
Proof.
  intros E1 E2 Hok. split; try apply Hok. intros o Ho.
  destruct (sl_objs _ _ _ _ _ Hok o Ho) as (k & ? & ->). exists k. by rewrite E1, E2.
Qed.

(** Nothing a slab's metadata shares with another slab's page. *)
Lemma slab_meta_page c s fl v :
  sizes_ok c -> (forall o, o ∈ fl -> is_obj c s o) -> slab_meta s fl v -> in_range s 8192 v.
Proof.
  intros Hsz Ho [Hv|(o & Hin & Hv)]; unfold in_range in *; [lia|].
  pose proof (is_obj_range c s o Hsz (Ho o Hin)). destruct Hsz. lia.
Qed.

Lemma slab_meta_next c s t fl v :
  sizes_ok c -> slab_addr s -> slab_addr t -> (forall o, o ∈ fl -> is_obj c s o) ->
  slab_meta s fl v -> ~ in_range (t + 40) 8 v.
Proof.
  intros Hsz Hs Ht Ho Hv. destruct (decide (s = t)) as [->|Hne].
  - destruct Hv as [Hv|(o & Hin & Hv)]; unfold in_range in *; [lia|].
    pose proof (is_obj_range c t o Hsz (Ho o Hin)). lia.
  - pose proof (slab_meta_page c s fl v Hsz Ho Hv).
    destruct (slab_addr_disjoint s t Hs Ht Hne); unfold in_range in *; lia.
Qed.

(** Changes of [next] words leave every slab in order. *)
Lemma slab_ok_next_words m m' i c L s fl :
  sizes_ok c -> (forall t, t ∈ all_slabs L -> slab_addr t) -> slab_addr s ->
  agree (fun v => ~ next_words L v) m m' -> slab_ok m i c s fl -> slab_ok m' i c s fl.
Proof.
  intros Hsz Hall Hs Ha Hok. eapply slab_ok_agree; [|exact Hok].
  eapply agree_sub; [exact Ha|]. intros v Hv (t & Ht & Hr).
  apply (slab_meta_next c s t fl v); auto. apply Hok.
Qed.

(** ** Taking and returning one object *)

Lemma slab_ok_take m i c s o fl :
  sizes_ok c -> slab_addr s -> slab_ok m i c s (o :: fl) ->
  let m1 := set_slab_free_list m s (obj_next m o) in
  let m2 := set_slab_free_count m1 s (w64 (slab_free_count m1 s - 1)) in
  slab_free_list m s = o /\ is_obj c s o /\ o ∉ fl /\
  slab_ok m2 i c s fl /\ slab_free_count m2 s = Z.of_nat (length fl) /\
  agree (fun v => ~ in_range (s + 24) 16 v) m m2.
Proof.
  intros Hsz Hs Hok m1 m2. pose proof (sl_chain _ _ _ _ _ Hok) as (Eo & Hne & Hch).
  pose proof (sl_nodup _ _ _ _ _ Hok) as [Hn Hnd]%NoDup_cons.
  pose proof (sl_count _ _ _ _ _ Hok) as Ecnt. simpl length in Ecnt.
  pose proof (objs_count c s _ Hsz (sl_nodup _ _ _ _ _ Hok) (sl_objs _ _ _ _ _ Hok)) as Hlen.
  simpl length in Hlen. pose proof (proj1 (proj2 Hsz)).
  assert (slab_free_count m1 s = slab_free_count m s) as E1.
  { unfold m1, set_slab_free_list, slab_free_count. rewrite load_store_ne by lia. done. }
  assert (m2 = store 8 (store 8 m (s + 32) (obj_next m o)) (s + 24) (Z.of_nat (length fl))) as Em2.
  { unfold m2. rewrite E1, Ecnt. unfold set_slab_free_count, m1, set_slab_free_list. f_equal.
    rewrite wrap_small; lia. }
  assert (agree (fun v => ~ in_range (s + 24) 16 v) m m2) as Ha.
  { rewrite Em2. intros v Hv. unfold in_range in Hv.
    rewrite !store_read8_out by (unfold in_range; lia). done. }
  split_and!; try done.
  - apply Hok. by left.
  - split; unfold slab_magic, slab_cache_ptr, slab_phys_addr, slab_free_count, slab_free_list.
    1-3: rewrite Em2, !load_store_ne by lia; apply Hok.
    + rewrite Em2, load8_store8 by lia. done.
    + rewrite Em2, load_store_ne by lia. rewrite load8_store8 by apply load8_range.
      rewrite <- Em2. eapply lchain_agree; [|exact Hch]. intros x Hx.
      eapply agree_sub; [exact Ha|]. intros v Hv.
      pose proof (is_obj_range c s x Hsz (sl_objs _ _ _ _ _ Hok x ltac:(by right))).
      unfold in_range in *. lia.
    + done.
    + intros x Hx. apply Hok. by right.
  - rewrite Em2. unfold slab_free_count. rewrite load8_store8 by lia. done.
Qed.

Lemma slab_ok_give m i c s o fl :
  sizes_ok c -> slab_addr s -> slab_ok m i c s fl -> is_obj c s o -> o ∉ fl ->
  let m1 := set_obj_magic m o OBJECT_POISON in
  let m2 := set_obj_next m1 o (slab_free_list m1 s) in
  let m3 := set_slab_free_list m2 s o in
  let m4 := set_slab_free_count m3 s (w64 (slab_free_count m3 s + 1)) in
  slab_ok m4 i c s (o :: fl) /\
  slab_free_count m4 s = Z.of_nat (length (o :: fl)) /\
  agree (fun v => ~ in_range (s + 24) 16 v /\ ~ in_range o 16 v) m m4.
Proof.
  intros Hsz Hs Hok Ho Hn m1 m2 m3 m4.
  pose proof (is_obj_range c s o Hsz Ho) as Hor. pose proof Hsz as (Hos & Hops & _).
  pose proof Hs as (Hs0 & Hs1 & _).
  pose proof (objs_count c s _ Hsz (sl_nodup _ _ _ _ _ Hok) (sl_objs _ _ _ _ _ Hok)) as Hlen.
  set (n := Z.of_nat (length (o :: fl))).
  assert (m4 = store 8 (store 8 (store 8 (store 8 m o OBJECT_POISON) (o + 8) (slab_free_list m s))
                (s + 32) o) (s + 24) n) as Em.
  { unfold m4, set_slab_free_count. f_equal; [|].
    - unfold m3, set_slab_free_list, m2, set_obj_next. do 2 f_equal.
      unfold slab_free_list, m1, set_obj_magic. apply load_store_ne. lia.
    - unfold m3, m2, m1, slab_free_count, set_slab_free_list, set_obj_next, set_obj_magic.
      rewrite !load_store_ne by lia. fold (slab_free_count m s).
      rewrite (sl_count _ _ _ _ _ Hok). rewrite wrap_small by lia. unfold n. simpl. lia. }
  assert (agree (fun v => ~ in_range (s + 24) 16 v /\ ~ in_range o 16 v) m m4) as Ha.
  { rewrite Em. intros v [H1 H2]. unfold in_range in H1, H2.
    rewrite !store_read8_out by (unfold in_range; lia). done. }
  assert (slab_free_count m4 s = n) as Ecnt.
  { rewrite Em. unfold slab_free_count. rewrite load8_store8; [done|]. unfold n. simpl. lia. }
  split_and!; [|done|done].
  split; unfold slab_magic, slab_cache_ptr, slab_phys_addr, slab_free_list.
  1-3: rewrite Em, !load_store_ne by lia; apply Hok.
  - done.
  - rewrite Em, load_store_ne, load8_store8 by lia. rewrite <- Em.
    simpl. split_and!; [done|lia|].
    rewrite Em at 2. rewrite !load_store_ne by lia. rewrite load8_store8 by apply load8_range.
    eapply lchain_agree; [|apply Hok]. intros x Hx. eapply agree_sub; [exact Ha|].
    intros v Hv. pose proof (is_obj_range c s x Hsz (sl_objs _ _ _ _ _ Hok x Hx)).
    destruct (is_obj_disjoint c s o x Hsz Ho (sl_objs _ _ _ _ _ Hok x Hx)) as [|];
      [by intros ->|unfold in_range in *; lia..].
  - apply NoDup_cons. split; [done|apply Hok].
  - intros x [->|Hx]%elem_of_cons; [done|by apply Hok].
Qed.

(** ** Carving a new slab *)

Definition objs (c : slab_cache) (s k n : Z) : list Z :=
  (fun j => s + 48 + j * object_size c) <$> seqZ k n.

Lemma carve_spec c s n k m fl :
  16 <= object_size c -> 0 <= k -> 0 < s ->
  s + 48 + (k + Z.of_nat n) * object_size c <= 2 ^ 64 ->
  lchain 8 m (slab_free_list m s) fl ->
  (forall o, o ∈ fl -> s + 48 <= o /\ o + 16 <= s + 48 + k * object_size c) ->
  let m' := carve n k m s (object_size c) in
  lchain 8 m' (slab_free_list m' s) (reverse (objs c s k (Z.of_nat n)) ++ fl) /\
  agree (fun v => ~ in_range (s + 32) 8 v /\ ~ in_range (s + 48) ((k + Z.of_nat n) * object_size c) v) m m'.
Proof.
  intros Hos Hk Hs. revert k m fl Hk. induction n as [|n IH]; intros k m fl Hk Hb Hch Hfl.
  - simpl. done.
  - cbn [carve]. unfold sizeof_slab.
    set (o := s + 48 + k * object_size c).
    set (m1 := set_obj_next m o (slab_free_list m s)). set (m2 := set_slab_free_list m1 s o).
    assert (s + 48 <= o /\ o + 16 <= s + 48 + (k + 1) * object_size c) as [Ho1 Ho2] by (unfold o; nia).
    destruct (IH (k + 1) m2 (o :: fl)) as [H1 H2].
    + lia.
    + replace (k + 1 + Z.of_nat n) with (k + Z.of_nat (S n)) by lia. done.
    + unfold m2, m1, set_slab_free_list, set_obj_next, slab_free_list. rewrite load8_store8 by nia.
      simpl. split_and!; [done|lia|].
      rewrite load_store_ne by lia. rewrite load8_store8 by apply load8_range.
      eapply lchain_agree; [|exact Hch]. intros x Hx. pose proof (Hfl x Hx).
      intros v Hv. unfold in_range, o in *. rewrite !store_read8_out; [done|unfold in_range, o in *; lia..].
    + intros x [->|Hx]%elem_of_cons; [lia|]. pose proof (Hfl x Hx). lia.
    + cbv zeta. split.
      * replace (reverse (objs c s k (Z.of_nat (S n))) ++ fl)
          with (reverse (objs c s (k + 1) (Z.of_nat n)) ++ o :: fl); [done|].
        unfold objs. rewrite (seqZ_cons k) by lia. rewrite fmap_cons, reverse_cons, <- app_assoc. simpl.
        replace (Z.pred (Z.of_nat (S n))) with (Z.of_nat n) by lia.
        by replace (Z.succ k) with (k + 1) by lia.
      * transitivity m2.
        -- intros v [Hv1 Hv2]. unfold m2, m1, set_slab_free_list, set_obj_next.
           unfold in_range in Hv1, Hv2. rewrite !store_read8_out; [done|unfold in_range; nia..].
        -- eapply agree_sub; [exact H2|]. intros v [Hv1 Hv2]. split; [done|].
           by replace (k + 1 + Z.of_nat n) with (k + Z.of_nat (S n)) by lia.
Qed.

Lemma elem_of_objs c s o : o ∈ objs c s 0 (objects_per_slab c) <-> is_obj c s o.
Proof.
  unfold objs, is_obj. rewrite list_elem_of_fmap. setoid_rewrite elem_of_seqZ.
  split; intros (k & ? & ?); exists k; split; lia.
Qed.

Lemma objs_nodup c s n : 0 < object_size c -> NoDup (objs c s 0 n).
Proof. intros. apply NoDup_fmap_2; [|apply NoDup_seqZ]. intros x y. nia. Qed.

End Slabs.
