(* ===== verification/SlabHeap.v ===== *)
(** * The slab allocator: caches and the heap

    [cache_core] is a cache whose slabs are linked and in order and whose
    statistics are exact; [classified] says that every slab is on the list its
    free count asks for; [heap_ok] puts the eight caches and the page allocator
    side by side.  The ghost arguments are the three lists of each cache and
    the free objects of each slab. *)
From S2P Require Import Prelude Memory PageAlloc Chain Slab SlabProofs.
Import Slab.

(** ** One cache *)

(** The list a slab with [n] free objects belongs on. *)
Definition class_ok (c : slab_cache) (k : slab_list) (n : Z) : Prop :=
  match k with
  | Partial => 0 < n < objects_per_slab c
  | Full => n = 0
  | Empty => n = objects_per_slab c
  end.

Definition classified (c : slab_cache) (L : slab_list -> list Z) (fl : Z -> list Z) : Prop :=
  forall k s, s ∈ L k -> class_ok c k (Z.of_nat (length (fl s))).

(** The objects in use of a cache. *)
Definition in_use (c : slab_cache) (fl : Z -> list Z) (s : Z) : Z :=
  objects_per_slab c - Z.of_nat (length (fl s)).

Section Caches.
Context `{Hhdm} `{Linker}.

Record cache_core (m : mem) (i : nat) (c : slab_cache) (L : slab_list -> list Z)
    (fl : Z -> list Z) : Prop := {
  ck_sizes : sizes_ok c;
  ck_lists : cache_lists m c L;
  ck_slab s : s ∈ all_slabs L -> slab_ok m i c s (fl s);
  ck_slabs : total_slabs c = Z.of_nat (length (all_slabs L));
  ck_objects : total_objects c = total_slabs c * objects_per_slab c;
  ck_allocated : allocated_objects c = lsum (in_use c fl) (all_slabs L);
}.

(** Address space bounds the number of slabs. *)
Lemma slabs_bound m c L : cache_lists m c L -> Z.of_nat (length (all_slabs L)) <= 2 ^ 51.
Proof.
  intros Hc. pose proof (aligned_count (all_slabs L) 8192 0 (2 ^ 51)) as Hb.
  assert (length (all_slabs L) <= Z.to_nat (2 ^ 51))%nat; [|lia].
  apply Hb; [lia|lia|done|apply Hc|]. intros p Hp. destruct (cl_addr _ _ _ Hc p Hp) as (? & ? & ?). lia.
Qed.

Lemma in_use_bounds m i c L fl s :
  cache_core m i c L fl -> s ∈ all_slabs L -> 0 <= in_use c fl s <= 509.
Proof.
  intros Hc Hs. pose proof (ck_slab _ _ _ _ _ Hc s Hs) as Hok. unfold in_use.
  pose proof (objs_count c s _ (ck_sizes _ _ _ _ _ Hc) (sl_nodup _ _ _ _ _ Hok) (sl_objs _ _ _ _ _ Hok)).
  destruct (ck_sizes _ _ _ _ _ Hc) as (_ & ? & _). lia.
Qed.

(** The counters never come near their 64 bits. *)
Lemma stats_bound m i c L fl :
  cache_core m i c L fl ->
  0 <= total_slabs c <= 2 ^ 51 /\ 0 <= total_objects c <= 2 ^ 60 /\ 0 <= allocated_objects c <= 2 ^ 60.
Proof.
  intros Hc. pose proof (slabs_bound _ _ _ (ck_lists _ _ _ _ _ Hc)).
  destruct (ck_sizes _ _ _ _ _ Hc) as (_ & ? & _).
  pose proof (lsum_bounds (in_use c fl) (all_slabs L) 0 509
    (fun s Hs => in_use_bounds m i c L fl s Hc Hs)).
  rewrite (ck_objects _ _ _ _ _ Hc), (ck_allocated _ _ _ _ _ Hc), (ck_slabs _ _ _ _ _ Hc). nia.
Qed.

Lemma core_fuel m i c L fl :
  cache_core m i c L fl -> Z.of_nat (length (all_slabs L)) <= total_slabs c.
Proof. intros Hc. rewrite (ck_slabs _ _ _ _ _ Hc). lia. Qed.

Lemma lsum_insert (c : slab_cache) fl s fls l :
  NoDup l -> s ∈ l ->
  lsum (in_use c (<[s := fls]> fl)) l =
  lsum (in_use c fl) l + (Z.of_nat (length (fl s)) - Z.of_nat (length fls)).
Proof.
  intros Hnd (l1 & l2 & ->)%list_elem_of_split.
  apply NoDup_app in Hnd as (_ & Hd & [Hn _]%NoDup_cons).
  rewrite !lsum_app. unfold lsum at 2 4; simpl. fold (lsum (in_use c (<[s:=fls]> fl)) l2).
  fold (lsum (in_use c fl) l2).
  rewrite (lsum_ext (in_use c (<[s:=fls]> fl)) (in_use c fl) l1), (lsum_ext (in_use c (<[s:=fls]> fl)) (in_use c fl) l2).
  - unfold in_use at 2 5. rewrite fn_lookup_insert. lia.
  - intros a Ha. unfold in_use. rewrite fn_lookup_insert_ne; [done|]. by intros ->.
  - intros a Ha. unfold in_use. rewrite fn_lookup_insert_ne; [done|]. intros ->. apply (Hd a Ha). by left.
Qed.

(** ** Changing the free objects of one slab *)

(** The bytes of a slab page that an object operation may write. *)
Definition slab_body (s v : Z) : Prop := in_range s 40 v \/ in_range (s + 48) 8144 v.

Lemma core_change m m' i c L fl s fls :
  cache_core m i c L fl -> s ∈ all_slabs L ->
  slab_ok m' i c s fls -> agree (fun v => ~ slab_body s v) m m' ->
  cache_core m' i
    (set_stats c (total_objects c)
       (w64 (allocated_objects c + (Z.of_nat (length (fl s)) - Z.of_nat (length fls)))) (total_slabs c))
    L (<[s := fls]> fl).
Proof.
  intros Hc Hs Hok Ha. pose proof (ck_sizes _ _ _ _ _ Hc) as Hsz.
  pose proof (ck_lists _ _ _ _ _ Hc) as HL. pose proof (stats_bound _ _ _ _ _ Hc) as Hb.
  pose proof (cl_addr _ _ _ HL) as Haddr.
  pose proof (objs_count c s _ Hsz (sl_nodup _ _ _ _ _ Hok) (sl_objs _ _ _ _ _ Hok)).
  pose proof (lsum_insert c fl s fls (all_slabs L) (cl_nodup _ _ _ HL) Hs) as Hsum.
  rewrite <- (ck_allocated _ _ _ _ _ Hc) in Hsum.
  assert (forall t, t ∈ all_slabs L -> t <> s -> agree (in_range t 8192) m m') as Hother.
  { intros t Ht Hne. eapply agree_sub; [exact Ha|]. intros v Hv Hbody.
    destruct (slab_addr_disjoint s t (Haddr s Hs) (Haddr t Ht)); [done|..];
      unfold slab_body, in_range in *; lia. }
  split; try apply Hc.
  - split; [|apply HL|apply HL]. intros k. eapply lchain_agree; [|apply HL].
    intros t Ht. assert (t ∈ all_slabs L) as Ht' by (apply elem_of_all_slabs; eauto).
    destruct (decide (t = s)) as [->|Hne].
    + eapply agree_sub; [exact Ha|]. unfold slab_body, in_range. lia.
    + eapply agree_sub; [by apply Hother|]. unfold in_range. lia.
  - intros t Ht. apply (slab_ok_sizes _ _ c); try done. destruct (decide (t = s)) as [->|Hne].
    + by rewrite fn_lookup_insert.
    + rewrite fn_lookup_insert_ne by done. pose proof (ck_slab _ _ _ _ _ Hc t Ht) as Hokt.
      eapply slab_ok_agree; [|exact Hokt]. eapply agree_sub; [by apply Hother|].
      intros v. apply (slab_meta_page c); [done|apply Hokt].
  - simpl. rewrite <- Hsum. change (in_use _ (<[s:=fls]> fl)) with (in_use c (<[s:=fls]> fl)) at 2.
    apply wrap_small.
    pose proof (slabs_bound _ _ _ HL).
    pose proof (lsum_bounds (in_use c (<[s:=fls]> fl)) (all_slabs L) 0 509) as Hpos.
    enough (forall t, t ∈ all_slabs L -> 0 <= in_use c (<[s:=fls]> fl) t <= 509) as Ht;
      [specialize (Hpos Ht); lia|].
    intros t Ht. unfold in_use. destruct (decide (t = s)) as [->|Hne].
    + rewrite fn_lookup_insert. destruct Hsz as (_ & ? & _). lia.
    + rewrite fn_lookup_insert_ne by done. by apply (in_use_bounds m i c L fl).
Qed.

(** ** Moving a slab to another list *)

Lemma core_move m i c L fl s k k' :
  cache_core m i c L fl -> s ∈ L k ->
  exists m1 c1 L',
    remove_lists [Partial; Full; Empty] m c s = Some (m1, c1) /\
    cache_core (set_slab_next m1 s (list_head c1 k')) i (set_list_head c1 k' s) L' fl /\
    objects_per_slab c1 = objects_per_slab c /\ object_size c1 = object_size c /\
    all_slabs L' ≡ₚ all_slabs L /\
    (forall t j, t ∈ L' j -> (t = s /\ j = k') \/ (t <> s /\ t ∈ L j)) /\
    agree (fun v => ~ next_words L v) m (set_slab_next m1 s (list_head c1 k')).
Proof.
  intros Hc Hs. pose proof (ck_lists _ _ _ _ _ Hc) as HL.
  destruct (remove_lists_spec m c L k s HL (core_fuel _ _ _ _ _ Hc) Hs)
    as (m1 & c1 & l1 & l2 & E & Er & HL1 & (Es1 & Es2 & Es3 & Es4 & Es5 & Es6) & Ha1).
  set (L1 := <[k := l1 ++ l2]> L) in *.
  pose proof (all_slabs_remove L k l1 s l2 E) as Hp. fold L1 in Hp.
  pose proof (cl_nodup _ _ _ HL) as Hnd. rewrite Hp in Hnd. apply NoDup_cons in Hnd as [Hn _].
  assert (s ∈ all_slabs L) as Hin by (rewrite Hp; by left).
  destruct (cache_lists_push m1 c1 L1 k' s HL1 (cl_addr _ _ _ HL s Hin) Hn) as [HL2 Ha2].
  set (m2 := set_slab_next m1 s (list_head c1 k')) in *.
  set (L2 := <[k' := s :: L1 k']> L1) in *.
  assert (all_slabs L2 ≡ₚ all_slabs L) as Hp2 by (unfold L2; by rewrite all_slabs_cons, Hp).
  assert (agree (fun v => ~ next_words L v) m m2) as Ha.
  { etransitivity; [exact Ha1|]. eapply agree_sub; [exact Ha2|]. intros v Hv Hr. apply Hv. by exists s. }
  destruct (same_stats_set c1 k' s) as (Et1 & Et2 & Et3 & Et4 & Et5 & Et6).
  exists m1, c1, L2. split_and!; try done.
  - split.
    + pose proof (ck_sizes _ _ _ _ _ Hc) as Hsz. unfold sizes_ok in *. by rewrite Et1, Et2, Es1, Es2.
    + done.
    + intros t Ht. rewrite Hp2 in Ht. apply (slab_ok_sizes _ _ c); [by rewrite Et1|by rewrite Et2|].
      apply (slab_ok_next_words m _ _ _ L); try done; [apply Hc|apply HL|by apply HL|by apply Hc].
    + rewrite Et6, Es6, Hp2. apply Hc.
    + rewrite Et4, Et6, Et2, Es4, Es6, Es2. apply Hc.
    + rewrite Et5, Es5, (ck_allocated _ _ _ _ _ Hc), (lsum_perm _ _ _ Hp2).
      apply lsum_ext. intros t _. unfold in_use. by rewrite Et2, Es2.
  - intros t j Ht. unfold L2 in Ht.
    assert (forall j, t ∈ L1 j -> t <> s /\ t ∈ L j) as HL1L.
    { intros j' Ht'. split; [intros ->; apply Hn; apply elem_of_all_slabs; eauto|].
      unfold L1 in Ht'. destruct (decide (k = j')) as [<-|Hk].
      - rewrite fn_lookup_insert in Ht'. rewrite E. set_solver.
      - by rewrite fn_lookup_insert_ne in Ht'. }
    destruct (decide (k' = j)) as [<-|Hk].
    + rewrite fn_lookup_insert in Ht. apply elem_of_cons in Ht as [->|Ht]; auto.
    + rewrite fn_lookup_insert_ne in Ht by done. auto.
Qed.

End Caches.

(** ** The heap *)

Section Heap.
Context `{Hhdm} `{Linker} {P : Type} `{!PageAllocator P}.

Implicit Types h : heap P.

Notation ghost_lists := (nat -> slab_list -> list Z).

Record heap_ok h (F : Z -> Prop) (Ls : ghost_lists) (fl : Z -> list Z) : Prop := {
  ho_pages : pa_inv (h_mem h) (h_pages h) F;
  ho_len : length (h_caches h) = NUM_SLAB_SIZES;
  ho_core i : (i < NUM_SLAB_SIZES)%nat -> cache_core (h_mem h) i (get_cache h i) (Ls i) fl;
  ho_class i : (i < NUM_SLAB_SIZES)%nat -> classified (get_cache h i) (Ls i) fl;
  ho_size i : (i < NUM_SLAB_SIZES)%nat -> object_size (get_cache h i) = nth i slab_sizes 0;
  ho_ops i : (i < NUM_SLAB_SIZES)%nat ->
    objects_per_slab (get_cache h i) = calculate_objects_per_slab (nth i slab_sizes 0);
  ho_apart i j s : (i < NUM_SLAB_SIZES)%nat -> (j < NUM_SLAB_SIZES)%nat ->
    s ∈ all_slabs (Ls i) -> s ∈ all_slabs (Ls j) -> i = j;
  ho_block i s : (i < NUM_SLAB_SIZES)%nat -> s ∈ all_slabs (Ls i) ->
    pa_block (h_pages h) (s - hhdm_offset) 1 /\
    (forall x, in_range (s - hhdm_offset) 8192 x -> ~ F x);
}.

(** The bytes the allocator keeps for itself inside its slabs: the headers
    and the link and magic words of free objects. *)
Definition heap_meta (Ls : ghost_lists) (fl : Z -> list Z) (v : Z) : Prop :=
  exists i s, (i < NUM_SLAB_SIZES)%nat /\ s ∈ all_slabs (Ls i) /\
    (in_range s 48 v \/ exists o, o ∈ fl s /\ in_range o 16 v).

(** The objects handed out from cache [i]. *)
Definition live (Ls : ghost_lists) (fl : Z -> list Z) (i : nat) (o : Z) : Prop :=
  exists s, s ∈ all_slabs (Ls i) /\
    is_obj (slab_cache_init (nth i slab_sizes 0)) s o /\ o ∉ fl s.

Lemma get_cache_set h i j c :
  (i < length (h_caches h))%nat ->
  get_cache (set_cache h i c) j = if decide (i = j) then c else get_cache h j.
Proof.
  intros Hi. unfold get_cache, set_cache. simpl. rewrite !nth_lookup. case_decide as E.
  - subst. by rewrite list_lookup_insert_eq.
  - by rewrite list_lookup_insert_ne.
Qed.

Lemma heap_addr h F Ls fl i s :
  heap_ok h F Ls fl -> (i < NUM_SLAB_SIZES)%nat -> s ∈ all_slabs (Ls i) -> slab_addr s.
Proof. intros Hh Hi. apply (ck_lists _ _ _ _ _ (ho_core _ _ _ _ Hh i Hi)). Qed.

Lemma is_obj_init h F Ls fl i s o :
  heap_ok h F Ls fl -> (i < NUM_SLAB_SIZES)%nat ->
  is_obj (get_cache h i) s o <-> is_obj (slab_cache_init (nth i slab_sizes 0)) s o.
Proof.
  intros Hh Hi. unfold is_obj. rewrite (ho_size _ _ _ _ Hh i Hi), (ho_ops _ _ _ _ Hh i Hi). done.
Qed.

(** The pages of the slabs are apart from each other and from free memory. *)
Lemma heap_page_apart h F Ls fl i j s t v :
  heap_ok h F Ls fl -> (i < NUM_SLAB_SIZES)%nat -> (j < NUM_SLAB_SIZES)%nat ->
  s ∈ all_slabs (Ls i) -> t ∈ all_slabs (Ls j) -> i <> j ->
  in_range s 8192 v -> ~ in_range t 8192 v.
Proof.
  intros Hh Hi Hj Hs Ht Hne Hv Hv'. destruct (decide (s = t)) as [->|Hst].
  - apply Hne. by apply (ho_apart _ _ _ _ Hh i j t).
  - destruct (slab_addr_disjoint s t); try done; [eauto using heap_addr..| |];
      unfold in_range in *; lia.
Qed.

Lemma heap_page_free h F Ls fl i s v :
  heap_ok h F Ls fl -> (i < NUM_SLAB_SIZES)%nat -> s ∈ all_slabs (Ls i) ->
  image F v -> ~ in_range s 8192 v.
Proof.
  intros Hh Hi Hs Hv Hr. destruct (ho_block _ _ _ _ Hh i s Hi Hs) as [_ Hn].
  apply (Hn (v - hhdm_offset)); [|done]. unfold in_range in *. lia.
Qed.

Lemma core_agree m m' i c L fl :
  (forall s, s ∈ all_slabs L -> agree (in_range s 8192) m m') ->
  cache_core m i c L fl -> cache_core m' i c L fl.
Proof.
  intros Ha Hc. pose proof (ck_lists _ _ _ _ _ Hc) as HL.
  split; try apply Hc.
  - split; [|apply HL|apply HL]. intros k. eapply lchain_agree; [|apply HL].
    intros s Hs. eapply agree_sub; [apply (Ha s); apply elem_of_all_slabs; eauto|].
    unfold in_range. lia.
  - intros s Hs. pose proof (ck_slab _ _ _ _ _ Hc s Hs) as Hok.
    eapply slab_ok_agree; [|exact Hok]. eapply agree_sub; [by apply Ha|].
    intros v. apply (slab_meta_page c); [apply Hc|apply Hok].
Qed.

(** Only the free lists of the cache's own slabs matter. *)
Lemma core_fl_ext m i c L fl fl' :
  (forall s, s ∈ all_slabs L -> fl' s = fl s) ->
  cache_core m i c L fl -> cache_core m i c L fl'.
Proof.
  intros E Hc. split; try apply Hc.
  - intros s Hs. rewrite E by done. by apply Hc.
  - rewrite (ck_allocated _ _ _ _ _ Hc). apply lsum_ext. intros s Hs. unfold in_use. by rewrite E.
Qed.

Lemma heap_update h F Ls fl i m' c' L' fl' :
  heap_ok h F Ls fl -> (i < NUM_SLAB_SIZES)%nat ->
  cache_core m' i c' L' fl' -> classified c' L' fl' ->
  object_size c' = object_size (get_cache h i) ->
  objects_per_slab c' = objects_per_slab (get_cache h i) ->
  all_slabs L' ≡ₚ all_slabs (Ls i) ->
  (forall s, s ∉ all_slabs (Ls i) -> fl' s = fl s) ->
  agree (fun v => ~ exists s, s ∈ all_slabs (Ls i) /\ in_range s 8192 v) (h_mem h) m' ->
  heap_ok (set_cache (set_mem h m') i c') F (<[i := L']> Ls) fl'.
Proof.
  intros Hh Hi Hc Hcl Es Eo Hp Hfl Ha.
  pose proof (ho_len _ _ _ _ Hh) as Hlen.
  assert (forall j, get_cache (set_cache (set_mem h m') i c') j = if decide (i = j) then c' else get_cache h j)
    as Hget by (intros j; by rewrite get_cache_set by (simpl; lia)).
  assert (forall j s, s ∈ all_slabs ((<[i:=L']> Ls) j) <-> s ∈ all_slabs (Ls j)) as Hall.
  { intros j s. destruct (decide (i = j)) as [<-|Hne].
    - by rewrite fn_lookup_insert, Hp.
    - by rewrite fn_lookup_insert_ne. }
  split.
  - simpl. eapply pa_inv_agree; [|apply Hh]. eapply agree_sub; [exact Ha|].
    intros v Hv (s & Hs & Hr). by eapply heap_page_free.
  - simpl. by rewrite length_insert.
  - intros j Hj. rewrite Hget. simpl. case_decide as E.
    + subst. by rewrite fn_lookup_insert.
    + rewrite fn_lookup_insert_ne by done.
      apply (core_fl_ext _ _ _ _ fl).
      { intros s Hs. apply Hfl. intros Hs'. apply E. by eapply ho_apart. }
      eapply core_agree; [|by apply (ho_core _ _ _ _ Hh)]. intros t Ht. eapply agree_sub; [exact Ha|].
      intros v Hv (s & Hs & Hr). by apply (heap_page_apart h F Ls fl i j s t v).
  - intros j Hj. rewrite Hget. case_decide as E.
    + subst. by rewrite fn_lookup_insert.
    + rewrite fn_lookup_insert_ne by done. intros k s Hs. rewrite Hfl.
      * by apply (ho_class _ _ _ _ Hh).
      * intros Hs'. apply E. eapply ho_apart; eauto. apply elem_of_all_slabs. eauto.
  - intros j Hj. rewrite Hget. case_decide; subst; [rewrite Es|]; by apply Hh.
  - intros j Hj. rewrite Hget. case_decide; subst; [rewrite Eo|]; by apply Hh.
  - intros j j' s Hj Hj'. rewrite !Hall. by apply Hh.
  - intros j s Hj. rewrite Hall. by apply Hh.
Qed.

(** ** One object operation, at heap level *)

Definition adjust (c : slab_cache) (d : Z) : slab_cache :=
  set_stats c (total_objects c) (w64 (allocated_objects c + d)) (total_slabs c).

Lemma heap_change h F Ls fl i k s m1 fls k' :
  heap_ok h F Ls fl -> (i < NUM_SLAB_SIZES)%nat -> s ∈ Ls i k ->
  slab_ok m1 i (get_cache h i) s fls -> agree (fun v => ~ slab_body s v) (h_mem h) m1 ->
  class_ok (get_cache h i) k' (Z.of_nat (length fls)) ->
  let c1 := adjust (get_cache h i) (Z.of_nat (length (fl s)) - Z.of_nat (length fls)) in
  let h1 := set_cache (set_mem h m1) i c1 in
  (k' = k -> heap_ok h1 F (<[i := Ls i]> Ls) (<[s := fls]> fl)) /\
  exists h2 L', slab_remove_from_list s i h1 = Some h2 /\
    heap_ok (push_slab k' s i h2) F (<[i := L']> Ls) (<[s := fls]> fl) /\
    all_slabs L' ≡ₚ all_slabs (Ls i) /\
    agree (fun v => ~ next_words (Ls i) v) m1 (h_mem (push_slab k' s i h2)).
Proof.
  intros Hh Hi Hs Hok Ha Hcl c1 h1. pose proof (ho_core _ _ _ _ Hh i Hi) as Hc.
  assert (s ∈ all_slabs (Ls i)) as Hin by (apply elem_of_all_slabs; eauto).
  pose proof (core_change _ m1 _ _ _ _ s fls Hc Hin Hok Ha) as Hc1. fold (adjust (get_cache h i)
    (Z.of_nat (length (fl s)) - Z.of_nat (length fls))) in Hc1. fold c1 in Hc1.
  pose proof (ho_len _ _ _ _ Hh) as Hlen.
  assert (forall t, t ∉ all_slabs (Ls i) -> (<[s := fls]> fl) t = fl t) as Hfl.
  { intros t Ht. rewrite fn_lookup_insert_ne; [done|]. by intros ->. }
  assert (agree (fun v => ~ exists t, t ∈ all_slabs (Ls i) /\ in_range t 8192 v) (h_mem h) m1) as Hag.
  { eapply agree_sub; [exact Ha|]. intros v Hv Hb. apply Hv. exists s. split; [done|].
    unfold slab_body, in_range in *. lia. }
  split.
  - intros ->. apply (heap_update _ _ _ fl); try done.
    intros j t Ht. destruct (decide (t = s)) as [->|Hne].
    + rewrite fn_lookup_insert. by rewrite (cl_unique _ _ _ j k s (ck_lists _ _ _ _ _ Hc) Ht Hs).
    + rewrite fn_lookup_insert_ne by done. by apply (ho_class _ _ _ _ Hh i Hi).
  - destruct (core_move m1 i c1 (Ls i) _ s k k' Hc1 Hs)
      as (m2 & c2 & L' & Er & Hc2 & Eo & Es & Hp & Hmem & Ham).
    assert (get_cache h1 i = c1) as Eg1.
    { unfold h1. rewrite get_cache_set by (simpl; lia). by rewrite decide_True. }
    eexists _, L'. split; [unfold slab_remove_from_list; rewrite Eg1; simpl h_mem; rewrite Er; done|].
    assert (push_slab k' s i (set_cache (set_mem h1 m2) i c2) =
            set_cache (set_mem h (set_slab_next m2 s (list_head c2 k'))) i (set_list_head c2 k' s)) as ->.
    { unfold push_slab. rewrite get_cache_set by (simpl; rewrite length_insert; lia).
      rewrite decide_True by done. unfold set_cache, set_mem. simpl.
      by rewrite !list_insert_insert_eq. }
    destruct (same_stats_set c2 k' s) as (Et1 & Et2 & _).
    split_and!; [|done|done]. apply (heap_update _ _ _ fl); try done.
    + intros j t Ht. destruct (Hmem t j Ht) as [[-> ->]|[Hne Ht']].
      * rewrite fn_lookup_insert. unfold class_ok in *. rewrite Et2, Eo. done.
      * rewrite fn_lookup_insert_ne by done.
        pose proof (ho_class _ _ _ _ Hh i Hi j t Ht') as Hct. unfold class_ok in *. rewrite Et2, Eo. done.
    + by rewrite Et1, Es.
    + by rewrite Et2, Eo.
    + etransitivity; [exact Hag|]. eapply agree_sub; [exact Ham|].
      intros v Hv (t & Ht & Hr). apply Hv. exists t. split; [done|]. unfold in_range in *. lia.
Qed.

End Heap.
