(* ===== verification/SlabSpec.v ===== *)
(** * The slab allocator: correctness

    The abstract heap is the set of live objects of each cache ([live]) and the
    set of free bytes of the page allocator.  [slab_alloc] adds one object that
    was not live and whose bytes no live object shares; [slab_free] takes one
    away; neither writes a byte of a live object. *)
From S2P Require Import Prelude Memory PageAlloc Chain Slab SlabProofs SlabHeap.
Import Slab.

Section Spec.
Context `{Hhdm} `{Linker} {P : Type} `{!PageAllocator P}.

Implicit Types h : heap P.

Lemma heap_ok_ghost_ext h F Ls Ls' fl :
  (forall i, Ls' i = Ls i) -> heap_ok h F Ls fl -> heap_ok h F Ls' fl.
Proof.
  intros E Hh. split; intros *; rewrite ?E; apply Hh.
Qed.

(** ** slab_create *)

(** The header stores of [slab_create], before the objects are linked. *)
Definition new_header (m : mem) (s p i n : Z) : mem :=
  set_slab_free_list (set_slab_magic (set_slab_next (set_slab_free_count (set_slab_phys_addr
    (set_slab_cache_ptr m s i) s p) s n) s 0) s SLAB_MAGIC) s 0.

Lemma cache_ptr_word i : (i < NUM_SLAB_SIZES)%nat -> 0 < cache_ptr i < 2 ^ 64.
Proof.
  intros Hi. unfold cache_ptr, NUM_SLAB_SIZES in *. simpl in Hi.
  pose proof slab_caches_nonnull. pose proof slab_caches_fit. lia.
Qed.

Lemma new_slab_ok m i c s :
  (i < NUM_SLAB_SIZES)%nat -> sizes_ok c -> slab_addr s -> hhdm_offset <= s ->
  let m1 := new_header m s (s - hhdm_offset) (cache_ptr i) (objects_per_slab c) in
  let m2 := carve (Z.to_nat (objects_per_slab c)) 0 m1 s (object_size c) in
  slab_ok m2 i c s (reverse (objs c s 0 (objects_per_slab c))) /\
  agree (fun v => ~ in_range s 8192 v) m m2.
Proof.
  intros Hi Hsz (Hs0 & Hs1 & Hs2) Hoff m1 m2. pose proof Hsz as (Hos & Hops & Hfit).
  pose proof hhdm_positive. pose proof (cache_ptr_word i Hi).
  assert (m1 = store 8 (store 8 (store 8 (store 8 (store 8 (store 8 m (s + 8) (cache_ptr i)) (s + 16)
    (s - hhdm_offset)) (s + 24) (objects_per_slab c)) (s + 40) 0) s SLAB_MAGIC) (s + 32) 0) as Em1 by done.
  destruct (carve_spec c s (Z.to_nat (objects_per_slab c)) 0 m1 []) as [Hch Hag].
  - lia.
  - lia.
  - lia.
  - rewrite Z2Nat.id by lia. nia.
  - simpl. rewrite Em1. unfold slab_free_list. by rewrite load8_store8 by lia.
  - set_solver.
  - cbv zeta in Hch, Hag. fold m2 in Hch, Hag. rewrite Z2Nat.id in Hch, Hag by lia. rewrite app_nil_r in Hch.
    assert (forall d, 0 <= d <= 24 -> load 8 m2 (s + d) = load 8 m1 (s + d)) as Hd.
    { intros d Hd. symmetry. apply load_agree. eapply agree_sub; [exact Hag|]. unfold in_range. lia. }
    split; [split|].
    + unfold slab_magic. rewrite <- (Z.add_0_r s) at 1. rewrite Hd by lia. rewrite Z.add_0_r, Em1.
      rewrite load_store_ne, load8_store8; [done|vm_compute; done|lia].
    + unfold slab_cache_ptr. rewrite Hd, Em1 by lia. rewrite !load_store_ne by lia.
      by rewrite load8_store8 by lia.
    + unfold slab_phys_addr. rewrite Hd, Em1 by lia. rewrite !load_store_ne by lia.
      by rewrite load8_store8 by lia.
    + unfold slab_free_count. rewrite Hd, Em1 by lia. rewrite !load_store_ne by lia.
      rewrite load8_store8 by lia. rewrite length_reverse. unfold objs. rewrite length_fmap, length_seqZ. lia.
    + done.
    + rewrite reverse_Permutation. apply objs_nodup. lia.
    + intros o. rewrite elem_of_reverse. apply elem_of_objs.
    + transitivity m1.
      * rewrite Em1. intros v Hv. unfold in_range in Hv.
        rewrite !store_read8_out by (unfold in_range; lia). done.
      * eapply agree_sub; [exact Hag|]. unfold in_range. lia.
Qed.

(** A slab joins the empty list of a cache. *)
Lemma core_grow m i c L fl s :
  cache_core m i c L fl -> slab_addr s -> s ∉ all_slabs L ->
  slab_ok m i c s (reverse (objs c s 0 (objects_per_slab c))) ->
  let c1 := set_list_head c Empty s in
  cache_core (set_slab_next m s (empty_slabs c)) i
    (set_stats c1 (w64 (total_objects c1 + objects_per_slab c1)) (allocated_objects c1)
       (w64 (total_slabs c1 + 1)))
    (<[Empty := s :: L Empty]> L) (<[s := reverse (objs c s 0 (objects_per_slab c))]> fl).
Proof.
  intros Hc Hs Hn Hok c1. pose proof (ck_sizes _ _ _ _ _ Hc) as Hsz.
  pose proof (ck_lists _ _ _ _ _ Hc) as HL. pose proof (stats_bound _ _ _ _ _ Hc) as Hb.
  destruct (cache_lists_push m c L Empty s HL Hs Hn) as [HL' Ha].
  destruct (same_stats_set c Empty s) as (Et1 & Et2 & Et3 & Et4 & Et5 & Et6).
  fold c1 in Et1, Et2, Et3, Et4, Et5, Et6.
  assert (agree (fun v => ~ next_words (<[Empty := s :: L Empty]> L) v) m
    (set_slab_next m s (empty_slabs c))) as Ha'.
  { eapply agree_sub; [exact Ha|]. intros v Hv Hr. apply Hv. exists s. split; [|done].
    rewrite all_slabs_cons. by left. }
  pose proof Hsz as (_ & ? & _).
  assert (w64 (total_objects c1 + objects_per_slab c1) = total_objects c + objects_per_slab c) as Eo.
  { rewrite Et4, Et2. apply wrap_small. lia. }
  assert (w64 (total_slabs c1 + 1) = total_slabs c + 1) as Es.
  { rewrite Et6. apply wrap_small. lia. }
  split; simpl.
  - unfold sizes_ok. simpl. by rewrite Et1, Et2.
  - split; apply HL'.
  - intros t Ht. pose proof (cl_addr _ _ _ HL' t Ht) as Hta.
    apply (slab_ok_sizes _ _ c); [done|done|].
    apply (slab_ok_next_words m _ _ _ (<[Empty := s :: L Empty]> L)); try done; [apply HL'|].
    rewrite all_slabs_cons in Ht. destruct (decide (t = s)) as [->|Hne].
    + by rewrite fn_lookup_insert.
    + rewrite fn_lookup_insert_ne by done. apply Hc. set_solver.
  - rewrite Es, all_slabs_cons, (ck_slabs _ _ _ _ _ Hc). simpl. lia.
  - rewrite Eo, Es, Et2, (ck_objects _ _ _ _ _ Hc). lia.
  - rewrite Et5, (ck_allocated _ _ _ _ _ Hc), (lsum_perm _ _ _ (all_slabs_cons L Empty s)).
    unfold lsum at 2. simpl. unfold in_use at 2. rewrite fn_lookup_insert.
    rewrite length_reverse. unfold objs at 1. rewrite length_fmap, length_seqZ. simpl.
    rewrite Et2. rewrite Z2Nat.id by lia. rewrite Z.sub_diag, Z.add_0_l.
    apply lsum_ext. intros t Ht. unfold in_use. simpl. rewrite Et2.
    rewrite fn_lookup_insert_ne; [done|]. by intros ->.
Qed.

Lemma block_bytes_1 : block_bytes 1 = 8192.
Proof. done. Qed.

(** A block of order 1 is a slab address in the direct map. *)
Lemma block_slab_addr pg p :
  pa_block pg p 1 ->
  phys_to_virt p = p + hhdm_offset /\ slab_addr (p + hhdm_offset).
Proof.
  intros Hb. destruct (pa_block_bounds _ _ _ Hb) as (_ & Hp & Hm & Hl).
  rewrite block_bytes_1 in *. pose proof hhdm_positive. pose proof hhdm_no_wrap.
  split; [apply phys_to_virt_in; lia|]. unfold slab_addr. split_and!; [lia|lia|].
  assert (hhdm_offset mod 8192 = 0) as Ho.
  { pose proof hhdm_aligned as Ha. apply Z.mod_divide in Ha; [|lia].
    apply Z.mod_divide; [lia|]. etransitivity; [|exact Ha]. by exists 256. }
  rewrite Z.add_mod, Hm, Ho by lia. done.
Qed.

Lemma get_cache_set_same h i c :
  (i < length (h_caches h))%nat -> get_cache (set_cache h i c) i = c.
Proof. intros. by rewrite get_cache_set, decide_True. Qed.

(** The result of putting a fresh slab into the heap. *)
Lemma heap_grow h F Ls fl i m pg s c' F' :
  heap_ok h F Ls fl -> (i < NUM_SLAB_SIZES)%nat ->
  let fls := reverse (objs (get_cache h i) s 0 (objects_per_slab (get_cache h i))) in
  let L' := <[Empty := s :: Ls i Empty]> (Ls i) in
  cache_core m i c' L' (<[s := fls]> fl) ->
  object_size c' = object_size (get_cache h i) ->
  objects_per_slab c' = objects_per_slab (get_cache h i) ->
  slab_addr s -> (forall j, (j < NUM_SLAB_SIZES)%nat -> s ∉ all_slabs (Ls j)) ->
  pa_inv m pg F' -> (forall x, F' x -> F x) ->
  pa_block pg (s - hhdm_offset) 1 -> (forall x, in_range (s - hhdm_offset) 8192 x -> ~ F' x) ->
  (forall q k, pa_block pg q k <-> pa_block (h_pages h) q k) ->
  (forall j t, (j < NUM_SLAB_SIZES)%nat -> j <> i -> t ∈ all_slabs (Ls j) ->
     agree (in_range t 8192) (h_mem h) m) ->
  heap_ok (set_cache (mk_heap m pg (h_caches h)) i c') F' (<[i := L']> Ls) (<[s := fls]> fl).
Proof.
  intros Hh Hi fls L' Hc Es Eo Hs Hn Hpg HF Hb Hbf Hpb Ha.
  assert (forall j, get_cache (set_cache (mk_heap m pg (h_caches h)) i c') j =
                    if decide (i = j) then c' else get_cache h j) as Hget.
  { intros j. by rewrite get_cache_set by (simpl; rewrite (ho_len _ _ _ _ Hh); lia). }
  assert (forall j t, t ∈ all_slabs ((<[i:=L']> Ls) j) <-> t ∈ all_slabs (Ls j) \/ (t = s /\ j = i)) as Hall.
  { intros j t. destruct (decide (i = j)) as [<-|Hne].
    - rewrite fn_lookup_insert. unfold L'. rewrite all_slabs_cons. set_solver.
    - rewrite fn_lookup_insert_ne by done. naive_solver. }
  assert (Z.of_nat (length fls) = objects_per_slab (get_cache h i)) as Hlen.
  { unfold fls, objs. rewrite length_reverse, length_fmap, length_seqZ.
    destruct (ck_sizes _ _ _ _ _ (ho_core _ _ _ _ Hh i Hi)) as (_ & ? & _). lia. }
  assert (forall j t, (j < NUM_SLAB_SIZES)%nat -> t ∈ all_slabs (Ls j) -> t <> s) as Hne.
  { intros j t Hj Ht ->. by eapply Hn. }
  split.
  - done.
  - simpl. rewrite length_insert. apply Hh.
  - intros j Hj. rewrite Hget. simpl h_mem. case_decide as E.
    + subst. by rewrite fn_lookup_insert.
    + rewrite fn_lookup_insert_ne by done. apply (core_fl_ext _ _ _ _ fl).
      { intros t Ht. rewrite fn_lookup_insert_ne; [done|]. intros <-. by eapply Hne. }
      eapply core_agree; [|by apply (ho_core _ _ _ _ Hh)]. intros t Ht. by apply (Ha j).
  - intros j Hj. rewrite Hget. case_decide as E.
    + subst j. rewrite fn_lookup_insert. intros k t Ht.
      assert (k = Empty /\ t = s \/ t ∈ Ls i k) as [[-> ->]|Ht'].
      { unfold L' in Ht. destruct (decide (Empty = k)) as [<-|Hk].
        - rewrite fn_lookup_insert in Ht. set_solver.
        - rewrite fn_lookup_insert_ne in Ht by done. auto. }
      * rewrite fn_lookup_insert. simpl. by rewrite Hlen, Eo.
      * rewrite fn_lookup_insert_ne.
        -- pose proof (ho_class _ _ _ _ Hh i Hi k t Ht') as Hct. unfold class_ok in *. by rewrite Eo.
        -- intros <-. eapply Hne; [done| |done]. apply elem_of_all_slabs. eauto.
    + rewrite fn_lookup_insert_ne by done. intros k t Ht. rewrite fn_lookup_insert_ne.
      * by apply (ho_class _ _ _ _ Hh).
      * intros <-. eapply (Hne j); [done| |done]. apply elem_of_all_slabs. eauto.
  - intros j Hj. rewrite Hget. case_decide; subst; [rewrite Es|]; by apply Hh.
  - intros j Hj. rewrite Hget. case_decide; subst; [rewrite Eo|]; by apply Hh.
  - intros j j' t Hj Hj'. rewrite !Hall. intros [Ht|[E ->]] [Ht'|[E' ->]].
    + by apply (ho_apart _ _ _ _ Hh j j' t).
    + by destruct (Hne j t Hj Ht).
    + by destruct (Hne j' t Hj' Ht').
    + done.
  - intros j t Hj. rewrite Hall. simpl. intros [Ht|[-> ->]]; [|done].
    destruct (ho_block _ _ _ _ Hh j t Hj Ht) as [H1' H2']. split; [by apply Hpb|].
    intros x Hx HFx. apply (H2' x Hx). by apply HF.
Qed.

Lemma slab_create_spec i h F Ls fl :
  heap_ok h F Ls fl -> (i < NUM_SLAB_SIZES)%nat ->
  exists h' s, slab_create i h = (h', s) /\
  ((s = 0 /\ h' = h /\ forall o n, (1 <= o <= 20)%nat -> ~ pa_room (h_pages h) F o (S n)) \/
   (s <> 0 /\ exists F',
      heap_ok h' F' (<[i := <[Empty := s :: Ls i Empty]> (Ls i)]> Ls)
        (<[s := reverse (objs (get_cache h i) s 0 (objects_per_slab (get_cache h i)))]> fl) /\
      (forall x, F' x -> F x) /\
      (forall j, (j < NUM_SLAB_SIZES)%nat -> s ∉ all_slabs (Ls j)) /\
      (forall v, in_range s 8192 v -> image F v) /\
      (forall q k, pa_block (h_pages h') q k <-> pa_block (h_pages h) q k) /\
      (forall o n, (1 <= o)%nat -> pa_room (h_pages h) F o (S n) -> pa_room (h_pages h') F' o n) /\
      agree (fun v => ~ image F v) (h_mem h) (h_mem h'))).
Proof.
  intros Hh Hi. unfold slab_create.
  destruct (alloc_pages 1 (h_mem h) (h_pages h)) as [[m0 pg] p] eqn:Ea.
  destruct (pa_alloc 1 _ _ F _ _ _ ltac:(lia) (ho_pages _ _ _ _ Hh) Ea)
    as [(-> & -> & ->)|(Hb & HpF & Hinv & Hag & Hpb)].
  { eexists h, 0. split; [by destruct h|]. left. split_and!; [done|done|]. intros o n Ho Hr.
    by destruct (pa_room_alloc 1 o n _ _ F _ _ _ Ho (ho_pages _ _ _ _ Hh) Ea Hr). }
  rewrite block_bytes_1 in *.
  destruct (pa_block_bounds _ _ _ Hb) as (_ & Hp & _).
  rewrite (proj2 (Z.eqb_neq p 0)) by lia. destruct (block_slab_addr pg p Hb) as [-> Hs].
  set (s := p + hhdm_offset) in *. set (c := get_cache h i).
  pose proof (ho_core _ _ _ _ Hh i Hi) as Hc. fold c in Hc.
  assert (p = s - hhdm_offset) as Ep by (unfold s; lia).
  destruct (new_slab_ok m0 i c s Hi (ck_sizes _ _ _ _ _ Hc) Hs ltac:(lia)) as [Hok Hag2].
  unfold new_header in Hok, Hag2. rewrite <- Ep in Hok, Hag2.
  set (m1 := set_slab_free_list _ _ 0) in Hok, Hag2.
  set (m2 := carve _ 0 m1 s _) in Hok, Hag2.
  assert (forall v, in_range s 8192 v -> image F v) as Hpage.
  { intros v Hv. apply HpF. unfold in_range in *. lia. }
  assert (forall j, (j < NUM_SLAB_SIZES)%nat -> s ∉ all_slabs (Ls j)) as Hn.
  { intros j Hj Hin. eapply (heap_page_free h F Ls fl j s s Hh Hj Hin);
      [apply Hpage|]; unfold in_range; lia. }
  assert (agree (fun v => ~ image F v) (h_mem h) m2) as HagF.
  { transitivity m0.
    - eapply agree_sub; [exact Hag|]. intros v Hv [HF _]. by apply Hv.
    - eapply agree_sub; [exact Hag2|]. intros v Hv Hr. by apply Hv, Hpage. }
  assert (forall j t, (j < NUM_SLAB_SIZES)%nat -> t ∈ all_slabs (Ls j) -> agree (in_range t 8192) (h_mem h) m2) as Hold.
  { intros j t Hj Ht. eapply agree_sub; [exact HagF|]. intros v Hv HF.
    by apply (heap_page_free h F Ls fl j t v Hh Hj Ht). }
  assert (cache_core m2 i c (Ls i) fl) as Hc2.
  { eapply core_agree; [|exact Hc]. intros t Ht. by apply (Hold i). }
  pose proof (core_grow m2 i c (Ls i) fl s Hc2 Hs (Hn i Hi) Hok) as Hgrow.
  cbv zeta in Hgrow. set (m3 := set_slab_next m2 s (empty_slabs c)) in Hgrow.
  destruct (same_stats_set c Empty s) as (Et1 & Et2 & _).
  assert (agree (fun v => ~ in_range s 8192 v) m2 m3) as Hag3.
  { apply agree_store. unfold in_range. lia. }
  eexists _, s. split; [reflexivity|]. right. split; [destruct Hs; lia|].
  exists (fminus F (in_range p 8192)). split_and!; try done.
  - change (set_mem (mk_heap m0 pg (h_caches h)) ?x) with (mk_heap x pg (h_caches h)).
    apply (heap_grow h F Ls fl i m3); try done.
    + eapply pa_inv_agree; [|exact Hinv]. transitivity m2.
      * eapply agree_sub; [exact Hag2|]. intros v [_ Hv] Hr. apply Hv. unfold in_range in *. lia.
      * eapply agree_sub; [exact Hag3|]. intros v [_ Hv] Hr. apply Hv. unfold in_range in *. lia.
    + by intros x [? _].
    + by rewrite <- Ep.
    + intros x Hx [_ Hx']. apply Hx'. by rewrite Ep.
    + intros j t Hj _ Ht. transitivity m2; [by apply (Hold j)|]. eapply agree_sub; [exact Hag3|].
      intros v Hv Hr. by apply (heap_page_free h F Ls fl j t v Hh Hj Ht (Hpage v Hr)).
  - by intros x [? _].
  - intros o n Ho Hr. apply (pa_room_take (h_pages h) pg F p 1 o n); [done|lia| |done|done].
    by destruct (pa_block_bounds _ _ _ Hb) as (_ & _ & ? & _).
  - simpl. transitivity m2; [done|]. eapply agree_sub; [exact Hag3|].
    intros v Hv Hr. by apply Hv, Hpage.
Qed.

(** ** Taking an object *)

Lemma remove_pages s i h h' : slab_remove_from_list s i h = Some h' -> h_pages h' = h_pages h.
Proof.
  unfold slab_remove_from_list. destruct (remove_lists _ _ _ _) as [[m c]|]; simpl; [|done].
  by intros [= <-].
Qed.

(** The headers of the slabs of a cache. *)
Definition headers (L : slab_list -> list Z) (v : Z) : Prop :=
  exists t, t ∈ all_slabs L /\ in_range t 48 v.

Lemma next_words_headers L v : next_words L v -> headers L v.
Proof. intros (t & Ht & Hr). exists t. split; [done|]. unfold in_range in *. lia. Qed.

Lemma heap_stay h F Ls fl i k s m1 fls d :
  heap_ok h F Ls fl -> (i < NUM_SLAB_SIZES)%nat -> s ∈ Ls i k ->
  slab_ok m1 i (get_cache h i) s fls -> agree (fun v => ~ slab_body s v) (h_mem h) m1 ->
  class_ok (get_cache h i) k (Z.of_nat (length fls)) ->
  d = Z.of_nat (length (fl s)) - Z.of_nat (length fls) ->
  heap_ok (set_cache (set_mem h m1) i (adjust (get_cache h i) d)) F (<[i := Ls i]> Ls) (<[s := fls]> fl).
Proof.
  intros Hh Hi Hs Hok Ha Hcl ->. by apply (heap_change h F Ls fl i k s m1 fls k Hh Hi Hs Hok Ha Hcl).
Qed.

Lemma heap_move h F Ls fl i k s m1 fls k' d :
  heap_ok h F Ls fl -> (i < NUM_SLAB_SIZES)%nat -> s ∈ Ls i k ->
  slab_ok m1 i (get_cache h i) s fls -> agree (fun v => ~ slab_body s v) (h_mem h) m1 ->
  class_ok (get_cache h i) k' (Z.of_nat (length fls)) ->
  d = Z.of_nat (length (fl s)) - Z.of_nat (length fls) ->
  exists h2 L',
    slab_remove_from_list s i (set_cache (set_mem h m1) i (adjust (get_cache h i) d)) = Some h2 /\
    heap_ok (push_slab k' s i h2) F (<[i := L']> Ls) (<[s := fls]> fl) /\
    all_slabs L' ≡ₚ all_slabs (Ls i) /\
    h_pages (push_slab k' s i h2) = h_pages h /\
    agree (fun v => ~ headers (Ls i) v) m1 (h_mem (push_slab k' s i h2)).
Proof.
  intros Hh Hi Hs Hok Ha Hcl ->.
  destruct (heap_change h F Ls fl i k s m1 fls k' Hh Hi Hs Hok Ha Hcl) as [_ (h2 & L' & Er & Hh2 & Hp & Ham)].
  exists h2, L'. split_and!; try done.
  - exact (remove_pages _ _ _ _ Er).
  - eapply agree_sub; [exact Ham|]. intros v Hv Hr. by apply Hv, next_words_headers.
Qed.

Lemma take_object_spec h F Ls fl i k s :
  heap_ok h F Ls fl -> (i < NUM_SLAB_SIZES)%nat -> s ∈ Ls i k -> k <> Full ->
  exists h' o fls L', take_object s i h = Some (h', o) /\ fl s = o :: fls /\
    heap_ok h' F (<[i := L']> Ls) (<[s := fls]> fl) /\
    all_slabs L' ≡ₚ all_slabs (Ls i) /\ h_pages h' = h_pages h /\
    agree (fun v => ~ headers (Ls i) v) (h_mem h) (h_mem h').
Proof.
  intros Hh Hi Hs Hk. pose proof (ho_core _ _ _ _ Hh i Hi) as Hc.
  assert (s ∈ all_slabs (Ls i)) as Hin by (apply elem_of_all_slabs; eauto).
  pose proof (ck_slab _ _ _ _ _ Hc s Hin) as Hok.
  pose proof (ck_sizes _ _ _ _ _ Hc) as Hsz. pose proof Hsz as (_ & Hops & _).
  pose proof (ho_class _ _ _ _ Hh i Hi k s Hs) as Hcl.
  destruct (fl s) as [|o fls] eqn:Efl.
  { exfalso. simpl in Hcl. destruct k; simpl in Hcl; [lia|done|lia]. }
  destruct (slab_ok_take (h_mem h) i (get_cache h i) s o fls Hsz (heap_addr _ _ _ _ _ _ Hh Hi Hin) Hok)
    as (Eo & Hobj & Hn & Hok1 & Ecnt & Hag).
  cbv zeta in Hok1, Ecnt, Hag. unfold take_object. rewrite Eo.
  set (m1 := set_slab_free_count _ s _) in *.
  assert (o <> 0) as Ho0.
  { pose proof (lchain_nonnull _ _ _ _ o (sl_chain _ _ _ _ _ Hok)). set_solver. }
  rewrite (proj2 (Z.eqb_neq o 0)) by done. rewrite Ecnt.
  assert (agree (fun v => ~ slab_body s v) (h_mem h) m1) as Hag1.
  { eapply agree_sub; [exact Hag|]. unfold slab_body, in_range. lia. }
  assert (agree (fun v => ~ headers (Ls i) v) (h_mem h) m1) as Hag2.
  { eapply agree_sub; [exact Hag|]. intros v Hv Hr. apply Hv. exists s.
    split; [done|]. unfold in_range in *. lia. }
  assert (1 = Z.of_nat (length (fl s)) - Z.of_nat (length fls)) as Ed by (rewrite Efl; simpl; lia).
  cbn [objects_per_slab set_stats]. fold (adjust (get_cache h i) 1).
  assert (forall k', class_ok (get_cache h i) k' (Z.of_nat (length fls)) ->
    exists h' L', (h ← slab_remove_from_list s i (set_cache (set_mem h m1) i (adjust (get_cache h i) 1));
                  Some (push_slab k' s i h, o)) = Some (h', o) /\
      heap_ok h' F (<[i := L']> Ls) (<[s := fls]> fl) /\
      all_slabs L' ≡ₚ all_slabs (Ls i) /\ h_pages h' = h_pages h /\
      agree (fun v => ~ headers (Ls i) v) (h_mem h) (h_mem h')) as Hmove.
  { intros k' Hcl'. destruct (heap_move h F Ls fl i k s m1 fls k' 1) as (h2 & L' & -> & ? & ? & ? & ?); try done.
    exists (push_slab k' s i h2), L'. split_and!; try done. by transitivity m1. }
  destruct (Z.eqb_spec (Z.of_nat (length fls)) 0) as [E0|E0].
  { destruct (Hmove Full E0) as (h' & L' & ? & ?). exists h', o, fls, L'. done. }
  rewrite wrap_small by lia.
  destruct (Z.eqb_spec (Z.of_nat (length fls)) (objects_per_slab (get_cache h i) - 1)) as [E1|E1].
  { destruct (Hmove Partial) as (h' & L' & ? & ?); [simpl; lia|]. exists h', o, fls, L'. done. }
  simpl length in Hcl. eexists _, o, fls, (Ls i). split_and!; try done.
  apply (heap_stay h F Ls fl i k s m1 fls 1); try done. destruct k; simpl in *; [lia|done|lia].
Qed.

(** ** Live objects *)

Lemma heap_ok_slab h F Ls fl i s :
  heap_ok h F Ls fl -> (i < NUM_SLAB_SIZES)%nat -> s ∈ all_slabs (Ls i) ->
  slab_ok (h_mem h) i (get_cache h i) s (fl s) /\ sizes_ok (get_cache h i).
Proof. intros Hh Hi Hs. pose proof (ho_core _ _ _ _ Hh i Hi) as Hc. split; [by apply Hc|apply Hc]. Qed.

(** After a change of the free objects of the slab [s] of cache [i]. *)
Lemma live_change h F Ls fl i j L' s fls x :
  heap_ok h F Ls fl -> (i < NUM_SLAB_SIZES)%nat -> (j < NUM_SLAB_SIZES)%nat ->
  all_slabs L' ≡ₚ all_slabs (Ls i) -> s ∈ all_slabs (Ls i) ->
  live (<[i := L']> Ls) (<[s := fls]> fl) j x <->
  (exists t, t ∈ all_slabs (Ls j) /\ is_obj (slab_cache_init (nth j slab_sizes 0)) t x /\
     if decide (t = s) then i = j /\ x ∉ fls else x ∉ fl t).
Proof.
  intros Hh Hi Hj Hp Hs. unfold live.
  assert (all_slabs ((<[i:=L']> Ls) j) ≡ₚ all_slabs (Ls j)) as Hpj.
  { destruct (decide (i = j)) as [<-|Hne]; [by rewrite fn_lookup_insert|by rewrite fn_lookup_insert_ne]. }
  apply exist_proper. intros t. rewrite Hpj. case_decide as E.
  - subst t. rewrite fn_lookup_insert. split; [|naive_solver].
    intros (Ht & ? & ?). split_and!; try done. by apply (ho_apart _ _ _ _ Hh i j s).
  - rewrite fn_lookup_insert_ne by done. done.
Qed.

(** An object belongs to one slab. *)
Lemma is_obj_slab h F Ls fl i j s t x y :
  heap_ok h F Ls fl -> (i < NUM_SLAB_SIZES)%nat -> (j < NUM_SLAB_SIZES)%nat ->
  s ∈ all_slabs (Ls i) -> t ∈ all_slabs (Ls j) -> s <> t ->
  is_obj (slab_cache_init (nth i slab_sizes 0)) s x ->
  is_obj (slab_cache_init (nth j slab_sizes 0)) t y ->
  x + nth i slab_sizes 0 <= y \/ y + nth j slab_sizes 0 <= x.
Proof.
  intros Hh Hi Hj Hs Ht Hne Hx Hy.
  apply is_obj_range in Hx as [? Hx]; [|by apply slab_sizes_ok].
  apply is_obj_range in Hy as [? Hy]; [|by apply slab_sizes_ok]. simpl in *.
  destruct (slab_addr_disjoint s t); try done; [eauto using heap_addr..|lia|lia].
Qed.

Lemma size_pos i : (i < NUM_SLAB_SIZES)%nat -> 16 <= nth i slab_sizes 0.
Proof. intros Hi. apply slab_sizes_ok in Hi as (? & _). done. Qed.

(** Different live objects do not overlap. *)
Lemma live_disjoint h F Ls fl i j x y :
  heap_ok h F Ls fl -> (i < NUM_SLAB_SIZES)%nat -> (j < NUM_SLAB_SIZES)%nat ->
  live Ls fl i x -> live Ls fl j y -> x <> y ->
  x + nth i slab_sizes 0 <= y \/ y + nth j slab_sizes 0 <= x.
Proof.
  intros Hh Hi Hj (s & Hs & Hx & _) (t & Ht & Hy & _) Hne.
  destruct (decide (s = t)) as [->|Hst]; [|by eapply is_obj_slab].
  assert (i = j) as <- by (by apply (ho_apart _ _ _ _ Hh i j t)).
  by apply (is_obj_disjoint _ t x y (slab_sizes_ok i Hi)).
Qed.

(** An address is live in at most one cache. *)
Lemma live_cache h F Ls fl i j x :
  heap_ok h F Ls fl -> (i < NUM_SLAB_SIZES)%nat -> (j < NUM_SLAB_SIZES)%nat ->
  live Ls fl i x -> live Ls fl j x -> i = j.
Proof.
  intros Hh Hi Hj (s & Hs & Hx & _) (t & Ht & Hy & _).
  destruct (decide (s = t)) as [->|Hst]; [by apply (ho_apart _ _ _ _ Hh i j t)|].
  pose proof (size_pos i Hi). pose proof (size_pos j Hj).
  pose proof (is_obj_slab h F Ls fl i j s t x x Hh Hi Hj Hs Ht Hst Hx Hy). lia.
Qed.

(** A live object shares no byte with free pages or allocator metadata. *)
Lemma live_private h F Ls fl i x v :
  heap_ok h F Ls fl -> (i < NUM_SLAB_SIZES)%nat -> live Ls fl i x ->
  in_range x (nth i slab_sizes 0) v -> ~ image F v /\ ~ heap_meta Ls fl v.
Proof.
  intros Hh Hi (s & Hs & Hx & Hn) Hv.
  pose proof (is_obj_range _ s x (slab_sizes_ok i Hi) Hx) as [Hx1 Hx2].
  cbn [object_size slab_cache_init] in Hx2.
  assert (in_range s 8192 v) as Hpg by (unfold in_range in *; lia).
  split.
  - intros HF. by apply (heap_page_free h F Ls fl i s v Hh Hi Hs HF).
  - intros (j & t & Hj & Ht & Hm).
    destruct (heap_ok_slab h F Ls fl j t Hh Hj Ht) as [Hok Hsz].
    assert (in_range t 8192 v) as Hpt.
    { destruct Hm as [Hm|(o & Ho & Hm)]; [unfold in_range in *; lia|].
      apply (slab_meta_page (get_cache h j) t (fl t)); [done|apply Hok|]. right. eauto. }
    destruct (decide (s = t)) as [->|Hst].
    2:{ destruct (slab_addr_disjoint s t); try done; [eauto using heap_addr..| |];
          unfold in_range in *; lia. }
    assert (i = j) as <- by (by apply (ho_apart _ _ _ _ Hh i j t)).
    destruct Hm as [Hm|(o & Ho & Hm)]; [unfold in_range in *; lia|].
    assert (x <> o) by (by intros ->).
    pose proof (sl_objs _ _ _ _ _ Hok o Ho) as Hobj. rewrite (is_obj_init h F Ls fl) in Hobj by done.
    pose proof (size_pos i Hi).
    destruct (is_obj_disjoint _ t x o (slab_sizes_ok i Hi) Hx Hobj); try done;
      cbn [object_size slab_cache_init] in *; unfold in_range in *; lia.
Qed.

(** ** slab_alloc *)

Lemma list_head_in m c L k : cache_lists m c L -> list_head c k <> 0 -> list_head c k ∈ L k.
Proof.
  intros HL Hne. pose proof (cl_chain _ _ _ HL k) as Hch. destruct (L k) as [|s l]; [done|].
  destruct Hch as [-> _]. by left.
Qed.

(** The new pages of a heap come from the free set. *)
Definition pages_from (F : Z -> Prop) (Ls Ls' : nat -> slab_list -> list Z) : Prop :=
  forall j s, (j < NUM_SLAB_SIZES)%nat -> s ∈ all_slabs (Ls' j) ->
    s ∈ all_slabs (Ls j) \/ (forall v, in_range s 8192 v -> image F v).

Record alloc_post (i : nat) h F Ls fl h' (p : Z) F' Ls' fl' : Prop := {
  ap_ok : heap_ok h' F' Ls' fl';
  ap_nonnull : p <> 0;
  ap_fresh : ~ live Ls fl i p;
  ap_live j x : (j < NUM_SLAB_SIZES)%nat ->
    live Ls' fl' j x <-> live Ls fl j x \/ (j = i /\ x = p);
  ap_free x : F' x -> F x;
  ap_pages : pages_from F Ls Ls';
  ap_blocks q k : pa_block (h_pages h') q k <-> pa_block (h_pages h) q k;
  ap_room o n : (1 <= o)%nat -> pa_room (h_pages h) F o (S n) -> pa_room (h_pages h') F' o n;
  ap_frame : agree (fun v => ~ image F v /\ ~ heap_meta Ls fl v) (h_mem h) (h_mem h');
}.

Lemma alloc_from h F Ls fl i k s :
  heap_ok h F Ls fl -> (i < NUM_SLAB_SIZES)%nat -> s ∈ Ls i k -> k <> Full ->
  exists h' p Ls' fl', take_object s i h = Some (h', p) /\ h_pages h' = h_pages h /\
    alloc_post i h F Ls fl h' p F Ls' fl'.
Proof.
  intros Hh Hi Hs Hk. assert (s ∈ all_slabs (Ls i)) as Hin by (apply elem_of_all_slabs; eauto).
  destruct (heap_ok_slab h F Ls fl i s Hh Hi Hin) as [Hok Hsz].
  destruct (take_object_spec h F Ls fl i k s Hh Hi Hs Hk)
    as (h' & o & fls & L' & Et & Efl & Hh' & Hp & Epg & Hag).
  exists h', o, (<[i := L']> Ls), (<[s := fls]> fl). split; [done|]. split; [done|]. rewrite Efl in Hok.
  pose proof (sl_nodup _ _ _ _ _ Hok) as [Hn _]%NoDup_cons.
  pose proof (sl_objs _ _ _ _ _ Hok o ltac:(by left)) as Hobj.
  rewrite (is_obj_init h F Ls fl) in Hobj by done.
  split; try done.
  - pose proof (lchain_nonnull _ _ _ _ o (sl_chain _ _ _ _ _ Hok)). set_solver.
  - intros (t & Ht & Hot & Hnt). destruct (decide (s = t)) as [->|Hst].
    + rewrite Efl in Hnt. set_solver.
    + pose proof (is_obj_slab h F Ls fl i i s t o o Hh Hi Hi Hin Ht Hst Hobj Hot).
      pose proof (size_pos i Hi). lia.
  - intros j x Hj. rewrite (live_change h F) by done. split.
    + intros (t & Ht & Hx & Hc). case_decide as E.
      * destruct Hc as [<- Hc]. subst t. destruct (decide (x = o)) as [->|Hxo]; [by right|].
        left. exists s. rewrite Efl. set_solver.
      * left. by exists t.
    + intros [(t & Ht & Hx & Hc)|[-> ->]].
      * exists t. split_and!; try done. case_decide as E; [|done]. subst t. rewrite Efl in Hc.
        split; [by apply (ho_apart _ _ _ _ Hh i j s)|set_solver].
      * exists s. split_and!; try done. by rewrite decide_True.
  - intros j t Hj Ht. left. destruct (decide (i = j)) as [<-|Hij].
    + rewrite fn_lookup_insert in Ht. by rewrite <- Hp.
    + by rewrite fn_lookup_insert_ne in Ht.
  - intros q o'. by rewrite Epg.
  - intros q n _ Hr. rewrite Epg. by apply pa_room_weaken.
  - eapply agree_sub; [exact Hag|]. intros v [_ Hv] (t & Ht & Hr). apply Hv. exists i, t. auto.
Qed.

(** A fresh slab has no live object. *)
Lemma live_grow h i Ls fl s x j :
  (i < NUM_SLAB_SIZES)%nat -> (j < NUM_SLAB_SIZES)%nat ->
  (forall j, (j < NUM_SLAB_SIZES)%nat -> s ∉ all_slabs (Ls j)) ->
  (forall x, is_obj (get_cache h i) s x <-> is_obj (slab_cache_init (nth i slab_sizes 0)) s x) ->
  live (<[i := <[Empty := s :: Ls i Empty]> (Ls i)]> Ls)
    (<[s := reverse (objs (get_cache h i) s 0 (objects_per_slab (get_cache h i)))]> fl) j x <->
  live Ls fl j x.
Proof.
  intros Hi Hj Hn Hobj. unfold live.
  assert (forall t, t ∈ all_slabs ((<[i := <[Empty := s :: Ls i Empty]> (Ls i)]> Ls) j) <->
    t ∈ all_slabs (Ls j) \/ (t = s /\ j = i)) as Hall.
  { intros t. destruct (decide (i = j)) as [<-|Hne].
    - rewrite fn_lookup_insert, all_slabs_cons. set_solver.
    - rewrite fn_lookup_insert_ne by done. naive_solver. }
  apply exist_proper. intros t. rewrite Hall. split.
  - intros ([Ht|[-> ->]] & Hx & Hf).
    + rewrite fn_lookup_insert_ne in Hf; [done|]. intros <-. by apply (Hn j).
    + rewrite fn_lookup_insert in Hf. exfalso. apply Hf.
      rewrite elem_of_reverse. by apply elem_of_objs, Hobj.
  - intros (Ht & Hx & Hf). split_and!; [by left|done|].
    rewrite fn_lookup_insert_ne; [done|]. intros <-. by apply (Hn j).
Qed.

Lemma slab_alloc_spec i h F Ls fl :
  heap_ok h F Ls fl -> (i < NUM_SLAB_SIZES)%nat ->
  exists h' p, slab_alloc i h = Some (h', p) /\
  ((p = 0 /\ h' = h /\ Ls i Partial = [] /\ Ls i Empty = [] /\
    forall o n, (1 <= o <= 20)%nat -> ~ pa_room (h_pages h) F o (S n)) \/
   exists F' Ls' fl', alloc_post i h F Ls fl h' p F' Ls' fl').
Proof.
  intros Hh Hi. pose proof (ck_lists _ _ _ _ _ (ho_core _ _ _ _ Hh i Hi)) as HL.
  pose proof (cl_chain _ _ _ HL Partial) as HP. pose proof (cl_chain _ _ _ HL Empty) as HE.
  unfold slab_alloc.
  destruct (Z.eqb_spec (partial_slabs (get_cache h i)) 0) as [E1|E1]; simpl.
  2:{ destruct (alloc_from h F Ls fl i Partial (partial_slabs (get_cache h i)))
        as (h' & p & Ls' & fl' & ? & _ & ?); try done; [by apply (list_head_in _ _ _ Partial HL)|].
      exists h', p. split; [done|]. right. by exists F, Ls', fl'. }
  destruct (Z.eqb_spec (empty_slabs (get_cache h i)) 0) as [E2|E2]; simpl.
  2:{ destruct (alloc_from h F Ls fl i Empty (empty_slabs (get_cache h i)))
        as (h' & p & Ls' & fl' & ? & _ & ?); try done; [by apply (list_head_in _ _ _ Empty HL)|].
      exists h', p. split; [done|]. right. by exists F, Ls', fl'. }
  assert (Ls i Partial = []) as EP by (destruct (Ls i Partial); [done|by destruct HP as (<- & ? & _)]).
  assert (Ls i Empty = []) as EE by (destruct (Ls i Empty); [done|by destruct HE as (<- & ? & _)]).
  destruct (slab_create_spec i h F Ls fl Hh Hi)
    as (h1 & s & -> & [(-> & -> & Hno)|(Hs & F' & Hh1 & HF & Hn & Hpg & Hpb & Hroom & Hag)]).
  { exists h, 0. split; [done|]. by left. }
  rewrite (proj2 (Z.eqb_neq s 0)) by done.
  match type of Hh1 with heap_ok _ _ ?a ?b => set (Ls1 := a) in *; set (fl1 := b) in * end.
  destruct (alloc_from h1 F' Ls1 fl1 i Empty s Hh1 Hi)
    as (h' & p & Ls' & fl' & ? & Epg & Hpost); [unfold Ls1; rewrite !fn_lookup_insert; by left|done|].
  exists h', p. split; [done|]. right. exists F', Ls', fl'.
  assert (forall j x, (j < NUM_SLAB_SIZES)%nat -> live Ls1 fl1 j x <-> live Ls fl j x) as Hlive.
  { intros j x Hj. apply (live_grow h i Ls fl s x j Hi Hj Hn). intros y. by apply (is_obj_init h F Ls fl). }
  assert (forall j t, t ∈ all_slabs (Ls1 j) -> t ∈ all_slabs (Ls j) \/ t = s) as Hall.
  { intros j t. unfold Ls1. destruct (decide (i = j)) as [<-|Hne].
    - rewrite fn_lookup_insert, all_slabs_cons. set_solver.
    - rewrite fn_lookup_insert_ne by done. by left. }
  split; try apply Hpost.
  - rewrite <- Hlive by done. apply Hpost.
  - intros j x Hj. rewrite <- Hlive by done. by apply Hpost.
  - intros x Hx. apply HF. by apply Hpost.
  - intros j t Hj Ht. destruct (ap_pages _ _ _ _ _ _ _ _ _ _ Hpost j t Hj Ht) as [Ht'|Hv].
    + destruct (Hall j t Ht') as [?| ->]; [by left|by right].
    + right. intros v Hr. apply HF, Hv, Hr.
  - intros q k. by rewrite (ap_blocks _ _ _ _ _ _ _ _ _ _ Hpost), Hpb.
  - intros o n Ho Hr. rewrite Epg. by apply Hroom.
  - transitivity (h_mem h1); [eapply agree_sub; [exact Hag|tauto]|].
    eapply agree_sub; [apply (ap_frame _ _ _ _ _ _ _ _ _ _ Hpost)|].
    intros v [Hv1 Hv2]. split; [intros HF'; by apply Hv1, HF|].
    intros (j & t & Hj & Ht & Hm). destruct (Hall j t Ht) as [Ht'| ->].
    + apply Hv2. exists j, t. split_and!; try done. unfold fl1 in Hm.
      rewrite fn_lookup_insert_ne in Hm; [done|]. intros <-. by apply (Hn j).
    + apply Hv1, Hpg. destruct Hm as [Hm|(o & Ho & Hm)]; [unfold in_range in *; lia|].
      destruct (heap_ok_slab h1 F' Ls1 fl1 i s Hh1 Hi) as [Hok Hsz].
      { unfold Ls1. rewrite fn_lookup_insert, all_slabs_cons. by left. }
      apply (slab_meta_page (get_cache h1 i) s (fl1 s)); [done|apply Hok|]. right. eauto.
Qed.

(** ** slab_free and slab_find_containing *)

Lemma cache_index_ptr i : cache_index (cache_ptr i) = i.
Proof.
  unfold cache_index, cache_ptr.
  replace (slab_caches_addr + 72 * Z.of_nat i - slab_caches_addr) with (Z.of_nat i * 72) by lia.
  rewrite Z.div_mul by lia. lia.
Qed.

Lemma find_containing_live h F Ls fl i s o :
  heap_ok h F Ls fl -> (i < NUM_SLAB_SIZES)%nat -> s ∈ all_slabs (Ls i) ->
  is_obj (get_cache h i) s o -> slab_find_containing o h = s.
Proof.
  intros Hh Hi Hs Ho. destruct (heap_ok_slab h F Ls fl i s Hh Hi Hs) as [Hok Hsz].
  pose proof (is_obj_range _ s o Hsz Ho) as Hr. pose proof Hsz as (Hos & Hops & Hfit).
  destruct (heap_addr h F Ls fl i s Hh Hi Hs) as (Hs0 & Hs1 & Hs2).
  unfold slab_find_containing.
  assert (Z.land o (Z.lnot (2 * PAGE_FRAME_SIZE - 1)) = s) as ->.
  { change (Z.lnot (2 * PAGE_FRAME_SIZE - 1)) with (Z.lnot (Z.ones 13)).
    rewrite land_lnot_ones by lia. change (2 ^ 13) with 8192.
    rewrite Zmod_eq by lia. assert (o / 8192 = s / 8192) as ->.
    { symmetry. apply (Z.div_unique_pos _ _ _ (o - s)); [lia|].
      pose proof (Z.div_mod s 8192). lia. }
    pose proof (Z.div_mod s 8192). lia. }
  rewrite (sl_magic _ _ _ _ _ Hok), Z.eqb_refl. simpl.
  rewrite (sl_cache _ _ _ _ _ Hok). pose proof (cache_ptr_word i Hi).
  rewrite (proj2 (Z.eqb_neq (cache_ptr i) 0)) by lia. rewrite cache_index_ptr.
  destruct Ho as (k & Hk & ->). unfold sizeof_slab.
  rewrite (proj2 (Z.leb_le _ _)) by nia. rewrite (proj2 (Z.ltb_lt _ _)) by nia. done.
Qed.

Record free_post h F Ls fl (o : Z) h' Ls' fl' : Prop := {
  fp_ok : heap_ok h' F Ls' fl';
  fp_live j x : (j < NUM_SLAB_SIZES)%nat -> live Ls' fl' j x <-> live Ls fl j x /\ x <> o;
  fp_slabs j : (j < NUM_SLAB_SIZES)%nat -> all_slabs (Ls' j) ≡ₚ all_slabs (Ls j);
  fp_pages : h_pages h' = h_pages h;
  fp_frame : agree (fun v => ~ heap_meta Ls fl v /\ ~ in_range o 16 v) (h_mem h) (h_mem h');
}.

Lemma slab_free_spec h F Ls fl i s o :
  heap_ok h F Ls fl -> (i < NUM_SLAB_SIZES)%nat -> s ∈ all_slabs (Ls i) ->
  is_obj (get_cache h i) s o -> o ∉ fl s ->
  exists h' L', slab_free s o h = Some h' /\
    heap_ok h' F (<[i := L']> Ls) (<[s := o :: fl s]> fl) /\
    all_slabs L' ≡ₚ all_slabs (Ls i) /\ h_pages h' = h_pages h /\
    agree (fun v => ~ headers (Ls i) v /\ ~ in_range o 16 v) (h_mem h) (h_mem h').
Proof.
  intros Hh Hi Hs Ho Hn. destruct (heap_ok_slab h F Ls fl i s Hh Hi Hs) as [Hok Hsz].
  pose proof (heap_addr h F Ls fl i s Hh Hi Hs) as Haddr. pose proof Hsz as (_ & Hops & _).
  pose proof (is_obj_range _ s o Hsz Ho) as Hr.
  destruct (slab_ok_give (h_mem h) i (get_cache h i) s o (fl s) Hsz Haddr Hok Ho Hn)
    as (Hok1 & Ecnt & Hag). cbv zeta in Hok1, Ecnt, Hag.
  unfold slab_free. rewrite (proj2 (Z.eqb_neq o 0)) by (destruct Haddr; lia).
  rewrite (proj2 (Z.eqb_neq s 0)) by (destruct Haddr; lia).
  rewrite (sl_cache _ _ _ _ _ Hok), cache_index_ptr.
  set (m1 := set_slab_free_count _ s _) in *. rewrite Ecnt. clear Ecnt.
  assert (agree (fun v => ~ slab_body s v) (h_mem h) m1) as Hag1.
  { eapply agree_sub; [exact Hag|]. destruct Hsz. unfold slab_body, in_range. lia. }
  assert (agree (fun v => ~ headers (Ls i) v /\ ~ in_range o 16 v) (h_mem h) m1) as Hag2.
  { eapply agree_sub; [exact Hag|]. intros v [Hv ?]. split; [|done]. intros Hv'. apply Hv. exists s.
    split; [done|]. unfold in_range in *. lia. }
  assert (-1 = Z.of_nat (length (fl s)) - Z.of_nat (length (o :: fl s))) as Ed by (simpl; lia).
  cbn [objects_per_slab set_stats]. unfold Z.sub. fold (adjust (get_cache h i) (-1)).
  apply elem_of_all_slabs in Hs as [k Hk].
  pose proof (ho_class _ _ _ _ Hh i Hi k s Hk) as Hcl.
  pose proof (objs_count _ s _ Hsz (sl_nodup _ _ _ _ _ Hok1) (sl_objs _ _ _ _ _ Hok1)) as Hcount.
  assert (forall k', class_ok (get_cache h i) k' (Z.of_nat (length (o :: fl s))) ->
    exists h' L', (h ← slab_remove_from_list s i (set_cache (set_mem h m1) i (adjust (get_cache h i) (-1)));
                  Some (push_slab k' s i h)) = Some h' /\
      heap_ok h' F (<[i := L']> Ls) (<[s := o :: fl s]> fl) /\
      all_slabs L' ≡ₚ all_slabs (Ls i) /\ h_pages h' = h_pages h /\
      agree (fun v => ~ headers (Ls i) v /\ ~ in_range o 16 v) (h_mem h) (h_mem h')) as Hmove.
  { intros k' Hcl'. destruct (heap_move h F Ls fl i k s m1 (o :: fl s) k' (-1)) as (h2 & L' & -> & ? & ? & ? & Ha); try done.
    exists (push_slab k' s i h2), L'. split_and!; try done. transitivity m1; [done|].
    eapply agree_sub; [exact Ha|]. tauto. }
  simpl length in *.
  destruct (Z.eqb_spec (Z.of_nat (S (length (fl s)))) 1) as [E1|E1]; [apply Hmove; simpl; lia|].
  destruct (Z.eqb_spec (Z.of_nat (S (length (fl s)))) (objects_per_slab (get_cache h i))) as [E2|E2];
    [apply Hmove; simpl; lia|].
  eexists _, (Ls i). split_and!; try done.
  apply (heap_stay h F Ls fl i k s m1 (o :: fl s) (-1)); try done.
  destruct k; simpl in *; lia.
Qed.

(** Freeing a live object. *)
Lemma slab_free_live h F Ls fl i o :
  heap_ok h F Ls fl -> (i < NUM_SLAB_SIZES)%nat -> live Ls fl i o ->
  exists h' Ls' fl', slab_find_containing o h <> 0 /\
    slab_free (slab_find_containing o h) o h = Some h' /\ free_post h F Ls fl o h' Ls' fl'.
Proof.
  intros Hh Hi (s & Hs & Ho & Hn). pose proof Ho as Ho'. rewrite <- (is_obj_init h F Ls fl) in Ho' by done.
  rewrite (find_containing_live h F Ls fl i s o Hh Hi Hs Ho').
  destruct (slab_free_spec h F Ls fl i s o Hh Hi Hs Ho' Hn) as (h' & L' & Ef & Hh' & Hp & Hpg & Hag).
  exists h', (<[i := L']> Ls), (<[s := o :: fl s]> fl).
  split; [destruct (heap_addr h F Ls fl i s Hh Hi Hs); lia|]. split; [done|]. split; try done.
  - intros j x Hj. rewrite (live_change h F) by done. split.
    + intros (t & Ht & Hx & Hc). case_decide as E.
      * destruct Hc as [<- Hc]. subst t. split; [|set_solver]. exists s. set_solver.
      * split; [by exists t|]. intros ->.
        pose proof (is_obj_slab h F Ls fl i j s t o o Hh Hi Hj Hs Ht ltac:(done) Ho Hx).
        pose proof (size_pos i Hi). pose proof (size_pos j Hj). lia.
    + intros [(t & Ht & Hx & Hc) Hne]. exists t. split_and!; try done. case_decide as E; [|done].
      subst t. split; [by apply (ho_apart _ _ _ _ Hh i j s)|set_solver].
  - intros j Hj. destruct (decide (i = j)) as [<-|Hij];
      [by rewrite fn_lookup_insert|by rewrite fn_lookup_insert_ne].
  - eapply agree_sub; [exact Hag|]. intros v [Hv ?]. split; [|done].
    intros (t & Ht & Hr). apply Hv. exists i, t. auto.
Qed.

(** ** What the heap depends on *)

(** The invariant reads free memory and allocator metadata only. *)
Lemma heap_ok_agree h F Ls fl m' :
  agree (fun x => image F x \/ heap_meta Ls fl x) (h_mem h) m' ->
  heap_ok h F Ls fl -> heap_ok (set_mem h m') F Ls fl.
Proof.
  intros Ha Hh. split; try apply Hh.
  - eapply pa_inv_agree; [|apply Hh]. eapply agree_sub; [exact Ha|]. by left.
  - intros i Hi. pose proof (ho_core _ _ _ _ Hh i Hi) as Hc. split; try apply Hc.
    + pose proof (ck_lists _ _ _ _ _ Hc) as HL. split; [|apply HL|apply HL]. intros k.
      eapply lchain_agree; [|apply HL]. intros s Hs. eapply agree_sub; [exact Ha|]. intros x Hx. right.
      exists i, s. split; [done|]. split; [apply elem_of_all_slabs; eauto|]. left. unfold in_range in *. lia.
    + intros s Hs. eapply slab_ok_agree; [|by apply (ck_slab _ _ _ _ _ Hc)].
      eapply agree_sub; [exact Ha|]. intros x Hx. right. exists i, s. split_and!; try done.
      destruct Hx as [Hx|Hx]; [left; unfold in_range in *; lia|by right].
Qed.

(** A client may write whatever it likes to its own object. *)
Lemma heap_ok_client h F Ls fl i x m' :
  heap_ok h F Ls fl -> (i < NUM_SLAB_SIZES)%nat -> live Ls fl i x ->
  agree (fun y => ~ in_range x (nth i slab_sizes 0) y) (h_mem h) m' ->
  heap_ok (set_mem h m') F Ls fl.
Proof.
  intros Hh Hi Hl Ha. apply heap_ok_agree; [|done]. eapply agree_sub; [exact Ha|].
  intros y Hy Hr. destruct (live_private h F Ls fl i x y Hh Hi Hl Hr). tauto.
Qed.

(** ** Initialisation *)

Lemma slab_init_ok m pg F :
  pa_inv m pg F ->
  heap_ok (mk_heap m pg slab_allocator_init) F (fun _ _ => []) (fun _ => []).
Proof.
  intros Hpg.
  assert (forall i, (i < NUM_SLAB_SIZES)%nat ->
    get_cache (mk_heap m pg slab_allocator_init) i = slab_cache_init (nth i slab_sizes 0)) as Hget.
  { intros i Hi. unfold get_cache, slab_allocator_init. simpl h_caches.
    exact (map_nth slab_cache_init slab_sizes 0 i). }
  split; try done; intros i; intros; rewrite ?Hget by done; simpl; try done.
  - split; try done; [by apply slab_sizes_ok| |set_solver].
    split; [by intros []| constructor | set_solver].
  - intros k s Hs. set_solver.
  - set_solver.
  - set_solver.
Qed.

End Spec.
