(* ===== verification/Pmm.v ===== *)
(** * kmalloc and kfree: operations

    Models src/kernel/arch/x86_64/memory/pmm.c and pmm.h on top of the slab
    allocator and the page allocator.  The two spinlocks are the subject of
    Locks.v; the bodies below are what runs while they are held.  Console
    messages are left out. *)
From S2P Require Import Prelude Memory PageAlloc Slab.
Import Slab.

Module Pmm.

Definition SLAB_THRESHOLD : Z := 2048.
Definition ALLOC_MAGIC : Z := 0xDEADBEEFCAFEBABE.
Definition FREED_PATTERN : Z := 0xDEADDEADDEADDEAD.
Definition MAX_SUPPORTED_ORDER : nat := 20.

(** struct alloc_header: { uint64_t magic; uint32_t size; uint8_t order },
    aligned to 8 bytes. *)
Definition sizeof_alloc_header : Z := 16.
Definition hdr_magic (m : mem) (a : Z) : Z := load 8 m a.
Definition hdr_size (m : mem) (a : Z) : Z := load 4 m (a + 8).
Definition hdr_order (m : mem) (a : Z) : Z := load 1 m (a + 12).
Definition set_hdr_magic (m : mem) (a v : Z) : mem := store 8 m a v.
Definition set_hdr_size (m : mem) (a v : Z) : mem := store 4 m (a + 8) v.
Definition set_hdr_order (m : mem) (a v : Z) : mem := store 1 m (a + 12) v.

(** [while (block_size < total_size) { order++; block_size <<= 1; }] with the
    [uint8_t] order and the 64-bit block size; [None] when the fuel runs out. *)
Fixpoint order_loop (fuel : nat) (order block_size total_size : Z) : option Z :=
  match fuel with
  | O => None
  | S fuel =>
    if block_size <? total_size
    then order_loop fuel (w8 (order + 1)) (w64 (Z.shiftl block_size 1)) total_size
    else Some order
  end.

Section Ops.
Context `{Hhdm} `{Linker} {P : Type} `{!PageAllocator P}.

Implicit Types h : heap P.

(** The buddy path of [kmalloc]: header, payload, end marker. *)
Definition kmalloc_pages (fuel : nat) (size : Z) (h : heap P) : option (heap P * Z) :=
  let total_size := w64 (sizeof_alloc_header + size + 4) in
  order ← order_loop fuel 0 PAGE_FRAME_SIZE total_size;
  if Z.of_nat MAX_SUPPORTED_ORDER <=? order then Some (h, 0) else
  let '(m, pg, phys_addr) := alloc_pages (Z.to_nat order) (h_mem h) (h_pages h) in
  let h := mk_heap m pg (h_caches h) in
  if phys_addr =? 0 then Some (h, 0) else
  let virt_addr := phys_to_virt phys_addr in
  let m := set_hdr_magic m virt_addr ALLOC_MAGIC in
  let m := set_hdr_size m virt_addr size in
  let m := set_hdr_order m virt_addr order in
  let start_of_data := virt_addr + sizeof_alloc_header in
  let end_magic := start_of_data + hdr_size m virt_addr in
  let m := store 8 m end_magic ALLOC_MAGIC in
  Some (set_mem h m, start_of_data).

Definition kmalloc (fuel : nat) (size : Z) (h : heap P) : option (heap P * Z) :=
  if size =? 0 then Some (h, 0) else
  if size <=? SLAB_THRESHOLD then
    '(h, ptr) ← slab_alloc_size size h;
    if negb (ptr =? 0) then Some (h, ptr) else kmalloc_pages fuel size h
  else kmalloc_pages fuel size h.

(** The outcome of [kfree], to tell its error paths apart. *)
Inductive kfree_result := Freed | DoubleFree | Corrupted | NullPointer.

Definition kfree (ptr : Z) (h : heap P) : option (heap P * kfree_result) :=
  if ptr =? 0 then Some (h, NullPointer) else
  let slab := slab_find_containing ptr h in
  if negb (slab =? 0) then
    if obj_magic (h_mem h) ptr =? FREED_PATTERN then Some (h, DoubleFree)
    else h ← slab_free slab ptr h; Some (h, Freed)
  else
  let header := ptr - sizeof_alloc_header in
  if hdr_magic (h_mem h) header =? FREED_PATTERN then Some (h, DoubleFree) else
  let corrupted := negb (hdr_magic (h_mem h) header =? ALLOC_MAGIC) in
  let end_magic := ptr + hdr_size (h_mem h) header in
  let corrupted := corrupted || negb (load 8 (h_mem h) end_magic =? ALLOC_MAGIC) in
  if (corrupted : bool) then Some (h, Corrupted) else
  let m := set_hdr_magic (h_mem h) header FREED_PATTERN in
  let phys_addr := virt_to_phys header in
  '(m, pg) ← free_pages phys_addr (Z.to_nat (hdr_order m header)) m (h_pages h);
  Some (mk_heap m pg (h_caches h), Freed).

Definition pmm_alloc_page (h : heap P) : heap P * Z :=
  let '(m, pg, phys) := alloc_pages 0 (h_mem h) (h_pages h) in
  (mk_heap m pg (h_caches h), phys).

Definition pmm_free_page (phys : Z) (h : heap P) : option (heap P) :=
  '(m, pg) ← free_pages phys 0 (h_mem h) (h_pages h);
  Some (mk_heap m pg (h_caches h)).

End Ops.

End Pmm.
