(* ===== verification/KmallocSpec.v ===== *)
(** * kmalloc and kfree: correctness

    The size classes, the order computation and the two allocation paths of
    src/kernel/arch/x86_64/memory/pmm.c, proved against the slab allocator's
    invariant ([heap_ok]) and the page-allocator interface. *)
From S2P Require Import Prelude Memory PageAlloc Chain Slab SlabProofs SlabHeap SlabSpec Pmm.
Import Slab Pmm.

(** ** The order computation *)

Lemma order_loop_spec fuel o total :
  0 <= o <= 51 -> total <= 2 ^ 63 -> (52 - Z.to_nat o <= fuel)%nat ->
  exists k, order_loop fuel o (2 ^ (12 + o)) total = Some k /\ o <= k <= 51 /\
    total <= 2 ^ (12 + k) /\ (k = o \/ 2 ^ (11 + k) < total).
Proof.
  revert o. induction fuel as [|fuel IH]; intros o Ho Ht Hf; [lia|].
  cbn [order_loop]. destruct (Z.ltb_spec (2 ^ (12 + o)) total) as [Hlt|Hge].
  - assert (o <= 50) as Ho'.
    { destruct (Z.le_gt_cases o 50); [done|]. assert (o = 51) as -> by lia. change (2 ^ (12 + 51)) with (2 ^ 63) in Hlt. lia. }
    assert (2 ^ (12 + (o + 1)) = 2 * 2 ^ (12 + o)) as Ep.
    { rewrite <- Z.pow_succ_r by lia. f_equal. lia. }
    assert (2 ^ (12 + (o + 1)) <= 2 ^ 63) by (apply Z.pow_le_mono_r; lia).
    rewrite (wrap_small 8) by lia. rewrite Z.shiftl_mul_pow2, Z.pow_1_r by lia.
    replace (2 ^ (12 + o) * 2) with (2 ^ (12 + (o + 1))) by lia.
    rewrite wrap_small by lia.
    destruct (IH (o + 1)) as (k & -> & Hk & Hb & Hmin); [lia|done|lia|].
    exists k. split_and!; try done; try lia. right. destruct Hmin as [->|?]; [|done].
    replace (11 + (o + 1)) with (12 + o) by lia. done.
  - exists o. split_and!; try done; try lia.
Qed.

(** The loop spins forever once the doubled block size has wrapped to 0. *)
Lemma order_loop_diverges fuel o b total :
  2 ^ 63 < total -> (b = 0 \/ exists k, 12 <= k <= 63 /\ b = 2 ^ k) ->
  order_loop fuel o b total = None.
Proof.
  intros Ht. revert o b. induction fuel as [|fuel IH]; intros o b Hb; [done|]. cbn [order_loop].
  assert (b <= 2 ^ 63) as Hle.
  { destruct Hb as [->|(k & Hk & ->)]; [lia|]. apply Z.pow_le_mono_r; lia. }
  rewrite (proj2 (Z.ltb_lt _ _)) by lia. apply IH. rewrite Z.shiftl_mul_pow2, Z.pow_1_r by lia.
  destruct Hb as [->|(k & Hk & ->)]; [by left|].
  destruct (decide (k = 63)) as [->|Hne]; [by left|]. right. exists (k + 1). split; [lia|].
  replace (2 ^ k * 2) with (2 ^ (k + 1)) by (rewrite Z.pow_add_r by lia; done).
  apply wrap_small. split; [apply Z.pow_nonneg; lia|]. apply Z.pow_lt_mono_r; lia.
Qed.

(** ** Size classes *)

Lemma find_size_spec size :
  size <= 2048 -> exists i, find_size slab_sizes 0 size = Some i /\ (i < NUM_SLAB_SIZES)%nat /\
    size <= nth i slab_sizes 0 /\ (forall j, (j < i)%nat -> nth j slab_sizes 0 < size).
Proof.
  intros Hs. unfold slab_sizes, NUM_SLAB_SIZES. cbn [find_size slab_sizes length].
  repeat match goal with |- context [size <=? ?k] => destruct (Z.leb_spec size k) end; try lia;
    (eexists; split; [reflexivity|]; split; [simpl; lia|]; split; [simpl; lia|];
     intros j Hj; do 8 (destruct j as [|j]; [simpl; lia|]); lia).
Qed.

Section Kmalloc.
Context `{Hhdm} `{Linker} {P : Type} `{!PageAllocator P}.

Implicit Types h : heap P.

(** The bytes of the slab pages. *)
Definition slab_pages (Ls : nat -> slab_list -> list Z) (v : Z) : Prop :=
  exists i s, (i < NUM_SLAB_SIZES)%nat /\ s ∈ all_slabs (Ls i) /\ in_range s 8192 v.

(** The page allocator may change under the slabs as long as their pages stay
    out of the free set and their bytes stay put. *)
Lemma heap_repage h F Ls fl m' pg' F' :
  heap_ok h F Ls fl -> pa_inv m' pg' F' ->
  (forall v, slab_pages Ls v -> ~ image F' v) ->
  (forall q k, pa_block pg' q k <-> pa_block (h_pages h) q k) ->
  agree (slab_pages Ls) (h_mem h) m' ->
  heap_ok (mk_heap m' pg' (h_caches h)) F' Ls fl.
Proof.
  intros Hh Hpg HF Hb Ha.
  split; try done; try apply Hh.
  - intros i Hi. eapply core_agree; [|apply (ho_core _ _ _ _ Hh i Hi)].
    intros s Hs. eapply agree_sub; [exact Ha|]. intros v Hv. by exists i, s.
  - intros i s Hi Hs. destruct (ho_block _ _ _ _ Hh i s Hi Hs) as [Hbl _]. split; [by apply Hb|].
    intros x Hx HFx. apply (HF (x + hhdm_offset)).
    + exists i, s. split_and!; try done. unfold in_range in *. lia.
    + unfold image. by rewrite Z.add_simpl_r.
Qed.

Lemma slab_pages_not_free h F Ls fl v :
  heap_ok h F Ls fl -> slab_pages Ls v -> ~ image F v.
Proof. intros Hh (i & s & Hi & Hs & Hv) HF. by apply (heap_page_free h F Ls fl i s v Hh Hi Hs HF). Qed.

(** The allocator's own words in a slab are bytes of its pages. *)
Lemma meta_slab_page h F Ls fl v : heap_ok h F Ls fl -> heap_meta Ls fl v -> slab_pages Ls v.
Proof.
  intros Hh (i & s & Hi & Hs & Hv). exists i, s. split_and!; try done.
  destruct Hv as [Hv|(o & Ho & Hv)]; [unfold in_range in *; lia|].
  destruct (heap_ok_slab h F Ls fl i s Hh Hi Hs) as [Hok Hsz].
  apply (slab_meta_page (get_cache h i) s (fl s)); [done|apply Hok|]. right. eauto.
Qed.

(** ** The page path *)

(** What a page allocation leaves at the start of its block. *)
Record kblock (m : mem) (v size : Z) (o : nat) : Prop := {
  kb_magic : hdr_magic m v = ALLOC_MAGIC;
  kb_size : hdr_size m v = size;
  kb_order : hdr_order m v = Z.of_nat o;
  kb_end : load 8 m (v + 16 + size) = ALLOC_MAGIC;
}.

(** The bytes of a block that the allocator writes: header and end marker. *)
Definition kblock_meta (v size x : Z) : Prop := in_range v 13 x \/ in_range (v + 16 + size) 8 x.

Lemma kblock_written m v size o :
  0 <= size < 2 ^ 32 -> (o <= 20)%nat ->
  let m1 := set_hdr_order (set_hdr_size (set_hdr_magic m v ALLOC_MAGIC) v size) v (Z.of_nat o) in
  let m2 := store 8 m1 (v + 16 + hdr_size m1 v) ALLOC_MAGIC in
  kblock m2 v size o /\ agree (fun x => ~ kblock_meta v size x) m m2.
Proof.
  intros Hs Ho m1 m2.
  assert (hdr_size m1 v = size) as Es.
  { unfold m1, hdr_size, set_hdr_order, set_hdr_size. rewrite load_store_ne by lia.
    by rewrite load_store_same by (simpl; lia). }
  unfold m2. rewrite Es. split.
  - split; unfold hdr_magic, hdr_size, hdr_order; rewrite ?load_store_ne by lia.
    + unfold m1, set_hdr_order, set_hdr_size, set_hdr_magic. rewrite !load_store_ne by lia.
      by rewrite load8_store8 by done.
    + exact Es.
    + unfold m1, set_hdr_order. apply load_store_same. simpl. lia.
    + apply load8_store8. done.
  - intros x Hx. unfold kblock_meta, in_range in Hx.
    unfold m1, set_hdr_order, set_hdr_size, set_hdr_magic.
    rewrite !store_read8_out; [done|unfold in_range; lia..].
Qed.

(** Page allocation of a size whose end marker fits the block. *)
Lemma kmalloc_pages_spec size h F Ls fl :
  heap_ok h F Ls fl -> 0 < size -> size + 20 <= 2 ^ 31 ->
  exists o, order_loop 64 0 4096 (size + 20) = Some (Z.of_nat o) /\ (o <= 19)%nat /\
    size + 20 <= block_bytes o /\ (o = 0%nat \/ block_bytes o < 2 * (size + 20)) /\
    (size + 24 <= block_bytes o ->
     exists h' v, kmalloc_pages 64 size h = Some (h', v) /\
     ((v = 0 /\ h' = h /\ forall k n, (o <= k <= 20)%nat -> ~ pa_room (h_pages h) F k (S n)) \/
      exists p F', v = p + hhdm_offset + 16 /\
        pa_block (h_pages h') p o /\
        (forall x, in_range p (block_bytes o) x -> F x) /\
        F' ≡ fminus F (in_range p (block_bytes o)) /\
        heap_ok h' F' Ls fl /\
        kblock (h_mem h') (p + hhdm_offset) size o /\
        (forall q k, pa_block (h_pages h') q k <-> pa_block (h_pages h) q k) /\
        (forall k n, (o <= k)%nat -> pa_room (h_pages h) F k (S n) -> pa_room (h_pages h') F' k n) /\
        agree (fun x => ~ image F x) (h_mem h) (h_mem h'))).
Proof.
  intros Hh Hs Hb.
  destruct (order_loop_spec 64 0 (size + 20)) as (k & El & Hk & Hle & Hmin); [lia|lia|lia|].
  change (2 ^ (12 + 0)) with 4096 in El.
  assert (k <= 19) as Hk19.
  { destruct Hmin as [->|Hmin]; [lia|]. destruct (Z.le_gt_cases k 19); [done|].
    assert (2 ^ 31 <= 2 ^ (11 + k)) by (apply Z.pow_le_mono_r; lia). lia. }
  exists (Z.to_nat k). unfold block_bytes. rewrite Z2Nat.id by lia.
  split_and!; [done|lia|done| |].
  { destruct Hmin as [->|Hmin]; [by left|right].
    replace (12 + k) with (Z.succ (11 + k)) by lia. rewrite Z.pow_succ_r; lia. }
  intros Hfit. unfold kmalloc_pages, sizeof_alloc_header.
  rewrite wrap_small by lia. replace (16 + size + 4) with (size + 20) by lia.
  unfold PAGE_FRAME_SIZE. rewrite El. cbn [mbind option_bind].
  rewrite (proj2 (Z.leb_gt _ _)) by (unfold MAX_SUPPORTED_ORDER; lia).
  destruct (alloc_pages (Z.to_nat k) (h_mem h) (h_pages h)) as [[m0 pg] p] eqn:Ea.
  destruct (pa_alloc (Z.to_nat k) _ _ F _ _ _ ltac:(lia) (ho_pages _ _ _ _ Hh) Ea)
    as [(-> & -> & ->)|(Hbl & HpF & Hinv & Hag & Hpb)].
  { exists h, 0. split; [by destruct h|]. left. split_and!; [done..|]. intros j n Hj Hr.
    by destruct (pa_room_alloc (Z.to_nat k) j n _ _ F _ _ _ ltac:(lia) (ho_pages _ _ _ _ Hh) Ea Hr). }
  destruct (pa_block_bounds _ _ _ Hbl) as (_ & Hp & Hpm & Hpl).
  assert (forall j n, (Z.to_nat k <= j)%nat -> pa_room (h_pages h) F j (S n) ->
    pa_room pg (fminus F (in_range p (block_bytes (Z.to_nat k)))) j n) as Hroom.
  { intros j n Hj. apply pa_room_take; [done|lia|done|done]. }
  unfold block_bytes in *.
  rewrite Z2Nat.id in * by lia.
  rewrite (proj2 (Z.eqb_neq p 0)) by lia. rewrite phys_to_virt_in by lia.
  destruct (kblock_written m0 (p + hhdm_offset) size (Z.to_nat k)) as [Hkb Hag2]; [lia|lia|].
  cbv zeta in Hkb, Hag2. rewrite Z2Nat.id in Hkb, Hag2 by lia.
  match type of Hkb with kblock ?x _ _ _ => set (m2 := x) in * end.
  eexists _, _. split; [reflexivity|]. right.
  exists p, (fminus F (in_range p (2 ^ (12 + k)))).
  assert (forall x, kblock_meta (p + hhdm_offset) size x -> in_range p (2 ^ (12 + k)) (x - hhdm_offset)) as Hin.
  { intros x Hx. unfold kblock_meta, in_range in *. lia. }
  assert (agree (fun x => ~ image F x) (h_mem h) m2) as HagF.
  { transitivity m0.
    - eapply agree_sub; [exact Hag|]. intros x Hx [HF _]. by apply Hx.
    - eapply agree_sub; [exact Hag2|]. intros x Hx Hm. by apply Hx, HpF, Hin. }
  split_and!; try done.
  apply (heap_repage h F).
  - done.
  - eapply pa_inv_agree; [|exact Hinv]. eapply agree_sub; [exact Hag2|]. intros x [_ Hx] Hm. by apply Hx, Hin.
  - intros v Hv [HF _]. by apply (slab_pages_not_free h F Ls fl v Hh Hv).
  - done.
  - eapply agree_sub; [exact HagF|]. intros v Hv. by apply (slab_pages_not_free h F Ls fl v Hh Hv).
Qed.

(** A request too large for the largest block fails cleanly. *)
Lemma kmalloc_pages_too_large size h :
  2 ^ 31 < size + 20 <= 2 ^ 63 -> kmalloc_pages 64 size h = Some (h, 0).
Proof.
  intros Hs. destruct (order_loop_spec 64 0 (size + 20)) as (k & El & Hk & Hle & Hmin); [lia|lia|lia|].
  unfold kmalloc_pages, sizeof_alloc_header. rewrite wrap_small by lia.
  replace (16 + size + 4) with (size + 20) by lia. unfold PAGE_FRAME_SIZE.
  change (2 ^ (12 + 0)) with 4096 in El. rewrite El. cbn [mbind option_bind].
  rewrite (proj2 (Z.leb_le _ _)); [done|]. unfold MAX_SUPPORTED_ORDER.
  destruct (Z.le_gt_cases 20 k); [lia|].
  assert (2 ^ (12 + k) <= 2 ^ 31) by (apply Z.pow_le_mono_r; lia). lia.
Qed.

(** A request whose total exceeds half the address space never returns. *)
Lemma kmalloc_pages_diverges fuel size h :
  2 ^ 63 < size + 20 < 2 ^ 64 -> kmalloc_pages fuel size h = None.
Proof.
  intros Hs. unfold kmalloc_pages, sizeof_alloc_header. rewrite wrap_small by lia.
  rewrite order_loop_diverges; [done|lia|]. right. by exists 12.
Qed.

(** ** The slab path *)

Lemma kmalloc_slab_spec fuel size h F Ls fl :
  heap_ok h F Ls fl -> 0 < size <= 2048 ->
  exists i, (i < NUM_SLAB_SIZES)%nat /\ size <= nth i slab_sizes 0 /\
    (forall j, (j < i)%nat -> nth j slab_sizes 0 < size) /\
    ((Ls i Partial = [] /\ Ls i Empty = [] /\
      (forall o n, (1 <= o <= 20)%nat -> ~ pa_room (h_pages h) F o (S n)) /\
      kmalloc fuel size h = kmalloc_pages fuel size h) \/
     (exists h' p F' Ls' fl', kmalloc fuel size h = Some (h', p) /\
        alloc_post i h F Ls fl h' p F' Ls' fl')).
Proof.
  intros Hh Hs. destruct (find_size_spec size) as (i & Ei & Hi & Hle & Hmin); [lia|].
  exists i. split_and!; try done. unfold kmalloc, slab_alloc_size, SLAB_THRESHOLD. rewrite Ei.
  rewrite (proj2 (Z.eqb_neq size 0)) by lia. rewrite (proj2 (Z.leb_le _ _)) by lia.
  destruct (slab_alloc_spec i h F Ls fl Hh Hi) as (h' & p & -> & [(-> & -> & ? & ? & ?)|(F' & Ls' & fl' & Hpost)]).
  - left. done.
  - right. exists h', p, F', Ls', fl'. split; [|done]. cbn [mbind option_bind].
    by rewrite (proj2 (Z.eqb_neq p 0)) by apply (ap_nonnull _ _ _ _ _ _ _ _ _ _ Hpost).
Qed.

Lemma kfree_slab_spec h F Ls fl i o :
  heap_ok h F Ls fl -> (i < NUM_SLAB_SIZES)%nat -> live Ls fl i o ->
  if obj_magic (h_mem h) o =? FREED_PATTERN then kfree o h = Some (h, DoubleFree)
  else exists h' Ls' fl', kfree o h = Some (h', Freed) /\ free_post h F Ls fl o h' Ls' fl'.
Proof.
  intros Hh Hi Hl. destruct (slab_free_live h F Ls fl i o Hh Hi Hl) as (h' & Ls' & fl' & Hne & Ef & Hpost).
  assert (o <> 0) as Ho.
  { destruct Hl as (s & Hs & Ho & _). destruct (heap_addr h F Ls fl i s Hh Hi Hs) as (? & _).
    apply is_obj_range in Ho; [lia|by apply slab_sizes_ok]. }
  unfold kfree. rewrite (proj2 (Z.eqb_neq o 0)) by done.
  rewrite (proj2 (Z.eqb_neq (slab_find_containing o h) 0)) by done. cbn [negb].
  destruct (obj_magic (h_mem h) o =? FREED_PATTERN); [done|].
  rewrite Ef. exists h', Ls', fl'. done.
Qed.

(** ** Freeing a page block *)

Lemma find_containing_block h v size o :
  kblock (h_mem h) v size o ->
  v mod 8192 = 0 \/ (v mod 8192 = 4096 /\ slab_magic (h_mem h) (v - 4096) <> SLAB_MAGIC) ->
  slab_find_containing (v + 16) h = 0.
Proof.
  intros Hkb Hv. unfold slab_find_containing.
  change (Z.lnot (2 * PAGE_FRAME_SIZE - 1)) with (Z.lnot (Z.ones 13)). rewrite land_lnot_ones by lia.
  change (2 ^ 13) with 8192.
  assert (slab_magic (h_mem h) (v + 16 - (v + 16) mod 8192) <> SLAB_MAGIC) as Hm.
  { rewrite Z.add_mod by lia. destruct Hv as [->|[-> Hm]].
    - change ((0 + 16 mod 8192) mod 8192) with 16. rewrite Z.add_simpl_r.
      unfold slab_magic. fold (hdr_magic (h_mem h) v). rewrite (kb_magic _ _ _ _ Hkb). done.
    - change ((4096 + 16 mod 8192) mod 8192) with 4112.
      by replace (v + 16 - 4112) with (v - 4096) by lia. }
  by rewrite (proj2 (Z.eqb_neq _ _) Hm).
Qed.

Lemma kfree_pages_spec h F Ls fl p size o :
  heap_ok h F Ls fl -> pa_block (h_pages h) p o -> 0 <= size ->
  (forall x, in_range p (block_bytes o) x -> ~ F x) ->
  (forall x, in_range (p + hhdm_offset) (block_bytes o) x -> ~ slab_pages Ls x) ->
  kblock (h_mem h) (p + hhdm_offset) size o ->
  slab_find_containing (p + hhdm_offset + 16) h = 0 ->
  exists h' F', kfree (p + hhdm_offset + 16) h = Some (h', Freed) /\
    F' ≡ fplus F (in_range p (block_bytes o)) /\ heap_ok h' F' Ls fl /\
    (forall q k, pa_block (h_pages h') q k <-> pa_block (h_pages h) q k) /\
    agree (fun x => ~ image F' x) (h_mem h) (h_mem h').
Proof.
  intros Hh Hb Hs HF Hsl Hkb Hfind. set (v := p + hhdm_offset) in *.
  destruct (pa_block_bounds _ _ _ Hb) as (Ho & Hp & _ & Hpl).
  pose proof hhdm_positive. pose proof hhdm_no_wrap.
  assert (4096 <= block_bytes o) as Hbb.
  { unfold block_bytes. change 4096 with (2 ^ 12). apply Z.pow_le_mono_r; lia. }
  unfold kfree. rewrite (proj2 (Z.eqb_neq (v + 16) 0)) by lia. rewrite Hfind. cbn [Z.eqb negb].
  unfold sizeof_alloc_header. rewrite Z.add_simpl_r.
  rewrite (kb_magic _ _ _ _ Hkb), (kb_size _ _ _ _ Hkb), (kb_end _ _ _ _ Hkb).
  change (ALLOC_MAGIC =? FREED_PATTERN) with false. rewrite Z.eqb_refl. cbn [negb orb].
  set (m1 := set_hdr_magic (h_mem h) v FREED_PATTERN).
  assert (hdr_order m1 v = Z.of_nat o) as ->.
  { unfold m1, hdr_order, set_hdr_magic. rewrite load_store_ne by lia. apply Hkb. }
  rewrite Nat2Z.id. replace (virt_to_phys v) with p.
  2:{ unfold virt_to_phys, v. rewrite Z.add_simpl_r. symmetry. apply wrap_small. lia. }
  assert (forall x, in_range v 8 x -> in_range p (block_bytes o) (x - hhdm_offset)) as Hin.
  { intros x Hx. unfold in_range, v in *. lia. }
  assert (pa_inv m1 (h_pages h) F) as Hinv.
  { eapply pa_inv_agree; [|apply Hh]. apply agree_store. intros x Hx Hr. by apply (HF _ (Hin x Hr)). }
  destruct (pa_free o m1 (h_pages h) F p Hinv Hb HF) as (m2 & pg & -> & Hinv2 & Hag & Hpb).
  cbn [mbind option_bind]. eexists _, _. split; [reflexivity|]. split; [reflexivity|].
  assert (agree (fun x => ~ image (fplus F (in_range p (block_bytes o))) x) (h_mem h) m2) as Hag2.
  { transitivity m1; [|done]. apply agree_store. intros x Hx Hr. apply Hx. right. by apply Hin. }
  assert (forall x, slab_pages Ls x -> ~ image (fplus F (in_range p (block_bytes o))) x) as Hns.
  { intros x Hx [HFx|Hr].
    - by apply (slab_pages_not_free h F Ls fl x Hh Hx).
    - apply (Hsl x); [|done]. unfold in_range, v in *. lia. }
  split_and!; try done. apply (heap_repage h F); try done. by eapply agree_sub.
Qed.

Lemma heap_ok_proper h F F' Ls fl : F ≡ F' -> heap_ok h F Ls fl -> heap_ok h F' Ls fl.
Proof.
  intros E Hh. split; try apply Hh.
  - eapply pa_inv_proper; [exact E|apply Hh].
  - intros i s Hi Hs. destruct (ho_block _ _ _ _ Hh i s Hi Hs) as [? Hn]. split; [done|].
    intros x Hx HF. apply (Hn x Hx). by apply (E x).
Qed.

(** Removing a block of free memory and putting it back. *)
Lemma fplus_fminus F (G : Z -> Prop) :
  (forall x, G x -> F x) -> (forall x, Decision (G x)) -> fplus (fminus F G) G ≡ F.
Proof. intros HG Hd x. unfold fplus, fminus. destruct (Hd x); naive_solver. Qed.

(** The client's writes to a block it owns are invisible to the heap. *)
Lemma heap_client_write h F Ls fl m' (W : Z -> Prop) :
  heap_ok h F Ls fl -> agree (fun x => ~ W x) (h_mem h) m' ->
  (forall x, W x -> ~ image F x /\ ~ slab_pages Ls x) -> heap_ok (set_mem h m') F Ls fl.
Proof.
  intros Hh Ha HW. apply (heap_repage h F).
  - done.
  - eapply pa_inv_agree; [|apply Hh]. eapply agree_sub; [exact Ha|]. intros x Hx HWx. by destruct (HW x HWx).
  - intros v. by apply (slab_pages_not_free h F Ls fl).
  - done.
  - eapply agree_sub; [exact Ha|]. intros x Hx HWx. by destruct (HW x HWx).
Qed.

Lemma kblock_agree m m' v size o :
  agree (kblock_meta v size) m m' -> kblock m v size o -> kblock m' v size o.
Proof.
  intros Ha Hk. split; unfold hdr_magic, hdr_size, hdr_order;
    rewrite <- (load_agree _ m m') by (eapply agree_sub; [exact Ha|];
      unfold kblock_meta, in_range; simpl; lia); apply Hk.
Qed.

(** A page block is given back whole, whatever the client wrote to its payload. *)
Lemma kfree_after_write h F Ls fl p size o m2 :
  heap_ok h F Ls fl -> pa_block (h_pages h) p o -> 0 <= size -> size + 24 <= block_bytes o ->
  (forall x, in_range p (block_bytes o) x -> ~ F x) ->
  (forall x, in_range (p + hhdm_offset) (block_bytes o) x -> ~ slab_pages Ls x) ->
  kblock (h_mem h) (p + hhdm_offset) size o ->
  agree (fun x => ~ in_range (p + hhdm_offset + 16) size x) (h_mem h) m2 ->
  (p + hhdm_offset) mod 8192 = 0 \/
  ((p + hhdm_offset) mod 8192 = 4096 /\ slab_magic m2 (p + hhdm_offset - 4096) <> SLAB_MAGIC) ->
  exists h' F', kfree (p + hhdm_offset + 16) (set_mem h m2) = Some (h', Freed) /\
    F' ≡ fplus F (in_range p (block_bytes o)) /\ heap_ok h' F' Ls fl /\
    agree (fun x => ~ image F' x) m2 (h_mem h').
Proof.
  intros Hh Hb Hs Hfit HF Hsl Hkb Ha Hal.
  assert (heap_ok (set_mem h m2) F Ls fl) as Hh2.
  { eapply heap_client_write; [done|exact Ha|]. intros x Hx.
    assert (in_range (p + hhdm_offset) (block_bytes o) x) by (unfold in_range in *; lia).
    split; [|by apply Hsl]. apply HF. unfold in_range in *. lia. }
  assert (kblock m2 (p + hhdm_offset) size o) as Hkb2.
  { eapply kblock_agree; [|exact Hkb]. eapply agree_sub; [exact Ha|].
    unfold kblock_meta, in_range. lia. }
  destruct (kfree_pages_spec (set_mem h m2) F Ls fl p size o Hh2 Hb Hs HF Hsl Hkb2)
    as (h' & F' & ? & ? & ? & _ & ?); [by eapply (find_containing_block (set_mem h m2))|].
  by exists h', F'.
Qed.

(** The end marker is eight bytes long but four are accounted for: when the
    request fills its block to within four bytes, the marker is written across
    the end of the block. *)
Lemma kmalloc_marker_overrun size h h' v o :
  0 < size -> size + 20 <= 2 ^ 31 ->
  order_loop 64 0 4096 (size + 20) = Some (Z.of_nat o) ->
  block_bytes o < size + 24 ->
  kmalloc_pages 64 size h = Some (h', v) -> v <> 0 ->
  load 8 (h_mem h') (v + size) = ALLOC_MAGIC /\ v - 16 + block_bytes o < v + size + 8.
Proof.
  intros Hs Hb El Ho Ek Hv. split; [|lia].
  unfold kmalloc_pages, sizeof_alloc_header in Ek. rewrite wrap_small in Ek by lia.
  replace (16 + size + 4) with (size + 20) in Ek by lia. unfold PAGE_FRAME_SIZE in Ek.
  rewrite El in Ek. cbn [mbind option_bind] in Ek.
  destruct (Z.of_nat MAX_SUPPORTED_ORDER <=? Z.of_nat o); [by inversion Ek; subst|].
  destruct (alloc_pages _ _ _) as [[m0 pg] p]. destruct (p =? 0); [by inversion Ek; subst|].
  inversion Ek; subst. simpl h_mem.
  set (m1 := set_hdr_order _ _ _).
  assert (hdr_size m1 (phys_to_virt p) = size) as ->.
  { unfold m1, hdr_size, set_hdr_order, set_hdr_size. rewrite load_store_ne by lia.
    rewrite load_store_same; [done|simpl; lia]. }
  by apply load8_store8.
Qed.

End Kmalloc.
