(* ===== verification/HeapClaims.v ===== *)
(** * The kernel heap: main theorems

    The abstract heap: [heap_repr h F A] says that the heap is in order, that
    [F] is the set of free physical bytes and that [A i x] holds for exactly
    the objects [x] handed out from size class [i].  Every operation is a
    transition of ([F], [A]), and no operation touches the bytes of an object
    that stays allocated. *)
From S2P Require Import Prelude Memory PageAlloc Chain Slab SlabProofs SlabHeap SlabSpec.
From S2P Require Import Pmm KmallocSpec Buddy BuddyProofs BuddySpec.
Import Buddy Slab Pmm.

Section HeapClaims.
Context `{Hhdm} `{Linker} {P : Type} `{!PageAllocator P}.

Implicit Types h : heap P.

Definition heap_repr h (F : Z -> Prop) (A : nat -> Z -> Prop) : Prop :=
  exists Ls fl, heap_ok h F Ls fl /\
    forall i x, A i x <-> (i < NUM_SLAB_SIZES)%nat /\ live Ls fl i x.

(** The object [x] of size class [i] keeps its contents. *)
Definition kept (i : nat) (x : Z) (m m' : mem) : Prop := agree (in_range x (nth i slab_sizes 0)) m m'.

Lemma kept_load i x m m' n o :
  kept i x m m' -> 0 <= o -> o + Z.of_nat n <= nth i slab_sizes 0 -> load n m' (x + o) = load n m (x + o).
Proof.
  intros Hk Ho Hn. symmetry. apply load_agree. eapply agree_sub; [exact Hk|]. unfold in_range. lia.
Qed.

(** Two objects share no byte. *)
Definition apart (i : nat) (x : Z) (j : nat) (y : Z) : Prop :=
  x + nth i slab_sizes 0 <= y \/ y + nth j slab_sizes 0 <= x.

Lemma repr_alloc h F A Ls fl i h' p F' Ls' fl' :
  heap_ok h F Ls fl -> (forall i x, A i x <-> (i < NUM_SLAB_SIZES)%nat /\ live Ls fl i x) ->
  (i < NUM_SLAB_SIZES)%nat -> alloc_post i h F Ls fl h' p F' Ls' fl' ->
  heap_repr h' F' (fun j x => A j x \/ (j = i /\ x = p)) /\ p <> 0 /\
  (forall x, F' x -> F x) /\
  (forall j x, A j x -> apart j x i p /\ kept j x (h_mem h) (h_mem h')).
Proof.
  intros Hh HA Hi Hp. split_and!; try apply Hp.
  - exists Ls', fl'. split; [apply Hp|]. intros j x. rewrite HA. split.
    + intros [[Hj Hx]|[-> ->]]; (split; [done|]); apply (ap_live _ _ _ _ _ _ _ _ _ _ Hp); auto.
    + intros [Hj Hx%(ap_live _ _ _ _ _ _ _ _ _ _ Hp)]; [|done]. naive_solver.
  - intros j x [Hj Hx]%HA. split.
    + assert (live Ls' fl' j x) as Hx' by (apply (ap_live _ _ _ _ _ _ _ _ _ _ Hp); auto).
      assert (live Ls' fl' i p) as Hp' by (apply (ap_live _ _ _ _ _ _ _ _ _ _ Hp); auto).
      apply (live_disjoint h' F' Ls' fl'); try done; [apply Hp|]. intros ->.
      assert (i = j) as -> by (eapply (live_cache h' F' Ls' fl'); eauto; apply Hp).
      by apply (ap_fresh _ _ _ _ _ _ _ _ _ _ Hp).
    + eapply agree_sub; [apply (ap_frame _ _ _ _ _ _ _ _ _ _ Hp)|].
      intros v Hv. by apply (live_private h F Ls fl j x).
Qed.

Lemma repr_free h F A Ls fl i x h' Ls' fl' :
  heap_ok h F Ls fl -> (forall i x, A i x <-> (i < NUM_SLAB_SIZES)%nat /\ live Ls fl i x) ->
  A i x -> free_post h F Ls fl x h' Ls' fl' ->
  heap_repr h' F (fun j y => A j y /\ y <> x) /\
  (forall j y, A j y -> y <> x -> kept j y (h_mem h) (h_mem h')).
Proof.
  intros Hh HA [Hi Hx]%HA Hp. split.
  - exists Ls', fl'. split; [apply Hp|]. intros j y. rewrite HA. split.
    + intros [[Hj Hy] Hne]. split; [done|]. by apply (fp_live _ _ _ _ _ _ _ _ Hp).
    + intros [Hj Hy%(fp_live _ _ _ _ _ _ _ _ Hp)]; [|done]. naive_solver.
  - intros j y [Hj Hy]%HA Hne. eapply agree_sub; [apply (fp_frame _ _ _ _ _ _ _ _ Hp)|].
    intros v Hv. split; [by apply (live_private h F Ls fl j y)|]. intros Hr.
    pose proof (size_pos i Hi).
    destruct (live_disjoint h F Ls fl i j x y Hh Hi Hj Hx Hy (not_eq_sym Hne));
      unfold in_range in *; lia.
Qed.

(** After [slab_allocator_init] no object is in use. *)
Lemma slab_init_repr m pg F :
  pa_inv m pg F -> heap_repr (mk_heap m pg slab_allocator_init) F (fun _ _ => False).
Proof.
  intros Hpg. exists (fun _ _ => []), (fun _ => []). split; [by apply slab_init_ok|].
  intros i x. split; [done|]. intros [_ (s & Hs & _)]. set_solver.
Qed.

Lemma repr_client h F A i x m' :
  heap_repr h F A -> A i x ->
  agree (fun y => ~ in_range x (nth i slab_sizes 0) y) (h_mem h) m' -> heap_repr (set_mem h m') F A.
Proof.
  intros (Ls & fl & Hh & HA) Hx Ha. exists Ls, fl. split; [|done]. apply HA in Hx as [Hi Hl].
  by apply (heap_ok_client h F Ls fl i x).
Qed.

Lemma repr_apart h F A i x j y :
  heap_repr h F A -> A i x -> A j y -> x <> y -> apart i x j y.
Proof.
  intros (Ls & fl & Hh & HA) [Hi Hx]%HA [Hj Hy]%HA Hne. by apply (live_disjoint h F Ls fl).
Qed.

(** ** Slab allocator *)

(** C5. [slab_alloc] always finishes.  It fails only when no block of two pages
    or more is free, without changing anything; otherwise it hands out an object that overlaps no object in use,
    keeps the heap invariant (lists, free counts, classification into partial,
    full and empty slabs, statistics), takes pages only from the free set and
    leaves the contents of every object in use unchanged. *)
Theorem slab_alloc_correct i h F A :
  heap_repr h F A -> (i < NUM_SLAB_SIZES)%nat ->
  exists h' p, slab_alloc i h = Some (h', p) /\
  ((p = 0 /\ h' = h /\ forall o, (1 <= o <= 20)%nat -> ~ pa_room (h_pages h) F o 1) \/
   exists F', heap_repr h' F' (fun j x => A j x \/ (j = i /\ x = p)) /\ p <> 0 /\
     (forall x, F' x -> F x) /\
     (forall j x, A j x -> apart j x i p /\ kept j x (h_mem h) (h_mem h'))).
Proof.
  intros (Ls & fl & Hh & HA) Hi.
  destruct (slab_alloc_spec i h F Ls fl Hh Hi) as (h' & p & E & [(-> & -> & _ & _ & Hno)|(F' & Ls' & fl' & Hp)]).
  - exists h, 0. split; [done|left]. split_and!; auto.
  - exists h', p. split; [done|right]. exists F'. by apply (repr_alloc h F A Ls fl i h' p F' Ls' fl').
Qed.

(** C6. Freeing an object in use: [slab_find_containing] finds its slab from
    the address alone, [slab_free] finishes, exactly that object leaves the set
    of objects in use, the invariant holds again and every other object keeps
    its contents. *)
Theorem slab_free_correct i x h F A :
  heap_repr h F A -> A i x ->
  exists h', slab_find_containing x h <> 0 /\
    slab_free (slab_find_containing x h) x h = Some h' /\
    heap_repr h' F (fun j y => A j y /\ y <> x) /\
    (forall j y, A j y -> y <> x -> kept j y (h_mem h) (h_mem h')).
Proof.
  intros (Ls & fl & Hh & HA) Hx. pose proof Hx as [Hi Hl]%HA.
  destruct (slab_free_live h F Ls fl i x Hh Hi Hl) as (h' & Ls' & fl' & Hne & E & Hp).
  exists h'. split_and!; try done; by apply (repr_free h F A Ls fl i x h' Ls' fl').
Qed.


(** ** kmalloc and kfree *)

(** C7. A small request is served from the smallest size class that fits: the
    result is a fresh object of that class with all the guarantees of
    [slab_alloc], and only when no block of two pages or more is free for a new
    slab may the request go on to the page path. *)
Theorem kmalloc_small_correct fuel size h F A :
  heap_repr h F A -> 0 < size <= SLAB_THRESHOLD ->
  exists i, (i < NUM_SLAB_SIZES)%nat /\ size <= nth i slab_sizes 0 /\
    (forall j, (j < i)%nat -> nth j slab_sizes 0 < size) /\
    ((kmalloc fuel size h = kmalloc_pages fuel size h /\
      forall o, (1 <= o <= 20)%nat -> ~ pa_room (h_pages h) F o 1) \/
     exists h' p F', kmalloc fuel size h = Some (h', p) /\
       heap_repr h' F' (fun j x => A j x \/ (j = i /\ x = p)) /\ p <> 0 /\
       (forall x, F' x -> F x) /\
       (forall j x, A j x -> apart j x i p /\ kept j x (h_mem h) (h_mem h'))).
Proof.
  intros (Ls & fl & Hh & HA) Hs. unfold SLAB_THRESHOLD in Hs.
  destruct (kmalloc_slab_spec fuel size h F Ls fl Hh Hs)
    as (i & Hi & Hle & Hmin & [(_ & _ & Hno & E)|(h' & p & F' & Ls' & fl' & E & Hp)]);
    exists i; split_and!; try done; [left; split; auto|right].
  exists h', p, F'. split; [done|]. by apply (repr_alloc h F A Ls fl i h' p F' Ls' fl').
Qed.

(** C10. [kfree] of a small object in use returns it, unless its first eight
    bytes happen to hold the freed pattern: then [kfree] reports a double free
    and the object stays allocated. *)
Theorem kfree_small_correct i x h F A :
  heap_repr h F A -> A i x ->
  (obj_magic (h_mem h) x = FREED_PATTERN -> kfree x h = Some (h, DoubleFree)) /\
  (obj_magic (h_mem h) x <> FREED_PATTERN ->
   exists h', kfree x h = Some (h', Freed) /\
     heap_repr h' F (fun j y => A j y /\ y <> x) /\
     (forall j y, A j y -> y <> x -> kept j y (h_mem h) (h_mem h'))).
Proof.
  intros (Ls & fl & Hh & HA) Hx. pose proof Hx as [Hi Hl]%HA.
  pose proof (kfree_slab_spec h F Ls fl i x Hh Hi Hl) as Hk.
  destruct (Z.eqb_spec (obj_magic (h_mem h) x) FREED_PATTERN) as [E|E]; split; try done.
  intros _. destruct Hk as (h' & Ls' & fl' & Ek & Hp). exists h'. split; [done|].
  by apply (repr_free h F A Ls fl i x h' Ls' fl').
Qed.


(** The end marker of [kmalloc] is eight bytes long but its size computation
    counts four: for a request that fills its block to within four bytes the
    marker ends outside the block. *)
Theorem kmalloc_end_marker_overrun size o h h' v :
  0 < size -> size + 20 <= 2 ^ 31 ->
  order_loop 64 0 PAGE_FRAME_SIZE (size + 20) = Some (Z.of_nat o) ->
  block_bytes o < size + 24 ->
  kmalloc_pages 64 size h = Some (h', v) -> v <> 0 ->
  load 8 (h_mem h') (v + size) = ALLOC_MAGIC /\ v - 16 + block_bytes o < v + size + 8.
Proof. apply kmalloc_marker_overrun. Qed.

(** Requests above the largest block: those up to 2^63 bytes fail without a
    change; above that the doubled block size wraps to 0 and the order loop of
    [kmalloc] never terminates. *)
Theorem kmalloc_huge_requests fuel size h :
  (2 ^ 31 < size + 20 <= 2 ^ 63 -> kmalloc 64 size h = Some (h, 0)) /\
  (2 ^ 63 < size + 20 < 2 ^ 64 -> kmalloc fuel size h = None).
Proof.
  unfold kmalloc, SLAB_THRESHOLD. split; intros Hs;
    rewrite (proj2 (Z.eqb_neq _ _)) by lia; rewrite (proj2 (Z.leb_gt _ _)) by lia.
  - by apply kmalloc_pages_too_large.
  - by apply kmalloc_pages_diverges.
Qed.

End HeapClaims.

(** ** Witnesses: the booted demo machine *)

Definition demo_linker : Linker.
Proof. refine {| slab_caches_addr := 0xffffffff80010000 |}; vm_compute; congruence. Defined.

#[local] Existing Instance qemu_hhdm.
#[local] Existing Instance demo_linker.

Definition demo_heap : option (heap buddy_state) :=
  r ← buddy_allocator_init demo_map ∅ buddy_boot; Some (mk_heap r.1 r.2 slab_allocator_init).

Lemma demo_heap_ok :
  exists h F, demo_heap = Some h /\ heap_repr h F (fun _ _ => False).
Proof.
  destruct demo_state as (m & st & G & E & Hok).
  exists (mk_heap m st slab_allocator_init), (buddy_free st G). split.
  - unfold demo_heap. by rewrite E.
  - apply slab_init_repr. exists G. split; [exact Hok|reflexivity].
Qed.

(** A run on the booted machine, for evaluation. *)
Definition demo_run {A} (f : heap buddy_state -> A) : option A := f <$> demo_heap.

Lemma demo_run_eq {A} (f : heap buddy_state -> A) h a :
  demo_heap = Some h -> demo_run f = Some a -> f h = a.
Proof. unfold demo_run. intros ->. by intros [= ->]. Qed.

Definition demo_alloc_obj (i : nat) (h : heap buddy_state) : option Z := snd <$> slab_alloc i h.

Lemma slab_alloc_witness :
  exists h h' F' A', slab_alloc 2 h = Some (h', 0xffff800000100030 + 126 * 64) /\ heap_repr h' F' A' /\
    A' 2%nat (0xffff800000100030 + 126 * 64).
Proof.
  destruct demo_heap_ok as (h & F & E & Hr).
  assert (demo_alloc_obj 2 h = Some (0xffff800000100030 + 126 * 64)) as Ep.
  { apply (demo_run_eq _ h _ E). vm_compute. reflexivity. }
  destruct (slab_alloc_correct 2 h F (fun _ _ => False) Hr) as (h' & p & Ea & Hpost).
  { vm_compute. lia. }
  unfold demo_alloc_obj in Ep. rewrite Ea in Ep. injection Ep as ->.
  destruct Hpost as [[? _]|(F' & Hr' & _)]; [discriminate|].
  exists h, h', F'. eexists. split; [exact Ea|]. split; [exact Hr'|]. right. split; reflexivity.
Defined.

(** The demo machine after one object of class 2 was handed out. *)
Lemma demo_heap_one :
  exists h F, slab_alloc 2 <$> demo_heap = Some (Some (h, 0xffff800000100030 + 126 * 64)) /\
    heap_repr h F (fun j x => False \/ (j = 2%nat /\ x = 0xffff800000100030 + 126 * 64)).
Proof.
  destruct demo_heap_ok as (h & F & E & Ls & fl & Hh & HA).
  assert (demo_alloc_obj 2 h = Some (0xffff800000100030 + 126 * 64)) as Ep.
  { apply (demo_run_eq _ h _ E). vm_compute. reflexivity. }
  destruct (slab_alloc_spec 2 h F Ls fl Hh ltac:(vm_compute; lia)) as (h' & p & Ea & Hpost).
  unfold demo_alloc_obj in Ep. rewrite Ea in Ep. injection Ep as ->.
  destruct Hpost as [[? _]|(F' & Ls' & fl' & Hp)]; [discriminate|].
  exists h', F'. rewrite E. split; [simpl; congruence|].
  apply (repr_alloc h F (fun _ _ => False) Ls fl 2 h' _ F' Ls' fl' Hh HA); [vm_compute; lia|exact Hp].
Qed.

Lemma slab_free_witness :
  exists h h' F A, slab_free 0xffff800000100000 (0xffff800000100030 + 126 * 64) h = Some h' /\
    heap_repr h' F A.
Proof.
  destruct demo_heap_one as (h & F & E & Hr).
  destruct (slab_free_correct 2 (0xffff800000100030 + 126 * 64) h F _ Hr) as (h' & Hne & Ef & Hr' & _).
  { right. split; reflexivity. }
  assert (slab_find_containing (0xffff800000100030 + 126 * 64) h = 0xffff800000100000) as Es.
  { assert ((r ← demo_heap; r ← slab_alloc 2 r;
       Some (slab_find_containing (0xffff800000100030 + 126 * 64) r.1)) = Some 0xffff800000100000) as E'
      by (vm_compute; reflexivity).
    destruct demo_heap as [h0|]; [|discriminate]. cbn [mbind option_bind] in E'. injection E as E.
    rewrite E in E'. injection E' as E'. exact E'. }
  rewrite Es in Ef. exists h, h', F. eexists. split; [exact Ef|exact Hr'].
Defined.


Lemma kmalloc_small_witness :
  exists h h' F' A', kmalloc 64 50 h = Some (h', 0xffff800000100030 + 126 * 64) /\
    heap_repr h' F' A'.
Proof.
  destruct demo_heap_ok as (h & F & E & Hr).
  assert ((fun h => snd <$> kmalloc 64 50 h) h = Some (0xffff800000100030 + 126 * 64)) as Ep.
  { apply (demo_run_eq (fun h => snd <$> kmalloc 64 50 h) h _ E). vm_compute. reflexivity. }
  assert ((fun h => snd <$> kmalloc_pages 64 50 h) h = Some 0xffff800000100010) as Eq.
  { apply (demo_run_eq (fun h => snd <$> kmalloc_pages 64 50 h) h _ E). vm_compute. reflexivity. }
  destruct (kmalloc_small_correct 64 50 h F (fun _ _ => False) Hr) as (i & _ & _ & _ & Hpost).
  { vm_compute. split; congruence. }
  cbv beta in Ep, Eq. destruct Hpost as [[Ea _]|(h' & p & F' & Ea & Hr' & _)].
  - rewrite Ea, Eq in Ep. discriminate.
  - rewrite Ea in Ep. injection Ep as ->. exists h, h', F'. eexists. split; [exact Ea|exact Hr'].
Defined.

Lemma kfree_small_witness :
  exists h h' F A, kfree (0xffff800000100030 + 126 * 64) h = Some (h', Freed) /\ heap_repr h' F A.
Proof.
  destruct demo_heap_one as (h & F & E & Hr).
  destruct (kfree_small_correct 2 (0xffff800000100030 + 126 * 64) h F _ Hr) as [_ Hf].
  { right. split; reflexivity. }
  destruct Hf as (h' & Ef & Hr' & _).
  - assert ((r ← demo_heap; r ← slab_alloc 2 r;
       Some (obj_magic (h_mem r.1) (0xffff800000100030 + 126 * 64))) = Some 0) as E'
      by (vm_compute; reflexivity).
    destruct demo_heap as [h0|]; [|discriminate]. cbn [mbind option_bind] in E'. injection E as E.
    rewrite E in E'. injection E' as E'. cbn [fst] in E'. rewrite E'. vm_compute. discriminate.
  - exists h, h', F. eexists. split; [exact Ef|exact Hr'].
Defined.


Lemma kmalloc_overrun_witness :
  exists h h', kmalloc_pages 64 4076 h = Some (h', 0xffff800000100010) /\
    load 8 (h_mem h') 0xffff800000100ffc = ALLOC_MAGIC.
Proof.
  destruct demo_heap_ok as (h & F & E & Hr).
  assert ((fun h => snd <$> kmalloc_pages 64 4076 h) h = Some 0xffff800000100010) as Ep.
  { apply (demo_run_eq (fun h => snd <$> kmalloc_pages 64 4076 h) h _ E). vm_compute. reflexivity. }
  cbv beta in Ep. destruct (kmalloc_pages 64 4076 h) as [[h' v]|] eqn:Ea; [|discriminate].
  injection Ep as Ep. subst v. exists h, h'. split; [exact Ea|].
  apply (kmalloc_end_marker_overrun 4076 0 h h' 0xffff800000100010);
    [lia|lia|vm_compute; reflexivity|vm_compute; reflexivity|exact Ea|discriminate].
Defined.

(** What the overrun does: the next block's header and the marker overlap, and
    once both blocks are in use [kfree] takes the first for corrupted. *)
Example overrun_corrupts_marker :
  (h ← demo_heap;
   '(h, a) ← kmalloc 64 4076 h; '(h, b) ← kmalloc 64 4000 h; snd <$> kfree a h) = Some Corrupted.
Proof. vm_compute. reflexivity. Qed.

(** An object freed, handed out again and freed without having been written
    is taken for a double free. *)
Example reuse_is_double_free :
  (h ← demo_heap;
   '(h, a) ← kmalloc 64 50 h; '(h, _) ← kfree a h;
   '(h, b) ← kmalloc 64 50 h; snd <$> kfree b h) = Some DoubleFree.
Proof. vm_compute. reflexivity. Qed.

Lemma kmalloc_huge_witness :
  exists h, kmalloc 64 (2 ^ 40) h = Some (h, 0) /\ kmalloc 1000 (2 ^ 63) h = None.
Proof.
  destruct demo_heap_ok as (h & _). exists h. split.
  - apply (kmalloc_huge_requests 64 (2 ^ 40) h). lia.
  - apply (kmalloc_huge_requests 1000 (2 ^ 63) h). lia.
Defined.
