(* ===== verification/HeapPages.v ===== *)
(** * The heap and the pages of its clients

    [heap_world h F A G]: the heap is in order, the physical bytes [F] are
    free, [A] are the objects in use, and [G] are physical bytes of pages that
    were handed out whole (page tables, frames).  Pages go from [F] to [G] and
    back without touching an object or another page. *)
From S2P Require Import Prelude Memory PageAlloc Slab SlabProofs SlabHeap SlabSpec.
From S2P Require Import Pmm KmallocSpec HeapClaims.
Import Slab Pmm.

Section Pages.
Context `{Hhdm} `{Linker} {P : Type} `{!PageAllocator P}.

Implicit Types h : heap P.

Definition heap_world h (F : Z -> Prop) (A : nat -> Z -> Prop) (G : Z -> Prop) : Prop :=
  exists Ls fl, heap_ok h F Ls fl /\ (forall i x, A i x <-> (i < NUM_SLAB_SIZES)%nat /\ live Ls fl i x) /\
    forall x, G x -> ~ F x /\ ~ slab_pages Ls (x + hhdm_offset).

(** A page the client may give back. *)
Definition page_out h (G : Z -> Prop) (p : Z) : Prop :=
  pa_block (h_pages h) p 0 /\ forall x, in_range p 4096 x -> G x.

(** The bytes of the pages [L]. *)
Definition pages (L : list Z) (x : Z) : Prop := exists p, p ∈ L /\ in_range p 4096 x.

Lemma pages_app L1 L2 x : pages (L1 ++ L2) x <-> pages L1 x \/ pages L2 x.
Proof.
  unfold pages. split.
  - intros (p & [Hp|Hp]%elem_of_app & Hx); eauto.
  - intros [(p & Hp & Hx)|(p & Hp & Hx)]; exists p; (split; [|done]); apply elem_of_app; auto.
Qed.

Lemma pages_one p x : pages [p] x <-> in_range p 4096 x.
Proof. split; [by intros (q & ->%list_elem_of_singleton & Hx)|]. intros Hx. exists p. split; [by left|done]. Qed.

Lemma world_repr h F A G : heap_world h F A G -> heap_repr h F A.
Proof. intros (Ls & fl & Hh & HA & _). by exists Ls, fl. Qed.

Lemma repr_world h F A : heap_repr h F A -> heap_world h F A (fun _ => False).
Proof. intros (Ls & fl & Hh & HA). by exists Ls, fl. Qed.

Lemma world_weaken h F A (G G' : Z -> Prop) : (forall x, G' x -> G x) -> heap_world h F A G -> heap_world h F A G'.
Proof. intros HG (Ls & fl & Hh & HA & Hp). exists Ls, fl. split_and!; [done|done|]. auto. Qed.

Lemma world_objects h F (A A' : nat -> Z -> Prop) G :
  (forall i x, A i x <-> A' i x) -> heap_world h F A G -> heap_world h F A' G.
Proof. intros E (Ls & fl & Hh & HA & Hp). exists Ls, fl. split_and!; [done| |done]. intros i x. by rewrite <- E. Qed.

#[export] Instance heap_world_proper h : Proper ((≡) ==> (=) ==> (≡) ==> iff) (heap_world h).
Proof.
  assert (forall F F' A G G', F ≡ F' -> G ≡ G' -> heap_world h F A G -> heap_world h F' A G') as Himp.
  { intros F F' A G G' EF EG (Ls & fl & Hh & HA & Hp). exists Ls, fl. split_and!; [by apply (heap_ok_proper h F)|done|].
    intros x Hx%EG. rewrite <- (EF x). by apply Hp. }
  intros F F' EF A A' <- G G' EG. split; apply Himp; done || by symmetry.
Qed.

(** Pages are apart from free memory and from the objects in use. *)
Lemma world_page_free h F A G x : heap_world h F A G -> G x -> ~ F x.
Proof. intros (Ls & fl & _ & _ & Hp) Hx. by apply Hp. Qed.

Lemma world_object_free h F A G i o x :
  heap_world h F A G -> A i o -> in_range o (nth i slab_sizes 0) x -> ~ image F x /\ ~ image G x.
Proof.
  intros (Ls & fl & Hh & HA & Hp) [Hi Hl]%HA Hx. split; [by apply (live_private h F Ls fl i o)|].
  intros HG. apply Hp in HG as [_ Hn]. apply Hn. replace (x - hhdm_offset + hhdm_offset) with x by lia.
  destruct Hl as (s & Hs & Ho & _). exists i, s. split_and!; [done|done|].
  pose proof (is_obj_range _ s o (slab_sizes_ok i Hi) Ho) as Hr. cbn [object_size slab_cache_init] in Hr.
  unfold in_range in *. lia.
Qed.

(** The client writes its pages and its objects. *)
Lemma world_write_page h F A G m' :
  heap_world h F A G -> agree (fun x => ~ image G x) (h_mem h) m' -> heap_world (set_mem h m') F A G.
Proof.
  intros (Ls & fl & Hh & HA & Hp) Ha. exists Ls, fl. split_and!; [|done|done]. apply heap_ok_agree; [|done].
  eapply agree_sub; [exact Ha|]. intros x Hx HG. destruct (Hp _ HG) as [HF Hs]. destruct Hx as [Hx|Hx]; [done|].
  apply Hs. replace (x - hhdm_offset + hhdm_offset) with x by lia. by eapply meta_slab_page.
Qed.

Lemma world_write_object h F A G i o m' :
  heap_world h F A G -> A i o -> agree (fun x => ~ in_range o (nth i slab_sizes 0) x) (h_mem h) m' ->
  heap_world (set_mem h m') F A G.
Proof.
  intros (Ls & fl & Hh & HA & Hp) [Hi Hl]%HA Ha. exists Ls, fl. split_and!; [|done|done].
  by apply (heap_ok_client h F Ls fl i o).
Qed.

(** What such a write leaves alone. *)
Lemma page_write_kept h F A G p m' :
  heap_world h F A G -> (forall x, in_range p 4096 x -> G x) -> agree (fun x => ~ image (in_range p 4096) x) (h_mem h) m' ->
  heap_world (set_mem h m') F A G /\ forall j y, A j y -> kept j y (h_mem h) m'.
Proof.
  intros Hw Hp Ha. split.
  - apply world_write_page; [done|]. eapply agree_sub; [exact Ha|]. intros x Hx Hr. by apply Hx, Hp.
  - intros j y Hy. eapply agree_sub; [exact Ha|]. intros x Hx Hr%Hp. by apply (world_object_free h F A G j y x Hw Hy Hx).
Qed.

Lemma object_write_kept h F A G i o m' :
  heap_world h F A G -> A i o -> agree (fun x => ~ in_range o (nth i slab_sizes 0) x) (h_mem h) m' ->
  heap_world (set_mem h m') F A G /\ (forall j y, A j y -> y <> o -> kept j y (h_mem h) m') /\ agree (image G) (h_mem h) m'.
Proof.
  intros Hw Ho Ha. split; [by eapply world_write_object|]. split.
  - intros j y Hy Hne. eapply agree_sub; [exact Ha|]. intros x Hx Hxo.
    destruct (repr_apart _ _ _ j y i o (world_repr _ _ _ _ Hw) Hy Ho Hne); unfold in_range in *; lia.
  - eapply agree_sub; [exact Ha|]. intros x Hx Hxo. by apply (world_object_free _ _ _ _ i o x Hw Ho Hxo).
Qed.

(** Giving a page back. *)
Lemma world_free_page h F A G p :
  heap_world h F A G -> page_out h G p ->
  exists h', pmm_free_page p h = Some h' /\
    heap_world h' (fplus F (in_range p 4096)) A (fminus G (in_range p 4096)) /\
    (forall q k, pa_block (h_pages h') q k <-> pa_block (h_pages h) q k) /\
    agree (fun x => ~ image (fplus F (in_range p 4096)) x) (h_mem h) (h_mem h').
Proof.
  intros (Ls & fl & Hh & HA & Hp) [Hb Hin]. unfold pmm_free_page. change 4096 with (block_bytes 0) in *.
  destruct (pa_free 0 (h_mem h) (h_pages h) F p (ho_pages _ _ _ _ Hh) Hb) as (m' & pg' & E & Hinv & Ha & Hbl).
  { intros x Hx. by apply Hp, Hin. }
  rewrite E. cbn [mbind option_bind]. eexists. split; [reflexivity|]. split; [|split; [exact Hbl|exact Ha]].
  assert (forall x, slab_pages Ls x -> ~ image (fplus F (in_range p (block_bytes 0))) x) as Hs.
  { intros x Hx [HF|Hr]; [by apply (slab_pages_not_free h F Ls fl x)|]. apply Hin in Hr as [_ Hn]%Hp. apply Hn.
    by replace (x - hhdm_offset + hhdm_offset) with x by lia. }
  exists Ls, fl. split; [|split; [done|]].
  - apply (heap_repage h F); try done. eapply agree_sub; [exact Ha|]. exact Hs.
  - intros x [HG Hn]. destruct (Hp x HG) as [HF Hsl]. split; [|done]. by intros [?|?].
Qed.

(** Giving pages back one after the other. *)
Fixpoint free_list (L : list Z) h : option (heap P) :=
  match L with
  | [] => Some h
  | p :: L => h ← pmm_free_page p h; free_list L h
  end.

Lemma free_list_app L1 L2 h : free_list (L1 ++ L2) h = free_list L1 h ≫= free_list L2.
Proof.
  revert h. induction L1 as [|p L1 IH]; intros h; [done|]. cbn [free_list app].
  destruct (pmm_free_page p h) as [h1|]; [|done]. cbn [mbind option_bind]. apply IH.
Qed.

Lemma page_out_apart h G p q :
  page_out h G p -> pa_block (h_pages h) q 0 -> p <> q -> p + 4096 <= q \/ q + 4096 <= p.
Proof.
  intros [Hp _] Hq Hne. destruct (pa_block_bounds _ _ _ Hp) as (_ & _ & Ep & _).
  destruct (pa_block_bounds _ _ _ Hq) as (_ & _ & Eq & _). change (block_bytes 0) with 4096 in *.
  pose proof (Z.div_mod p 4096). pose proof (Z.div_mod q 4096). lia.
Qed.

Lemma free_list_spec L : forall h F A G,
  heap_world h F A G -> NoDup L -> Forall (page_out h G) L ->
  exists h', free_list L h = Some h' /\ heap_world h' (fplus F (pages L)) A (fminus G (pages L)) /\
    (forall q k, pa_block (h_pages h') q k <-> pa_block (h_pages h) q k) /\
    agree (fun x => ~ image (fplus F (pages L)) x) (h_mem h) (h_mem h').
Proof.
  induction L as [|p L IH]; intros h F A G Hw Hnd Hout.
  { exists h. split; [done|]. split; [|done]. assert (fplus F (pages []) ≡ F) as ->.
    { intros x. unfold fplus, pages. set_solver. }
    assert (fminus G (pages []) ≡ G) as ->; [|done]. intros x. unfold fminus, pages. set_solver. }
  apply NoDup_cons in Hnd as [Hn Hnd]. apply Forall_cons in Hout as [Hp Hout].
  destruct (world_free_page h F A G p Hw Hp) as (h1 & E1 & Hw1 & Hb1 & Ha1).
  destruct (IH h1 _ A _ Hw1 Hnd) as (h2 & E2 & Hw2 & Hb2 & Ha2).
  { rewrite Forall_forall in Hout |- *. intros q Hq. destruct (Hout q Hq) as [Hqb Hqin]. split; [by apply Hb1|].
    intros x Hx. split; [auto|]. intros Hxp. assert (p <> q) as Hne by (intros ->; done).
    destruct (page_out_apart h G p q Hp Hqb Hne); unfold in_range in *; lia. }
  assert (forall x, pages (p :: L) x <-> in_range p 4096 x \/ pages L x) as Hpl.
  { intros x. change (p :: L) with ([p] ++ L). by rewrite pages_app, pages_one. }
  exists h2. cbn [free_list]. rewrite E1. split; [exact E2|]. split; [|split].
  - assert (fplus F (pages (p :: L)) ≡ fplus (fplus F (in_range p 4096)) (pages L)) as ->.
    { intros x. unfold fplus. rewrite Hpl. tauto. }
    assert (fminus G (pages (p :: L)) ≡ fminus (fminus G (in_range p 4096)) (pages L)) as ->; [|exact Hw2].
    intros x. unfold fminus. rewrite Hpl. tauto.
  - intros q k. by rewrite Hb2.
  - transitivity (h_mem h1); [eapply agree_sub; [exact Ha1|]|eapply agree_sub; [exact Ha2|]];
      intros x Hx Hr; apply Hx; unfold image, fplus in *; rewrite Hpl; tauto.
Qed.

(** [kfree] of an object in use. *)
Lemma world_kfree i x h F A G :
  heap_world h F A G -> A i x -> obj_magic (h_mem h) x <> FREED_PATTERN ->
  exists h', kfree x h = Some (h', Freed) /\ heap_world h' F (fun j y => A j y /\ y <> x) G /\
    h_pages h' = h_pages h /\
    (forall j y, A j y -> y <> x -> kept j y (h_mem h) (h_mem h')) /\
    agree (image G) (h_mem h) (h_mem h').
Proof.
  intros (Ls & fl & Hh & HA & Hp) Hx Hne. pose proof Hx as [Hi Hl]%HA.
  pose proof (kfree_slab_spec h F Ls fl i x Hh Hi Hl) as Hk. rewrite (proj2 (Z.eqb_neq _ _) Hne) in Hk.
  destruct Hk as (h' & Ls' & fl' & Ek & Hpost). exists h'. split; [done|].
  assert (forall v, slab_pages Ls' v <-> slab_pages Ls v) as Hsl.
  { intros v. split; intros (j & s & Hj & Hs & Hv); exists j, s;
      (split_and!; [done| |done]); [rewrite <- (fp_slabs _ _ _ _ _ _ _ _ Hpost j Hj)|rewrite (fp_slabs _ _ _ _ _ _ _ _ Hpost j Hj)]; done. }
  destruct (repr_free h F A Ls fl i x h' Ls' fl' Hh HA Hx Hpost) as [_ Hkept]. split; [|split; [apply Hpost|split; [exact Hkept|]]].
  - exists Ls', fl'. split; [apply Hpost|]. split.
    + intros j y. rewrite HA. split.
      * intros [[Hj Hy] Hney]. split; [done|]. by apply (fp_live _ _ _ _ _ _ _ _ Hpost).
      * intros [Hj Hy%(fp_live _ _ _ _ _ _ _ _ Hpost)]; [|done]. naive_solver.
    + intros v Hv. rewrite Hsl. by apply Hp.
  - eapply agree_sub; [apply (fp_frame _ _ _ _ _ _ _ _ Hpost)|]. intros v [_ Hn]%Hp.
    replace (v - hhdm_offset + hhdm_offset) with v in Hn by lia. split.
    + intros Hm. apply Hn. by apply (meta_slab_page h F Ls fl).
    + intros Hr. apply Hn. destruct Hl as (s & Hs & Ho & _). exists i, s. split_and!; [done|done|].
      pose proof (is_obj_range _ s x (slab_sizes_ok i Hi) Ho) as Hr'. pose proof (size_pos i Hi).
      cbn [object_size slab_cache_init] in Hr'. unfold in_range in *. lia.
Qed.

(** ** Allocation, while there is room *)

(** A small request is a new object of the smallest class that fits. *)
Lemma world_kmalloc n o size h F A G :
  heap_world h F A G -> pa_room (h_pages h) F o (S n) -> (1 <= o <= 20)%nat -> 0 < size <= 2048 ->
  exists i h' p F', kmalloc 64 size h = Some (h', p) /\ p <> 0 /\ size <= nth i slab_sizes 0 /\ (forall j, ~ A j p) /\
    heap_world h' F' (fun j x => A j x \/ (j = i /\ x = p)) G /\ (forall x, F' x -> F x) /\
    pa_room (h_pages h') F' o n /\ (forall q k, pa_block (h_pages h') q k <-> pa_block (h_pages h) q k) /\
    (forall j x, A j x -> kept j x (h_mem h) (h_mem h')) /\ agree (image G) (h_mem h) (h_mem h').
Proof.
  intros (Ls & fl & Hh & HA & HG) Hr Ho Hs.
  destruct (kmalloc_slab_spec 64 size h F Ls fl Hh Hs) as (i & Hi & Hle & _ & [(_ & _ & Hno & _)|(h' & p & F' & Ls' & fl' & E & Hp)]).
  { by destruct (Hno o n Ho). }
  destruct (repr_alloc h F A Ls fl i h' p F' Ls' fl' Hh HA Hi Hp) as (_ & Hp0 & HF & Hk).
  exists i, h', p, F'. split; [done|]. split; [done|]. split; [done|]. split; [|split; [|split; [done|split; [|split; [|split]]]]].
  - intros j Hj. destruct (Hk j p Hj) as [Hap _]. pose proof (proj1 (HA _ _) Hj) as [Hj' _]. pose proof (size_pos j Hj').
    pose proof (size_pos i Hi). unfold apart in Hap. lia.
  - exists Ls', fl'. split; [apply Hp|]. split.
    + intros j x. rewrite HA. split.
      * intros [[Hj Hx]|[-> ->]]; (split; [done|]); apply (ap_live _ _ _ _ _ _ _ _ _ _ Hp); auto.
      * intros [Hj Hx%(ap_live _ _ _ _ _ _ _ _ _ _ Hp)]; [|done]. naive_solver.
    + intros x Hx. destruct (HG x Hx) as [HFx Hsl]. split; [intros Hx'%HF; done|].
      intros (j & s & Hj & Hin & Hxs). destruct (ap_pages _ _ _ _ _ _ _ _ _ _ Hp j s Hj Hin) as [Hold|Hnew].
      * apply Hsl. by exists j, s.
      * apply Hnew in Hxs. unfold image in Hxs. by replace (x + hhdm_offset - hhdm_offset) with x in Hxs by lia.
  - apply (ap_room _ _ _ _ _ _ _ _ _ _ Hp); [lia|exact Hr].
  - apply Hp.
  - intros j x Hx. by apply Hk.
  - eapply agree_sub; [apply (ap_frame _ _ _ _ _ _ _ _ _ _ Hp)|]. intros x [HFx Hsl]%HG. split; [done|].
    intros Hm. apply Hsl. replace (x - hhdm_offset + hhdm_offset) with x by lia. by apply (meta_slab_page h F Ls fl).
Qed.

(** A page goes from the free memory to the client. *)
Lemma world_page n o h F A G h' p :
  heap_world h F A G -> pa_room (h_pages h) F o (S n) -> (o <= 20)%nat -> pmm_alloc_page h = (h', p) ->
  p <> 0 /\ heap_world h' (fminus F (in_range p 4096)) A (fplus G (in_range p 4096)) /\
    page_out h' (fplus G (in_range p 4096)) p /\ pa_room (h_pages h') (fminus F (in_range p 4096)) o n /\
    (forall q k, pa_block (h_pages h') q k <-> pa_block (h_pages h) q k) /\ (forall x, in_range p 4096 x -> F x) /\
    (forall j x, A j x -> kept j x (h_mem h) (h_mem h')) /\ agree (image G) (h_mem h) (h_mem h').
Proof.
  intros Hw Hr Ho E. pose proof Hw as (Ls & fl & Hh & HA & HG). unfold pmm_alloc_page in E.
  destruct (alloc_pages 0 (h_mem h) (h_pages h)) as [[m pg] q] eqn:Ea. injection E as <- ->.
  destruct (pa_room_alloc 0 o n _ _ F _ _ _ ltac:(lia) (ho_pages _ _ _ _ Hh) Ea Hr) as [Hp Hr'].
  destruct (pa_alloc 0 _ _ F _ _ _ ltac:(lia) (ho_pages _ _ _ _ Hh) Ea) as [(? & _)|(Hbl & HF & Hinv & Hag & Hpb)]; [done|].
  change (block_bytes 0) with 4096 in *. set (F' := fminus F (in_range p 4096)) in *.
  assert (agree (fun x => ~ image F x) (h_mem h) m) as Ha.
  { eapply agree_sub; [exact Hag|]. intros x Hx [HF' _]. by apply Hx. }
  split; [done|]. split; [|split; [|split; [done|split; [done|split; [done|split]]]]].
  - exists Ls, fl. split; [|split; [done|]].
    + apply (heap_repage h F); try done.
      * intros v Hv [HF' _]. by apply (slab_pages_not_free h F Ls fl v Hh Hv).
      * eapply agree_sub; [exact Ha|]. intros v Hv. by apply (slab_pages_not_free h F Ls fl v Hh Hv).
    + intros x [Hx|Hx].
      * destruct (HG x Hx) as [HFx Hsl]. split; [by intros [? _]|done].
      * split; [by intros [_ ?]|]. intros Hsl. apply (slab_pages_not_free h F Ls fl _ Hh Hsl). unfold image.
        replace (x + hhdm_offset - hhdm_offset) with x by lia. by apply HF.
  - split; [exact Hbl|]. intros x Hx. by right.
  - intros j x Hx. eapply agree_sub; [exact Ha|]. intros y Hy. by apply (world_object_free h F A G j x).
  - eapply agree_sub; [exact Ha|]. intros x Hx. by apply HG.
Qed.

End Pages.
