(* ===== verification/Klib.v ===== *)
(** * Kernel library: memory and string routines

    Models src/kernel/kernel/klib (string.c, utils.c, stdio.c) on the byte
    memory.  A [char *] is an address; a loop over a count is structural on the
    count, a loop that looks for a terminator takes fuel and returns [None]
    when it runs out.  Addresses do not wrap: a pointer past the end of the
    address space is undefined in C. *)
From S2P Require Import Prelude Memory PageAlloc Slab Pmm.
Import Slab Pmm.

Module Klib.

Definition write8 (m : mem) (a v : Z) : mem := <[a := v mod 256]> m.

(** ** string.c: memory *)

(** [for (i = 0; i < size; i++) dst[i] = src[i]], from index [i]. *)
Fixpoint copy_up (n : nat) (i : Z) (m : mem) (dst src : Z) : mem :=
  match n with
  | O => m
  | S n => copy_up n (i + 1) (write8 m (dst + i) (read8 m (src + i))) dst src
  end.

(** [for (i = size; i != 0; i--) dst[i-1] = src[i-1]] *)
Fixpoint copy_down (i : nat) (m : mem) (dst src : Z) : mem :=
  match i with
  | O => m
  | S i => copy_down i (write8 m (dst + Z.of_nat i) (read8 m (src + Z.of_nat i))) dst src
  end.

Definition memcpy (m : mem) (dst src size : Z) : mem := copy_up (Z.to_nat size) 0 m dst src.

Definition memmove (m : mem) (dst src size : Z) : mem :=
  if dst <? src then copy_up (Z.to_nat size) 0 m dst src
  else copy_down (Z.to_nat size) m dst src.

Fixpoint memset_loop (n : nat) (i : Z) (m : mem) (buf value : Z) : mem :=
  match n with
  | O => m
  | S n => memset_loop n (i + 1) (write8 m (buf + i) value) buf value
  end.

Definition memset (m : mem) (buf value size : Z) : mem :=
  memset_loop (Z.to_nat size) 0 m buf value.

Fixpoint memcmp_loop (n : nat) (i : Z) (m : mem) (a b : Z) : Z :=
  match n with
  | O => 0
  | S n =>
    if read8 m (a + i) <? read8 m (b + i) then -1
    else if read8 m (b + i) <? read8 m (a + i) then 1
    else memcmp_loop n (i + 1) m a b
  end.

Definition memcmp (m : mem) (a b size : Z) : Z := memcmp_loop (Z.to_nat size) 0 m a b.

(** ** string.c: strings *)

Fixpoint strlen_loop (fuel : nat) (m : mem) (str len : Z) : option Z :=
  match fuel with
  | O => None
  | S fuel => if read8 m (str + len) =? 0 then Some len else strlen_loop fuel m str (len + 1)
  end.

Definition strlen (fuel : nat) (m : mem) (str : Z) : option Z := strlen_loop fuel m str 0.

Fixpoint strcmp (fuel : nat) (m : mem) (s1 s2 : Z) : option Z :=
  match fuel with
  | O => None
  | S fuel =>
    if (read8 m s1 =? read8 m s2) && negb (read8 m s1 =? 0)
    then strcmp fuel m (s1 + 1) (s2 + 1)
    else Some (read8 m s1 - read8 m s2)
  end.

(** Returns the address of the first [chr], 0 (NULL) when there is none. *)
Fixpoint strchr (fuel : nat) (m : mem) (str chr : Z) : option Z :=
  match fuel with
  | O => None
  | S fuel =>
    if read8 m str =? chr mod 256 then Some str
    else if read8 m str =? 0 then Some 0
    else strchr fuel m (str + 1) chr
  end.

(** [while ( *token && !strchr(delim, *token)) token++] *)
Fixpoint skip_token (fuel : nat) (m : mem) (token delim : Z) : option Z :=
  match fuel with
  | O => None
  | S fuel =>
    if read8 m token =? 0 then Some token else
    c ← strchr (S fuel) m delim (read8 m token);
    if c =? 0 then skip_token fuel m (token + 1) delim else Some token
  end.

(** [saveptr] is the address of the caller's [char *] variable. *)
Definition kstrtok_r (fuel : nat) (m : mem) (str delim saveptr : Z) : option (mem * Z) :=
  let m1 := if str =? 0 then m else store 8 m saveptr str in
  if (str =? 0) && ((load 8 m saveptr =? 0) || (read8 m (load 8 m saveptr) =? 0))
  then Some (m, 0)
  else
    let result := load 8 m1 saveptr in
    token ← skip_token fuel m1 result delim;
    if read8 m1 token =? 0 then Some (store 8 m1 saveptr token, result)
    else
      let m2 := write8 m1 token 0 in
      Some (store 8 m2 saveptr (token + 1), result).

(** ** utils.c *)

Fixpoint reverse_loop (fuel : nat) (m : mem) (str start stop : Z) : option mem :=
  match fuel with
  | O => None
  | S fuel =>
    if start <? stop then
      let tmp := read8 m (str + start) in
      let m := write8 m (str + start) (read8 m (str + stop)) in
      let m := write8 m (str + stop) tmp in
      reverse_loop fuel m str (w64 (start + 1)) (w64 (stop - 1))
    else Some m
  end.

Definition reverse_str (fuel : nat) (m : mem) (str : Z) : option mem :=
  len ← strlen fuel m str;
  reverse_loop fuel m str 0 (w64 (len - 1)).

Definition hex_digits : list Z :=
  [48; 49; 50; 51; 52; 53; 54; 55; 56; 57; 65; 66; 67; 68; 69; 70].

(** [while (val > 0) { str[index++] = hex_digits[val & 0xF]; val >>= 4; }] *)
Fixpoint hex_loop (fuel : nat) (m : mem) (str index val : Z) : option (mem * Z) :=
  match fuel with
  | O => None
  | S fuel =>
    if 0 <? val then
      hex_loop fuel (write8 m (str + index) (nth (Z.to_nat (Z.land val 0xF)) hex_digits 0))
        str (index + 1) (Z.shiftr val 4)
    else Some (m, index)
  end.

Definition ui64_to_hex_str (fuel : nat) (m : mem) (val str : Z) : option (mem * Z) :=
  if val =? 0 then Some (write8 (write8 m str 48) (str + 1) 0, 1)
  else
    '(m, index) ← hex_loop fuel m str 0 val;
    let m := write8 m (str + index) 0 in
    m ← reverse_str fuel m str;
    Some (m, index).

(** [while (value > 0) { str[i++] = '0' + (value % 10); value /= 10; }] *)
Fixpoint dec_loop (fuel : nat) (m : mem) (str i value : Z) : option (mem * Z) :=
  match fuel with
  | O => None
  | S fuel =>
    if 0 <? value then
      dec_loop fuel (write8 m (str + i) (48 + value mod 10)) str (i + 1) (value / 10)
    else Some (m, i)
  end.

Definition ul_to_str (fuel : nat) (m : mem) (value str : Z) : option (mem * Z) :=
  '(m, i) ← (if value =? 0 then Some (write8 m str 48, 1) else dec_loop fuel m str 0 value);
  let m := write8 m (str + i) 0 in
  m ← reverse_str fuel m str;
  Some (m, i).

(** ** stdio.c *)

(** [do { str[index++] = i % 10 + '0'; } while ((i /= 10) > 0)]; C division
    truncates towards zero. *)
Fixpoint itoa_loop (fuel : nat) (m : mem) (str index i : Z) : option (mem * Z) :=
  match fuel with
  | O => None
  | S fuel =>
    let m := write8 m (str + index) (Z.rem i 10 + 48) in
    if 0 <? Z.quot i 10 then itoa_loop fuel m str (index + 1) (Z.quot i 10)
    else Some (m, index + 1)
  end.

(** [int] negation is taken modulo 2^32 (it overflows for INT_MIN). *)
Definition itoa (fuel : nat) (m : mem) (i str : Z) : option (mem * Z) :=
  let negative := i <? 0 in
  let i := if negative then s32 (- i) else i in
  '(m, index) ← itoa_loop fuel m str 0 i;
  let '(m, index) := if negative then (write8 m (str + index) 45, index + 1) else (m, index) in
  let m := write8 m (str + index) 0 in
  m ← reverse_str fuel m str;
  Some (m, index).

(** ** kstrndup *)

(** [for (i = 0; i < n && *str != 0; i++) tmp[i] = str[i]]: the test looks at
    the first character only. *)
Fixpoint strndup_loop (k : nat) (i : Z) (m : mem) (tmp str : Z) : mem * Z :=
  match k with
  | O => (m, i)
  | S k =>
    if negb (read8 m str =? 0)
    then strndup_loop k (i + 1) (write8 m (tmp + i) (read8 m (str + i))) tmp str
    else (m, i)
  end.

Section Dup.
Context `{Hhdm} `{Linker} {P : Type} `{!PageAllocator P}.

Definition kstrndup (fuel : nat) (str n : Z) (h : heap P) : option (heap P * Z) :=
  if str =? 0 then Some (h, 0) else
  '(h, tmp) ← kmalloc fuel (w64 (n + 1)) h;
  if tmp =? 0 then Some (h, 0) else
  let '(m, i) := strndup_loop (Z.to_nat n) 0 (h_mem h) tmp str in
  Some (set_mem h (write8 m (tmp + i) 0), tmp).

End Dup.

End Klib.
