(* ===== verification/KlibSpec.v ===== *)
(** * Kernel library: correctness

    Memory routines are specified byte by byte (with overlap for [memmove]),
    strings through [cstr] (the bytes of a NUL-terminated string), and the
    number printers by a round trip through a positional-notation reader. *)
From S2P Require Import Prelude Memory PageAlloc Slab Pmm Klib.
Import Klib.

Lemma read8_write8 m a v x :
  read8 (write8 m a v) x = if decide (x = a) then v mod 256 else read8 m x.
Proof.
  unfold write8. rewrite read8_insert. case_decide; [|done]. by rewrite Z.mod_mod.
Qed.

Lemma read8_small m x : read8 m x mod 256 = read8 m x.
Proof. apply Z.mod_small, read8_range. Qed.

(** ** Memory routines *)

Lemma copy_up_spec n i m dst src x :
  dst < src \/ src + Z.of_nat n <= dst ->
  read8 (copy_up n i m dst src) x =
  if decide (dst + i <= x < dst + i + Z.of_nat n) then read8 m (src + (x - dst)) else read8 m x.
Proof.
  revert i m. induction n as [|n IH]; intros i m Hd.
  - simpl. case_decide; [lia|done].
  - cbn [copy_up]. rewrite IH by lia. rewrite !read8_write8, read8_small.
    repeat case_decide; try lia; try done. subst x. f_equal. lia.
Qed.

Lemma copy_down_spec n m dst src x :
  src <= dst ->
  read8 (copy_down n m dst src) x =
  if decide (dst <= x < dst + Z.of_nat n) then read8 m (src + (x - dst)) else read8 m x.
Proof.
  revert m. induction n as [|n IH]; intros m Hd.
  - simpl. case_decide; [lia|done].
  - cbn [copy_down]. rewrite IH by done. rewrite !read8_write8, read8_small.
    repeat case_decide; try lia; try done. subst x. f_equal. lia.
Qed.

Lemma memset_loop_spec n i m buf v x :
  read8 (memset_loop n i m buf v) x =
  if decide (buf + i <= x < buf + i + Z.of_nat n) then v mod 256 else read8 m x.
Proof.
  revert i m. induction n as [|n IH]; intros i m.
  - simpl. case_decide; [lia|done].
  - cbn [memset_loop]. rewrite IH, read8_write8. repeat case_decide; try lia; done.
Qed.

Lemma memset_read m buf v size x :
  0 <= size ->
  read8 (memset m buf v size) x = if decide (buf <= x < buf + size) then v mod 256 else read8 m x.
Proof.
  intros Hs. unfold memset. rewrite memset_loop_spec, Z.add_0_r, Z2Nat.id by done. done.
Qed.

Lemma memset_outside m buf v size :
  0 <= size -> agree (fun x => ~ in_range buf size x) m (memset m buf v size).
Proof.
  intros Hs x Hx. rewrite memset_read by done. case_decide; [|done]. unfold in_range in Hx. lia.
Qed.

(** A zeroed range loads as 0. *)
Lemma load_zero n m a : (forall x, in_range a (Z.of_nat n) x -> read8 m x = 0) -> load n m a = 0.
Proof.
  revert a. induction n as [|n IH]; intros a Hz; [done|].
  unfold load; fold load. rewrite Hz by (unfold in_range; lia). rewrite IH; [done|].
  intros x Hx. apply Hz. unfold in_range in *. lia.
Qed.

Lemma memset0_load m buf size a :
  0 <= size -> buf <= a -> a + 8 <= buf + size -> load 8 (memset m buf 0 size) a = 0.
Proof.
  intros Hs H1 H2. apply load_zero. intros x Hx. rewrite memset_read by done.
  case_decide; [done|]. unfold in_range in Hx. lia.
Qed.

Lemma memcmp_loop_zero n i m a b :
  memcmp_loop n i m a b = 0 <->
  (forall k, i <= k < i + Z.of_nat n -> read8 m (a + k) = read8 m (b + k)).
Proof.
  revert i. induction n as [|n IH]; intros i; cbn [memcmp_loop].
  - split; [lia|done].
  - zbool.
    + split; [done|]. intros Hk. specialize (Hk i). lia.
    + split; [done|]. intros Hk. specialize (Hk i). lia.
    + rewrite IH. split; intros Hk k Hr.
      * destruct (decide (k = i)) as [->|]; [lia|]. apply Hk. lia.
      * apply Hk. lia.
Qed.

(** ** Strings *)

(** The bytes [l] lie at [a]. *)
Definition bytes (m : mem) (a : Z) (l : list Z) : Prop :=
  forall i b, l !! i = Some b -> read8 m (a + Z.of_nat i) = b.

(** The string [l], NUL-terminated, lies at [a]. *)
Definition cstr (m : mem) (a : Z) (l : list Z) : Prop :=
  bytes m a l /\ Forall (fun b => b <> 0) l /\ read8 m (a + Z.of_nat (length l)) = 0.

Lemma bytes_agree P m m' a l :
  agree P m m' -> (forall x, in_range a (Z.of_nat (length l)) x -> P x) -> bytes m a l -> bytes m' a l.
Proof.
  intros Ha HP Hb i b Hi. rewrite <- Ha; [by apply Hb|]. apply HP. apply lookup_lt_Some in Hi.
  unfold in_range. lia.
Qed.

Lemma cstr_agree P m m' a l :
  agree P m m' -> (forall x, in_range a (Z.of_nat (length l) + 1) x -> P x) -> cstr m a l -> cstr m' a l.
Proof.
  intros Ha HP (Hb & Hn & H0). split_and!; [|done|].
  - eapply bytes_agree; [exact Ha| |done]. intros x Hx. apply HP. unfold in_range in *. lia.
  - rewrite <- Ha; [done|]. apply HP. unfold in_range. lia.
Qed.

Lemma cstr_cons m a b l : cstr m a (b :: l) <-> read8 m a = b /\ b <> 0 /\ cstr m (a + 1) l.
Proof.
  unfold cstr, bytes. split.
  - intros (Hb & [Hn Hl]%Forall_cons & H0). split_and!; try done.
    + rewrite <- (Hb 0%nat b eq_refl). f_equal. lia.
    + intros i c Hi. rewrite <- (Hb (S i) c Hi). f_equal. lia.
    + rewrite <- H0. f_equal. simpl. lia.
  - intros (H1 & Hn & Hb & Hl & H0). split_and!.
    + intros [|i] c Hi; simpl in Hi.
      * injection Hi as <-. rewrite <- H1. f_equal. lia.
      * rewrite <- (Hb i c Hi). f_equal. lia.
    + by constructor.
    + rewrite <- H0. f_equal. simpl. lia.
Qed.

Lemma strlen_loop_spec m str fuel l k :
  cstr m (str + k) l -> (length l < fuel)%nat ->
  strlen_loop fuel m str k = Some (k + Z.of_nat (length l)).
Proof.
  revert fuel k. induction l as [|b l IH]; intros fuel k Hc Hf; (destruct fuel as [|fuel]; [simpl in Hf; lia|]);
    cbn [strlen_loop].
  - destruct Hc as (_ & _ & H0). simpl in H0. rewrite Z.add_0_r in H0. rewrite H0. simpl. f_equal. lia.
  - apply cstr_cons in Hc as (-> & Hn & Hc). rewrite (proj2 (Z.eqb_neq _ _)) by done.
    rewrite <- Z.add_assoc in Hc. rewrite IH by (done || (simpl in Hf; lia)). simpl. f_equal. lia.
Qed.

Lemma strlen_spec m str fuel l :
  cstr m str l -> (length l < fuel)%nat -> strlen fuel m str = Some (Z.of_nat (length l)).
Proof. intros. unfold strlen. rewrite (strlen_loop_spec m str fuel l 0) by (by rewrite ?Z.add_0_r). done. Qed.

(** [strcmp] decides equality of strings. *)
Lemma strcmp_spec m s1 s2 l1 l2 fuel :
  cstr m s1 l1 -> cstr m s2 l2 -> (length l1 < fuel)%nat ->
  exists r, strcmp fuel m s1 s2 = Some r /\ (r = 0 <-> l1 = l2).
Proof.
  revert s1 s2 l2 fuel. induction l1 as [|b l1 IH]; intros s1 s2 l2 fuel H1 H2 Hf;
    (destruct fuel as [|fuel]; [simpl in Hf; lia|]); cbn [strcmp].
  - destruct H1 as (_ & _ & E1). rewrite Z.add_0_r in E1. rewrite E1. rewrite andb_false_r.
    eexists. split; [done|]. destruct l2 as [|c l2].
    + destruct H2 as (_ & _ & E2). rewrite Z.add_0_r in E2. rewrite E2. done.
    + apply cstr_cons in H2 as (-> & ? & _). split; [lia|done].
  - apply cstr_cons in H1 as (E1 & Hn & H1). rewrite E1. rewrite (proj2 (Z.eqb_neq b 0)) by done.
    cbn [negb]. rewrite andb_true_r. destruct l2 as [|c l2].
    + destruct H2 as (_ & _ & E2). rewrite Z.add_0_r in E2. rewrite E2.
      rewrite (proj2 (Z.eqb_neq b 0)) by done. eexists. split; [done|]. split; [lia|done].
    + apply cstr_cons in H2 as (E2 & Hn2 & H2). rewrite E2. destruct (Z.eqb_spec b c) as [->|Hbc].
      * destruct (IH (s1 + 1) (s2 + 1) l2 fuel H1 H2) as (r & -> & Hr); [simpl in Hf; lia|].
        exists r. split; [done|]. rewrite Hr. split; congruence.
      * eexists. split; [done|]. split; [lia|]. congruence.
Qed.

(** ** Reversal *)

(** After [k] swaps, the outer [k] bytes on both sides are exchanged. *)
Lemma reverse_loop_spec m0 m str n k fuel :
  1 <= n < 2 ^ 63 -> 0 <= k -> 2 * k <= n ->
  (forall x, read8 m (str + x) =
     if decide (0 <= x < k \/ n - k <= x < n) then read8 m0 (str + (n - 1 - x)) else read8 m0 (str + x)) ->
  n < 2 * (k + Z.of_nat fuel) ->
  exists m', reverse_loop fuel m str k (n - 1 - k) = Some m' /\
    forall x, read8 m' (str + x) =
      if decide (0 <= x < n) then read8 m0 (str + (n - 1 - x)) else read8 m0 (str + x).
Proof.
  intros Hn. revert m k. induction fuel as [|fuel IH]; intros m k Hk Hkn Hm Hf; [lia|].
  cbn [reverse_loop]. destruct (Z.ltb_spec k (n - 1 - k)) as [Hlt|Hge].
  - rewrite !wrap_small by lia. replace (n - 1 - k - 1) with (n - 1 - (k + 1)) by lia.
    apply IH; [lia|lia| |lia]. intros x. rewrite !read8_write8, !read8_small.
    destruct (decide (x = k)) as [->|Hxk].
    + rewrite decide_False, decide_True, decide_True by lia. rewrite Hm, decide_False by lia. done.
    + destruct (decide (x = n - 1 - k)) as [->|Hxn].
      * rewrite decide_True, decide_True by lia. rewrite Hm, decide_False by lia. f_equal. lia.
      * rewrite decide_False, decide_False by lia. rewrite Hm.
        destruct (decide (0 <= x < k \/ n - k <= x < n)); [rewrite decide_True by lia; done|].
        rewrite decide_False by lia. done.
  - eexists. split; [done|]. intros x. rewrite Hm. repeat case_decide; try lia; try done.
    f_equal. lia.
Qed.

Lemma bytes_reverse m m' a l :
  bytes m a l ->
  (forall x, 0 <= x < Z.of_nat (length l) -> read8 m' (a + x) = read8 m (a + (Z.of_nat (length l) - 1 - x))) ->
  bytes m' a (reverse l).
Proof.
  intros Hb Hm i b Hi. pose proof (lookup_lt_Some _ _ _ Hi) as Hlt. rewrite length_reverse in Hlt.
  rewrite reverse_lookup in Hi by done. rewrite Hm by lia. rewrite <- (Hb _ _ Hi). f_equal. lia.
Qed.

Lemma reverse_str_spec m str l fuel :
  cstr m str l -> l <> [] -> Z.of_nat (length l) < 2 ^ 63 -> (length l < fuel)%nat ->
  exists m', reverse_str fuel m str = Some m' /\ cstr m' str (reverse l) /\
    agree (fun x => ~ in_range str (Z.of_nat (length l)) x) m m'.
Proof.
  intros Hc Hne Hlen Hf. unfold reverse_str. rewrite (strlen_spec m str fuel l Hc Hf).
  cbn [mbind option_bind]. assert (1 <= Z.of_nat (length l)) by (destruct l; [done|simpl; lia]).
  rewrite wrap_small by lia.
  destruct (reverse_loop_spec m m str (Z.of_nat (length l)) 0 fuel) as (m' & E & Hm'); [lia|lia|lia| |lia|].
  { intros x. rewrite decide_False by lia. done. }
  rewrite Z.sub_0_r in E. exists m'. split; [done|]. destruct Hc as (Hb & Hnz & H0). split_and!.
  - split_and!.
    + apply (bytes_reverse m); [done|]. intros x Hx. by rewrite Hm', decide_True by lia.
    + by apply Forall_reverse.
    + rewrite length_reverse, Hm', decide_False by lia. done.
  - intros x Hx. unfold in_range in Hx. replace x with (str + (x - str)) by lia.
    rewrite Hm', decide_False by lia. done.
Qed.

(** ** Positional notation *)

(** The value of a digit sequence, least significant first. *)
Fixpoint of_digits (b : Z) (ds : list Z) : Z :=
  match ds with [] => 0 | d :: ds => d + b * of_digits b ds end.

(** Reading a digit sequence, most significant first. *)
Definition read_digits (b : Z) (ds : list Z) : Z := fold_left (fun acc d => acc * b + d) ds 0.

Lemma read_digits_reverse b ds : read_digits b (reverse ds) = of_digits b ds.
Proof.
  unfold read_digits. induction ds as [|d ds IH]; [done|].
  rewrite reverse_cons, fold_left_app, IH. simpl. lia.
Qed.

(** The digits a printing loop produces: in range, with no leading zero. *)
Definition digits_ok (b : Z) (ds : list Z) : Prop :=
  Forall (fun d => 0 <= d < b) ds /\ (forall d, last ds = Some d -> d <> 0).

(** Both conversion loops, for a base [b] and a digit alphabet [ch]. *)
Fixpoint gen_loop (b : Z) (ch : Z -> Z) (fuel : nat) (m : mem) (str i value : Z) : option (mem * Z) :=
  match fuel with
  | O => None
  | S fuel =>
    if 0 <? value then gen_loop b ch fuel (write8 m (str + i) (ch (value mod b))) str (i + 1) (value / b)
    else Some (m, i)
  end.

Lemma dec_loop_gen fuel m str i value :
  dec_loop fuel m str i value = gen_loop 10 (fun d => 48 + d) fuel m str i value.
Proof.
  revert m i value. induction fuel as [|fuel IH]; intros; [done|]. cbn [dec_loop gen_loop]. by rewrite IH.
Qed.

Definition hex_char (d : Z) : Z := nth (Z.to_nat d) hex_digits 0.

Lemma hex_loop_gen fuel m str i value :
  hex_loop fuel m str i value = gen_loop 16 hex_char fuel m str i value.
Proof.
  revert m i value. induction fuel as [|fuel IH]; intros; [done|]. cbn [hex_loop gen_loop].
  rewrite IH. change 0xF with (2 ^ 4 - 1). rewrite land_pow2_pred, Z.shiftr_div_pow2 by lia. done.
Qed.

Lemma itoa_loop_dec fuel m str i value :
  0 < value -> itoa_loop fuel m str i value = dec_loop (S fuel) m str i value.
Proof.
  revert m i value. induction fuel as [|fuel IH]; intros m i value Hv.
  - cbn [itoa_loop dec_loop]. by rewrite (proj2 (Z.ltb_lt _ _)).
  - cbn [itoa_loop]. cbn [dec_loop]. rewrite (proj2 (Z.ltb_lt 0 value)) by done.
    rewrite Z.quot_div_nonneg, Z.rem_mod_nonneg by lia. rewrite (Z.add_comm _ 48).
    destruct (Z.ltb_spec 0 (value / 10)) as [Hd|Hd].
    + rewrite IH by done. cbn [dec_loop]. by rewrite (proj2 (Z.ltb_lt 0 (value / 10))).
    + done.
Qed.

Lemma gen_loop_spec b ch fuel m str i value :
  2 <= b -> 0 <= value < 2 ^ Z.of_nat fuel ->
  (forall d, 0 <= d < b -> 0 <= ch d < 256) ->
  exists m' ds, gen_loop b ch (S fuel) m str i value = Some (m', i + Z.of_nat (length ds)) /\
    bytes m' (str + i) (ch <$> ds) /\ of_digits b ds = value /\ digits_ok b ds /\
    (0 < value -> ds <> []) /\ (length ds <= fuel)%nat /\
    agree (fun x => ~ in_range (str + i) (Z.of_nat (length ds)) x) m m'.
Proof.
  intros Hb. revert m i value. induction fuel as [|fuel IH]; intros m i value Hv Hch.
  - exists m, []. simpl in Hv. assert (value = 0) as -> by lia. simpl. rewrite Z.add_0_r.
    split_and!; try done.
  - cbn [gen_loop]. destruct (Z.ltb_spec 0 value) as [Hpos|Hz].
    + assert (0 <= value / b < 2 ^ Z.of_nat fuel) as Hv'.
      { split; [apply Z.div_pos; lia|]. apply Z.div_lt_upper_bound; [lia|].
        rewrite Nat2Z.inj_succ, Z.pow_succ_r in Hv by lia. nia. }
      pose proof (Z.mod_pos_bound value b ltac:(lia)) as Hmod.
      destruct (IH (write8 m (str + i) (ch (value mod b))) (i + 1) (value / b) Hv' Hch)
        as (m' & ds & E & Hbytes & Hval & [Hr Hl] & Hne & Hlen & Hag).
      exists m', (value mod b :: ds). cbn [gen_loop] in E. rewrite E. split_and!; try done.
      * f_equal. f_equal. simpl. lia.
      * intros [|k] c Hc; simpl in Hc.
        -- injection Hc as <-. rewrite <- Hag by (unfold in_range; lia). rewrite read8_write8, decide_True by lia.
           apply Z.mod_small. apply Hch. lia.
        -- rewrite <- (Hbytes k c Hc). f_equal. lia.
      * simpl. rewrite Hval. pose proof (Z.div_mod value b). lia.
      * split; [by constructor|]. intros d. rewrite last_cons. destruct (last ds) as [e|] eqn:El.
        -- intros [= <-]. by apply Hl.
        -- intros [= <-]. destruct ds; [|by rewrite last_cons in El; destruct (last ds)].
           simpl in Hval. pose proof (Z.div_mod value b). lia.
      * simpl. lia.
      * transitivity (write8 m (str + i) (ch (value mod b))).
        -- intros x Hx. rewrite read8_write8, decide_False; [done|]. unfold in_range in Hx. simpl in Hx. lia.
        -- eapply agree_sub; [exact Hag|]. intros x Hx. unfold in_range in *. simpl in Hx. lia.
    + assert (value = 0) as -> by lia. exists m, []. simpl. rewrite Z.add_0_r. split_and!; try done; lia.
Qed.

(** More fuel does not change a result. *)
Lemma gen_loop_mono b ch str f1 f2 m i v r :
  (f1 <= f2)%nat -> gen_loop b ch f1 m str i v = Some r -> gen_loop b ch f2 m str i v = Some r.
Proof.
  revert f2 m i v r. induction f1 as [|f1 IH]; intros [|f2] m i v r Hle; try done; [lia|].
  cbn [gen_loop]. destruct (0 <? v); [|done]. apply IH. lia.
Qed.

(** Terminating and reversing what a loop wrote. *)
Lemma finish_print m str cs fuel :
  bytes m str cs -> Forall (fun b => b <> 0) cs -> cs <> [] -> (length cs <= 64)%nat -> (66 <= fuel)%nat ->
  exists m', reverse_str fuel (write8 m (str + Z.of_nat (length cs)) 0) str = Some m' /\
    cstr m' str (reverse cs) /\
    agree (fun x => ~ in_range str (Z.of_nat (length cs) + 1) x) m m'.
Proof.
  intros Hb Hnz Hne Hlen Hf.
  destruct (reverse_str_spec (write8 m (str + Z.of_nat (length cs)) 0) str cs fuel) as (m' & E & Hc & Ha);
    [|done|lia|lia|].
  - split_and!; try done.
    + intros i b Hi. rewrite read8_write8, decide_False; [by apply Hb|]. apply lookup_lt_Some in Hi. lia.
    + by rewrite read8_write8, decide_True.
  - exists m'. split_and!; try done.
    transitivity (write8 m (str + Z.of_nat (length cs)) 0).
    + intros x Hx. rewrite read8_write8, decide_False; [done|]. unfold in_range in Hx. lia.
    + eapply agree_sub; [exact Ha|]. unfold in_range. lia.
Qed.

(** Printing with the shared loop. *)
Lemma gen_print b ch m str value fuel :
  2 <= b -> 0 < value < 2 ^ 64 -> (forall d, 0 <= d < b -> 0 < ch d < 256) -> (66 <= fuel)%nat ->
  exists m1 ds, gen_loop b ch fuel m str 0 value = Some (m1, Z.of_nat (length ds)) /\
    bytes m1 str (ch <$> ds) /\ of_digits b ds = value /\ digits_ok b ds /\ ds <> [] /\
    (length ds <= 64)%nat /\ Forall (fun c => c <> 0) (ch <$> ds) /\
    agree (fun x => ~ in_range str (Z.of_nat (length ds)) x) m m1.
Proof.
  intros Hb Hv Hch Hf. destruct fuel as [|fuel]; [lia|].
  assert (0 <= value < 2 ^ Z.of_nat fuel) as Hv'.
  { split; [lia|]. etransitivity; [apply Hv|]. apply Z.pow_lt_mono_r; lia. }
  destruct (gen_loop_spec b ch fuel m str 0 value Hb Hv') as (m1 & ds & E & Hby & Hval & Hok & Hne & Hlen & Hag).
  { intros d Hd. specialize (Hch d Hd). lia. }
  destruct (gen_loop_spec b ch 64 m str 0 value Hb) as (m1' & ds' & E' & _ & Hval' & _ & _ & Hlen' & _); [lia| |].
  { intros d Hd. specialize (Hch d Hd). lia. }
  apply (gen_loop_mono b ch str 65 (S fuel)) in E'; [|lia]. rewrite E in E'. injection E' as -> Hl.
  exists m1', ds. rewrite Z.add_0_r in *. split_and!; try done.
  - apply Hne. lia.
  - lia.
  - destruct Hok as [Hr _]. apply Forall_fmap. eapply Forall_impl; [exact Hr|].
    intros d Hd. simpl. specialize (Hch d Hd). lia.
Qed.

(** ** Main theorems *)

(** [memmove] copies [size] bytes as if through a temporary buffer, however
    the two areas overlap, and changes nothing else. *)
Theorem memmove_correct m dst src size x :
  0 <= size ->
  read8 (memmove m dst src size) x =
  if decide (dst <= x < dst + size) then read8 m (src + (x - dst)) else read8 m x.
Proof.
  intros Hs. unfold memmove. destruct (Z.ltb_spec dst src).
  - rewrite copy_up_spec by lia. by rewrite Z.add_0_r, Z2Nat.id.
  - rewrite copy_down_spec by lia. by rewrite Z2Nat.id.
Qed.

(** A printed number: the string of the digits [ds], most significant first,
    without leading zeros, in an alphabet [ch]. *)
Definition prints (b : Z) (ch : Z -> Z) (m : mem) (str : Z) (ds : list Z) (value : Z) : Prop :=
  cstr m str (ch <$> ds) /\ read_digits b ds = value /\ Forall (fun d => 0 <= d < b) ds /\
  ((1 < length ds)%nat -> head ds <> Some 0) /\ ds <> [].

Lemma finish_prints b ch m str ds value fuel :
  bytes m str (ch <$> ds) -> of_digits b ds = value -> Forall (fun d => 0 <= d < b) ds ->
  ((1 < length ds)%nat -> last ds <> Some 0) -> ds <> [] ->
  (length ds <= 64)%nat -> Forall (fun c => c <> 0) (ch <$> ds) -> (66 <= fuel)%nat ->
  exists m', reverse_str fuel (write8 m (str + Z.of_nat (length ds)) 0) str = Some m' /\
    prints b ch m' str (reverse ds) value /\
    agree (fun x => ~ in_range str (Z.of_nat (length ds) + 1) x) m m'.
Proof.
  intros Hby Hval Hr Hl Hne Hlen Hnz Hf.
  destruct (finish_print m str (ch <$> ds) fuel Hby Hnz) as (m' & E & Hc & Ha); try done.
  - by destruct ds.
  - by rewrite length_fmap.
  - rewrite length_fmap in E, Ha. exists m'. split_and!; try done. split_and!.
    + by rewrite fmap_reverse.
    + by rewrite read_digits_reverse.
    + by apply Forall_reverse.
    + rewrite length_reverse, head_reverse. done.
    + intros E0. by apply Hne, (inj reverse).
Qed.

Lemma hex_char_range d : 0 <= d < 16 -> 0 < hex_char d < 256.
Proof.
  intros Hd. assert (d ∈ seqZ 0 16) as Hin by (apply elem_of_seqZ; lia).
  assert (Forall (fun d => 0 < hex_char d < 256) (seqZ 0 16)) as Hall
    by (repeat (constructor; [vm_compute; intuition congruence|]); constructor).
  by apply (proj1 (Forall_forall _ _) Hall).
Qed.

Lemma print_zero b ch m str fuel :
  2 <= b -> ch 0 = 48 -> (66 <= fuel)%nat ->
  exists m', reverse_str fuel (write8 (write8 m str 48) (str + 1) 0) str = Some m' /\
    prints b ch m' str [0] 0 /\ agree (fun x => ~ in_range str 2 x) m m'.
Proof.
  intros Hb Hch Hf.
  destruct (finish_prints b ch (write8 m str 48) str [0] 0 fuel) as (m' & E & Hp & Ha); simpl; try lia; try done.
  - intros [|i] c Hi; [injection Hi as <-|done]. rewrite Hch, read8_write8, decide_True by (simpl; lia). done.
  - repeat constructor; lia.
  - rewrite Hch. repeat constructor. done.
  - exists m'. split_and!; try done. transitivity (write8 m str 48); [|done].
    intros x Hx. rewrite read8_write8, decide_False; [done|]. unfold in_range in Hx. lia.
Qed.

(** [ul_to_str] terminates for every 64-bit value and leaves its decimal
    digits, without leading zeros, as a string whose length it returns; reading
    the digits back gives the value. *)
Theorem ul_to_str_roundtrip m value str fuel :
  0 <= value < 2 ^ 64 -> (66 <= fuel)%nat ->
  exists m' ds, ul_to_str fuel m value str = Some (m', Z.of_nat (length ds)) /\
    prints 10 (fun d => 48 + d) m' str ds value /\
    agree (fun x => ~ in_range str (Z.of_nat (length ds) + 1) x) m m'.
Proof.
  intros Hv Hf. unfold ul_to_str. destruct (Z.eqb_spec value 0) as [->|Hne].
  - destruct (print_zero 10 (fun d => 48 + d) m str fuel) as (m' & E & Hp & Ha); [lia|done|done|].
    cbn [mbind option_bind]. rewrite E. exists m', [0]. done.
  - rewrite dec_loop_gen.
    destruct (gen_print 10 (fun d => 48 + d) m str value fuel)
      as (m1 & ds & -> & Hby & Hval & [Hr Hl] & Hds & Hlen & Hnz & Ha1); [lia|lia|lia|done|].
    cbn [mbind option_bind].
    destruct (finish_prints 10 (fun d => 48 + d) m1 str ds value fuel) as (m' & -> & Hp & Ha2); try done.
    { intros _ E. by apply (Hl 0). }
    exists m', (reverse ds). rewrite length_reverse. split_and!; try done.
    transitivity m1; [eapply agree_sub; [exact Ha1|]; unfold in_range; lia|done].
Qed.

(** [ui64_to_hex_str] does the same in base 16. *)
Theorem ui64_to_hex_str_roundtrip m value str fuel :
  0 <= value < 2 ^ 64 -> (66 <= fuel)%nat ->
  exists m' ds, ui64_to_hex_str fuel m value str = Some (m', Z.of_nat (length ds)) /\
    prints 16 hex_char m' str ds value /\
    agree (fun x => ~ in_range str (Z.of_nat (length ds) + 1) x) m m'.
Proof.
  intros Hv Hf. unfold ui64_to_hex_str. destruct (Z.eqb_spec value 0) as [->|Hne].
  - exists (write8 (write8 m str 48) (str + 1) 0), [0]. split_and!; try done.
    + split_and!; [split_and!| |repeat constructor|simpl; lia|]; try done.
      * intros [|i] b Hi; [injection Hi as <-|done].
        rewrite !read8_write8, decide_False, decide_True by (simpl; lia). done.
      * repeat constructor. done.
      * simpl. by rewrite read8_write8, decide_True.
    + intros x Hx. unfold in_range in Hx. simpl in Hx. rewrite !read8_write8, !decide_False by lia. done.
  - rewrite hex_loop_gen.
    destruct (gen_print 16 hex_char m str value fuel)
      as (m1 & ds & -> & Hby & Hval & [Hr Hl] & Hds & Hlen & Hnz & Ha1); [lia|lia|apply hex_char_range|done|].
    cbn [mbind option_bind].
    destruct (finish_prints 16 hex_char m1 str ds value fuel) as (m' & -> & Hp & Ha2); try done.
    { intros _ E. by apply (Hl 0). }
    exists m', (reverse ds). rewrite length_reverse. split_and!; try done.
    transitivity m1; [eapply agree_sub; [exact Ha1|]; unfold in_range; lia|done].
Qed.

Lemma itoa_digits m str i fuel :
  0 <= i < 2 ^ 31 -> (66 <= fuel)%nat ->
  exists m1 ds, itoa_loop fuel m str 0 i = Some (m1, Z.of_nat (length ds)) /\
    bytes m1 str ((fun d => 48 + d) <$> ds) /\ of_digits 10 ds = i /\ Forall (fun d => 0 <= d < 10) ds /\
    ((1 < length ds)%nat -> last ds <> Some 0) /\ ds <> [] /\ (length ds <= 32)%nat /\
    agree (fun x => ~ in_range str (Z.of_nat (length ds)) x) m m1.
Proof.
  intros Hi Hf. destruct (decide (i = 0)) as [->|Hne].
  - destruct fuel as [|fuel]; [lia|]. exists (write8 m str 48), [0].
    split_and!; [by rewrite <- (Z.add_0_r str) at 2| |done|repeat constructor; lia|simpl; lia|done|simpl; lia|].
    + intros [|k] c Hc; [injection Hc as <-|done]. rewrite read8_write8, decide_True by (simpl; lia). done.
    + intros x Hx. unfold in_range in Hx. simpl in Hx. rewrite read8_write8, decide_False by lia. done.
  - rewrite itoa_loop_dec by lia. rewrite dec_loop_gen.
    destruct (gen_loop_spec 10 (fun d => 48 + d) fuel m str 0 i) as (m1 & ds & E & Hby & Hval & [Hr Hl] & Hds & _ & Ha);
      [lia| |lia|].
    { split; [lia|]. etransitivity; [apply Hi|]. apply Z.pow_lt_mono_r; lia. }
    destruct (gen_loop_spec 10 (fun d => 48 + d) 31 m str 0 i) as (m2 & ds2 & E2 & _ & _ & _ & _ & Hlen & _); [lia|done|lia|].
    rewrite (gen_loop_mono _ _ _ 32 (S fuel) _ _ _ _ ltac:(lia) E2) in E. injection E as -> Hl2.
    rewrite (gen_loop_mono _ _ _ 32 (S fuel) _ _ _ _ ltac:(lia) E2).
    rewrite Z.add_0_r in *. exists m1, ds. split_and!; try done.
    + do 2 f_equal. lia.
    + intros _ E. by apply (Hl 0).
    + apply Hds. lia.
    + lia.
Qed.

(** [itoa] prints every [int] but the smallest: a minus sign for negative
    numbers, then the decimal digits of the magnitude without leading zeros. *)
Theorem itoa_roundtrip m i str fuel :
  - 2 ^ 31 < i < 2 ^ 31 -> (66 <= fuel)%nat ->
  exists m' ds len, itoa fuel m i str = Some (m', len) /\
    cstr m' str ((if i <? 0 then [45] else []) ++ ((fun d => 48 + d) <$> ds)) /\
    len = Z.of_nat (length ds) + (if i <? 0 then 1 else 0) /\
    read_digits 10 ds = Z.abs i /\ Forall (fun d => 0 <= d < 10) ds /\
    ((1 < length ds)%nat -> head ds <> Some 0) /\ ds <> [] /\
    agree (fun x => ~ in_range str (len + 1) x) m m'.
Proof.
  intros Hi Hf. unfold itoa.
  assert (0 <= Z.abs i < 2 ^ 31) as Ha by lia.
  replace (if i <? 0 then s32 (- i) else i) with (Z.abs i).
  2:{ destruct (Z.ltb_spec i 0); [rewrite swrap_small by lia|]; lia. }
  destruct (itoa_digits m str (Z.abs i) fuel Ha Hf) as (m1 & ds & -> & Hby & Hval & Hr & Hl & Hne & Hlen & Ha1).
  cbn [mbind option_bind].
  set (cs := ((fun d => 48 + d) <$> ds) ++ (if i <? 0 then [45] else [])).
  set (m2 := if i <? 0 then write8 m1 (str + Z.of_nat (length ds)) 45 else m1).
  assert ((if i <? 0 then (write8 m1 (str + Z.of_nat (length ds)) 45, Z.of_nat (length ds) + 1)
           else (m1, Z.of_nat (length ds))) = (m2, Z.of_nat (length cs))) as ->.
  { unfold m2, cs. rewrite length_app, length_fmap. destruct (i <? 0); simpl; f_equal; lia. }
  destruct (finish_print m2 str cs fuel) as (m' & -> & Hc & Ha2).
  - intros k c Hk. unfold m2, cs in *. destruct (i <? 0).
    + apply lookup_app_Some in Hk as [Hk|[Hge Hk]].
      * rewrite read8_write8, decide_False; [by apply Hby|].
        apply lookup_lt_Some in Hk. rewrite length_fmap in Hk. lia.
      * rewrite length_fmap in *. apply list_lookup_singleton_Some in Hk as [Hk <-].
        by rewrite read8_write8, decide_True by lia.
    + rewrite app_nil_r in Hk. by apply Hby.
  - unfold cs. apply Forall_app. split.
    + apply Forall_fmap. eapply Forall_impl; [exact Hr|]. simpl. lia.
    + destruct (i <? 0); repeat constructor. done.
  - unfold cs. by destruct ds.
  - unfold cs. rewrite length_app, length_fmap. destruct (i <? 0); simpl; lia.
  - done.
  - cbn [mbind option_bind]. exists m', (reverse ds). eexists. split_and!; [done| | | | | | |].
    + unfold cs in Hc. rewrite reverse_app, <- fmap_reverse in Hc. by destruct (i <? 0).
    + unfold cs. rewrite length_app, length_fmap, length_reverse. destruct (i <? 0); simpl; lia.
    + by rewrite read_digits_reverse.
    + by apply Forall_reverse.
    + rewrite length_reverse, head_reverse. done.
    + intros E0. by apply Hne, (inj reverse).
    + transitivity m1; [|transitivity m2; [|exact Ha2]].
      * eapply agree_sub; [exact Ha1|]. unfold in_range, cs. rewrite length_app, length_fmap. lia.
      * intros x Hx. unfold m2. destruct (i <? 0) eqn:Ei; [|done].
        rewrite read8_write8, decide_False; [done|]. unfold in_range, cs in Hx.
        rewrite length_app, length_fmap in Hx. simpl in Hx. lia.
Qed.

(** The smallest [int] has no negation; the loop stops after one character. *)
Example itoa_int_min :
  (fun r => (read8 r.1 100, read8 r.1 101, read8 r.1 102, r.2)) <$> itoa 66 ∅ (- 2 ^ 31) 100 =
  Some (45, 40, 0, 2).
Proof. vm_compute. reflexivity. Qed.

(** ** Witnesses *)

Lemma memmove_witness :
  read8 (memmove (write8 (write8 ∅ 10 7) 11 8) 11 10 2) 12 = 8.
Proof. rewrite memmove_correct by lia. vm_compute. reflexivity. Defined.

Lemma ul_to_str_witness :
  exists m' ds, ul_to_str 66 ∅ 12345 100 = Some (m', 5) /\
    prints 10 (fun d => 48 + d) m' 100 ds 12345.
Proof.
  destruct (ul_to_str_roundtrip ∅ 12345 100 66) as (m' & ds & E & Hp & _); [lia|lia|].
  assert (snd <$> ul_to_str 66 ∅ 12345 100 = Some 5) as E' by (vm_compute; reflexivity).
  rewrite E in E'. injection E' as E'. exists m', ds. split; [|exact Hp].
  rewrite E. do 2 f_equal. exact E'.
Defined.

Lemma hex_witness :
  exists m' ds, ui64_to_hex_str 66 ∅ 0xDEADBEEF 100 = Some (m', Z.of_nat (length ds)) /\
    prints 16 hex_char m' 100 ds 0xDEADBEEF.
Proof.
  destruct (ui64_to_hex_str_roundtrip ∅ 0xDEADBEEF 100 66) as (m' & ds & E & Hp & _); [lia|lia|].
  exists m', ds. split; [exact E|exact Hp].
Defined.

Lemma itoa_witness :
  exists m' ds len, itoa 66 ∅ (-305) 100 = Some (m', len) /\
    cstr m' 100 (45 :: ((fun d => 48 + d) <$> ds)) /\ read_digits 10 ds = 305.
Proof.
  destruct (itoa_roundtrip ∅ (-305) 100 66) as (m' & ds & len & E & Hc & _ & Hv & _); [lia|lia|].
  exists m', ds, len. split; [exact E|]. split; [exact Hc|exact Hv].
Defined.
