(* ===== verification/Vmm.v ===== *)
(** * The virtual memory manager: operations

    Models src/kernel/arch/x86_64/memory/vmm.c and vmm.h.  Page tables and
    [struct addr_space] live in the byte memory; the globals [kernel_as] and
    [current_pml4], the CR3 register and the TLB maintenance the code issues
    are the rest of the state.  0 is NULL. *)
From S2P Require Import Prelude Memory PageAlloc Slab Pmm Klib.
Import Slab Pmm Klib.

Module Vmm.

Definition PAGE_SIZE : Z := 4096.
Definition PTE_PRESENT : Z := Z.shiftl 1 0.
Definition PTE_WRITABLE : Z := Z.shiftl 1 1.
Definition PTE_USER : Z := Z.shiftl 1 2.
Definition PTE_WRITETHROUGH : Z := Z.shiftl 1 3.
Definition PTE_CACHE_DISABLE : Z := Z.shiftl 1 4.
Definition PTE_NX : Z := Z.shiftl 1 63.

(** PAGE_MASK is an [int], sign-extended when it meets a 64-bit address. *)
Definition PAGE_MASK : Z := Z.lnot (PAGE_SIZE - 1).

Definition PML4_INDEX (addr : Z) : Z := Z.land (Z.shiftr addr 39) 0x1FF.
Definition PDP_INDEX (addr : Z) : Z := Z.land (Z.shiftr addr 30) 0x1FF.
Definition PD_INDEX (addr : Z) : Z := Z.land (Z.shiftr addr 21) 0x1FF.
Definition PT_INDEX (addr : Z) : Z := Z.land (Z.shiftr addr 12) 0x1FF.
Definition PAGE_OFFSET (addr : Z) : Z := Z.land addr 0xFFF.
Definition PTE_ADDR (pte : Z) : Z := Z.land pte 0x000FFFFFFFFFF000.

Definition vmm_page_align_up (vaddr : Z) : Z := Z.land (w64 (vaddr + PAGE_SIZE - 1)) PAGE_MASK.
Definition vmm_page_align_down (vaddr : Z) : Z := Z.land vaddr PAGE_MASK.
Definition vmm_pages_in_range (start stop : Z) : Z :=
  w64 (vmm_page_align_up stop - vmm_page_align_down start) / PAGE_SIZE.

Definition present (pte : Z) : bool := negb (Z.land pte PTE_PRESENT =? 0).

(** struct page_table: the address of entry [idx]. *)
Definition entry_addr (table idx : Z) : Z := table + 8 * idx.

(** struct addr_space: { pml4, total_pages, flags } *)
Definition sizeof_addr_space : Z := 24.
Definition as_pml4 (m : mem) (a : Z) : Z := load 8 m a.
Definition as_total_pages (m : mem) (a : Z) : Z := load 8 m (a + 8).
Definition set_as_pml4 (m : mem) (a v : Z) : mem := store 8 m a v.
Definition set_as_total_pages (m : mem) (a v : Z) : mem := store 8 m (a + 8) v.

(** What the code does to the MMU. *)
Inductive mmu_event := FlushAll | FlushPage (vaddr : Z) | LoadCr3 (phys : Z).

Section Ops.
Context `{Hhdm} `{Linker} {P : Type} `{!PageAllocator P}.

Record vmm := mk_vmm {
  v_heap : heap P;
  kernel_as : Z;
  current_pml4 : Z;
  cr3 : Z;
  mmu : list mmu_event;
}.

Definition v_mem (v : vmm) : mem := h_mem (v_heap v).
Definition set_heap (v : vmm) (h : heap P) : vmm :=
  mk_vmm h (kernel_as v) (current_pml4 v) (cr3 v) (mmu v).
Definition set_vmem (v : vmm) (m : mem) : vmm := set_heap v (set_mem (v_heap v) m).
Definition event (e : mmu_event) (v : vmm) : vmm :=
  let v' := mk_vmm (v_heap v) (kernel_as v) (current_pml4 v) (cr3 v) (mmu v ++ [e]) in
  match e with
  | LoadCr3 p => mk_vmm (v_heap v') (kernel_as v') (current_pml4 v') p (mmu v')
  | _ => v'
  end.

Definition get_current_pml4 (v : vmm) : vmm * Z :=
  let v := if current_pml4 v =? 0
           then mk_vmm (v_heap v) (kernel_as v) (phys_to_virt (cr3 v)) (cr3 v) (mmu v) else v in
  (v, current_pml4 v).

(** ** Page tables *)

Definition vmm_free_page_table (pt : Z) (v : vmm) : option vmm :=
  if pt =? 0 then Some v else
  h ← pmm_free_page (virt_to_phys pt) (v_heap v);
  Some (set_heap v h).

Definition vmm_alloc_page_table (v : vmm) : vmm * Z :=
  let '(h, phys) := pmm_alloc_page (v_heap v) in
  let v := set_heap v h in
  if phys =? 0 then (v, 0) else
  let pt := phys_to_virt phys in
  (set_vmem v (memset (v_mem v) pt 0 PAGE_SIZE), pt).

(** The loop over the levels; [indices] are the indices still to follow. *)
Fixpoint walk (indices : list Z) (current : Z) (create : bool) (v : vmm) : vmm * Z :=
  match indices with
  | [] => (v, 0)
  | [idx] => (v, entry_addr current idx)
  | idx :: indices =>
    let entry := entry_addr current idx in
    if present (load 8 (v_mem v) entry) then
      walk indices (phys_to_virt (PTE_ADDR (load 8 (v_mem v) entry))) create v
    else if negb create then (v, 0)
    else
      let '(v, new_pt) := vmm_alloc_page_table v in
      if new_pt =? 0 then (v, 0) else
      let phys := virt_to_phys new_pt in
      let pte := Z.lor (Z.lor (Z.lor phys PTE_PRESENT) PTE_WRITABLE) PTE_USER in
      let v := set_vmem v (store 8 (v_mem v) entry pte) in
      walk indices (phys_to_virt (PTE_ADDR (load 8 (v_mem v) entry))) create v
  end.

Definition indices (vaddr : Z) : list Z :=
  [PML4_INDEX vaddr; PDP_INDEX vaddr; PD_INDEX vaddr; PT_INDEX vaddr].

Definition vmm_walk_page_table (a vaddr : Z) (create : bool) (v : vmm) : vmm * Z :=
  if (a =? 0) || (as_pml4 (v_mem v) a =? 0) then (v, 0)
  else walk (indices vaddr) (as_pml4 (v_mem v) a) create v.

(** ** Mapping *)

Definition vmm_map_page_no_flush (a vaddr paddr flags : Z) (v : vmm) : vmm * Z :=
  if a =? 0 then (v, -1) else
  let vaddr := vmm_page_align_down vaddr in
  let paddr := vmm_page_align_down paddr in
  let '(v, pte) := vmm_walk_page_table a vaddr true v in
  if pte =? 0 then (v, -1) else
  if present (load 8 (v_mem v) pte) then (v, -1) else
  let v := set_vmem v (store 8 (v_mem v) pte (Z.lor (Z.lor paddr flags) PTE_PRESENT)) in
  (set_vmem v (set_as_total_pages (v_mem v) a (w64 (as_total_pages (v_mem v) a + 1))), 0).

Definition vmm_map_page (a vaddr paddr flags : Z) (v : vmm) : vmm * Z :=
  if a =? 0 then (v, -1) else
  let vaddr := vmm_page_align_down vaddr in
  let paddr := vmm_page_align_down paddr in
  let '(v, pte) := vmm_walk_page_table a vaddr true v in
  if pte =? 0 then (v, -1) else
  if present (load 8 (v_mem v) pte) then (v, -1) else
  let v := set_vmem v (store 8 (v_mem v) pte (Z.lor (Z.lor paddr flags) PTE_PRESENT)) in
  let v := event (FlushPage vaddr) v in
  (set_vmem v (set_as_total_pages (v_mem v) a (w64 (as_total_pages (v_mem v) a + 1))), 0).

Definition vmm_unmap_page_no_flush (a vaddr : Z) (v : vmm) : vmm * Z :=
  if a =? 0 then (v, -1) else
  let vaddr := vmm_page_align_down vaddr in
  let '(v, pte) := vmm_walk_page_table a vaddr false v in
  if pte =? 0 then (v, -1) else
  if negb (present (load 8 (v_mem v) pte)) then (v, -1) else
  let v := set_vmem v (store 8 (v_mem v) pte 0) in
  (set_vmem v (set_as_total_pages (v_mem v) a (w64 (as_total_pages (v_mem v) a - 1))), 0).

Definition vmm_unmap_page (a vaddr : Z) (v : vmm) : vmm * Z :=
  if a =? 0 then (v, -1) else
  let vaddr := vmm_page_align_down vaddr in
  let '(v, pte) := vmm_walk_page_table a vaddr false v in
  if pte =? 0 then (v, -1) else
  if negb (present (load 8 (v_mem v) pte)) then (v, -1) else
  let v := set_vmem v (store 8 (v_mem v) pte 0) in
  let v := event (FlushPage vaddr) v in
  (set_vmem v (set_as_total_pages (v_mem v) a (w64 (as_total_pages (v_mem v) a - 1))), 0).

(** [for (v = vstart; v < vend; v += PAGE_SIZE) unmap] *)
Fixpoint unmap_loop (fuel : nat) (a va vend : Z) (v : vmm) : option vmm :=
  match fuel with
  | O => None
  | S fuel =>
    if va <? vend then unmap_loop fuel a (w64 (va + PAGE_SIZE)) vend (vmm_unmap_page_no_flush a va v).1
    else Some v
  end.

(** The pages between two aligned addresses, and one more for the exit test. *)
Definition range_fuel (vstart vend : Z) : nat := S (Z.to_nat ((vend - vstart) / PAGE_SIZE)).

Definition vmm_unmap_range (a vaddr size : Z) (v : vmm) : option (vmm * Z) :=
  if (a =? 0) || (size =? 0) then Some (v, -1) else
  let vstart := vmm_page_align_down vaddr in
  let vend := vmm_page_align_up (w64 (vaddr + size)) in
  v ← unmap_loop (range_fuel vstart vend) a vstart vend v;
  Some (event FlushAll v, 0).

(** The mapping loop, which rolls back on the first failure. *)
Fixpoint map_loop (fuel : nat) (a vstart va pa vend flags : Z) (v : vmm) : option (vmm * Z) :=
  match fuel with
  | O => None
  | S fuel =>
    if va <? vend then
      let '(v, r) := vmm_map_page_no_flush a va pa flags v in
      if r =? 0 then map_loop fuel a vstart (w64 (va + PAGE_SIZE)) (w64 (pa + PAGE_SIZE)) vend flags v
      else '(v, _) ← vmm_unmap_range a vstart (w64 (va - vstart)) v; Some (v, -1)
    else Some (event FlushAll v, 0)
  end.

Definition vmm_map_range (a vaddr paddr size flags : Z) (v : vmm) : option (vmm * Z) :=
  if a =? 0 then Some (v, -1) else
  if size =? 0 then Some (v, -1) else
  let vstart := vmm_page_align_down vaddr in
  let vend := vmm_page_align_up (w64 (vaddr + size)) in
  let pstart := vmm_page_align_down paddr in
  map_loop (range_fuel vstart vend) a vstart vstart pstart vend flags v.

(** ** Translation *)

Definition vmm_virt_to_phys (a vaddr : Z) (v : vmm) : Z :=
  if a =? 0 then 0 else
  let '(v, pte) := vmm_walk_page_table a vaddr false v in
  if pte =? 0 then 0 else
  if negb (present (load 8 (v_mem v) pte)) then 0 else
  Z.lor (PTE_ADDR (load 8 (v_mem v) pte)) (PAGE_OFFSET vaddr).

Definition vmm_is_mapped (a vaddr : Z) (v : vmm) : bool := negb (vmm_virt_to_phys a vaddr v =? 0).

(** ** Address spaces *)

(** The memset comes before the NULL test, as in the source. *)
Definition vmm_init (fuel : nat) (v : vmm) : option (vmm * Z) :=
  let '(v, cur) := get_current_pml4 v in
  '(h, kas) ← kmalloc fuel sizeof_addr_space (v_heap v);
  let v := mk_vmm h kas cur (cr3 v) (mmu v) in
  let v := set_vmem v (memset (v_mem v) kas 0 sizeof_addr_space) in
  if kas =? 0 then Some (v, -1) else
  if cur =? 0 then Some (v, -1) else
  Some (set_vmem v (set_as_pml4 (v_mem v) kas cur), 0).

(** [for (i = 256; i < 512; i++) dst->entries[i] = src->entries[i]] *)
Fixpoint copy_entries (n : nat) (i : Z) (m : mem) (dst src : Z) : mem :=
  match n with
  | O => m
  | S n => copy_entries n (i + 1) (store 8 m (entry_addr dst i) (load 8 m (entry_addr src i))) dst src
  end.

Definition vmm_create_address_space (fuel : nat) (v : vmm) : option (vmm * Z) :=
  '(h, a) ← kmalloc fuel sizeof_addr_space (v_heap v);
  let v := set_heap v h in
  if a =? 0 then Some (v, 0) else
  let v := set_vmem v (memset (v_mem v) a 0 sizeof_addr_space) in
  let '(v, pml4) := vmm_alloc_page_table v in
  let v := set_vmem v (set_as_pml4 (v_mem v) a pml4) in
  if pml4 =? 0 then
    '(h, _) ← kfree a (v_heap v);
    Some (set_heap v h, 0)
  else if kernel_as v =? 0 then Some (v, a)
  else
    Some (set_vmem v (copy_entries 256 256 (v_mem v) pml4 (as_pml4 (v_mem v) (kernel_as v))), a).

(** A loop over the entries [i .. i+n) of a table that frees what they point
    to; [table] is the expression that names the table, read at each turn. *)
Fixpoint free_entries (f : Z -> vmm -> option vmm) (n : nat) (i : Z) (table : vmm -> Z) (v : vmm)
    : option vmm :=
  match n with
  | O => Some v
  | S n =>
    let e := load 8 (v_mem v) (entry_addr (table v) i) in
    v ← (if present e then f (PTE_ADDR e) v else Some v);
    free_entries f n (i + 1) table v
  end.

Definition free_pd_table (pd_phys : Z) (v : vmm) : option vmm :=
  let pd := phys_to_virt pd_phys in
  v ← free_entries (fun pt_phys v => vmm_free_page_table (phys_to_virt pt_phys) v) 512 0
         (fun _ => pd) v;
  vmm_free_page_table pd v.

Definition free_pdp_table (pdp_phys : Z) (v : vmm) : option vmm :=
  let pdp := phys_to_virt pdp_phys in
  v ← free_entries free_pd_table 512 0 (fun _ => pdp) v;
  vmm_free_page_table pdp v.

Definition vmm_destroy_address_space (a : Z) (v : vmm) : option vmm :=
  if (a =? 0) || (a =? kernel_as v) then Some v else
  v ← free_entries free_pdp_table 256 0 (fun v => as_pml4 (v_mem v) a) v;
  v ← vmm_free_page_table (as_pml4 (v_mem v) a) v;
  '(h, _) ← kfree a (v_heap v);
  Some (set_heap v h).

Definition vmm_switch_address_space (a : Z) (v : vmm) : vmm :=
  if (a =? 0) || (as_pml4 (v_mem v) a =? 0) then v
  else event (LoadCr3 (virt_to_phys (as_pml4 (v_mem v) a))) v.

Definition get_kernel_as (v : vmm) : Z := kernel_as v.

End Ops.

Arguments vmm : clear implicits.
Arguments mk_vmm {P} _ _ _ _ _.

End Vmm.
