(* ===== verification/VmmProofs.v ===== *)
(** * The virtual memory manager: invariant

    A page-table tree is described by a ghost map [T] from index paths to the
    physical addresses of tables ([] is the PML4, a path of length 3 a page
    table).  The meaning of an address space is the function from virtual page
    numbers to page-table entries ([pte_at]); creating intermediate tables does
    not change it. *)
From S2P Require Import Prelude Memory PageAlloc Slab Pmm Klib KlibSpec Vmm.
Import Slab Pmm Klib Vmm.

(** ** Page-table entries *)

Lemma present_odd e : present e = Z.odd e.
Proof.
  unfold present. change PTE_PRESENT with (2 ^ 1 - 1). rewrite land_pow2_pred by lia.
  change (2 ^ 1) with 2. rewrite Zmod_odd. by destruct (Z.odd e).
Qed.

Lemma present_lor a : present (Z.lor a PTE_PRESENT) = true.
Proof. by rewrite present_odd, <- Z.bit0_odd, Z.lor_spec, orb_true_r. Qed.

Lemma PTE_ADDR_aligned p : 0 <= p < 2 ^ 52 -> p mod 4096 = 0 -> PTE_ADDR p = p.
Proof.
  intros Hp Hm. unfold PTE_ADDR. change 0x000FFFFFFFFFF000 with (Z.shiftl (Z.ones 40) 12).
  assert (0 <= p / 4096 < 2 ^ 40) as Hq.
  { split; [apply Z.div_pos; lia|]. apply Z.div_lt_upper_bound; lia. }
  assert (p = Z.shiftl (p / 4096) 12) as Ep.
  { rewrite Z.shiftl_mul_pow2 by lia. pose proof (Z.div_mod p 4096). lia. }
  rewrite Ep at 1. rewrite <- Z.shiftl_land, Z.land_ones, Z.mod_small by lia. done.
Qed.

Lemma PTE_ADDR_lor a b : PTE_ADDR (Z.lor a b) = Z.lor (PTE_ADDR a) (PTE_ADDR b).
Proof. apply Z.land_lor_distr_l. Qed.

(** The entry of an intermediate table: address and permission bits. *)
Lemma table_pte_addr p :
  0 <= p < 2 ^ 52 -> p mod 4096 = 0 ->
  let pte := Z.lor (Z.lor (Z.lor p PTE_PRESENT) PTE_WRITABLE) PTE_USER in
  PTE_ADDR pte = p /\ present pte = true /\ 0 <= pte < 2 ^ 64.
Proof.
  intros Hp Hm pte. split; [|split].
  - unfold pte. rewrite !PTE_ADDR_lor, PTE_ADDR_aligned by done.
    change (PTE_ADDR PTE_PRESENT) with 0. change (PTE_ADDR PTE_WRITABLE) with 0.
    change (PTE_ADDR PTE_USER) with 0. by rewrite !Z.lor_0_r.
  - unfold pte. rewrite present_odd, <- Z.bit0_odd, !Z.lor_spec.
    change (Z.testbit PTE_PRESENT 0) with true. by rewrite !orb_true_r.
  - assert (0 <= PTE_PRESENT < 2 ^ 64 /\ 0 <= PTE_WRITABLE < 2 ^ 64 /\ 0 <= PTE_USER < 2 ^ 64)
      as (? & ? & ?) by (vm_compute; intuition discriminate).
    apply lor_range; [lia| |done]. apply lor_range; [lia| |done]. apply lor_range; lia.
Qed.

(** ** Virtual page numbers *)

(** The 36-bit number of the page that holds a virtual address. *)
Definition vpn (vaddr : Z) : Z := (vaddr / 4096) mod 2 ^ 36.

Lemma index_div vaddr k : 0 <= k -> Z.land (Z.shiftr vaddr (12 + k)) 0x1FF = (vaddr / 4096 / 2 ^ k) mod 512.
Proof.
  intros Hk. change 0x1FF with (2 ^ 9 - 1). rewrite land_pow2_pred, Z.shiftr_div_pow2 by lia.
  rewrite Z.pow_add_r, Z.div_div by lia. done.
Qed.

Lemma indices_range vaddr : Forall (fun i => 0 <= i < 512) (indices vaddr).
Proof.
  unfold indices, PML4_INDEX, PDP_INDEX, PD_INDEX, PT_INDEX.
  repeat constructor; change 0x1FF with (2 ^ 9 - 1); rewrite land_pow2_pred by lia;
    apply Z.mod_pos_bound; lia.
Qed.

Lemma base512_inj a b c d a' b' c' d' :
  0 <= a < 512 -> 0 <= b < 512 -> 0 <= c < 512 -> 0 <= d < 512 ->
  0 <= a' < 512 -> 0 <= b' < 512 -> 0 <= c' < 512 -> 0 <= d' < 512 ->
  a + 512 * b + 2 ^ 18 * c + 2 ^ 27 * d = a' + 512 * b' + 2 ^ 18 * c' + 2 ^ 27 * d' ->
  a = a' /\ b = b' /\ c = c' /\ d = d'.
Proof. change (2 ^ 18) with 262144. change (2 ^ 27) with 134217728. lia. Qed.

(** The four indices are the base-512 digits of the page number. *)
Lemma indices_vpn va vb : indices va = indices vb <-> vpn va = vpn vb.
Proof.
  unfold indices, PML4_INDEX, PDP_INDEX, PD_INDEX, PT_INDEX, vpn.
  change 39 with (12 + 27). change 30 with (12 + 18). change 21 with (12 + 9).
  change (Z.shiftr va 12) with (Z.shiftr va (12 + 0)). change (Z.shiftr vb 12) with (Z.shiftr vb (12 + 0)).
  rewrite !index_div by lia. set (p := va / 4096). set (q := vb / 4096).
  assert (forall x, x mod 2 ^ 36 = x / 2 ^ 0 mod 512 + 512 * (x / 2 ^ 9 mod 512)
     + 2 ^ 18 * (x / 2 ^ 18 mod 512) + 2 ^ 27 * (x / 2 ^ 27 mod 512)) as Hx.
  { intros x. change (2 ^ 36) with (2 ^ 9 * (2 ^ 9 * (2 ^ 9 * 2 ^ 9))).
    rewrite !Z.rem_mul_r by lia. rewrite !Z.div_div by lia. change (2 ^ 0) with 1. rewrite Z.div_1_r.
    change (2 ^ 9 * 2 ^ 9) with (2 ^ 18). change (2 ^ 9 * 2 ^ 18) with (2 ^ 27).
    change (2 ^ 18 * 2 ^ 9) with (2 ^ 27). change (2 ^ 9) with 512. ring. }
  split.
  - intros [= H1 H2 H3 H4]. rewrite !Hx. congruence.
  - intros E. rewrite !Hx in E.
    destruct (base512_inj (p / 2 ^ 0 mod 512) (p / 2 ^ 9 mod 512) (p / 2 ^ 18 mod 512) (p / 2 ^ 27 mod 512)
      (q / 2 ^ 0 mod 512) (q / 2 ^ 9 mod 512) (q / 2 ^ 18 mod 512) (q / 2 ^ 27 mod 512)) as (-> & -> & -> & ->);
      try done; by apply Z.mod_pos_bound.
Qed.

Lemma align_down_spec a : vmm_page_align_down a = a - a mod 4096.
Proof.
  unfold vmm_page_align_down, PAGE_MASK, PAGE_SIZE.
  change (Z.lnot (4096 - 1)) with (Z.lnot (Z.ones 12)). by rewrite land_lnot_ones.
Qed.

Lemma align_down_div a : vmm_page_align_down a / 4096 = a / 4096.
Proof.
  rewrite align_down_spec. pose proof (Z.div_mod a 4096 ltac:(lia)).
  replace (a - a mod 4096) with (a / 4096 * 4096) by lia. by rewrite Z.div_mul.
Qed.

Lemma vpn_align_down a : vpn (vmm_page_align_down a) = vpn a.
Proof. unfold vpn. by rewrite align_down_div. Qed.

Section Tree.
Context `{Hhdm} `{Linker} {P : Type} `{!PageAllocator P}.

Implicit Types v : vmm P.
Notation tables := (gmap (list Z) Z).

(** The bytes of the tables of a tree. *)
Definition table_bytes (T : tables) (x : Z) : Prop :=
  exists pi t, T !! pi = Some t /\ in_range (t + hhdm_offset) 4096 x.

(** A table page: aligned, in the direct map, not free. *)
Definition table_page (F : Z -> Prop) (t : Z) : Prop :=
  0 <= t /\ t mod 4096 = 0 /\ t + 4096 <= hhdm_phys_limit /\ (forall x, in_range t 4096 x -> ~ F x).

(** What entry [i] of the table at [t] points to. *)
Definition child (m : mem) (t i : Z) : option Z :=
  let e := load 8 m (entry_addr (t + hhdm_offset) i) in if present e then Some (PTE_ADDR e) else None.

Record vm_ok v (F : Z -> Prop) (root : Z) (T : tables) : Prop := {
  vo_inv : pa_inv (v_mem v) (h_pages (v_heap v)) F;
  vo_root : T !! [] = Some root;
  vo_path pi t : T !! pi = Some t -> (length pi <= 3)%nat;
  vo_parent pi i t : T !! (pi ++ [i]) = Some t -> is_Some (T !! pi) /\ 0 <= i < 512;
  vo_child pi t i : T !! pi = Some t -> (length pi < 3)%nat -> 0 <= i < 512 ->
    T !! (pi ++ [i]) = child (v_mem v) t i;
  vo_inj pi pi' t : T !! pi = Some t -> T !! pi' = Some t -> pi = pi';
  vo_page pi t : T !! pi = Some t -> table_page F t;
}.

(** The entry for index [i] of the page table at path [pi]; absent tables map
    nothing. *)
Definition pte_at (m : mem) (T : tables) (pi : list Z) (i : Z) : Z :=
  match T !! pi with Some t => load 8 m (entry_addr (t + hhdm_offset) i) | None => 0 end.

Definition va_pte (m : mem) (T : tables) (vaddr : Z) : Z :=
  pte_at m T [PML4_INDEX vaddr; PDP_INDEX vaddr; PD_INDEX vaddr] (PT_INDEX vaddr).

Lemma table_page_virt F t :
  table_page F t -> phys_to_virt t = t + hhdm_offset /\ 0 <= t < 2 ^ 52.
Proof.
  intros (H0' & _ & Hl & _). pose proof hhdm_phys_bits.
  split; [apply phys_to_virt_in; lia|lia].
Qed.

(** Different tables are different pages. *)
Lemma table_apart F t t' : table_page F t -> table_page F t' -> t <> t' -> t + 4096 <= t' \/ t' + 4096 <= t.
Proof.
  intros (_ & Ht & _) (_ & Ht' & _) Hne.
  pose proof (Z.div_mod t 4096). pose proof (Z.div_mod t' 4096). lia.
Qed.

(** A tree depends on the bytes of its tables. *)
Lemma vm_ok_agree v v' F root T :
  agree (table_bytes T) (v_mem v) (v_mem v') ->
  pa_inv (v_mem v') (h_pages (v_heap v')) F -> vm_ok v F root T -> vm_ok v' F root T.
Proof.
  intros Ha Hpa Hv. split; try apply Hv; [done|].
  intros pi t i Ht Hl Hi. rewrite (vo_child _ _ _ _ Hv pi t i Ht Hl Hi). unfold child.
  rewrite (load_agree 8 (v_mem v) (v_mem v')); [done|].
  eapply agree_sub; [exact Ha|]. intros x Hx. exists pi, t. split; [done|].
  unfold entry_addr, in_range in *. lia.
Qed.

(** ** A new table *)

(** A smaller free set, when nothing outside the old one changed. *)
Lemma vm_ok_shrink v v1 (F F1 : Z -> Prop) root T :
  vm_ok v F root T -> pa_inv (v_mem v1) (h_pages (v_heap v1)) F1 -> (forall x, F1 x -> F x) ->
  agree (fun x => ~ image F x) (v_mem v) (v_mem v1) -> vm_ok v1 F1 root T.
Proof.
  intros Hv Hinv Hsub Hag. split; try apply Hv; [done| |].
  - intros pi t i Ht Hlen Hi. rewrite (vo_child _ _ _ _ Hv pi t i Ht Hlen Hi). unfold child.
    rewrite (load_agree 8 (v_mem v) (v_mem v1)); [done|]. eapply agree_sub; [exact Hag|].
    intros x Hx HF. destruct (vo_page _ _ _ _ Hv pi t Ht) as (_ & _ & _ & Hn).
    apply (Hn (x - hhdm_offset)); [|done]. unfold entry_addr, in_range in *. lia.
  - intros pi t Ht. destruct (vo_page _ _ _ _ Hv pi t Ht) as (? & ? & ? & Hn). split_and!; try done.
    intros x Hx HF. by apply (Hn x), Hsub.
Qed.

(** [vmm_alloc_page_table] returns a zeroed page taken from free memory. *)
Lemma alloc_table_spec v F root T :
  vm_ok v F root T ->
  exists v1 e, vmm_alloc_page_table v = (v1, e) /\ kernel_as v1 = kernel_as v /\
    cr3 v1 = cr3 v /\ mmu v1 = mmu v /\ h_caches (v_heap v1) = h_caches (v_heap v) /\
  ((e = 0 /\ v1 = v) \/
   exists p F1, e = p + hhdm_offset /\ 0 < p /\ vm_ok v1 F1 root T /\ table_page F1 p /\
     (forall x, F1 x -> F x) /\ (forall x, in_range p 4096 x -> F x) /\
     (forall i, 0 <= i < 512 -> load 8 (v_mem v1) (entry_addr (p + hhdm_offset) i) = 0) /\
     (forall q k, pa_block (h_pages (v_heap v1)) q k <-> pa_block (h_pages (v_heap v)) q k) /\
     agree (fun x => ~ image F x) (v_mem v) (v_mem v1)).
Proof.
  intros Hv. unfold vmm_alloc_page_table, pmm_alloc_page.
  destruct (alloc_pages 0 (h_mem (v_heap v)) (h_pages (v_heap v))) as [[m pg] p] eqn:Ea.
  destruct (pa_alloc 0 _ _ F _ _ _ ltac:(lia) (vo_inv _ _ _ _ Hv) Ea)
    as [(-> & -> & ->)|(Hb & HpF & Hinv & Hag & Hpb)].
  { eexists _, 0. split; [done|]. split_and!; try done. left. split; [done|]. by destruct v as [[]]. }
  destruct (pa_block_bounds _ _ _ Hb) as (_ & Hp & Hm & Hl). change (block_bytes 0) with 4096 in *.
  rewrite (proj2 (Z.eqb_neq p 0)) by lia. rewrite phys_to_virt_in by lia.
  set (h := mk_heap m pg _). assert (v_mem (set_heap v h) = m) as -> by done.
  pose proof (memset_outside m (p + hhdm_offset) 0 PAGE_SIZE ltac:(done)) as Hms.
  assert (forall i, 0 <= i < 512 -> load 8 (memset m (p + hhdm_offset) 0 PAGE_SIZE) (entry_addr (p + hhdm_offset) i) = 0)
    as Hzero by (intros i Hi; apply memset0_load; unfold entry_addr, PAGE_SIZE; lia).
  revert Hms Hzero. generalize (memset m (p + hhdm_offset) 0 PAGE_SIZE). intros m1 Hms Hzero.
  eexists _, _. split; [reflexivity|]. split_and!; try done. right.
  assert (agree (fun x => ~ image F x) (v_mem v) m1) as HagF.
  { transitivity m; [eapply agree_sub; [exact Hag|]; intros x Hx [? _]; by apply Hx|].
    eapply agree_sub; [exact Hms|]. intros x Hx Hr. apply Hx, HpF. unfold in_range, PAGE_SIZE in *. lia. }
  exists p, (fminus F (in_range p 4096)). split_and!; try done.
  - eapply vm_ok_shrink; [exact Hv| |by intros x [? _]|exact HagF].
    apply (pa_inv_agree m); [|exact Hinv]. eapply agree_sub; [exact Hms|].
    intros x [_ Hx] Hr. apply Hx. unfold in_range, PAGE_SIZE in *. lia.
  - split_and!; try lia. intros x Hx [_ Hn]. done.
  - by intros x [? _].
Qed.

(** ** Extending a tree *)

(** From [v] to [v'] tables may have been added, but no mapping changed. *)
Record walked v (F : Z -> Prop) (root : Z) (T : tables) v' (F' : Z -> Prop) (T' : tables) : Prop := {
  wk_ok : vm_ok v' F' root T';
  wk_sub : T ⊆ T';
  wk_free x : F' x -> F x;
  wk_tables x : table_bytes T' x -> table_bytes T x \/ image F x;
  wk_pte pi i : length pi = 3%nat -> 0 <= i < 512 -> pte_at (v_mem v') T' pi i = pte_at (v_mem v) T pi i;
  wk_frame : agree (fun x => ~ image F x /\ ~ table_bytes T x) (v_mem v) (v_mem v');
  wk_kernel_as : kernel_as v' = kernel_as v;
  wk_mmu : mmu v' = mmu v;
  wk_cr3 : cr3 v' = cr3 v;
  wk_caches : h_caches (v_heap v') = h_caches (v_heap v);
}.

Lemma walked_refl v F root T : vm_ok v F root T -> walked v F root T v F T.
Proof. intros Hv. split; auto. done. Qed.

Lemma walked_trans v F root T v1 F1 T1 v2 F2 T2 :
  walked v F root T v1 F1 T1 -> walked v1 F1 root T1 v2 F2 T2 -> walked v F root T v2 F2 T2.
Proof.
  intros H1' H2'. split.
  - apply H2'.
  - etransitivity; [apply H1'|apply H2'].
  - intros x Hx. by apply H1', H2'.
  - intros x [Hx|Hx]%(wk_tables _ _ _ _ _ _ _ H2').
    + by apply H1'.
    + right. unfold image in *. by apply H1'.
  - intros pi i Hl Hi. by rewrite (wk_pte _ _ _ _ _ _ _ H2'), (wk_pte _ _ _ _ _ _ _ H1').
  - transitivity (v_mem v1); [apply H1'|].
    eapply agree_sub; [apply H2'|]. intros x [Hx1 Hx2]. split.
    + intros Hx. apply Hx1. unfold image in *. by apply H1'.
    + intros [?|?]%(wk_tables _ _ _ _ _ _ _ H1'); done.
  - rewrite (wk_kernel_as _ _ _ _ _ _ _ H2'). apply H1'.
  - rewrite (wk_mmu _ _ _ _ _ _ _ H2'). apply H1'.
  - rewrite (wk_cr3 _ _ _ _ _ _ _ H2'). apply H1'.
  - rewrite (wk_caches _ _ _ _ _ _ _ H2'). apply H1'.
Qed.

(** Storing to one entry of the table at path [pi]. *)
Lemma entry_store_other F t t' m i j w :
  table_page F t -> table_page F t' -> t <> t' -> 0 <= i < 512 -> 0 <= j < 512 ->
  load 8 (store 8 m (entry_addr (t + hhdm_offset) i) w) (entry_addr (t' + hhdm_offset) j) =
  load 8 m (entry_addr (t' + hhdm_offset) j).
Proof.
  intros Ht Ht' Hne Hi Hj. apply load_store_ne.
  destruct (table_apart F t t' Ht Ht' Hne); unfold entry_addr; lia.
Qed.

Lemma entry_store_index t m i j w :
  i <> j ->
  load 8 (store 8 m (entry_addr (t + hhdm_offset) i) w) (entry_addr (t + hhdm_offset) j) =
  load 8 m (entry_addr (t + hhdm_offset) j).
Proof. intros Hne. apply load_store_ne. unfold entry_addr. lia. Qed.

Lemma link_table v F root T pi t i p :
  vm_ok v F root T -> T !! pi = Some t -> (length pi < 3)%nat -> 0 <= i < 512 ->
  T !! (pi ++ [i]) = None -> table_page F p -> (forall pi' t', T !! pi' = Some t' -> t' <> p) ->
  (forall j, 0 <= j < 512 -> load 8 (v_mem v) (entry_addr (p + hhdm_offset) j) = 0) ->
  let pte := Z.lor (Z.lor (Z.lor p PTE_PRESENT) PTE_WRITABLE) PTE_USER in
  let v' := set_vmem v (store 8 (v_mem v) (entry_addr (t + hhdm_offset) i) pte) in
  vm_ok v' F root (<[pi ++ [i] := p]> T) /\
  (forall pi' j, length pi' = 3%nat -> 0 <= j < 512 ->
     pte_at (v_mem v') (<[pi ++ [i] := p]> T) pi' j = pte_at (v_mem v) T pi' j) /\
  PTE_ADDR (load 8 (v_mem v') (entry_addr (t + hhdm_offset) i)) = p.
Proof.
  intros Hv Ht Hlen Hi Hnone Hp Hnew Hzero pte v'.
  pose proof (vo_page _ _ _ _ Hv pi t Ht) as Htp.
  destruct (table_page_virt F p Hp) as [_ Hp52].
  destruct (table_pte_addr p Hp52 ltac:(apply Hp)) as (Eaddr & Epres & Erange). fold pte in Eaddr, Epres, Erange.
  assert (forall pi', T !! (pi ++ [i] ++ pi') = None) as Hbelow.
  { intros pi'. induction pi' as [|j pi' IH] using rev_ind; [done|].
    destruct (T !! (pi ++ [i] ++ pi' ++ [j])) as [t'|] eqn:E; [|done].
    rewrite !app_assoc in E. apply (vo_parent _ _ _ _ Hv) in E as [[? E] _].
    rewrite <- app_assoc in E. by rewrite IH in E. }
  assert (v_mem v' = store 8 (v_mem v) (entry_addr (t + hhdm_offset) i) pte) as Em by done.
  assert (forall pi' t' j, T !! pi' = Some t' -> pi' <> pi \/ j <> i -> 0 <= j < 512 ->
    load 8 (v_mem v') (entry_addr (t' + hhdm_offset) j) = load 8 (v_mem v) (entry_addr (t' + hhdm_offset) j)) as Hkeep.
  { intros pi' t' j Ht' Hne Hj. rewrite Em. destruct (decide (t' = t)) as [->|Htt].
    - assert (pi' = pi) as -> by (by eapply vo_inj). apply entry_store_index. destruct Hne; congruence.
    - apply (entry_store_other F); try done. by eapply vo_page. }
  assert (forall j, 0 <= j < 512 -> load 8 (v_mem v') (entry_addr (p + hhdm_offset) j) = 0) as Hzero'.
  { intros j Hj. rewrite Em, (entry_store_other F); try done; [by apply Hzero|]. by eapply Hnew. }
  split; [|split].
  - split.
    + simpl. eapply pa_inv_agree; [|apply Hv]. apply agree_store. intros x Hx Hr.
      destruct Htp as (_ & _ & _ & Hn). apply (Hn (x - hhdm_offset)); [|done].
      unfold entry_addr, in_range in *. lia.
    + rewrite lookup_insert_ne; [apply Hv|]. by destruct pi.
    + intros pi' t'. rewrite lookup_insert_Some. intros [[<- _]|[_ Ht']]; [|by eapply vo_path].
      rewrite length_app. simpl. lia.
    + intros pi' j t'. rewrite lookup_insert_Some. intros [[E _]|[_ Ht']].
      * apply app_inj_tail in E as [-> ->]. rewrite lookup_insert_ne; [by rewrite Ht|].
        intros E. apply (f_equal length) in E. rewrite length_app in E. simpl in E. lia.
      * apply (vo_parent _ _ _ _ Hv) in Ht' as [[? Ht'] ?]. split; [|done].
        rewrite lookup_insert_ne; [by rewrite Ht'|]. intros <-. by rewrite Hnone in Ht'.
    + intros pi' t' j. rewrite lookup_insert_Some. intros [[<- <-]|[Hne Ht']] Hl Hj.
      * rewrite lookup_insert_ne.
        -- rewrite <- app_assoc, (Hbelow [j]). unfold child. rewrite Hzero' by done. done.
        -- intros E. apply (f_equal length) in E. rewrite !length_app in E. simpl in E. lia.
      * destruct (decide (pi' = pi /\ j = i)) as [[-> ->]|Hij].
        -- rewrite lookup_insert_eq. assert (t' = t) as -> by congruence. unfold child.
           rewrite Em, load8_store8 by done. by rewrite Epres, Eaddr.
        -- rewrite lookup_insert_ne.
           ++ rewrite (vo_child _ _ _ _ Hv pi' t' j Ht' Hl Hj). unfold child.
              rewrite (Hkeep pi' t' j Ht'); [done| |done]. destruct (decide (pi' = pi)); [right|left]; naive_solver.
           ++ intros E. apply app_inj_tail in E as [-> ->]. naive_solver.
    + intros pi1 pi2 t'. rewrite !lookup_insert_Some.
      intros [[<- <-]|[? H1']] [[<- E]|[? H2']]; [done|by destruct (Hnew _ _ H2')| |by eapply vo_inj].
      by destruct (Hnew _ _ H1' (eq_sym E)).
    + intros pi' t'. rewrite lookup_insert_Some. intros [[_ <-]|[_ Ht']]; [done|by eapply vo_page].
  - intros pi' j Hl Hj. unfold pte_at. destruct (decide (pi ++ [i] = pi')) as [<-|Hne].
    + rewrite lookup_insert_eq, Hnone. by apply Hzero'.
    + rewrite lookup_insert_ne by done. destruct (T !! pi') as [t'|] eqn:Ht'; [|done].
      apply (Hkeep pi'); [done| |done]. left. intros ->. lia.
  - rewrite Em, load8_store8; done.
Qed.

(** ** The walk *)

Lemma walk_cons idx rest i current create v :
  walk (idx :: rest ++ [i]) current create v =
  (let entry := entry_addr current idx in
   if present (load 8 (v_mem v) entry) then
     walk (rest ++ [i]) (phys_to_virt (PTE_ADDR (load 8 (v_mem v) entry))) create v
   else if negb create then (v, 0)
   else
     let '(v, new_pt) := vmm_alloc_page_table v in
     if new_pt =? 0 then (v, 0) else
     let phys := virt_to_phys new_pt in
     let pte := Z.lor (Z.lor (Z.lor phys PTE_PRESENT) PTE_WRITABLE) PTE_USER in
     let v := set_vmem v (store 8 (v_mem v) entry pte) in
     walk (rest ++ [i]) (phys_to_virt (PTE_ADDR (load 8 (v_mem v) entry))) create v).
Proof. by destruct rest. Qed.

(** Without [create] the walk changes nothing and finds the entry if the page
    table exists. *)
Lemma walk_lookup rest i pi t v F root T :
  vm_ok v F root T -> T !! pi = Some t -> (length pi + length rest = 3)%nat ->
  Forall (fun i => 0 <= i < 512) rest ->
  walk (rest ++ [i]) (t + hhdm_offset) false v =
  (v, match T !! (pi ++ rest) with Some t' => entry_addr (t' + hhdm_offset) i | None => 0 end).
Proof.
  intros Hv. revert pi t. induction rest as [|a rest IH]; intros pi t Ht Hlen Hidx.
  - simpl. by rewrite app_nil_r, Ht.
  - apply Forall_cons in Hidx as [Ha Hidx]. simpl in Hlen.
    change ((a :: rest) ++ [i]) with (a :: rest ++ [i]). rewrite walk_cons. cbv zeta.
    pose proof (vo_child _ _ _ _ Hv pi t a Ht ltac:(lia) Ha) as Hc. unfold child in Hc.
    destruct (present _).
    + destruct (table_page_virt F _ (vo_page _ _ _ _ Hv _ _ Hc)) as [-> _].
      rewrite (IH (pi ++ [a])); [by rewrite <- app_assoc|done|rewrite length_app; simpl; lia|done].
    + cbn [negb]. destruct (T !! (pi ++ a :: rest)) as [t'|] eqn:E; [|done]. exfalso.
      clear IH Hlen Hidx. revert t' E. induction rest as [|b rest IH] using rev_ind; intros t' E.
      * by rewrite Hc in E.
      * change (a :: rest ++ [b]) with ((a :: rest) ++ [b]) in E. rewrite app_assoc in E.
        apply (vo_parent _ _ _ _ Hv) in E as [[? E] _]. by eapply IH.
Qed.

(** One missing table is created and linked. *)
Lemma grow_table v F root T pi t a :
  vm_ok v F root T -> T !! pi = Some t -> (length pi < 3)%nat -> 0 <= a < 512 ->
  T !! (pi ++ [a]) = None ->
  exists v1 e, vmm_alloc_page_table v = (v1, e) /\
  ((e = 0 /\ v1 = v) \/
   (e <> 0 /\ exists p F1, e = p + hhdm_offset /\ virt_to_phys e = p /\
    let pte := Z.lor (Z.lor (Z.lor p PTE_PRESENT) PTE_WRITABLE) PTE_USER in
    let v2 := set_vmem v1 (store 8 (v_mem v1) (entry_addr (t + hhdm_offset) a) pte) in
    walked v F root T v2 F1 (<[pi ++ [a] := p]> T) /\
    phys_to_virt (PTE_ADDR (load 8 (v_mem v2) (entry_addr (t + hhdm_offset) a))) = p + hhdm_offset)).
Proof.
  intros Hv Ht Hlen Ha Hnone.
  destruct (alloc_table_spec v F root T Hv)
    as (v1 & e & E & Ek & Ec & Em & Eh & [[-> ->]|(p & F1 & -> & Hp & Hv1 & Htp & HF & HpF & Hz & Hpb & Hag)]).
  { exists v, 0. split; [done|]. by left. }
  exists v1, (p + hhdm_offset). split; [done|]. right. pose proof hhdm_positive. split; [lia|].
  pose proof Htp as (_ & _ & Hpl & _). pose proof hhdm_no_wrap.
  exists p, F1. split; [done|]. split.
  { unfold virt_to_phys. rewrite Z.add_simpl_r. apply wrap_small. lia. }
  cbv zeta.
  assert (forall pi' t', T !! pi' = Some t' -> t' <> p) as Hnew.
  { intros pi' t' Ht' ->. destruct (vo_page _ _ _ _ Hv pi' p Ht') as (_ & _ & _ & Hn).
    apply (Hn p); [|apply HpF]; unfold in_range; lia. }
  destruct (link_table v1 F1 root T pi t a p Hv1 Ht Hlen Ha Hnone Htp Hnew Hz) as (Hv2 & Hpte & Eaddr).
  cbv zeta in Hv2, Hpte, Eaddr. split.
  2:{ rewrite Eaddr. by destruct (table_page_virt F1 p Htp). }
  assert (forall x pi' t', T !! pi' = Some t' -> in_range (t' + hhdm_offset) 4096 x -> ~ image F x) as Hnf.
  { intros x pi' t' Ht' Hx HF'. destruct (vo_page _ _ _ _ Hv pi' t' Ht') as (_ & _ & _ & Hn).
    apply (Hn (x - hhdm_offset)); [|done]. unfold in_range in *. lia. }
  split; try done.
  - by apply insert_subseteq.
  - intros x (pi' & t' & Ht' & Hx). apply lookup_insert_Some in Ht' as [[_ <-]|[_ Ht']].
    + right. apply HpF. unfold in_range in *. lia.
    + left. by exists pi', t'.
  - intros pi' i Hl Hi. rewrite Hpte by done. unfold pte_at. destruct (T !! pi') as [t'|] eqn:Ht'; [|done].
    symmetry. apply load_agree. eapply agree_sub; [exact Hag|]. intros x Hx.
    apply (Hnf x pi' t' Ht'). unfold entry_addr, in_range in *. lia.
  - transitivity (v_mem v1); [eapply agree_sub; [exact Hag|tauto]|]. apply agree_store.
    intros x [_ Hx] Hr. apply Hx. exists pi, t. split; [done|]. unfold entry_addr, in_range in *. lia.
Qed.

Lemma walk_create rest i pi t v F root T :
  vm_ok v F root T -> T !! pi = Some t -> (length pi + length rest = 3)%nat ->
  Forall (fun i => 0 <= i < 512) rest ->
  exists v' e F' T', walk (rest ++ [i]) (t + hhdm_offset) true v = (v', e) /\
    walked v F root T v' F' T' /\
    (e = 0 \/ exists t', T' !! (pi ++ rest) = Some t' /\ e = entry_addr (t' + hhdm_offset) i).
Proof.
  revert pi t v F T. induction rest as [|a rest IH]; intros pi t v F T Hv Ht Hlen Hidx.
  - simpl. eexists _, _, F, T. split; [done|]. split; [by apply walked_refl|]. right. exists t.
    by rewrite app_nil_r.
  - apply Forall_cons in Hidx as [Ha Hidx]. simpl in Hlen.
    change ((a :: rest) ++ [i]) with (a :: rest ++ [i]). rewrite walk_cons. cbv zeta.
    pose proof (vo_child _ _ _ _ Hv pi t a Ht ltac:(lia) Ha) as Hc. unfold child in Hc.
    replace (pi ++ a :: rest) with ((pi ++ [a]) ++ rest) by (by rewrite <- app_assoc).
    assert (length (pi ++ [a]) + length rest = 3)%nat as Hlen' by (rewrite length_app; simpl; lia).
    destruct (present _).
    + destruct (table_page_virt F _ (vo_page _ _ _ _ Hv _ _ Hc)) as [-> _]. by apply IH.
    + cbn [negb].
      destruct (grow_table v F root T pi t a Hv Ht ltac:(lia) Ha Hc)
        as (v1 & e & -> & [[-> ->]|(He & p & F1 & -> & -> & Hw & Ep)]).
      { simpl. exists v, 0, F, T. split; [done|]. split; [by apply walked_refl|]. by left. }
      rewrite (proj2 (Z.eqb_neq _ _)) by done. rewrite Ep.
      match type of Hw with walked _ _ _ _ ?x _ _ => set (v2 := x) in * end.
      destruct (IH (pi ++ [a]) p v2 F1 (<[pi ++ [a] := p]> T))
        as (v' & e & F' & T' & Ew & Hw' & He'); [apply Hw|by rewrite lookup_insert_eq|done|done|].
      exists v', e, F', T'. split; [done|]. split; [by eapply walked_trans|done].
Qed.

End Tree.
