(* ===== verification/VmmDestroy.v ===== *)
(** * The virtual memory manager: destroying an address space

    [tree_pages k m t]: the tables below the table [t] of level [k] and [t]
    itself, in the order in which the code frees them.  Destroying an address
    space gives back exactly the tables of its lower half, its first table and
    its descriptor, whatever the upper half shares with the kernel. *)
From S2P Require Import Prelude Memory PageAlloc Slab SlabProofs SlabHeap SlabSpec.
From S2P Require Import Pmm KmallocSpec HeapClaims HeapPages Klib KlibSpec Vmm VmmProofs.
Import Slab Pmm Klib Vmm.

Section Destroy.
Context `{Hhdm} `{Linker} {P : Type} `{!PageAllocator P}.

Implicit Types (h : heap P) (v : vmm P).

(** ** The tables of a tree *)

(** What entry [i] of the table at [t] leads to, [g] for each child. *)
Definition child_tree (g : Z -> list Z) (m : mem) (t i : Z) : list Z :=
  let e := load 8 m (entry_addr (t + hhdm_offset) i) in if present e then g (PTE_ADDR e) else [].

Fixpoint trees (g : Z -> list Z) (m : mem) (t : Z) (n : nat) (i : Z) : list Z :=
  match n with
  | O => []
  | S n => child_tree g m t i ++ trees g m t n (i + 1)
  end.

Lemma trees_step g m t n i : trees g m t (S n) i = child_tree g m t i ++ trees g m t n (i + 1).
Proof. reflexivity. Qed.

(** Level 0 is a page table, 1 a page directory, 2 a page directory pointer
    table. *)
Fixpoint tree_pages (k : nat) (m : mem) (t : Z) : list Z :=
  match k with
  | O => [t]
  | S k => trees (tree_pages k m) m t 512 0 ++ [t]
  end.

(** The lower half of the address space with the first table [root]. *)
Definition space_pages (m : mem) (root : Z) : list Z := trees (tree_pages 2 m) m root 256 0.

(** They depend on the bytes of the tables. *)
Lemma trees_agree (g g' : Z -> list Z) m m' t n : forall i,
  agree (image (in_range t 4096)) m m' -> 0 <= i -> i + Z.of_nat n <= 512 ->
  (forall c, (forall p, p ∈ g c -> p ∈ trees g m t n i) -> g' c = g c) -> trees g' m' t n i = trees g m t n i.
Proof.
  induction n as [|n IH]; intros i Ha Hi Hn Hg; [done|]. cbn [trees] in *.
  assert (child_tree g' m' t i = child_tree g m t i) as ->.
  { unfold child_tree in *. rewrite <- (load_agree 8 m m').
    - destruct (present _); [|done]. apply Hg. intros p Hp. apply elem_of_app. by left.
    - eapply agree_sub; [exact Ha|]. unfold image, in_range, entry_addr. intros; lia. }
  f_equal. apply IH; [done|lia|lia|]. intros c Hc. apply Hg. intros p Hp. apply elem_of_app. right. by apply Hc.
Qed.

Lemma tree_pages_agree k : forall m m' t,
  agree (image (pages (tree_pages k m t))) m m' -> tree_pages k m' t = tree_pages k m t.
Proof.
  induction k as [|k IH]; intros m m' t Ha; [done|]. cbn [tree_pages] in *. f_equal.
  apply trees_agree; [|lia|lia|].
  - eapply agree_sub; [exact Ha|]. intros x Hx. exists t. split; [|done]. apply elem_of_app. right. by left.
  - intros c Hc. apply IH. eapply agree_sub; [exact Ha|]. intros x (p & Hp & Hx). exists p. split; [|done].
    apply elem_of_app. left. by apply Hc.
Qed.

Lemma space_pages_agree m m' root :
  agree (image (pages (space_pages m root ++ [root]))) m m' -> space_pages m' root = space_pages m root.
Proof.
  intros Ha. apply trees_agree; [|lia|lia|].
  - eapply agree_sub; [exact Ha|]. intros x Hx. exists root. split; [|done]. apply elem_of_app. right. by left.
  - intros c Hc. apply tree_pages_agree. eapply agree_sub; [exact Ha|]. intros x (p & Hp & Hx). exists p. split; [|done].
    apply elem_of_app. left. by apply Hc.
Qed.

(** ** Freeing tables *)

Fixpoint free_table (k : nat) (t : Z) v : option (vmm P) :=
  match k with
  | O => vmm_free_page_table (phys_to_virt t) v
  | S k => v ← free_entries (free_table k) 512 0 (fun _ => phys_to_virt t) v; vmm_free_page_table (phys_to_virt t) v
  end.

Lemma free_pdp_level t v : free_pdp_table t v = free_table 2 t v.
Proof. reflexivity. Qed.

Lemma page_out_virt h G p : page_out h G p -> phys_to_virt p = p + hhdm_offset /\ p + hhdm_offset <> 0 /\
  virt_to_phys (p + hhdm_offset) = p.
Proof.
  intros [Hb _]. destruct (pa_block_bounds _ _ _ Hb) as (_ & Hp & _ & Hl). change (block_bytes 0) with 4096 in *.
  pose proof hhdm_positive. pose proof hhdm_no_wrap.
  assert (phys_to_virt p = p + hhdm_offset) as E by (by apply phys_to_virt_in; lia).
  split; [done|]. split; [lia|]. rewrite <- E. apply virt_to_phys_to_virt; lia.
Qed.

Lemma free_page_table h G v p :
  page_out h G p -> vmm_free_page_table (p + hhdm_offset) v = set_heap v <$> pmm_free_page p (v_heap v).
Proof.
  intros Hp. destruct (page_out_virt h G p Hp) as (_ & Hne & E). unfold vmm_free_page_table.
  rewrite (proj2 (Z.eqb_neq _ 0)), E by done. by destruct (pmm_free_page p (v_heap v)).
Qed.

(** A page that is not among the pages [L] that were freed. *)
Lemma page_out_after h h' G L p :
  page_out h G p -> p ∉ L -> Forall (page_out h G) L -> (forall q k, pa_block (h_pages h') q k <-> pa_block (h_pages h) q k) ->
  page_out h' (fminus G (pages L)) p.
Proof.
  intros Hp Hn HL Hb. split; [by apply Hb, Hp|]. intros x Hx. split; [by apply Hp|]. intros (q & Hq & Hxq).
  rewrite Forall_forall in HL. assert (p <> q) as Hne by (by intros ->).
  destruct (page_out_apart h G p q Hp (proj1 (HL q Hq)) Hne); unfold in_range in *; lia.
Qed.

(** Freeing [L] does not change a page that stays out. *)
Lemma free_keeps h h' F A G L p :
  heap_world h F A G -> page_out h' (fminus G (pages L)) p ->
  agree (fun x => ~ image (fplus F (pages L)) x) (h_mem h) (h_mem h') -> agree (image (in_range p 4096)) (h_mem h) (h_mem h').
Proof.
  intros Hw [_ Hin] Ha. eapply agree_sub; [exact Ha|]. intros x Hx. destruct (Hin _ Hx) as [HG Hn].
  intros [HF|Hp]; [by apply (world_page_free h F A G _ Hw HG)|done].
Qed.

(** [free_table] frees the tables of the tree in order. *)
Definition frees_tree (k : nat) : Prop := forall t v F A G,
  let L := tree_pages k (v_mem v) t in
  heap_world (v_heap v) F A G -> NoDup L -> Forall (page_out (v_heap v) G) L ->
  free_table k t v = set_heap v <$> free_list L (v_heap v).

Lemma free_entries_list k n : frees_tree k -> forall i t table v F A G,
  let L := trees (tree_pages k (v_mem v)) (v_mem v) t n i in
  heap_world (v_heap v) F A G -> NoDup L -> Forall (page_out (v_heap v) G) L ->
  page_out (v_heap v) G t -> t ∉ L -> 0 <= i -> i + Z.of_nat n <= 512 ->
  (forall h', agree (fun x => ~ image (fplus F (pages L)) x) (v_mem v) (h_mem h') -> table (set_heap v h') = t + hhdm_offset) ->
  free_entries (free_table k) n i table v = set_heap v <$> free_list L (v_heap v).
Proof.
  intros Hk. induction n as [|n IH]; intros i t table v F A G L Hw Hnd Hout Ht Hn Hi Hin Htab; [by destruct v|].
  assert (table v = t + hhdm_offset) as Et.
  { assert (set_heap v (v_heap v) = v) as Ev by (by destruct v). rewrite <- Ev. by apply Htab. }
  cbn [free_entries]. rewrite Et. unfold L in *. cbn [trees] in *. unfold child_tree in *. cbv zeta.
  set (e := load 8 (v_mem v) _) in *. set (L' := trees _ _ _ n (i + 1)) in *.
  destruct (present e); [|cbn [mbind option_bind]; by apply (IH (i + 1) t table v F A G); try lia].
  set (L1 := tree_pages k (v_mem v) (PTE_ADDR e)) in *.
  apply NoDup_app in Hnd as (Hnd1 & Hdis & Hnd2). apply Forall_app in Hout as [Hout1 Hout2].
  rewrite (Hk (PTE_ADDR e) v F A G Hw Hnd1 Hout1). fold L1.
  destruct (free_list_spec L1 (v_heap v) F A G Hw Hnd1 Hout1) as (h1 & E1 & Hw1 & Hb1 & Ha1).
  rewrite free_list_app, E1. cbn [fmap option_fmap option_map mbind option_bind].
  assert (forall p, page_out (v_heap v) G p -> p ∉ L1 -> page_out h1 (fminus G (pages L1)) p) as Hafter.
  { intros p Hp Hpn. by eapply page_out_after. }
  assert (page_out h1 (fminus G (pages L1)) t) as Ht1 by (apply Hafter; [done|set_solver]).
  assert (forall p, p ∈ L' -> page_out h1 (fminus G (pages L1)) p) as HL1.
  { intros p Hp. apply Hafter; [rewrite Forall_forall in Hout2; by apply Hout2|]. intros Hp1. by apply (Hdis p). }
  assert (trees (tree_pages k (h_mem h1)) (h_mem h1) t n (i + 1) = L') as EL.
  { apply trees_agree; [|lia|lia|].
    - by apply (free_keeps (v_heap v) h1 F A G L1).
    - intros c Hc. apply tree_pages_agree. intros x (p & Hp & Hx).
      apply (free_keeps (v_heap v) h1 F A G L1 p Hw (HL1 p (Hc p Hp)) Ha1). exact Hx. }
  rewrite (IH (i + 1) t table (set_heap v h1) (fplus F (pages L1)) A (fminus G (pages L1))).
  all: change (v_heap (set_heap v h1)) with h1; change (v_mem (set_heap v h1)) with (h_mem h1); rewrite ?EL; try done; try lia.
  - by apply Forall_forall.
  - set_solver.
  - intros h' Ha'. change (set_heap (set_heap v h1) h') with (set_heap v h'). apply Htab.
    assert (forall x, pages (L1 ++ L') x <-> pages L1 x \/ pages L' x) as Hp by (apply pages_app).
    transitivity (h_mem h1); [eapply agree_sub; [exact Ha1|]|eapply agree_sub; [exact Ha'|]];
      intros x Hx Hr; apply Hx; unfold image, fplus in *; rewrite Hp; tauto.
Qed.

Lemma frees_all k : frees_tree k.
Proof.
  induction k as [|k IH]; intros t v F A G L Hw Hnd Hout.
  - cbn [free_table]. unfold L in *. cbn [tree_pages] in *. apply Forall_cons in Hout as [Ht _].
    rewrite (proj1 (page_out_virt _ _ _ Ht)), (free_page_table _ _ v t Ht). cbn [free_list]. by destruct (pmm_free_page t (v_heap v)).
  - cbn [free_table]. unfold L in *. cbn [tree_pages] in *. set (L1 := trees _ _ _ 512 0) in *.
    apply NoDup_app in Hnd as (Hnd1 & Hdis & _). apply Forall_app in Hout as [Hout1 Ht]. apply Forall_cons in Ht as [Ht _].
    rewrite (proj1 (page_out_virt _ _ _ Ht)).
    rewrite (free_entries_list k 512 IH 0 t _ v F A G Hw Hnd1 Hout1 Ht); [|intros Hin; by apply (Hdis t Hin), list_elem_of_singleton|lia|lia|done].
    fold L1. rewrite free_list_app. destruct (free_list L1 (v_heap v)) as [h1|]; [|done]. cbn [fmap option_fmap option_map mbind option_bind].
    rewrite (free_page_table _ _ (set_heap v h1) t Ht). cbn [free_list].
    change (v_heap (set_heap v h1)) with h1. by destruct (pmm_free_page t h1).
Qed.

(** ** The address space *)

(** The address space at [a], an object of class [i]: its first table and the
    tables of its lower half are pages of the client, no page twice. *)
Record space_out v (G : Z -> Prop) (A : nat -> Z -> Prop) (i : nat) (a root : Z) : Prop := {
  sp_object : A i a /\ sizeof_addr_space <= nth i slab_sizes 0;
  sp_pml4 : as_pml4 (v_mem v) a = root + hhdm_offset;
  sp_nodup : NoDup (space_pages (v_mem v) root ++ [root]);
  sp_out : Forall (page_out (v_heap v) G) (space_pages (v_mem v) root ++ [root]);
}.

Lemma aligned_not_pattern h G p : page_out h G p -> p + hhdm_offset <> FREED_PATTERN.
Proof.
  intros [Hb _] E. destruct (pa_block_bounds _ _ _ Hb) as (_ & _ & Hp & _). change (block_bytes 0) with 4096 in Hp.
  pose proof hhdm_aligned as Ha. assert (FREED_PATTERN mod 4096 = 0) as Hm; [|by vm_compute in Hm].
  rewrite <- E, Z.add_mod, Hp by done. change (2 ^ 21) with (4096 * 512) in Ha. rewrite Z.rem_mul_r in Ha by done.
  pose proof (Z.mod_pos_bound hhdm_offset 4096). pose proof (Z.mod_pos_bound (hhdm_offset / 4096) 512).
  assert (hhdm_offset mod 4096 = 0) as -> by lia. done.
Qed.

(** The heap may change around an address space. *)
Lemma space_out_kept v h G A A' i a root :
  space_out v G A i a root -> A' i a -> kept i a (v_mem v) (h_mem h) -> agree (image G) (v_mem v) (h_mem h) ->
  (forall q k, pa_block (h_pages h) q k <-> pa_block (h_pages (v_heap v)) q k) -> space_out (set_heap v h) G A' i a root.
Proof.
  intros [[_ Hsz] Ep Hnd Hout] Ha Hk Hg Hb. change (v_heap (set_heap v h)) with h. unfold sizeof_addr_space in *.
  assert (Forall (page_out h G) (space_pages (v_mem v) root ++ [root])) as Hout'.
  { eapply Forall_impl; [exact Hout|]. intros p [Hp Hx]. split; [by apply Hb|done]. }
  assert (space_pages (h_mem h) root = space_pages (v_mem v) root) as Es.
  { apply space_pages_agree. eapply agree_sub; [exact Hg|]. intros x (p & Hp & Hx). rewrite Forall_forall in Hout. by apply (Hout p Hp). }
  split; change (v_mem (set_heap v h)) with (h_mem h); rewrite ?Es; try done.
  unfold as_pml4 in *. by rewrite <- Ep, <- (Z.add_0_r a), (kept_load i a (v_mem v) (h_mem h) 8 0) by (done || lia).
Qed.

(** An object is never written by giving pages back. *)
Lemma object_kept h h' F A G L i o :
  heap_world h F A G -> A i o -> Forall (page_out h G) L ->
  agree (fun x => ~ image (fplus F (pages L)) x) (h_mem h) (h_mem h') -> kept i o (h_mem h) (h_mem h').
Proof.
  intros Hw Ho HL Ha. eapply agree_sub; [exact Ha|]. intros x Hx.
  destruct (world_object_free h F A G i o x Hw Ho Hx) as [HF HG]. intros [Hr|(p & Hp & Hr)]; [done|].
  apply HG. rewrite Forall_forall in HL. by apply (HL p Hp).
Qed.

Lemma destroy_spec i a root v F A G :
  heap_world (v_heap v) F A G -> space_out v G A i a root -> a <> 0 -> a <> kernel_as v ->
  let L := space_pages (v_mem v) root ++ [root] in
  exists h', vmm_destroy_address_space a v = Some (set_heap v h') /\
    heap_world h' (fplus F (pages L)) (fun j y => A j y /\ y <> a) (fminus G (pages L)) /\
    (forall q k, pa_block (h_pages h') q k <-> pa_block (h_pages (v_heap v)) q k) /\
    (forall j y, A j y -> y <> a -> kept j y (v_mem v) (h_mem h')) /\
    agree (image (fminus G (pages L))) (v_mem v) (h_mem h').
Proof.
  intros Hw [[Ho Hsz] Epml Hnd Hout] Ha Hak L. fold L in Hnd, Hout.
  destruct (free_list_spec L (v_heap v) F A G Hw Hnd Hout) as (h1 & E1 & Hw1 & Hb1 & Ha1).
  set (L1 := space_pages (v_mem v) root) in *. pose proof Hnd as (Hnd1 & Hdis & _)%NoDup_app.
  pose proof Hout as [Hout1 Hr]%Forall_app. apply Forall_cons in Hr as [Hr _].
  assert (forall h', agree (fun x => ~ image (fplus F (pages L1)) x) (v_mem v) (h_mem h') ->
    as_pml4 (h_mem h') a = root + hhdm_offset) as Htab.
  { intros h' Ha'. rewrite <- Epml. unfold as_pml4. symmetry. apply load_agree.
    eapply agree_sub; [exact (object_kept _ h' F A G L1 i a Hw Ho Hout1 Ha')|].
    unfold in_range, sizeof_addr_space in *. intros; lia. }
  unfold vmm_destroy_address_space. rewrite !(proj2 (Z.eqb_neq _ _)) by done. cbn [orb].
  change free_pdp_table with (free_table 2).
  rewrite (free_entries_list 2 256 (frees_all 2) 0 root _ v F A G Hw Hnd1 Hout1 Hr); [|intros Hin; by apply (Hdis root Hin), list_elem_of_singleton|lia|lia|exact Htab].
  fold (space_pages (v_mem v) root). fold L1. unfold L in E1. rewrite free_list_app in E1.
  destruct (free_list_spec L1 (v_heap v) F A G Hw Hnd1 Hout1) as (h0 & E0 & _ & _ & Ha0).
  rewrite E0 in E1 |- *. cbn [fmap option_fmap option_map mbind option_bind] in *.
  change (v_mem (set_heap v h0)) with (h_mem h0). rewrite (Htab h0 Ha0), (free_page_table _ _ (set_heap v h0) root Hr).
  cbn [free_list] in E1. change (v_heap (set_heap v h0)) with h0.
  destruct (pmm_free_page root h0) as [h1'|]; [|done]. cbn [mbind option_bind fmap option_fmap option_map] in *.
  injection E1 as ->. assert (kept i a (v_mem v) (h_mem h1)) as Hka by (by apply (object_kept _ h1 F A G L)).
  destruct (world_kfree i a h1 _ A _ Hw1 Ho) as (h2 & E2 & Hw2 & Ep2 & Hk2 & Ha2).
  { unfold obj_magic. rewrite <- (load_agree 8 (v_mem v)).
    - change (load 8 (v_mem v) a) with (as_pml4 (v_mem v) a). rewrite Epml. by eapply aligned_not_pattern.
    - eapply agree_sub; [exact Hka|]. unfold in_range, sizeof_addr_space in *. intros; lia. }
  change (v_heap (set_heap (set_heap v h0) h1)) with h1. rewrite E2. cbn [mbind option_bind].
  exists h2. split; [done|]. split; [exact Hw2|]. split; [by rewrite Ep2|]. split.
  - intros j y Hy Hne. transitivity (h_mem h1); [by apply (object_kept _ h1 F A G L)|by apply Hk2].
  - transitivity (h_mem h1); [|exact Ha2]. eapply agree_sub; [exact Ha1|]. intros x [HG Hn] [HF|Hp]; [|done].
    by apply (world_page_free _ _ _ _ _ Hw HG).
Qed.

(** ** Creating one, while there is room *)

(** The entries that are copied are the only bytes written. *)
Lemma copy_entries_frame n : forall i m dst src,
  agree (fun x => ~ in_range (entry_addr dst i) (8 * Z.of_nat n) x) m (copy_entries n i m dst src).
Proof.
  induction n as [|n IH]; intros i m dst src; [done|]. cbn [copy_entries].
  etransitivity; [apply agree_store|eapply agree_sub; [apply IH|]]; unfold in_range, entry_addr; intros; lia.
Qed.

Lemma trees_zero g m t n : forall i,
  (forall j, i <= j < i + Z.of_nat n -> load 8 m (entry_addr (t + hhdm_offset) j) = 0) -> trees g m t n i = [].
Proof.
  induction n as [|n IH]; intros i Hz; [done|]. cbn [trees]. unfold child_tree. rewrite Hz by lia.
  apply IH. intros j Hj. apply Hz. lia.
Qed.

(** A new table, cleared. *)
Lemma world_table n o v F A G :
  (o <= 20)%nat -> heap_world (v_heap v) F A G -> pa_room (h_pages (v_heap v)) F o (S n) ->
  exists h p, vmm_alloc_page_table v = (set_heap v h, p + hhdm_offset) /\ 0 <= p + hhdm_offset < 2 ^ 64 /\ p + hhdm_offset <> 0 /\
    let G' := fplus G (in_range p 4096) in
    heap_world h (fminus F (in_range p 4096)) A G' /\ page_out h G' p /\ pa_room (h_pages h) (fminus F (in_range p 4096)) o n /\
    (forall q k, pa_block (h_pages h) q k <-> pa_block (h_pages (v_heap v)) q k) /\ (forall x, in_range p 4096 x -> F x) /\
    (forall j x, A j x -> kept j x (v_mem v) (h_mem h)) /\ agree (image G) (v_mem v) (h_mem h) /\
    (forall j, 0 <= j < 512 -> load 8 (h_mem h) (entry_addr (p + hhdm_offset) j) = 0).
Proof.
  intros Ho Hw Hr. unfold vmm_alloc_page_table. destruct (pmm_alloc_page (v_heap v)) as [h2 p] eqn:E2.
  destruct (world_page n o _ F A G h2 p Hw Hr Ho E2) as (Hp0 & Hw2 & Hp & Hr2 & Hb2 & Hpf & Hk2 & Hg2).
  set (G' := fplus G (in_range p 4096)) in *. destruct (page_out_virt h2 G' p Hp) as (Ep & Hpv & _).
  rewrite (proj2 (Z.eqb_neq p 0)), Ep by done. set (t := p + hhdm_offset) in *.
  assert (0 <= t < 2 ^ 64) as Ht by (rewrite <- Ep; apply phys_to_virt_word).
  change (v_mem (set_heap v h2)) with (h_mem h2). set (m3 := memset _ t 0 PAGE_SIZE).
  assert (agree (fun x => ~ in_range t 4096 x) (h_mem h2) m3) as Ha3 by (by apply memset_outside).
  destruct (page_write_kept h2 _ A G' p m3 Hw2) as [Hw3 Hk3]; [apply Hp| |].
  { eapply agree_sub; [exact Ha3|]. unfold image, in_range, t. intros; lia. }
  exists (set_mem h2 m3), p. split; [done|]. split; [exact Ht|]. split; [exact Hpv|]. cbv zeta. split; [exact Hw3|].
  split; [exact Hp|]. split; [exact Hr2|]. split; [exact Hb2|]. split; [exact Hpf|]. cbn [set_mem h_mem]. split; [|split].
  - intros j x Hx. transitivity (h_mem h2); [by apply Hk2|by apply Hk3].
  - transitivity (h_mem h2); [exact Hg2|]. eapply agree_sub; [exact Ha3|]. intros x Hx Hxt.
    apply (world_page_free _ _ _ _ _ Hw Hx), Hpf. unfold in_range, t in *. lia.
  - intros j Hj. apply memset0_load; unfold PAGE_SIZE, entry_addr; lia.
Qed.

Lemma create_world n o v F A G :
  (1 <= o <= 20)%nat -> heap_world (v_heap v) F A G -> pa_room (h_pages (v_heap v)) F o (S (S n)) ->
  exists i h a root F', vmm_create_address_space 64 v = Some (set_heap v h, a) /\
    let A' := fun j x => A j x \/ (j = i /\ x = a) in let G' := fplus G (in_range root 4096) in
    a <> 0 /\ (forall j, ~ A j a) /\ heap_world h (fminus F' (in_range root 4096)) A' G' /\
    space_out (set_heap v h) G' A' i a root /\ space_pages (h_mem h) root = [] /\
    (forall j, 0 <= j < 256 -> load 8 (h_mem h) (entry_addr (root + hhdm_offset) j) = 0) /\
    (forall x, in_range root 4096 x -> F' x) /\ (forall x, F' x -> F x) /\
    pa_room (h_pages h) (fminus F' (in_range root 4096)) o n /\
    (forall q k, pa_block (h_pages h) q k <-> pa_block (h_pages (v_heap v)) q k) /\
    (forall j x, A j x -> kept j x (v_mem v) (h_mem h)) /\ agree (image G) (v_mem v) (h_mem h).
Proof.
  intros Ho Hw Hr. unfold vmm_create_address_space.
  destruct (world_kmalloc (S n) o sizeof_addr_space (v_heap v) F A G Hw Hr) as
    (i & h1 & a & F' & E1 & Ha0 & Hsz & Hnew & Hw1 & HF' & Hr1 & Hb1 & Hk1 & Hg1); [lia|by vm_compute|].
  rewrite E1. cbn [mbind option_bind]. rewrite (proj2 (Z.eqb_neq a 0)) by done.
  set (A' := fun j x => A j x \/ (j = i /\ x = a)) in *. assert (A' i a) as Ha by (by right).
  assert (forall j x, A j x -> A' j x /\ x <> a) as Hold by (intros j x Hx; split; [by left|intros ->; by apply (Hnew j)]).
  unfold sizeof_addr_space in *. set (m1 := memset _ a 0 24).
  destruct (object_write_kept h1 F' A' G i a m1 Hw1 Ha) as (Hw1' & Hk1' & Hg1').
  { eapply agree_sub; [apply memset_outside; lia|]. unfold in_range. intros; lia. }
  destruct (world_table n o (set_vmem (set_heap v h1) m1) F' A' G) as
    (h2 & p & E2 & Ht & Ht0 & Hw2 & Hp & Hr2 & Hb2 & Hpf & Hk2 & Hg2 & Hz); [lia|exact Hw1'|exact Hr1|].
  rewrite E2. set (G' := fplus G (in_range p 4096)) in *. set (t := p + hhdm_offset) in *. rewrite (proj2 (Z.eqb_neq t 0)) by done.
  change (v_mem (set_vmem (set_heap v h1) m1)) with m1 in *. change (v_mem (set_heap (set_vmem (set_heap v h1) m1) h2)) with (h_mem h2).
  set (m4 := set_as_pml4 (h_mem h2) a t). destruct (object_write_kept h2 _ A' G' i a m4 Hw2 Ha) as (Hw4 & Hk4 & Hg4).
  { apply agree_store. unfold in_range. intros; lia. }
  set (m5 := if kernel_as v =? 0 then m4 else copy_entries 256 256 m4 t (as_pml4 m4 (kernel_as v))).
  assert (agree (fun x => ~ in_range (entry_addr t 256) 2048 x) m4 m5) as Hc5.
  { unfold m5. destruct (kernel_as v =? 0); [done|]. change 2048 with (8 * Z.of_nat 256). apply copy_entries_frame. }
  destruct (page_write_kept (set_mem h2 m4) _ A' G' p m5 Hw4) as [Hw5 Hk5]; [apply Hp| |].
  { eapply agree_sub; [exact Hc5|]. unfold image, in_range, entry_addr, t. intros; lia. }
  change (h_mem (set_mem ?h ?m)) with m in *. change (set_mem (set_mem h2 m4) m5) with (set_mem h2 m5) in *.
  assert (forall j, 0 <= j < 256 -> load 8 m5 (entry_addr t j) = 0) as Hz5.
  { intros j Hj. rewrite <- (Hz j) by lia. transitivity (load 8 m4 (entry_addr t j)); symmetry; apply load_agree.
    - eapply agree_sub; [exact Hc5|]. unfold in_range, entry_addr. intros; lia.
    - eapply agree_sub; [exact Hg4|]. intros x Hx. right. unfold image, in_range, entry_addr, t in *. lia. }
  assert (space_pages m5 p = []) as Esp by (apply trees_zero; intros j Hj; apply Hz5; lia).
  exists i, (set_mem h2 m5), a, p, F'. split.
  { change (kernel_as (set_vmem _ _)) with (kernel_as v). unfold m5. by destruct (kernel_as v =? 0). }
  change (h_mem (set_mem ?h ?m)) with m. change (h_pages (set_mem ?h ?m)) with (h_pages h).
  split; [done|]. split; [done|]. split; [done|]. split.
  { split; change (v_mem (set_heap v ?h)) with (h_mem h); change (v_heap (set_heap v ?h)) with h; cbn [set_mem h_mem]; rewrite ?Esp.
    - done.
    - unfold as_pml4. rewrite <- (Z.add_0_r a), (kept_load i a m4 m5 8 0), Z.add_0_r by (lia || by apply Hk5).
      by apply (load8_store8 (h_mem h2) a t).
    - apply NoDup_singleton.
    - by apply Forall_singleton. }
  split; [done|]. split; [done|]. split; [done|]. split; [done|]. split; [done|]. split; [|split].
  - intros q k. rewrite Hb2. apply Hb1.
  - intros j x Hx. destruct (Hold j x Hx) as [Hx' Hne].
    transitivity (h_mem h1); [by apply Hk1|]. transitivity m1; [by apply Hk1'|]. transitivity (h_mem h2); [by apply Hk2|].
    transitivity m4; [by apply Hk4|]. by apply Hk5.
  - transitivity (h_mem h1); [exact Hg1|]. transitivity m1; [exact Hg1'|]. transitivity (h_mem h2); [exact Hg2|].
    transitivity m4; (eapply agree_sub; [eassumption|]); intros x Hx; [by left|]. intros Hxt.
    apply (world_page_free _ _ _ _ _ Hw1 Hx), Hpf. unfold in_range, entry_addr, t in *. lia.
Qed.

(** A new table below the first entry of an empty lower half. *)
Lemma space_link h v F A G i a root p m :
  heap_world h F A G -> space_out (set_heap v h) G A i a root -> page_out h G p -> p <> root ->
  (forall j, 0 <= j < 256 -> load 8 (h_mem h) (entry_addr (root + hhdm_offset) j) = 0) ->
  m = store 8 (memset (h_mem h) (p + hhdm_offset) 0 4096) (root + hhdm_offset)
        (Z.lor (Z.lor (Z.lor p PTE_PRESENT) PTE_WRITABLE) PTE_USER) ->
  heap_world (set_mem h m) F A G /\ space_out (set_heap v (set_mem h m)) G A i a root /\ space_pages m root = [p].
Proof.
  intros Hw [[Ha Hsz] Ep Hnd Hout] Hp Hne Hz Em. change (v_mem (set_heap v ?h)) with (h_mem h) in *.
  change (v_heap (set_heap v ?h)) with h in *. cbn [set_mem h_mem] in *.
  apply Forall_app in Hout as [_ Hr]. apply Forall_cons in Hr as [Hr _]. pose proof (page_out_apart h G p root Hp (proj1 Hr) Hne) as Hap.
  set (m1 := memset (h_mem h) (p + hhdm_offset) 0 4096) in *.
  assert (agree (fun x => ~ in_range (p + hhdm_offset) 4096 x) (h_mem h) m1) as Hm1 by (by apply memset_outside).
  destruct (page_write_kept h F A G p m1 Hw) as [Hw1 Hk1]; [apply Hp|eapply agree_sub; [exact Hm1|unfold image, in_range; intros; lia]|].
  destruct (page_write_kept (set_mem h m1) F A G root m Hw1) as [Hw2 Hk2]; [apply Hr| |].
  { rewrite Em. apply agree_store. unfold image, in_range. intros; lia. }
  change (set_mem (set_mem h m1) m) with (set_mem h m) in Hw2. cbn [set_mem h_mem] in Hk2.
  destruct (page_out_virt h G p Hp) as (_ & _ & _). pose proof (proj1 Hp) as Hb. destruct (pa_block_bounds _ _ _ Hb) as (_ & Hp0 & Hal & Hlim).
  change (block_bytes 0) with 4096 in *. pose proof hhdm_phys_bits.
  destruct (table_pte_addr p) as (Eaddr & Hpres & Hrng); [lia|done|]. set (e := Z.lor _ _) in *.
  assert (forall j, 0 <= j < 512 -> load 8 m (entry_addr (p + hhdm_offset) j) = 0) as Hzp.
  { intros j Hj. rewrite Em. unfold entry_addr. rewrite load_store_ne by lia. apply memset0_load; lia. }
  assert (space_pages m root = [p]) as Esp.
  { unfold space_pages. change 256%nat with (S 255). rewrite trees_step. unfold child_tree at 1.
    assert (load 8 m (entry_addr (root + hhdm_offset) 0) = e) as ->.
    { rewrite Em. unfold entry_addr. replace (root + hhdm_offset + 8 * 0) with (root + hhdm_offset) by lia. by apply load8_store8. }
    rewrite Hpres, Eaddr. cbn [tree_pages]. rewrite trees_zero by (intros j Hj; apply Hzp; lia).
    rewrite trees_zero; [done|]. intros j Hj. rewrite Em. unfold entry_addr. rewrite load_store_ne by lia.
    rewrite <- (load_agree 8 (h_mem h)); [apply (Hz j); lia|]. eapply agree_sub; [exact Hm1|]. unfold in_range. intros; lia. }
  split; [exact Hw2|]. split; [|exact Esp].
  split; change (v_mem (set_heap v ?h)) with (h_mem h); change (v_heap (set_heap v ?h)) with h; cbn [set_mem h_mem]; rewrite ?Esp.
  - exact (conj Ha Hsz).
  - rewrite <- Ep. unfold as_pml4, sizeof_addr_space in *. symmetry. apply load_agree. transitivity m1.
    + eapply agree_sub; [exact (Hk1 i a Ha)|]. unfold in_range. intros; lia.
    + eapply agree_sub; [exact (Hk2 i a Ha)|]. unfold in_range. intros; lia.
  - apply NoDup_cons. split; [intros E%list_elem_of_singleton; exact (Hne E)|apply NoDup_singleton].
  - exact (Forall_cons_2 _ _ _ Hp (Forall_cons_2 _ _ _ Hr (Forall_nil_2 _))).
Qed.

(** C14. Destroying an address space.  [vmm_destroy_address_space] terminates,
    frees the tables of the lower half and the first table, each exactly once,
    and the descriptor: free memory grows by exactly these pages, every other
    object and page in use keeps its contents, the upper half (shared with the
    kernel) and the frames the page tables map are not touched.  The kernel's
    own address space is left alone. *)
Theorem vmm_destroy_correct i a root v F A G :
  heap_world (v_heap v) F A G -> space_out v G A i a root -> a <> 0 ->
  let L := space_pages (v_mem v) root ++ [root] in
  (a = kernel_as v -> vmm_destroy_address_space a v = Some v) /\
  (a <> kernel_as v ->
   exists h', vmm_destroy_address_space a v = Some (set_heap v h') /\
     heap_world h' (fplus F (pages L)) (fun j y => A j y /\ y <> a) (fminus G (pages L)) /\
     (forall j y, A j y -> y <> a -> kept j y (v_mem v) (h_mem h')) /\
     agree (image (fminus G (pages L))) (v_mem v) (h_mem h')).
Proof.
  intros Hw Hs Ha L. split.
  - intros ->. unfold vmm_destroy_address_space. by rewrite Z.eqb_refl, orb_true_r.
  - intros Hne. destruct (destroy_spec i a root v F A G Hw Hs Ha Hne) as (h' & E & Hw' & _ & Hk & Hg). by exists h'.
Qed.

End Destroy.
