(* ===== verification/VmmSpec.v ===== *)
(** * The virtual memory manager: correctness

    [space_repr v F B a M]: the address space at [a] is in order, [F] is the
    free memory, [B] are the bytes of its tables and descriptor, and [M] gives
    the page-table entry of every virtual page.  Mapping and unmapping are
    updates of [M] at one page number; a range is mapped completely or not at
    all. *)
From S2P Require Import Prelude Memory PageAlloc Slab Pmm Klib KlibSpec Vmm VmmProofs.
Import Slab Pmm Klib Vmm.

Section Space.
Context `{Hhdm} `{Linker} {P : Type} `{!PageAllocator P}.

Implicit Types v : vmm P.

Record space_ok v (F : Z -> Prop) (a root : Z) (T : gmap (list Z) Z) : Prop := {
  so_vm : vm_ok v F root T;
  so_nonnull : a <> 0;
  so_pml4 : as_pml4 (v_mem v) a = root + hhdm_offset;
  so_apart x : in_range a 24 x -> ~ image F x /\ ~ table_bytes T x;
}.

(** The bytes of an address space: its tables and its descriptor. *)
Definition space_bytes (a : Z) (T : gmap (list Z) Z) (x : Z) : Prop :=
  table_bytes T x \/ in_range a 24 x.

Definition space_repr v (F B : Z -> Prop) (a : Z) (M : Z -> Z) : Prop :=
  exists root T, space_ok v F a root T /\ B ≡ space_bytes a T /\
    forall vaddr, 0 <= vaddr -> M (vpn vaddr) = va_pte (v_mem v) T vaddr.

(** The address of the entry of [vaddr] in an existing page table. *)
Definition pte_addr (T : gmap (list Z) Z) (vaddr : Z) : Z :=
  match T !! [PML4_INDEX vaddr; PDP_INDEX vaddr; PD_INDEX vaddr] with
  | Some t => entry_addr (t + hhdm_offset) (PT_INDEX vaddr)
  | None => 0
  end.

Lemma root_nonnull v F a root T : space_ok v F a root T -> as_pml4 (v_mem v) a <> 0.
Proof.
  intros Hs. rewrite (so_pml4 _ _ _ _ _ Hs). pose proof hhdm_positive.
  destruct (vo_page _ _ _ _ (so_vm _ _ _ _ _ Hs) _ _ (vo_root _ _ _ _ (so_vm _ _ _ _ _ Hs))). lia.
Qed.

Lemma path_range vaddr :
  Forall (fun i => 0 <= i < 512) [PML4_INDEX vaddr; PDP_INDEX vaddr; PD_INDEX vaddr] /\
  0 <= PT_INDEX vaddr < 512.
Proof.
  pose proof (indices_range vaddr) as Hr. unfold indices in Hr.
  repeat (apply Forall_cons in Hr as [? Hr]). split; [repeat constructor; lia|lia].
Qed.

Lemma walk_find v F a root T vaddr :
  space_ok v F a root T -> vmm_walk_page_table a vaddr false v = (v, pte_addr T vaddr).
Proof.
  intros Hs. unfold vmm_walk_page_table.
  rewrite (proj2 (Z.eqb_neq a 0)) by apply Hs. rewrite (proj2 (Z.eqb_neq _ _)) by (by eapply root_nonnull).
  cbn [orb]. rewrite (so_pml4 _ _ _ _ _ Hs). destruct (path_range vaddr) as [Hp Hi].
  exact (walk_lookup [PML4_INDEX vaddr; PDP_INDEX vaddr; PD_INDEX vaddr] (PT_INDEX vaddr) [] root v F root T
    (so_vm _ _ _ _ _ Hs) (vo_root _ _ _ _ (so_vm _ _ _ _ _ Hs)) eq_refl Hp).
Qed.

Lemma space_walked v F a root T v' F' T' :
  space_ok v F a root T -> walked v F root T v' F' T' ->
  space_ok v' F' a root T' /\ as_total_pages (v_mem v') a = as_total_pages (v_mem v) a.
Proof.
  intros Hs Hw.
  assert (agree (in_range a 24) (v_mem v) (v_mem v')) as Ha.
  { eapply agree_sub; [apply Hw|]. apply Hs. }
  split; [split|].
  - apply Hw.
  - apply Hs.
  - unfold as_pml4. rewrite <- (load_agree 8 (v_mem v)); [apply Hs|].
    eapply agree_sub; [exact Ha|]. unfold in_range. lia.
  - intros x Hx. destruct (so_apart _ _ _ _ _ Hs x Hx) as [H1' H2']. split.
    + intros HF. apply H1'. unfold image in *. by apply (wk_free _ _ _ _ _ _ _ Hw).
    + by intros [?|?]%(wk_tables _ _ _ _ _ _ _ Hw).
  - unfold as_total_pages. symmetry. apply load_agree. eapply agree_sub; [exact Ha|]. unfold in_range. lia.
Qed.

Lemma walk_make v F a root T vaddr :
  space_ok v F a root T ->
  exists v' e F' T', vmm_walk_page_table a vaddr true v = (v', e) /\ walked v F root T v' F' T' /\
    (e = 0 \/ (e <> 0 /\ e = pte_addr T' vaddr)).
Proof.
  intros Hs. unfold vmm_walk_page_table.
  rewrite (proj2 (Z.eqb_neq a 0)) by apply Hs. rewrite (proj2 (Z.eqb_neq _ _)) by (by eapply root_nonnull).
  cbn [orb]. rewrite (so_pml4 _ _ _ _ _ Hs). destruct (path_range vaddr) as [Hp Hi].
  destruct (walk_create [PML4_INDEX vaddr; PDP_INDEX vaddr; PD_INDEX vaddr] (PT_INDEX vaddr) [] root v F root T
    (so_vm _ _ _ _ _ Hs) (vo_root _ _ _ _ (so_vm _ _ _ _ _ Hs)) eq_refl Hp) as (v' & e & F' & T' & Ew & Hw & He).
  exists v', e, F', T'. split; [exact Ew|]. split; [done|]. destruct He as [?|(t' & Ht' & ->)]; [by left|right].
  unfold pte_addr. simpl in Ht'. rewrite Ht'. split; [|done].
  destruct (vo_page _ _ _ _ (wk_ok _ _ _ _ _ _ _ Hw) _ _ Ht'). pose proof hhdm_positive. unfold entry_addr. lia.
Qed.

(** The entry at [pte_addr] is the one [va_pte] reads. *)
Lemma pte_addr_load m T vaddr :
  pte_addr T vaddr <> 0 -> load 8 m (pte_addr T vaddr) = va_pte m T vaddr.
Proof. unfold pte_addr, va_pte, pte_at. by destruct (T !! _). Qed.

Lemma pte_addr_absent m T vaddr F v root :
  vm_ok v F root T -> pte_addr T vaddr = 0 -> va_pte m T vaddr = 0.
Proof.
  intros Hv. unfold pte_addr, va_pte, pte_at. destruct (T !! _) as [t|] eqn:E; [|done].
  destruct (vo_page _ _ _ _ Hv _ _ E). pose proof hhdm_positive. pose proof (proj2 (path_range vaddr)).
  unfold entry_addr. lia.
Qed.

(** ** Storing one page-table entry *)

Lemma path_inj va vb :
  [PML4_INDEX va; PDP_INDEX va; PD_INDEX va] = [PML4_INDEX vb; PDP_INDEX vb; PD_INDEX vb] ->
  PT_INDEX va = PT_INDEX vb -> vpn va = vpn vb.
Proof. intros [= E1 E2 E3] E4. apply indices_vpn. unfold indices. congruence. Qed.

Lemma set_pte v F a root T vaddr w n :
  space_ok v F a root T -> pte_addr T vaddr <> 0 -> 0 <= w < 2 ^ 64 ->
  let v1 := set_vmem v (store 8 (v_mem v) (pte_addr T vaddr) w) in
  let v2 := set_vmem v1 (set_as_total_pages (v_mem v1) a n) in
  space_ok v2 F a root T /\
  (forall vb, va_pte (v_mem v2) T vb = if decide (vpn vb = vpn vaddr) then w else va_pte (v_mem v) T vb) /\
  as_total_pages (v_mem v1) a = as_total_pages (v_mem v) a /\
  (0 <= n < 2 ^ 64 -> as_total_pages (v_mem v2) a = n) /\
  agree (fun x => ~ table_bytes T x /\ ~ in_range a 24 x) (v_mem v) (v_mem v2).
Proof.
  intros Hs Hne Hw v1 v2. unfold pte_addr in *.
  destruct (T !! [PML4_INDEX vaddr; PDP_INDEX vaddr; PD_INDEX vaddr]) as [t|] eqn:Ht; [|done].
  pose proof (so_vm _ _ _ _ _ Hs) as Hv. pose proof (vo_page _ _ _ _ Hv _ _ Ht) as Htp.
  pose proof (proj2 (path_range vaddr)) as Hi. set (i := PT_INDEX vaddr) in *.
  set (m2 := store 8 (store 8 (v_mem v) (entry_addr (t + hhdm_offset) i) w) (a + 8) n).
  assert (v_mem v2 = m2) as Em by done.
  assert (forall x, in_range (entry_addr (t + hhdm_offset) i) 8 x -> table_bytes T x) as Htb.
  { intros x Hx. eexists _, t. split; [exact Ht|]. unfold entry_addr, in_range in *. lia. }
  assert (forall pi' t' j, T !! pi' = Some t' -> 0 <= j < 512 ->
    load 8 m2 (entry_addr (t' + hhdm_offset) j) = load 8 (store 8 (v_mem v) (entry_addr (t + hhdm_offset) i) w)
      (entry_addr (t' + hhdm_offset) j)) as Hcnt.
  { intros pi' t' j Ht' Hj. symmetry. apply load_agree, agree_store. intros x Hx Hr.
    destruct (so_apart _ _ _ _ _ Hs x) as [_ Hn]; [unfold in_range in *; lia|].
    apply Hn. exists pi', t'. split; [done|]. unfold entry_addr, in_range in *. lia. }
  assert (agree (fun x => ~ table_bytes T x /\ ~ in_range a 24 x) (v_mem v) m2) as Hfr.
  { transitivity (store 8 (v_mem v) (entry_addr (t + hhdm_offset) i) w); apply agree_store.
    - intros x [Hx _] Hr. by apply Hx, Htb.
    - intros x [_ Hx] Hr. apply Hx. unfold in_range in *. lia. }
  assert (agree (in_range a 24) (v_mem v) (store 8 (v_mem v) (entry_addr (t + hhdm_offset) i) w)) as Has.
  { apply agree_store. intros x Hx Hr. destruct (so_apart _ _ _ _ _ Hs x Hx) as [_ Hn]. by apply Hn, Htb. }
  split_and!.
  - split; [|apply Hs| |apply Hs].
    + split; try apply Hv.
      * rewrite Em. eapply pa_inv_agree; [|apply Hv]. eapply agree_sub; [exact Hfr|].
        intros x HF. split.
        -- intros (pi' & t' & Ht' & Hx). destruct (vo_page _ _ _ _ Hv _ _ Ht') as (_ & _ & _ & Hn).
           apply (Hn (x - hhdm_offset)); [|done]. unfold in_range in *. lia.
        -- intros Hx. by destruct (so_apart _ _ _ _ _ Hs x Hx).
      * intros pi' t' j Ht' Hl Hj. rewrite (vo_child _ _ _ _ Hv pi' t' j Ht' Hl Hj). unfold child.
        rewrite Em, (Hcnt pi' t' j Ht' Hj), (entry_store_other F t t'); try done; [by eapply vo_page|].
        intros <-. assert (pi' = [PML4_INDEX vaddr; PDP_INDEX vaddr; PD_INDEX vaddr]) as -> by (by eapply vo_inj).
        simpl in Hl. lia.
    + rewrite Em. unfold as_pml4, m2. rewrite load_store_ne by lia.
      rewrite <- (load_agree 8 (v_mem v)); [apply Hs|]. eapply agree_sub; [exact Has|]. unfold in_range. lia.
  - intros vb. rewrite Em. unfold va_pte, pte_at.
    destruct (decide (vpn vb = vpn vaddr)) as [E|E].
    + apply indices_vpn in E. unfold indices in E. injection E as -> -> -> ->.
      fold i. rewrite Ht, (Hcnt _ t _ Ht Hi). by apply load8_store8.
    + destruct (T !! [PML4_INDEX vb; PDP_INDEX vb; PD_INDEX vb]) as [t'|] eqn:Ht'; [|done].
      pose proof (proj2 (path_range vb)). rewrite (Hcnt _ t' _ Ht') by done.
      destruct (decide (t = t')) as [<-|Htt].
      * pose proof (vo_inj _ _ _ _ Hv _ _ _ Ht Ht') as Ep. apply entry_store_index.
        intros Ei. apply E. symmetry. by apply path_inj.
      * apply (entry_store_other F); try done. by eapply vo_page.
  - unfold as_total_pages, v1, v_mem, set_vmem. simpl. symmetry. apply load_agree.
    eapply agree_sub; [exact Has|]. unfold in_range. lia.
  - intros Hn. rewrite Em. unfold as_total_pages, m2. by apply load8_store8.
  - done.
Qed.

(** ** Map and unmap one page *)

Lemma align_down_range a : 0 <= a -> 0 <= vmm_page_align_down a <= a.
Proof. intros Ha. rewrite align_down_spec. pose proof (Z.mod_pos_bound a 4096). pose proof (Z.mod_le a 4096). lia. Qed.

(** The outcome of an operation on an address space: the new state and the new
    meaning, with free memory shrinking and foreign memory untouched. *)
Record vm_step v (F B : Z -> Prop) (a : Z) v' (F' B' : Z -> Prop) (M' : Z -> Z) : Prop := {
  vs_repr : space_repr v' F' B' a M';
  vs_free x : F' x -> F x;
  vs_bytes x : B' x -> B x \/ image F x;
  vs_frame : agree (fun x => ~ image F x /\ ~ B x) (v_mem v) (v_mem v');
  vs_kernel_as : kernel_as v' = kernel_as v;
  vs_cr3 : cr3 v' = cr3 v;
  vs_caches : h_caches (v_heap v') = h_caches (v_heap v);
}.

Lemma vm_step_trans v F B a v1 F1 B1 M1 v2 F2 B2 M2 :
  vm_step v F B a v1 F1 B1 M1 -> vm_step v1 F1 B1 a v2 F2 B2 M2 -> vm_step v F B a v2 F2 B2 M2.
Proof.
  intros H1' H2'. split.
  - apply H2'.
  - intros x Hx. by apply H1', H2'.
  - intros x [Hx|Hx]%(vs_bytes _ _ _ _ _ _ _ _ H2'); [by apply H1'|].
    right. unfold image in *. by apply H1'.
  - transitivity (v_mem v1); [apply H1'|]. eapply agree_sub; [apply H2'|]. intros x [Hx1 Hx2]. split.
    + intros Hx. apply Hx1. unfold image in *. by apply H1'.
    + by intros [?|?]%(vs_bytes _ _ _ _ _ _ _ _ H1').
  - rewrite (vs_kernel_as _ _ _ _ _ _ _ _ H2'). apply H1'.
  - rewrite (vs_cr3 _ _ _ _ _ _ _ _ H2'). apply H1'.
  - rewrite (vs_caches _ _ _ _ _ _ _ _ H2'). apply H1'.
Qed.

Lemma walked_step v F B a root T M v' F' T' :
  space_ok v F a root T -> B ≡ space_bytes a T ->
  (forall vaddr, 0 <= vaddr -> M (vpn vaddr) = va_pte (v_mem v) T vaddr) ->
  walked v F root T v' F' T' -> vm_step v F B a v' F' (space_bytes a T') M.
Proof.
  intros Hs HB HM Hw. destruct (space_walked v F a root T v' F' T' Hs Hw) as [Hs' _].
  split; try apply Hw.
  - exists root, T'. split_and!; try done. intros va Hva. rewrite HM by done. unfold va_pte. symmetry.
    apply (wk_pte _ _ _ _ _ _ _ Hw); [done|]. apply path_range.
  - intros x [Hx|Hx].
    + apply (wk_tables _ _ _ _ _ _ _ Hw) in Hx as [?|?]; [left|by right]. apply (HB x). by left.
    + left. apply (HB x). by right.
  - eapply agree_sub; [apply Hw|]. intros x [Hx1 Hx2]. split; [done|]. intros Hx. apply Hx2, (HB x). by left.
Qed.

Lemma set_pte_step v F a root T M vaddr w n :
  space_ok v F a root T -> pte_addr T vaddr <> 0 -> 0 <= w < 2 ^ 64 ->
  (forall vb, 0 <= vb -> M (vpn vb) = va_pte (v_mem v) T vb) ->
  let v1 := set_vmem v (store 8 (v_mem v) (pte_addr T vaddr) w) in
  let v2 := set_vmem v1 (set_as_total_pages (v_mem v1) a n) in
  vm_step v F (space_bytes a T) a v2 F (space_bytes a T) (<[vpn vaddr := w]> M).
Proof.
  intros Hs Hne Hw HM v1 v2.
  destruct (set_pte v F a root T vaddr w n Hs Hne Hw) as (Hs2 & Hpte & _ & _ & Hfr). fold v1 v2 in Hs2, Hpte, Hfr.
  split; try done; try auto.
  - exists root, T. split_and!; try done. intros vb Hvb. rewrite Hpte. case_decide as E.
    + rewrite E. by rewrite fn_lookup_insert.
    + rewrite fn_lookup_insert_ne by congruence. by apply HM.
  - eapply agree_sub; [exact Hfr|]. intros x [_ Hx]. split; intros ?; apply Hx; [by left|by right].
Qed.

Lemma map_no_flush_spec a va pa flags v F B M :
  space_repr v F B a M -> 0 <= va -> 0 <= pa < 2 ^ 64 -> 0 <= flags < 2 ^ 64 ->
  exists v' r F' B', vmm_map_page_no_flush a va pa flags v = (v', r) /\ mmu v' = mmu v /\
    ((r = -1 /\ vm_step v F B a v' F' B' M) \/
     (r = 0 /\ present (M (vpn va)) = false /\
      vm_step v F B a v' F' B'
        (<[vpn va := Z.lor (Z.lor (vmm_page_align_down pa) flags) PTE_PRESENT]> M))).
Proof.
  intros (root & T & Hs & HB & HM) Hva Hpa Hfl. unfold vmm_map_page_no_flush.
  rewrite (proj2 (Z.eqb_neq a 0)) by apply Hs.
  destruct (walk_make v F a root T (vmm_page_align_down va) Hs) as (v1 & e & F1 & T1 & -> & Hw & He).
  pose proof (walked_step v F B a root T M v1 F1 T1 Hs HB HM Hw) as Hst.
  destruct (space_walked v F a root T v1 F1 T1 Hs Hw) as [Hs1 _].
  destruct He as [->|[Hne ->]].
  { simpl. exists v1, (-1), F1, (space_bytes a T1). split_and!; [done|apply Hw|]. by left. }
  rewrite (proj2 (Z.eqb_neq _ _)) by done.
  assert (load 8 (v_mem v1) (pte_addr T1 (vmm_page_align_down va)) = M (vpn va)) as Epte.
  { rewrite pte_addr_load by done. rewrite <- vpn_align_down, HM by (by apply align_down_range).
    apply (wk_pte _ _ _ _ _ _ _ Hw); [done|]. apply path_range. }
  rewrite Epte. destruct (present (M (vpn va))) eqn:Epr.
  { exists v1, (-1), F1, (space_bytes a T1). split_and!; [done|apply Hw|]. by left. }
  eexists _, 0, F1, (space_bytes a T1). split; [done|]. split; [apply Hw|]. right. split_and!; try done.
  eapply vm_step_trans; [exact Hst|]. rewrite <- vpn_align_down.
  destruct Hst as [(root' & T' & _ & _ & _) _ _ _ _ _ _].
  apply (set_pte_step v1 F1 a root T1).
  - done.
  - done.
  - pose proof (align_down_range pa). apply lor_range; [lia| |vm_compute; split; congruence].
    apply lor_range; lia.
  - intros vb Hvb. rewrite HM by done. symmetry. apply (wk_pte _ _ _ _ _ _ _ Hw); [done|]. apply path_range.
Qed.

Lemma unmap_no_flush_spec a va v F B M :
  space_repr v F B a M -> 0 <= va ->
  exists v' r B', vmm_unmap_page_no_flush a va v = (v', r) /\ mmu v' = mmu v /\
    ((r = -1 /\ present (M (vpn va)) = false /\ v' = v) \/
     (r = 0 /\ present (M (vpn va)) = true /\ vm_step v F B a v' F B' (<[vpn va := 0]> M))).
Proof.
  intros (root & T & Hs & HB & HM) Hva. unfold vmm_unmap_page_no_flush.
  rewrite (proj2 (Z.eqb_neq a 0)) by apply Hs. rewrite (walk_find v F a root T) by done.
  rewrite <- vpn_align_down, HM by (by apply align_down_range).
  destruct (Z.eqb_spec (pte_addr T (vmm_page_align_down va)) 0) as [E|E].
  { exists v, (-1), B. split_and!; try done. left. split_and!; try done.
    by rewrite (pte_addr_absent _ _ _ _ _ _ (so_vm _ _ _ _ _ Hs) E). }
  rewrite pte_addr_load by done.
  destruct (present (va_pte (v_mem v) T (vmm_page_align_down va))) eqn:Epr; simpl.
  2:{ exists v, (-1), B. split_and!; try done. by left. }
  eexists _, 0, (space_bytes a T). split; [done|]. split; [done|]. right. split_and!; try done.
  pose proof (set_pte_step v F a root T M (vmm_page_align_down va) 0
    (w64 (as_total_pages (v_mem (set_vmem v (store 8 (v_mem v) (pte_addr T (vmm_page_align_down va)) 0))) a - 1))
    Hs E ltac:(lia) HM) as Hst. cbv zeta in Hst.
  destruct Hst. split; try done; intros x Hx.
  - left. by apply (HB x).
  - apply vs_frame0. destruct Hx as [? Hx]. split; [done|]. intros ?. by apply Hx, (HB x).
Qed.

End Space.
