(* ===== verification/VmmRange.v ===== *)
(** * The virtual memory manager: ranges

    [vmm_map_range] and [vmm_unmap_range] terminate, and a failing
    [vmm_map_range] leaves no page of the range mapped that was not mapped
    before. *)
From S2P Require Import Prelude Memory PageAlloc Slab Pmm Klib KlibSpec Vmm VmmProofs VmmSpec.
Import Slab Pmm Klib Vmm.

Lemma align_up_aligned a : 0 <= a -> a + 4095 < 2 ^ 64 -> a mod 4096 = 0 -> vmm_page_align_up a = a.
Proof.
  intros H0 H1 Hm. unfold vmm_page_align_up, PAGE_MASK, PAGE_SIZE. rewrite wrap_small by lia.
  change (Z.lnot (4096 - 1)) with (Z.lnot (Z.ones 12)). rewrite land_lnot_ones by lia.
  change (2 ^ 12) with 4096. pose proof (Z.div_mod a 4096 ltac:(lia)).
  replace (a + 4096 - 1) with (a / 4096 * 4096 + 4095) by lia.
  rewrite Z.add_comm, Z.mod_add, Z.mod_small by lia. lia.
Qed.

Lemma align_up_range a :
  0 <= a -> a + 4096 < 2 ^ 64 ->
  a <= vmm_page_align_up a < a + 4096 /\ vmm_page_align_up a mod 4096 = 0.
Proof.
  intros H0 H1. destruct (page_round_up_spec a) as [Hm Hr]; [lia|]. split; [exact Hr|exact Hm].
Qed.

(** The page numbers of [n] pages from [vstart], starting with page [j]. *)
Definition range_vpns (vstart j n : Z) : list Z := (fun k => vpn (vstart + 4096 * k)) <$> seqZ j n.

Lemma range_vpns_snoc vstart n :
  0 <= n -> range_vpns vstart 0 (n + 1) = range_vpns vstart 0 n ++ [vpn (vstart + 4096 * n)].
Proof.
  intros Hn. unfold range_vpns. rewrite seqZ_app by lia. rewrite fmap_app. done.
Qed.

Lemma range_vpns_cons vstart j n :
  0 < n -> range_vpns vstart j n = vpn (vstart + 4096 * j) :: range_vpns vstart (j + 1) (n - 1).
Proof. intros Hn. unfold range_vpns. rewrite seqZ_cons by lia. done. Qed.

Section Range.
Context `{Hhdm} `{Linker} {P : Type} `{!PageAllocator P}.

Implicit Types v : vmm P.

Lemma vm_step_refl v F B a M : space_repr v F B a M -> vm_step v F B a v F B M.
Proof. intros Hr. split; auto. done. Qed.

(** TLB maintenance does not change the address space. *)
Lemma vm_step_flush v F B a v' F' B' M' e :
  (forall p, e <> LoadCr3 p) -> vm_step v F B a v' F' B' M' -> vm_step v F B a (event e v') F' B' M'.
Proof.
  intros He Hs. assert (v_heap (event e v') = v_heap v' /\ kernel_as (event e v') = kernel_as v' /\
    cr3 (event e v') = cr3 v') as (E1 & E2 & E3) by (destruct e; try done; by destruct (He phys)).
  destruct Hs as [(root & T & [Hvm ? ? ?] & HB & HM) ? ? Hfr ? ? ?].
  split; rewrite ?E1, ?E2, ?E3; try done.
  - exists root, T. unfold v_mem in *. rewrite E1. split_and!; try done. split; unfold v_mem; rewrite ?E1; try done.
    destruct Hvm. split; unfold v_mem; rewrite ?E1; done.
  - unfold v_mem. rewrite E1. done.
Qed.

Lemma vm_step_ext v F B a v' F' B' M' M'' :
  (forall p, M' p = M'' p) -> vm_step v F B a v' F' B' M' -> vm_step v F B a v' F' B' M''.
Proof.
  intros E [(root & T & Hs & HB & HM) ? ? ? ? ? ?]. split; try done.
  exists root, T. split_and!; try done. intros va Hva. rewrite <- E. by apply HM.
Qed.

(** ** Unmapping a range *)

Definition unmapped (M : Z -> Z) (ps : list Z) (p : Z) : Z :=
  if decide (p ∈ ps) then (if present (M p) then 0 else M p) else M p.

Lemma unmap_loop_spec fuel a vstart j n v0 F0 B0 v F B M :
  vm_step v0 F0 B0 a v F B M -> 0 <= vstart -> 0 <= j <= n -> vstart + 4096 * n < 2 ^ 64 ->
  n - j < Z.of_nat fuel ->
  exists v' B', unmap_loop fuel a (vstart + 4096 * j) (vstart + 4096 * n) v = Some v' /\
    vm_step v0 F0 B0 a v' F B' (unmapped M (range_vpns vstart j (n - j))) /\ mmu v' = mmu v.
Proof.
  revert j v B M. induction fuel as [|fuel IH]; intros j v B M Hst Hv Hj Hb Hf; [lia|].
  cbn [unmap_loop]. destruct (Z.ltb_spec (vstart + 4096 * j) (vstart + 4096 * n)) as [Hlt|Hge].
  - destruct (unmap_no_flush_spec a (vstart + 4096 * j) v F B M (vs_repr _ _ _ _ _ _ _ _ Hst) ltac:(lia))
      as (v1 & r & B1 & -> & Emmu & Hres).
    assert (exists B1 M1, vm_step v0 F0 B0 a v1 F B1 M1 /\
      forall p, M1 p = unmapped M [vpn (vstart + 4096 * j)] p) as (B2 & M1 & Hst1 & EM1).
    { destruct Hres as [(_ & Hnp & ->)|(_ & Hpr & Hs1)].
      - exists B, M. split; [done|]. intros p. unfold unmapped. case_decide as E; [|done].
        apply list_elem_of_singleton in E as ->. by rewrite Hnp.
      - exists B1, (<[vpn (vstart + 4096 * j) := 0]> M). split; [by eapply vm_step_trans|].
        intros p. unfold unmapped. case_decide as E.
        + apply list_elem_of_singleton in E as ->. by rewrite fn_lookup_insert, Hpr.
        + rewrite fn_lookup_insert_ne; [done|]. set_solver. }
    cbn [fst]. rewrite wrap_small by (unfold PAGE_SIZE; lia).
    replace (vstart + 4096 * j + PAGE_SIZE) with (vstart + 4096 * (j + 1)) by (unfold PAGE_SIZE; lia).
    destruct (IH (j + 1) v1 B2 M1 Hst1) as (v' & B' & -> & Hst' & Emmu'); [lia|lia|lia|lia|].
    exists v', B'. split_and!; [done| |congruence]. eapply vm_step_ext; [|exact Hst'].
    intros p. rewrite (range_vpns_cons vstart j) by lia. replace (n - j - 1) with (n - (j + 1)) by lia.
    unfold unmapped at 1. rewrite !EM1. unfold unmapped.
    set (q := vpn (vstart + 4096 * j)). set (rs := range_vpns vstart (j + 1) (n - (j + 1))).
    assert (p ∈ q :: rs <-> p = q \/ p ∈ rs) as Hc by apply elem_of_cons.
    assert (p ∈ [q] <-> p = q) as H1' by apply list_elem_of_singleton.
    destruct (decide (p ∈ rs)); destruct (decide (p ∈ [q])); destruct (decide (p ∈ q :: rs));
      try (exfalso; tauto); try done; destruct (present (M p)) eqn:E; rewrite ?E; done.
  - exists v, B. split_and!; try done. eapply vm_step_ext; [|exact Hst]. intros p.
    replace (n - j) with 0 by lia. unfold unmapped. by rewrite decide_False by set_solver.
Qed.

Lemma unmap_range_spec a vstart n v0 F0 B0 v F B M :
  vm_step v0 F0 B0 a v F B M -> 0 <= vstart -> vstart mod 4096 = 0 -> 0 < n ->
  vstart + 4096 * n + 4095 < 2 ^ 64 ->
  exists v' B', vmm_unmap_range a vstart (4096 * n) v = Some (v', 0) /\
    vm_step v0 F0 B0 a v' F B' (unmapped M (range_vpns vstart 0 n)) /\ mmu v' = mmu v ++ [FlushAll].
Proof.
  intros Hst Hv Hm Hn Hb. unfold vmm_unmap_range.
  destruct (vs_repr _ _ _ _ _ _ _ _ Hst) as (root & T & Hs & _).
  rewrite (proj2 (Z.eqb_neq a 0)) by apply Hs. rewrite (proj2 (Z.eqb_neq (4096 * n) 0)) by lia. cbn [orb].
  rewrite wrap_small by lia.
  assert ((vstart + 4096 * n) mod 4096 = 0) as Hm2.
  { rewrite Z.add_mod, Hm, (Z.mul_comm 4096), Z.mod_mul by lia. done. }
  rewrite align_up_aligned by lia. rewrite align_down_spec, Hm, Z.sub_0_r.
  destruct (unmap_loop_spec (range_fuel vstart (vstart + 4096 * n)) a vstart 0 n v0 F0 B0 v F B M Hst)
    as (v' & B' & E & Hst' & Em); [lia|lia|lia| |].
  - unfold range_fuel, PAGE_SIZE. replace (vstart + 4096 * n - vstart) with (n * 4096) by lia.
    rewrite Z.div_mul by lia. lia.
  - replace (vstart + 4096 * 0) with vstart in E by lia. rewrite E. cbn [mbind option_bind].
    exists (event FlushAll v'), B'. split_and!; [done| |simpl; by rewrite Em].
    rewrite Z.sub_0_r in Hst'. by apply vm_step_flush.
Qed.

(** ** Mapping a range *)

(** After mapping the pages [ps]: they were not present, now they are, and
    the others are as before. *)
Definition mapped_over (M M' : Z -> Z) (ps : list Z) : Prop :=
  (forall p, p ∈ ps -> present (M p) = false /\ present (M' p) = true) /\
  (forall p, p ∉ ps -> M' p = M p).

Definition range_pte (pstart flags k : Z) : Z :=
  Z.lor (Z.lor (vmm_page_align_down (w64 (pstart + 4096 * k))) flags) PTE_PRESENT.

Lemma map_loop_spec fuel a vstart pstart flags n k v0 F0 B0 M0 v F B M :
  vm_step v0 F0 B0 a v F B M -> mapped_over M0 M (range_vpns vstart 0 k) ->
  (forall j, 0 <= j < k -> M (vpn (vstart + 4096 * j)) = range_pte pstart flags j) ->
  0 <= vstart -> vstart mod 4096 = 0 -> vstart + 4096 * n + 4095 < 2 ^ 64 ->
  0 <= pstart < 2 ^ 64 -> 0 <= flags < 2 ^ 64 -> 0 <= k <= n -> n - k < Z.of_nat fuel ->
  exists v' r F' B' M',
    map_loop fuel a vstart (vstart + 4096 * k) (w64 (pstart + 4096 * k)) (vstart + 4096 * n) flags v = Some (v', r) /\
    vm_step v0 F0 B0 a v' F' B' M' /\
    ((r = 0 /\ mapped_over M0 M' (range_vpns vstart 0 n) /\
      (forall j, 0 <= j < n -> M' (vpn (vstart + 4096 * j)) = range_pte pstart flags j) /\
      exists es, mmu v' = es ++ [FlushAll]) \/
     (r = -1 /\ exists k', 0 <= k' < n /\
        forall p, M' p = if decide (p ∈ range_vpns vstart 0 k') then 0 else M0 p)).
Proof.
  intros Hst Hov Hpte Hv Hm Hb Hp Hfl. revert k v F B M Hst Hov Hpte.
  induction fuel as [|fuel IH]; intros k v F B M Hst Hov Hpte Hk Hf; [lia|].
  cbn [map_loop]. destruct (Z.ltb_spec (vstart + 4096 * k) (vstart + 4096 * n)) as [Hlt|Hge].
  2:{ assert (k = n) as -> by lia. exists (event FlushAll v), 0, F, B, M.
      split_and!; [done|by apply vm_step_flush|]. left. split_and!; try done. by exists (mmu v). }
  assert (0 <= w64 (pstart + 4096 * k) < 2 ^ 64) as Hpa by (by apply wrap_range).
  destruct (map_no_flush_spec a (vstart + 4096 * k) (w64 (pstart + 4096 * k)) flags v F B M
    (vs_repr _ _ _ _ _ _ _ _ Hst) ltac:(lia) Hpa Hfl) as (v1 & r & F1 & B1 & -> & _ & Hres).
  destruct Hres as [[-> Hs1]|(-> & Hnp & Hs1)].
  - (* failure: undo the pages mapped so far *)
    cbn [Z.eqb]. replace (w64 (vstart + 4096 * k - vstart)) with (4096 * k) by (rewrite wrap_small; lia).
    pose proof (vm_step_trans _ _ _ _ _ _ _ _ _ _ _ _ Hst Hs1) as Hst1.
    assert (exists v' B', (exists r', vmm_unmap_range a vstart (4096 * k) v1 = Some (v', r')) /\
      vm_step v0 F0 B0 a v' F1 B' (unmapped M (range_vpns vstart 0 k))) as (v' & B' & [r' ->] & Hst').
    { destruct (decide (k = 0)) as [->|Hk0].
      - exists v1, B1. split.
        + exists (-1). unfold vmm_unmap_range. rewrite Z.mul_0_r, orb_true_r. done.
        + eapply vm_step_ext; [|exact Hst1]. intros p. unfold unmapped. by rewrite decide_False by set_solver.
      - destruct (unmap_range_spec a vstart k v0 F0 B0 v1 F1 B1 M Hst1) as (v' & B' & -> & Hst' & _); [lia..|].
        exists v', B'. eauto. }
    cbn [mbind option_bind]. eexists v', (-1), F1, B', _. split; [done|]. split; [exact Hst'|]. right. split; [done|].
    exists k. split; [lia|]. intros p. unfold unmapped. destruct Hov as [Hov1 Hov2]. case_decide as Hin.
    + destruct (Hov1 p Hin) as [_ ->]. done.
    + by apply Hov2.
  - cbn [Z.eqb]. rewrite wrap_small by (unfold PAGE_SIZE; lia).
    replace (vstart + 4096 * k + PAGE_SIZE) with (vstart + 4096 * (k + 1)) by (unfold PAGE_SIZE; lia).
    replace (w64 (w64 (pstart + 4096 * k) + PAGE_SIZE)) with (w64 (pstart + 4096 * (k + 1))).
    2:{ unfold wrap, PAGE_SIZE. rewrite Zplus_mod_idemp_l. f_equal. lia. }
    fold (range_pte pstart flags k) in Hs1. destruct Hov as [Hov1 Hov2].
    assert (vpn (vstart + 4096 * k) ∉ range_vpns vstart 0 k) as Hfresh.
    { intros Hin. destruct (Hov1 _ Hin) as [_ E]. congruence. }
    apply (IH (k + 1) v1 F1 B1 (<[vpn (vstart + 4096 * k) := range_pte pstart flags k]> M)).
    + by eapply vm_step_trans.
    + split; intros p; rewrite range_vpns_snoc, elem_of_app, list_elem_of_singleton by lia.
      * intros [Hin| ->].
        -- rewrite fn_lookup_insert_ne by (by intros <-). by apply Hov1.
        -- rewrite fn_lookup_insert. split; [by rewrite <- Hov2|]. apply present_lor.
      * intros Hn. rewrite fn_lookup_insert_ne by naive_solver. apply Hov2. naive_solver.
    + intros j Hj. destruct (decide (j = k)) as [->|Hne]; [by rewrite fn_lookup_insert|].
      rewrite fn_lookup_insert_ne; [apply Hpte; lia|]. intros E. apply Hfresh. rewrite E.
      apply list_elem_of_fmap. exists j. split; [done|]. apply elem_of_seqZ. lia.
    + lia.
    + lia.
Qed.

End Range.
