(* ===== verification/VmmClaims.v ===== *)
(** * The virtual memory manager: main theorems *)
From S2P Require Import Prelude Memory PageAlloc Slab Pmm Klib KlibSpec.
From S2P Require Import Vmm VmmProofs VmmSpec VmmRange Buddy BuddyProofs BuddySpec HeapClaims.
Import Buddy Slab Pmm Klib Vmm.

Section Claims.
Context `{Hhdm} `{Linker} {P : Type} `{!PageAllocator P}.

Implicit Types v : vmm P.

(** The flushing operations are the plain ones followed by INVLPG. *)
Lemma map_page_flush a va pa flags v :
  vmm_map_page a va pa flags v =
  (let '(v', r) := vmm_map_page_no_flush a va pa flags v in
   (if r =? 0 then event (FlushPage (vmm_page_align_down va)) v' else v', r)).
Proof.
  unfold vmm_map_page, vmm_map_page_no_flush. destruct (a =? 0); [done|].
  destruct (vmm_walk_page_table _ _ _ _) as [v1 e]. destruct (e =? 0); [done|].
  by destruct (present _).
Qed.

Lemma unmap_page_flush a va v :
  vmm_unmap_page a va v =
  (let '(v', r) := vmm_unmap_page_no_flush a va v in
   (if r =? 0 then event (FlushPage (vmm_page_align_down va)) v' else v', r)).
Proof.
  unfold vmm_unmap_page, vmm_unmap_page_no_flush. destruct (a =? 0); [done|].
  destruct (vmm_walk_page_table _ _ _ _) as [v1 e]. destruct (e =? 0); [done|].
  by destruct (present _).
Qed.

Lemma virt_to_phys_spec a va v F B M :
  space_repr v F B a M -> 0 <= va ->
  vmm_virt_to_phys a va v =
  if present (M (vpn va)) then Z.lor (PTE_ADDR (M (vpn va))) (PAGE_OFFSET va) else 0.
Proof.
  intros (root & T & Hs & HB & HM) Hva. unfold vmm_virt_to_phys.
  rewrite (proj2 (Z.eqb_neq a 0)) by apply Hs. rewrite (walk_find v F a root T) by done.
  rewrite HM by done. destruct (Z.eqb_spec (pte_addr T va) 0) as [E|E].
  - by rewrite (pte_addr_absent _ _ _ _ _ _ (so_vm _ _ _ _ _ Hs) E).
  - rewrite pte_addr_load by done. by destruct (present _).
Qed.

(** C11. [vmm_map_page] refines one update of the page map.  It fails (-1) when
    the page is already present or a table cannot be allocated, and then no
    mapping changes; otherwise exactly the entry of the page becomes
    [paddr | flags | PRESENT] and the page is flushed from the TLB.  Page-table
    tree, descriptor and allocator stay in order, tables come from free memory,
    and memory outside free memory and the address space is untouched. *)
Theorem vmm_map_page_correct a va pa flags v F B M :
  space_repr v F B a M -> 0 <= va -> 0 <= pa < 2 ^ 64 -> 0 <= flags < 2 ^ 64 ->
  exists v' r F' B', vmm_map_page a va pa flags v = (v', r) /\
    ((r = -1 /\ vm_step v F B a v' F' B' M) \/
     (r = 0 /\ present (M (vpn va)) = false /\ mmu v' = mmu v ++ [FlushPage (vmm_page_align_down va)] /\
      vm_step v F B a v' F' B'
        (<[vpn va := Z.lor (Z.lor (vmm_page_align_down pa) flags) PTE_PRESENT]> M))).
Proof.
  intros Hr Hva Hpa Hfl. rewrite map_page_flush.
  destruct (map_no_flush_spec a va pa flags v F B M Hr Hva Hpa Hfl)
    as (v' & r & F' & B' & -> & Em & [[-> Hs]|(-> & Hnp & Hs)]).
  - exists v', (-1), F', B'. split; [done|]. by left.
  - eexists _, 0, F', B'. split; [done|]. right. split_and!; try done; [simpl; by rewrite Em|].
    by apply vm_step_flush.
Qed.

(** [vmm_unmap_page] clears exactly the entry of the page and flushes it, or
    reports -1 and changes nothing when the page is not mapped. *)
Theorem vmm_unmap_page_correct a va v F B M :
  space_repr v F B a M -> 0 <= va ->
  exists v' r B', vmm_unmap_page a va v = (v', r) /\
    ((r = -1 /\ present (M (vpn va)) = false /\ v' = v) \/
     (r = 0 /\ present (M (vpn va)) = true /\ mmu v' = mmu v ++ [FlushPage (vmm_page_align_down va)] /\
      vm_step v F B a v' F B' (<[vpn va := 0]> M))).
Proof.
  intros Hr Hva. rewrite unmap_page_flush.
  destruct (unmap_no_flush_spec a va v F B M Hr Hva) as (v' & r & B' & -> & Em & [(-> & Hnp & ->)|(-> & Hp & Hs)]).
  - exists v, (-1), B'. split; [done|]. by left.
  - eexists _, 0, B'. split; [done|]. right. split_and!; try done; [simpl; by rewrite Em|].
    by apply vm_step_flush.
Qed.

(** The address an entry for the frame [pa] translates [vb] to. *)
Lemma pte_translate pa flags vb :
  0 <= pa < 2 ^ 52 -> pa mod 4096 = 0 -> PTE_ADDR flags = 0 ->
  Z.lor (PTE_ADDR (Z.lor (Z.lor pa flags) PTE_PRESENT)) (PAGE_OFFSET vb) = pa + vb mod 4096.
Proof.
  intros Hpa Hal Hf. rewrite !PTE_ADDR_lor, Hf, PTE_ADDR_aligned by done.
  change (PTE_ADDR PTE_PRESENT) with 0. rewrite !Z.lor_0_r. unfold PAGE_OFFSET.
  change 0xFFF with (2 ^ 12 - 1). rewrite land_pow2_pred by lia. change (2 ^ 12) with 4096.
  pose proof (Z.mod_pos_bound vb 4096 ltac:(lia)).
  assert (pa = pa / 4096 * 4096) as Ea by (pose proof (Z.div_mod pa 4096); lia).
  rewrite Z.add_nocarry_lxor, <- Z.lxor_lor; [done| |].
  all: apply Z.bits_inj'; intros k Hk; rewrite Z.land_spec, Z.bits_0, Ea.
  all: change 4096 with (2 ^ 12); rewrite <- Z.shiftl_mul_pow2, <- Z.land_ones by lia.
  all: destruct (Z.lt_ge_cases k 12); [rewrite Z.shiftl_spec_low by lia; done|].
  all: rewrite Z.land_spec, Z.ones_spec_high, andb_false_r, andb_false_r by lia; done.
Qed.

(** C13. Map then translate: after a successful [vmm_map_page] of a frame below
    2^52 with flags outside the address field, every address of the page
    translates to the same offset in the frame, and every other page
    translates as before. *)
Theorem vmm_map_translate a va pa flags v F B M v' :
  space_repr v F B a M -> 0 <= va -> 0 <= pa < 2 ^ 52 -> 0 <= flags < 2 ^ 64 -> PTE_ADDR flags = 0 ->
  vmm_map_page a va pa flags v = (v', 0) ->
  forall vb, 0 <= vb ->
    (vpn vb = vpn va -> vmm_virt_to_phys a vb v' = vmm_page_align_down pa + vb mod 4096) /\
    (vpn vb <> vpn va -> vmm_virt_to_phys a vb v' = vmm_virt_to_phys a vb v).
Proof.
  intros Hr Hva Hpa Hfl Hf0 E vb Hvb. rewrite map_page_flush in E.
  destruct (map_no_flush_spec a va pa flags v F B M Hr Hva ltac:(lia) Hfl)
    as (v1 & r & F' & B' & E1 & _ & [[-> Hs]|(-> & Hnp & Hs)]); rewrite E1 in E; [done|].
  assert (v' = event (FlushPage (vmm_page_align_down va)) v1) as -> by (by inversion E).
  clear E E1. apply (vm_step_flush _ _ _ _ _ _ _ _ (FlushPage (vmm_page_align_down va))) in Hs; [|done].
  split; intros Ev; rewrite (virt_to_phys_spec a vb _ F' B' _ (vs_repr _ _ _ _ _ _ _ _ Hs) Hvb).
  - pose proof (align_down_range pa ltac:(lia)). rewrite Ev, fn_lookup_insert, present_lor.
    apply pte_translate; [lia| |done]. rewrite align_down_spec.
    replace (pa - pa mod 4096) with (pa / 4096 * 4096) by (pose proof (Z.div_mod pa 4096); lia). by apply Z.mod_mul.
  - rewrite fn_lookup_insert_ne by congruence. by rewrite (virt_to_phys_spec a vb v F B M Hr Hvb).
Qed.


(** [vmm_is_mapped] is true exactly for the mapped addresses, except the
    first byte of a page mapped to physical frame 0, which it reports as
    unmapped. *)
Theorem vmm_is_mapped_exact a va v F B M :
  space_repr v F B a M -> 0 <= va ->
  vmm_is_mapped a va v = true <->
  present (M (vpn va)) = true /\ (PTE_ADDR (M (vpn va)) <> 0 \/ va mod 4096 <> 0).
Proof.
  intros Hr Hva. unfold vmm_is_mapped. rewrite (virt_to_phys_spec a va v F B M Hr Hva).
  destruct (present (M (vpn va))); [|by split; [|intros [? _]]].
  rewrite negb_true_iff, Z.eqb_neq, Z.lor_eq_0_iff. unfold PAGE_OFFSET.
  change 0xFFF with (2 ^ 12 - 1). rewrite land_pow2_pred by lia. change (2 ^ 12) with 4096.
  destruct (decide (PTE_ADDR (M (vpn va)) = 0)), (decide (va mod 4096 = 0)); tauto.
Qed.

(** A new tree: one zeroed table. *)
Lemma fresh_space v F a p :
  pa_inv (v_mem v) (h_pages (v_heap v)) F -> table_page F p -> a <> 0 ->
  as_pml4 (v_mem v) a = p + hhdm_offset ->
  (forall i, 0 <= i < 512 -> load 8 (v_mem v) (entry_addr (p + hhdm_offset) i) = 0) ->
  (forall x, in_range a 24 x -> ~ image F x /\ ~ in_range (p + hhdm_offset) 4096 x) ->
  space_repr v F (space_bytes a {[ [] := p ]}) a (fun _ => 0).
Proof.
  intros Hpa Hp Ha Epml Hz Hap. exists p, {[ [] := p ]}. split_and!; try done.
  - split; try done.
    + split; try done.
      * intros pi t [<- _]%lookup_singleton_Some. simpl. lia.
      * intros pi i t [E _]%lookup_singleton_Some. by destruct pi.
      * intros pi t i [<- <-]%lookup_singleton_Some _ Hi. rewrite lookup_singleton_ne by done.
        unfold child. by rewrite Hz.
      * intros pi pi' t [<- _]%lookup_singleton_Some [<- _]%lookup_singleton_Some. done.
      * intros pi t [_ <-]%lookup_singleton_Some. done.
    + intros x Hx. destruct (Hap x Hx) as [? Hn]. split; [done|].
      intros (pi & t & [_ <-]%lookup_singleton_Some & Hr). done.
  - intros va Hva. unfold va_pte, pte_at. by rewrite lookup_singleton_ne.
Qed.

End Claims.

Lemma region_pages_low e x :
  region_pages e x -> 0 <= e_base e < 2 ^ 64 - 4096 -> e_base e <= x.
Proof.
  intros [Hx _] He. destruct (page_round_up_spec (e_base e)) as [_ Hr]; [lia|]. lia.
Qed.

(** ** Witnesses: an empty address space on the demo machine *)

#[local] Existing Instance qemu_hhdm.
#[local] Existing Instance demo_linker.

Definition demo_pml4 : Z := 0x50000.

Definition demo_vmm_of (r : mem * buddy_state) : vmm buddy_state :=
  let m := memset r.1 (demo_pml4 + hhdm_offset) 0 4096 in
  mk_vmm (mk_heap (set_as_pml4 m 0x1000 (demo_pml4 + hhdm_offset)) r.2 slab_allocator_init) 0 0 0 [].

Definition demo_vmm : option (vmm buddy_state) :=
  demo_vmm_of <$> buddy_allocator_init demo_map ∅ buddy_boot.

Lemma demo_space :
  exists v F B, demo_vmm = Some v /\ space_repr v F B 0x1000 (fun _ => 0).
Proof.
  destruct (buddy_init_spec demo_map (mk_entry 0 0x9f000 0)
    [mk_entry 0x100000 0x10000 0; mk_entry 0x200800 0x9000 0] ∅) as (m & st & G & E & Hok & HF);
    [reflexivity|simpl; lia|apply demo_regions|apply demo_regions|].
  assert (forall x, buddy_free st G x -> 0x100000 <= x) as Hlow.
  { intros x Hx. apply (HF x) in Hx as (e & He & Hr).
    apply elem_of_cons in He as [->|[->|He%not_elem_of_nil]%elem_of_cons]; [| |exfalso; exact He];
      apply region_pages_low in Hr; cbn [e_base] in *; lia. }
  exists (demo_vmm_of (m, st)), (buddy_free st G), (space_bytes 0x1000 {[ [] := demo_pml4 ]}). split.
  { unfold demo_vmm. rewrite E. reflexivity. }
  set (m1 := memset m (demo_pml4 + hhdm_offset) 0 4096).
  assert (v_mem (demo_vmm_of (m, st)) = store 8 m1 0x1000 (demo_pml4 + hhdm_offset)) as Em by reflexivity.
  apply fresh_space.
  - rewrite Em. apply (pa_inv_agree m).
    + transitivity m1; [|apply agree_store].
      * eapply agree_sub; [by apply memset_outside|]. intros x Hx Hr. apply Hlow in Hx.
        unfold in_range, demo_pml4, hhdm_offset, qemu_hhdm in *. lia.
      * intros x Hx Hr. apply Hlow in Hx. unfold in_range, hhdm_offset, qemu_hhdm in *. lia.
    + exists G. split; [exact Hok|reflexivity].
  - split; [unfold demo_pml4; lia|]. split; [reflexivity|]. split; [vm_compute; congruence|].
    intros x Hx Hf. apply Hlow in Hf. unfold in_range, demo_pml4 in *. lia.
  - lia.
  - rewrite Em. unfold as_pml4. apply load8_store8. vm_compute. split; congruence.
  - intros i Hi. rewrite Em, load_store_ne.
    + apply memset0_load; unfold entry_addr; lia.
    + unfold entry_addr, demo_pml4, hhdm_offset, qemu_hhdm. lia.
  - intros x Hx. unfold in_range in *. split.
    + intros Hf. apply Hlow in Hf. unfold hhdm_offset, qemu_hhdm in *. lia.
    + unfold demo_pml4, hhdm_offset, qemu_hhdm. lia.
Qed.

(** A run on the demo address space, for evaluation. *)
Lemma demo_vmm_eq {A} (f : vmm buddy_state -> A) v a :
  demo_vmm = Some v -> f <$> demo_vmm = Some a -> f v = a.
Proof. intros ->. by intros [= ->]. Qed.

Lemma vmm_map_page_witness :
  exists v v' F' B' M', vmm_map_page 0x1000 0x400123 0x7000 6 v = (v', 0) /\
    space_repr v' F' B' 0x1000 M' /\ M' (vpn 0x400000) = 0x7007.
Proof.
  destruct demo_space as (v & F & B & E & Hr).
  assert ((fun v => (vmm_map_page 0x1000 0x400123 0x7000 6 v).2) v = 0) as Er.
  { apply (demo_vmm_eq (fun v => (vmm_map_page 0x1000 0x400123 0x7000 6 v).2) v 0 E). vm_compute. reflexivity. }
  destruct (vmm_map_page_correct 0x1000 0x400123 0x7000 6 v F B (fun _ => 0) Hr)
    as (v' & r & F' & B' & Em & Hres); [lia|lia|lia|].
  cbv beta in Er. rewrite Em in Er. cbn [snd] in Er. subst r.
  destruct Hres as [[? _]|(_ & _ & _ & Hs)]; [discriminate|].
  exists v, v', F', B'. eexists. split; [exact Em|]. split; [exact (vs_repr _ _ _ _ _ _ _ _ Hs)|].
  vm_compute. reflexivity.
Defined.

Lemma vmm_unmap_page_witness :
  exists v, vmm_unmap_page 0x1000 0x400123 v = (v, -1).
Proof.
  destruct demo_space as (v & F & B & E & Hr). exists v.
  destruct (vmm_unmap_page_correct 0x1000 0x400123 v F B (fun _ => 0) Hr) as (v' & r & B' & Em & Hres); [lia|].
  destruct Hres as [(-> & _ & ->)|(_ & Hp & _)]; [exact Em|discriminate].
Defined.

Lemma vmm_map_translate_witness :
  exists v v', vmm_map_page 0x1000 0x400123 0x7000 6 v = (v', 0) /\
    vmm_virt_to_phys 0x1000 0x400456 v' = 0x7456.
Proof.
  destruct demo_space as (v & F & B & E & Hr).
  assert ((fun v => (vmm_map_page 0x1000 0x400123 0x7000 6 v).2) v = 0) as Er.
  { apply (demo_vmm_eq (fun v => (vmm_map_page 0x1000 0x400123 0x7000 6 v).2) v 0 E). vm_compute. reflexivity. }
  cbv beta in Er. destruct (vmm_map_page 0x1000 0x400123 0x7000 6 v) as [v' r] eqn:Em.
  cbn [snd] in Er. subst r. exists v, v'. split; [exact Em|].
  destruct (vmm_map_translate 0x1000 0x400123 0x7000 6 v F B (fun _ => 0) v' Hr) with (vb := 0x400456)
    as [Ht _]; [lia|lia|lia|reflexivity|exact Em|lia|].
  apply Ht. reflexivity.
Defined.


Lemma vmm_is_mapped_witness :
  exists v, vmm_is_mapped 0x1000 0x400123 v <> true.
Proof.
  destruct demo_space as (v & F & B & E & Hr). exists v.
  intros Hm. apply (vmm_is_mapped_exact 0x1000 0x400123 v F B (fun _ => 0) Hr) in Hm; [|lia].
  destruct Hm as [Hp _]. discriminate Hp.
Defined.
