(* ===== verification/Memmgr.v ===== *)
(** * The task memory manager: operations

    Models src/kernel/kernel/memmgr/memmgr.c and memmgr.h on top of the virtual
    memory manager and [kmalloc].  A descriptor and its list of regions live in
    the byte memory; 0 is NULL; list walks take fuel. *)
From S2P Require Import Prelude Memory PageAlloc Slab Pmm Klib Vmm.
Import Slab Pmm Klib Vmm.

Module Memmgr.

Definition STACK_SIZE : Z := 8 * 1024 * 1024.
Definition STACK_TOP : Z := 0x00007FFFFFFFFFFF.
Definition HEAP_GROW_SIZE : Z := 64 * 1024.
Definition HEAP_GROW_ORDER : nat := 4.
Definition HEAP_SIZE : Z := 1024 * 1024 * 1024.
Definition GUARD_SIZE : Z := PAGE_SIZE.

Definition PF_WRITE : Z := Z.shiftl 1 1.
Definition PF_INSTR : Z := Z.shiftl 1 4.

Definition RP_READ : Z := Z.shiftl 1 0.
Definition RP_WRITE : Z := Z.shiftl 1 1.
Definition RP_EXEC : Z := Z.shiftl 1 2.
Definition RP_HEAP : Z := Z.shiftl 1 3.
Definition RP_STACK : Z := Z.shiftl 1 4.

(** struct mem_region: { start, end, flags, next } *)
Definition sizeof_mem_region : Z := 32.
Definition r_start (m : mem) (r : Z) : Z := load 8 m r.
Definition r_end (m : mem) (r : Z) : Z := load 8 m (r + 8).
Definition r_flags (m : mem) (r : Z) : Z := load 8 m (r + 16).
Definition r_next (m : mem) (r : Z) : Z := load 8 m (r + 24).

(** struct mem_descriptor: { as, regions, brk, mmap_base, total_vm, rss } *)
Definition sizeof_mem_descriptor : Z := 48.
Definition mm_as (m : mem) (d : Z) : Z := load 8 m d.
Definition mm_regions (m : mem) (d : Z) : Z := load 8 m (d + 8).
Definition mm_brk (m : mem) (d : Z) : Z := load 8 m (d + 16).
Definition set_mm_regions (m : mem) (d v : Z) : mem := store 8 m (d + 8) v.
Definition set_mm_brk (m : mem) (d v : Z) : mem := store 8 m (d + 16) v.

Section Ops.
Context `{Hhdm} `{Linker} {P : Type} `{!PageAllocator P}.

Implicit Types v : vmm P.

(** The result of [kmalloc] is used without a NULL test. *)
Definition mm_add_region (fuel : nat) (mm start stop flags : Z) v : option (vmm P * Z) :=
  if (mm =? 0) || (stop <=? start) then Some (v, -1) else
  '(h, region) ← kmalloc fuel sizeof_mem_region (v_heap v);
  let m := store 8 (h_mem h) region start in
  let m := store 8 m (region + 8) stop in
  let m := store 8 m (region + 16) flags in
  let m := store 8 m (region + 24) (mm_regions m mm) in
  let m := set_mm_regions m mm region in
  Some (set_heap v (set_mem h m), 0).

(** [struct mem_region **current]: the address of the link being followed. *)
Fixpoint remove_region_loop (fuel : nat) (cur start stop : Z) v : option (vmm P * Z) :=
  match fuel with
  | O => None
  | S fuel =>
    let m := v_mem v in
    let r := load 8 m cur in
    if r =? 0 then Some (v, -1)
    else if (r_start m r =? start) && (r_end m r =? stop) then
      let v := set_vmem v (store 8 m cur (r_next m r)) in
      '(h, _) ← kfree r (v_heap v);
      Some (set_heap v h, 0)
    else remove_region_loop fuel (r + 24) start stop v
  end.

Definition mm_remove_region (fuel : nat) (mm start stop : Z) v : option (vmm P * Z) :=
  if (mm =? 0) || (stop <=? start) then Some (v, -1)
  else remove_region_loop fuel (mm + 8) start stop v.

Fixpoint find_region_loop (fuel : nat) (m : mem) (region vaddr : Z) : option Z :=
  match fuel with
  | O => None
  | S fuel =>
    if region =? 0 then Some 0
    else if (r_start m region <=? vaddr) && (vaddr <=? r_end m region) then Some region
    else find_region_loop fuel m (r_next m region) vaddr
  end.

Definition mm_find_region (fuel : nat) (mm vaddr : Z) v : option Z :=
  if mm =? 0 then Some 0 else find_region_loop fuel (v_mem v) (mm_regions (v_mem v) mm) vaddr.

Definition mm_alloc (fuel : nat) v : option (vmm P * Z) :=
  '(h, d) ← kmalloc fuel sizeof_mem_descriptor (v_heap v);
  '(v, a) ← vmm_create_address_space fuel (set_heap v h);
  if a =? 0 then Some (v, 0) else
  let m := store 8 (v_mem v) d a in
  let m := store 8 m (d + 8) 0 in
  let m := store 8 m (d + 16) 0 in
  let m := store 8 m (d + 24) 0 in
  let m := store 8 m (d + 32) 0 in
  let m := store 8 m (d + 40) 0 in
  Some (set_vmem v m, d).

Fixpoint free_regions (fuel : nat) (current : Z) v : option (vmm P) :=
  match fuel with
  | O => None
  | S fuel =>
    if current =? 0 then Some v else
    let next := r_next (v_mem v) current in
    '(h, _) ← kfree current (v_heap v);
    free_regions fuel next (set_heap v h)
  end.

Definition mm_free (fuel : nat) (mm : Z) v : option (vmm P) :=
  if mm =? 0 then Some v else
  v ← vmm_destroy_address_space (mm_as (v_mem v) mm) v;
  v ← free_regions fuel (mm_regions (v_mem v) mm) v;
  let v := set_vmem v (set_mm_regions (v_mem v) mm 0) in
  '(h, _) ← kfree mm (v_heap v);
  Some (set_heap v h).

(** The addresses [mm_setup_executable] computes, in the order of its calls:
    code, data, heap, heap guard, stack guard, stack. *)
Definition exec_layout (code_start code_end data_end : Z) : list (Z * Z * Z) :=
  let data_start := Z.land (w64 (code_end + PAGE_SIZE - 1)) (Z.lnot (PAGE_SIZE - 1)) in
  let heap_start := Z.land (w64 (data_end + PAGE_SIZE - 1)) (Z.lnot (PAGE_SIZE - 1)) in
  let heap_end := w64 (heap_start + HEAP_SIZE - 1) in
  let guard_heap := w64 (heap_end + GUARD_SIZE) in
  let stack_top := STACK_TOP in
  let stack_bottom := stack_top - STACK_SIZE + 1 in
  let guard_stack := stack_bottom - GUARD_SIZE in
  [ (code_start, code_end, Z.lor RP_READ RP_EXEC);
    (data_start, data_end, Z.lor RP_READ RP_WRITE);
    (heap_start, heap_end, Z.lor (Z.lor RP_READ RP_WRITE) RP_HEAP);
    (w64 (heap_end + 1), guard_heap, 0);
    (guard_stack, stack_bottom - 1, 0);
    (stack_bottom, stack_top, Z.lor (Z.lor RP_READ RP_WRITE) RP_STACK) ].

Fixpoint add_regions (fuel : nat) (mm : Z) (rs : list (Z * Z * Z)) v : option (vmm P) :=
  match rs with
  | [] => Some v
  | (s, e, f) :: rs => '(v, _) ← mm_add_region fuel mm s e f v; add_regions fuel mm rs v
  end.

(** [mm->brk] is set between the data region and the heap region. *)
Definition mm_setup_executable (fuel : nat) (mm code_start code_end data_end : Z) v
    : option (vmm P * Z) :=
  let rs := exec_layout code_start code_end data_end in
  let heap_start := Z.land (w64 (data_end + PAGE_SIZE - 1)) (Z.lnot (PAGE_SIZE - 1)) in
  v ← add_regions fuel mm (take 2 rs) v;
  let v := set_vmem v (set_mm_brk (v_mem v) mm heap_start) in
  v ← add_regions fuel mm (drop 2 rs) v;
  Some (v, 0).

Definition mm_check_access (fuel : nat) (mm addr access_flags : Z) v : option bool :=
  region ← mm_find_region fuel mm addr v;
  if region =? 0 then Some false else
  if r_flags (v_mem v) region =? 0 then Some false else
  Some (Z.land (r_flags (v_mem v) region) access_flags =? access_flags).

Definition user_page_flags : Z := Z.lor (Z.lor (Z.lor PTE_PRESENT PTE_WRITABLE) PTE_USER) PTE_NX.

Definition mm_expand_stack (mm fault_addr : Z) v : vmm P * Z :=
  let '(h, phys_page) := pmm_alloc_page (v_heap v) in
  let v := set_heap v h in
  if phys_page =? 0 then (v, -1)
  else vmm_map_page (mm_as (v_mem v) mm) fault_addr phys_page user_page_flags v.

Definition mm_expand_heap (mm fault_addr : Z) v : option (vmm P * Z) :=
  if fault_addr <? mm_brk (v_mem v) mm then Some (v, 0) else
  let grow_start := mm_brk (v_mem v) mm in
  let '(m, pg, phys_start) := alloc_pages HEAP_GROW_ORDER (h_mem (v_heap v)) (h_pages (v_heap v)) in
  let v := set_heap v (mk_heap m pg (h_caches (v_heap v))) in
  if phys_start =? 0 then Some (v, -1) else
  '(v, ret) ← vmm_map_range (mm_as (v_mem v) mm) grow_start phys_start HEAP_GROW_SIZE user_page_flags v;
  v ← (if negb (ret =? 0) then
         '(m, pg) ← free_pages phys_start HEAP_GROW_ORDER (h_mem (v_heap v)) (h_pages (v_heap v));
         Some (set_heap v (mk_heap m pg (h_caches (v_heap v))))
       else Some v);
  Some (set_vmem v (set_mm_brk (v_mem v) mm (w64 (grow_start + HEAP_GROW_SIZE))), ret).

Definition err_code_to_access_flags (error_code : Z) : Z :=
  if negb (Z.land error_code PF_INSTR =? 0) then RP_EXEC
  else if negb (Z.land error_code PF_WRITE =? 0) then RP_WRITE
  else RP_READ.

(** The descriptor is the constant NULL in the source. *)
Definition mm_page_fault_handler (fuel : nat) (fault_addr error_code : Z) v : option (vmm P) :=
  let mm := 0 in
  let access_flags := err_code_to_access_flags error_code in
  ok ← mm_check_access fuel mm fault_addr access_flags v;
  if negb ok then Some v else
  region ← mm_find_region fuel mm fault_addr v;
  if negb (Z.land (r_flags (v_mem v) region) RP_STACK =? 0) then
    Some (mm_expand_stack mm fault_addr v).1
  else if negb (Z.land (r_flags (v_mem v) region) RP_HEAP =? 0) then
    '(v, _) ← mm_expand_heap mm fault_addr v; Some v
  else Some v.

End Ops.

End Memmgr.
