(* ===== verification/MemmgrSpec.v ===== *)
(** * The task memory manager: correctness

    The region list of a descriptor as a list of closed intervals with flags,
    the lookup and insertion on it, the layout of an executable, and the
    behaviour of the growth and fault paths. *)
From S2P Require Import Prelude Memory PageAlloc Chain Slab SlabProofs SlabHeap SlabSpec Pmm.
From S2P Require Import KmallocSpec HeapClaims Klib Vmm VmmRange Memmgr Buddy BuddyProofs BuddySpec.
Import Buddy Slab Pmm Klib Vmm Memmgr.

(** A region node at [a]: start, end, flags. *)
Definition region_node (m : mem) (a : Z) (r : Z * Z * Z) : Prop :=
  r_start m a = r.1.1 /\ r_end m a = r.1.2 /\ r_flags m a = r.2.

(** The regions [rs] of descriptor [mm], at the nodes [l]. *)
Definition regions_at (m : mem) (mm : Z) (l : list Z) (rs : list (Z * Z * Z)) : Prop :=
  lchain 24 m (Memmgr.mm_regions m mm) l /\ Forall2 (region_node m) l rs.

Definition covers (vaddr : Z) (r : Z * Z * Z) : bool := (r.1.1 <=? vaddr) && (vaddr <=? r.1.2).

(** The node of the first region that holds [vaddr]. *)
Fixpoint first_covering (vaddr : Z) (l : list Z) (rs : list (Z * Z * Z)) : Z :=
  match l, rs with
  | a :: l, r :: rs => if covers vaddr r then a else first_covering vaddr l rs
  | _, _ => 0
  end.

Lemma find_region_loop_spec m h l rs vaddr fuel :
  lchain 24 m h l -> Forall2 (region_node m) l rs -> (length l < fuel)%nat ->
  find_region_loop fuel m h vaddr = Some (first_covering vaddr l rs).
Proof.
  intros Hc Hr. revert h fuel Hc. induction Hr as [|a r l rs (E1 & E2 & _) Hr IH]; intros h fuel Hc Hf;
    (destruct fuel as [|fuel]; [simpl in Hf; lia|]); cbn [find_region_loop first_covering].
  - simpl in Hc. by rewrite Hc.
  - destruct Hc as (-> & Hne & Hc). rewrite (proj2 (Z.eqb_neq _ _)) by done.
    rewrite E1, E2. unfold covers. destruct (_ && _); [done|]. apply IH; [done|simpl in Hf; lia].
Qed.

(** ** The layout of an executable *)

(** Closed intervals in increasing order. *)
Fixpoint ordered (rs : list (Z * Z * Z)) : Prop :=
  match rs with
  | [] => True
  | r :: rs => r.1.1 <= r.1.2 /\ match rs with [] => True | r' :: _ => r.1.2 < r'.1.1 end /\ ordered rs
  end.

Section Spec.
Context `{Hhdm} `{Linker} {P : Type} `{!PageAllocator P}.

Implicit Types v : vmm P.

Lemma round_up_lnot x : Z.land (w64 (x + PAGE_SIZE - 1)) (Z.lnot (PAGE_SIZE - 1)) = vmm_page_align_up x.
Proof. done. Qed.

(** The regions of an executable: code, data, heap, heap guard, stack guard
    and stack are non-empty, in increasing order and disjoint, and the heap
    (whose start becomes the break) begins at the first page boundary after the
    data, as long as the heap fits below the stack guard and the segments do
    not end on a page boundary. *)
Theorem exec_layout_ordered code_start code_end data_end :
  0 <= code_start < code_end -> code_end < data_end ->
  code_end mod 4096 <> 0 -> data_end mod 4096 <> 0 ->
  vmm_page_align_up code_end < data_end -> data_end < 0x7FFF00000000 ->
  ordered (exec_layout code_start code_end data_end).
Proof.
  intros H1' H0' H2' H3' H4' H5'. unfold exec_layout. rewrite !round_up_lnot.
  destruct (align_up_range code_end) as [Hc Hcm]; [lia..|].
  destruct (align_up_range data_end) as [Hd Hdm]; [lia..|].
  assert (code_end <> vmm_page_align_up code_end) by (intros E; rewrite <- E in Hcm; done).
  assert (data_end <> vmm_page_align_up data_end) by (intros E; rewrite <- E in Hdm; done).
  unfold HEAP_SIZE, GUARD_SIZE, PAGE_SIZE, STACK_TOP, STACK_SIZE.
  rewrite !(wrap_small 64) by (repeat rewrite (wrap_small 64) by lia; lia).
  simpl. lia.
Qed.

(** ** Access checks *)

(** [mm_check_access] terminates and grants an access exactly when the first
    region of the list that holds the address is not a guard and allows every
    requested kind of access. *)
Theorem mm_check_access_correct mm addr access v l rs fuel :
  mm <> 0 -> regions_at (v_mem v) mm l rs -> (length l < fuel)%nat ->
  mm_check_access fuel mm addr access v =
  Some (match find (covers addr) rs with
        | Some r => negb (r.2 =? 0) && (Z.land r.2 access =? access)
        | None => false
        end).
Proof.
  intros Hmm [Hc Hr] Hf. unfold mm_check_access, mm_find_region.
  rewrite (proj2 (Z.eqb_neq mm 0)) by done. rewrite (find_region_loop_spec _ _ l rs) by done.
  cbn [mbind option_bind]. clear Hf. revert Hc. generalize (Memmgr.mm_regions (v_mem v) mm).
  induction Hr as [|a r l rs (_ & _ & E3) Hr IH]; intros hd Hc; [done|].
  destruct Hc as (-> & Hne & Hc). cbn [first_covering find]. destruct (covers addr r).
  - rewrite (proj2 (Z.eqb_neq a 0)) by done. rewrite E3. by destruct (r.2 =? 0).
  - by eapply IH.
Qed.

(** The page-fault handler never grows a stack or a heap: the descriptor it
    looks at is the constant NULL, so it always returns without a change. *)
Theorem mm_page_fault_noop fuel fault_addr error_code v :
  mm_page_fault_handler fuel fault_addr error_code v = Some v.
Proof. done. Qed.

(** [mm_expand_heap] moves the break even when the new pages could not be
    mapped: after a failing [vmm_map_range] the pages are given back and -1 is
    returned, but the break has advanced over the unmapped pages. *)
Theorem mm_expand_heap_failure mm fault_addr v m pg p v1 m2 pg2 :
  mm_brk (v_mem v) mm <= fault_addr ->
  alloc_pages HEAP_GROW_ORDER (v_mem v) (h_pages (v_heap v)) = (m, pg, p) -> p <> 0 ->
  let v0 := set_heap v (mk_heap m pg (h_caches (v_heap v))) in
  vmm_map_range (mm_as m mm) (mm_brk (v_mem v) mm) p HEAP_GROW_SIZE user_page_flags v0 = Some (v1, -1) ->
  free_pages p HEAP_GROW_ORDER (v_mem v1) (h_pages (v_heap v1)) = Some (m2, pg2) ->
  exists v', mm_expand_heap mm fault_addr v = Some (v', -1) /\
    mm_brk (v_mem v') mm = w64 (mm_brk (v_mem v) mm + HEAP_GROW_SIZE).
Proof.
  intros Hb Ea Hp v0 Em Ef. unfold mm_expand_heap. rewrite (proj2 (Z.ltb_ge _ _)) by done.
  unfold v_mem in Ea. rewrite Ea. rewrite (proj2 (Z.eqb_neq p 0)) by done. fold v0.
  change (v_mem v0) with m. rewrite Em. cbn [mbind option_bind]. cbn [Z.eqb negb].
  unfold v_mem in Ef. rewrite Ef. cbn [mbind option_bind].
  eexists. split; [done|]. unfold mm_brk, set_mm_brk. apply load8_store8. by apply wrap_range.
Qed.

(** ** Adding a region *)

(** The node stores and the head update of [mm_add_region]. *)
Definition region_stores (m : mem) (mm p start stop flags : Z) : mem :=
  let m := store 8 m p start in
  let m := store 8 m (p + 8) stop in
  let m := store 8 m (p + 16) flags in
  let m := store 8 m (p + 24) (Memmgr.mm_regions m mm) in
  set_mm_regions m mm p.

Lemma region_stores_spec m m1 mm p start stop flags l rs :
  regions_at m mm l rs ->
  (forall a k, a ∈ l -> 0 <= k <= 24 -> load 8 m1 (a + k) = load 8 m (a + k)) ->
  load 8 m1 (mm + 8) = load 8 m (mm + 8) ->
  (forall a, a ∈ l -> (a + 32 <= p \/ p + 32 <= a) /\ (a + 32 <= mm \/ mm + 48 <= a)) ->
  mm + 48 <= p \/ p + 32 <= mm -> 0 < p < 2 ^ 64 ->
  0 <= start < 2 ^ 64 -> 0 <= stop < 2 ^ 64 -> 0 <= flags < 2 ^ 64 ->
  let m2 := region_stores m1 mm p start stop flags in
  regions_at m2 mm (p :: l) ((start, stop, flags) :: rs) /\
  agree (fun x => ~ in_range p 32 x /\ ~ in_range (mm + 8) 8 x) m1 m2.
Proof.
  intros [Hch Hns] Hkeep Hmm Hd Hmp Hp Hst Hsp Hfl m2.
  set (hd := load 8 m (mm + 8)).
  assert (m2 = store 8 (store 8 (store 8 (store 8 (store 8 m1 p start) (p + 8) stop) (p + 16) flags) (p + 24) hd)
    (mm + 8) p) as Em.
  { unfold m2, region_stores, set_mm_regions. do 2 f_equal. unfold Memmgr.mm_regions.
    rewrite !load_store_ne by lia. done. }
  assert (forall a k, a ∈ l -> 0 <= k <= 24 -> load 8 m2 (a + k) = load 8 m (a + k)) as Hold.
  { intros a k Ha Hk. rewrite <- Hkeep by done. destruct (Hd a Ha). rewrite Em, !load_store_ne by lia. done. }
  assert (forall a, a ∈ l -> load 8 m2 a = load 8 m a) as Hold0.
  { intros a Ha. rewrite <- (Z.add_0_r a). by apply Hold. }
  split.
  - split.
    + unfold Memmgr.mm_regions. rewrite Em, load8_store8 by lia. rewrite <- Em. simpl. split_and!; [done|lia|].
      rewrite Em at 2. rewrite load_store_ne, load8_store8 by (lia || apply load8_range).
      clear Hns. unfold hd. fold (Memmgr.mm_regions m mm). revert Hch. generalize (Memmgr.mm_regions m mm).
      assert (forall a, a ∈ l -> load 8 m2 (a + 24) = load 8 m (a + 24)) as Hl by (intros a Ha; by apply Hold).
      clear -Hl. induction l as [|a l IH]; intros h Hc; [done|]. destruct Hc as (-> & Hne & Hc).
      simpl. split_and!; try done. rewrite Hl by (by left). apply IH; [|done]. intros b Hb. apply Hl. by right.
    + constructor.
      * unfold region_node, r_start, r_end, r_flags. simpl. rewrite Em.
        rewrite !load_store_ne by lia. rewrite load8_store8 by lia. split; [done|]. split.
        -- rewrite load_store_ne by lia. rewrite load_store_ne by lia. by rewrite load_store_ne, load8_store8 by lia.
        -- rewrite load_store_ne by lia. by rewrite load_store_ne, load8_store8 by lia.
      * apply Forall2_same_length_lookup. split; [by eapply Forall2_length|].
        intros i a r Ha Hr. pose proof (Forall2_lookup_lr _ _ _ _ _ _ Hns Ha Hr) as (E1 & E2 & E3).
        assert (a ∈ l) as Hin by (by eapply list_elem_of_lookup_2).
        unfold region_node, r_start, r_end, r_flags in *. rewrite Hold0, !Hold by (done || lia). done.
  - rewrite Em. intros x [H1' H2']. unfold in_range in *.
    rewrite !store_read8_out; [done|unfold in_range; simpl; lia..].
Qed.

(** A request of 32 bytes belongs to class 1. *)
Lemma class_of_32 i :
  (i < NUM_SLAB_SIZES)%nat -> 32 <= nth i slab_sizes 0 -> (forall j, (j < i)%nat -> nth j slab_sizes 0 < 32) -> i = 1%nat.
Proof.
  intros Hi Hle Hmin. destruct i as [|[|i]]; [simpl in Hle; lia|done|].
  specialize (Hmin 1%nat ltac:(lia)). simpl in Hmin. lia.
Qed.

(** [mm_add_region] of a non-empty interval, when [kmalloc] serves the node
    from its size class: the new region becomes the first of the list, its node
    is a fresh object, the earlier regions and the contents of all other
    objects in use are unchanged. *)
Theorem mm_add_region_correct fuel mm start stop flags v F A l rs :
  heap_repr (v_heap v) F A -> A 2%nat mm -> (forall a, a ∈ l -> A 1%nat a) ->
  regions_at (v_mem v) mm l rs -> start < stop ->
  0 <= start < 2 ^ 64 -> 0 <= stop < 2 ^ 64 -> 0 <= flags < 2 ^ 64 ->
  kmalloc fuel sizeof_mem_region (v_heap v) = kmalloc_pages fuel sizeof_mem_region (v_heap v) \/
  exists v' p, mm_add_region fuel mm start stop flags v = Some (v', 0) /\
    ~ A 1%nat p /\ regions_at (v_mem v') mm (p :: l) ((start, stop, flags) :: rs) /\
    (forall i x, A i x -> x <> mm -> kept i x (v_mem v) (v_mem v')).
Proof.
  intros (Ls & fl & Hh & HA) Hmm Hl Hreg Hlt Hst Hsp Hfl.
  destruct (kmalloc_slab_spec fuel sizeof_mem_region (v_heap v) F Ls fl Hh)
    as (i & Hi & Hle & Hmin & [(_ & _ & _ & E)|(h' & p & F' & Ls' & fl' & Ek & Hpost)]);
    [unfold sizeof_mem_region; lia|by left|right].
  assert (i = 1%nat) as -> by (by apply class_of_32).
  destruct (repr_alloc (v_heap v) F A Ls fl 1 h' p F' Ls' fl' Hh HA Hi Hpost) as (_ & Hp0 & _ & Hap).
  assert (0 < p < 2 ^ 64) as Hp.
  { assert (live Ls' fl' 1 p) as (s & Hs & Ho & _) by (apply (ap_live _ _ _ _ _ _ _ _ _ _ Hpost); auto).
    destruct (heap_addr h' F' Ls' fl' 1 s (ap_ok _ _ _ _ _ _ _ _ _ _ Hpost) Hi Hs) as (? & ? & _).
    apply is_obj_range in Ho; [|by apply slab_sizes_ok]. simpl in Ho. lia. }
  assert (forall a, a ∈ l -> (a + 32 <= p \/ p + 32 <= a) /\ (a + 32 <= mm \/ mm + 64 <= a)) as Hd.
  { intros a Ha. specialize (Hl a Ha). split; [exact (proj1 (Hap _ _ Hl))|].
    pose proof Hl as [Hi1 Hl1]%HA. pose proof Hmm as [Hi2 Hl2]%HA.
    apply (live_disjoint (v_heap v) F Ls fl 1 2 a mm); try done. intros ->.
    by pose proof (live_cache (v_heap v) F Ls fl 1 2 mm Hh Hi1 Hi2 Hl1 Hl2). }
  pose proof (Hap _ _ Hmm) as [Hmp Hkm]. unfold apart in Hmp. simpl in Hmp.
  destruct (region_stores_spec (v_mem v) (h_mem h') mm p start stop flags l rs) as [Hreg' Hfr]; try done.
  - intros a k Ha Hk. symmetry. apply load_agree. eapply agree_sub; [exact (proj2 (Hap _ _ (Hl a Ha)))|].
    unfold in_range. simpl. lia.
  - symmetry. apply load_agree. eapply agree_sub; [exact Hkm|]. unfold in_range. simpl. lia.
  - intros a Ha. destruct (Hd a Ha). lia.
  - lia.
  - unfold mm_add_region. assert (mm <> 0) as Hmm0.
    { apply HA in Hmm as [Hi2 (s & Hs & Ho & _)]. destruct (heap_addr (v_heap v) F Ls fl 2 s Hh Hi2 Hs).
      apply is_obj_range in Ho; [lia|by apply slab_sizes_ok]. }
    rewrite (proj2 (Z.eqb_neq mm 0)) by done. rewrite (proj2 (Z.leb_gt _ _)) by done. cbn [orb].
    rewrite Ek. cbn [mbind option_bind]. eexists _, p. split; [reflexivity|]. split_and!.
    + intros HAp. apply HA in HAp as [_ ?]. by apply (ap_fresh _ _ _ _ _ _ _ _ _ _ Hpost).
    + exact Hreg'.
    + intros j x Hx Hne. unfold kept. transitivity (h_mem h'); [by apply Hap|].
      eapply agree_sub; [exact Hfr|]. intros y Hy. destruct (Hap _ _ Hx) as [Hxp _]. unfold apart in Hxp.
      change (nth 1 slab_sizes 0) with 32 in Hxp.
      pose proof Hx as [Hj Hlx]%HA. pose proof Hmm as [Hi2 Hlm]%HA.
      pose proof (live_disjoint (v_heap v) F Ls fl j 2 x mm Hh Hj Hi2 Hlx Hlm Hne) as Hxm.
      change (nth 2 slab_sizes 0) with 64 in Hxm. unfold in_range in *. lia.
Qed.

End Spec.

(** ** Witnesses *)

#[local] Existing Instance qemu_hhdm.
#[local] Existing Instance demo_linker.

Lemma exec_layout_witness :
  ordered (exec_layout 0x400000 0x40123f 0x4055ff) /\
  nth 2 (exec_layout 0x400000 0x40123f 0x4055ff) (0, 0, 0) = (0x406000, 0x40405fff, 11).
Proof.
  split; [|vm_compute; reflexivity].
  apply exec_layout_ordered; [lia|lia|vm_compute; discriminate|vm_compute; discriminate| |lia].
  vm_compute. reflexivity.
Defined.

Definition demo_mm : vmm buddy_state :=
  mk_vmm (mk_heap (region_stores ∅ 0x100 0x200 0x1000 0x1fff 3) buddy_boot []) 0 0 0 [].

Lemma mm_check_access_witness :
  mm_check_access 5 0x100 0x1234 2 demo_mm = Some true.
Proof.
  rewrite (mm_check_access_correct 0x100 0x1234 2 demo_mm [0x200] [(0x1000, 0x1fff, 3)] 5).
  - vm_compute. reflexivity.
  - lia.
  - split; [vm_compute; split; [reflexivity|split; [congruence|reflexivity]]|].
    repeat constructor.
  - simpl. lia.
Defined.

(** A machine whose descriptor at 0x100 has no address space yet. *)
Definition demo_task : vmm buddy_state := mk_vmm (default (mk_heap ∅ buddy_boot []) demo_heap) 0 0 0 [].

Lemma mm_expand_heap_witness :
  exists v', mm_expand_heap 0x100 0x5000 demo_task = Some (v', -1) /\ mm_brk (v_mem v') 0x100 = 0x10000.
Proof.
  destruct (alloc_pages HEAP_GROW_ORDER (v_mem demo_task) (h_pages (v_heap demo_task))) as [[m pg] p] eqn:Ea.
  assert (p = 0x100000) as ->.
  { assert ((alloc_pages HEAP_GROW_ORDER (v_mem demo_task) (h_pages (v_heap demo_task))).2 = 0x100000) as E
      by (vm_compute; reflexivity). rewrite Ea in E. exact E. }
  assert (mm_as m 0x100 = 0) as E0.
  { assert (mm_as (alloc_pages HEAP_GROW_ORDER (v_mem demo_task) (h_pages (v_heap demo_task))).1.1 0x100 = 0) as E
      by (vm_compute; reflexivity). rewrite Ea in E. exact E. }
  destruct (free_pages 0x100000 HEAP_GROW_ORDER m pg) as [[m2 pg2]|] eqn:Ef.
  2:{ assert (match free_pages 0x100000 HEAP_GROW_ORDER
        (alloc_pages HEAP_GROW_ORDER (v_mem demo_task) (h_pages (v_heap demo_task))).1.1
        (alloc_pages HEAP_GROW_ORDER (v_mem demo_task) (h_pages (v_heap demo_task))).1.2
        with Some _ => true | None => false end = true) as E by (vm_compute; reflexivity).
      rewrite Ea in E. cbn [fst snd] in E. rewrite Ef in E. discriminate E. }
  destruct (mm_expand_heap_failure 0x100 0x5000 demo_task m pg 0x100000
    (set_heap demo_task (mk_heap m pg (h_caches (v_heap demo_task)))) m2 pg2) as (v' & E & Hb).
  - vm_compute. congruence.
  - exact Ea.
  - discriminate.
  - rewrite E0. reflexivity.
  - exact Ef.
  - exists v'. split; [exact E|]. rewrite Hb. vm_compute. reflexivity.
Defined.

Lemma mm_add_region_witness :
  exists v F A, A 2%nat (0xffff800000100030 + 126 * 64) /\ heap_repr (v_heap v) F A /\
  (kmalloc 64 sizeof_mem_region (v_heap v) = kmalloc_pages 64 sizeof_mem_region (v_heap v) \/
   exists v' p, mm_add_region 64 (0xffff800000100030 + 126 * 64) 0x1000 0x1fff 3 v = Some (v', 0) /\
     regions_at (v_mem v') (0xffff800000100030 + 126 * 64) [p] [(0x1000, 0x1fff, 3)]).
Proof.
  destruct demo_heap_one as (h & F & _ & Hr).
  set (mm := 0xffff800000100030 + 126 * 64) in *.
  set (A := fun (j : nat) x => False \/ (j = 2%nat /\ x = mm)) in *.
  assert (A 2%nat mm) as HA by (right; split; reflexivity).
  set (h0 := set_mem h (store 8 (h_mem h) (mm + 8) 0)).
  assert (heap_repr h0 F A) as Hr0.
  { apply (repr_client h F A 2 mm); [exact Hr|exact HA|]. apply agree_store. unfold in_range. simpl. lia. }
  exists (mk_vmm h0 0 0 0 []), F, A. split; [exact HA|]. split; [exact Hr0|].
  destruct (mm_add_region_correct 64 mm 0x1000 0x1fff 3 (mk_vmm h0 0 0 0 []) F A [] [] Hr0 HA)
    as [E|(v' & p & E & _ & Hreg & _)]; try lia.
  - intros a Ha. apply not_elem_of_nil in Ha as [].
  - split; [|constructor]. unfold Memmgr.mm_regions, v_mem. cbn [v_heap h_mem h0 set_mem lchain].
    apply load8_store8. lia.
  - left. exact E.
  - right. exists v', p. split; [exact E|exact Hreg].
Defined.
