(* ===== verification/Locks.v ===== *)
(** * Atomics and locks: operations

    Models src/kernel/include/kernel/atomic.h and spinlock.h.  An atomic
    operation is a function on the value of the variable; a lock routine is a
    small program whose steps are its atomic memory operations, so that runs of
    several processors are interleavings of such steps.  The fences and
    [cpu_pause] have no effect on values; interleavings are sequentially
    consistent, which the LOCK-prefixed instructions and the fence before each
    releasing store give on x86. *)
From S2P Require Import Prelude.

Module Locks.

(** ** atomic.h

    Each operation takes the value of the variable and returns the new value,
    with its result where it has one; [int] values wrap at 32 bits, [long]
    values at 64. *)
Definition atomic_set (v val : Z) : Z := val.
Definition atomic_init (v val : Z) : Z := val.
Definition atomic_read (v : Z) : Z := v.
Definition atomic64_init (v val : Z) : Z := val.
Definition atomic64_set (v val : Z) : Z := val.
Definition atomic64_read (v : Z) : Z := v.
Definition atomic_add (val v : Z) : Z := s32 (v + val).
Definition atomic64_add (val v : Z) : Z := s64 (v + val).
Definition atomic_sub (val v : Z) : Z := s32 (v - val).
Definition atomic64_sub (val v : Z) : Z := s64 (v - val).
Definition atomic_inc (v : Z) : Z := s32 (v + 1).
Definition atomic64_inc (v : Z) : Z := s64 (v + 1).
Definition atomic_dec (v : Z) : Z := s32 (v - 1).
Definition atomic64_dec (v : Z) : Z := s64 (v - 1).

(** XADD leaves the old value in the register; the routine adds [val] to it. *)
Definition atomic_add_return (val v : Z) : Z * Z :=
  let result := v in (s32 (v + val), s32 (result + val)).
Definition atomic64_add_return (val v : Z) : Z * Z :=
  let result := v in (s64 (v + val), s64 (result + val)).
Definition atomic_sub_return (val v : Z) : Z * Z := atomic_add_return (s32 (- val)) v.
Definition atomic64_sub_return (val v : Z) : Z * Z := atomic64_add_return (s64 (- val)) v.
Definition atomic_inc_return (v : Z) : Z * Z := atomic_add_return 1 v.
Definition atomic64_inc_return (v : Z) : Z * Z := atomic64_add_return 1 v.
Definition atomic_dec_return (v : Z) : Z * Z := atomic_add_return (-1) v.
Definition atomic64_dec_return (v : Z) : Z * Z := atomic64_add_return (-1) v.

Definition atomic_inc_and_test (v : Z) : Z * bool := (s32 (v + 1), s32 (v + 1) =? 0).
Definition atomic_dec_and_test (v : Z) : Z * bool := (s32 (v - 1), s32 (v - 1) =? 0).
Definition atomic_add_negative (val v : Z) : Z * bool := (s32 (v + val), s32 (v + val) <? 0).

Definition atomic_xchg (v new_val : Z) : Z * Z := (new_val, v).
Definition atomic64_xchg (v new_val : Z) : Z * Z := (new_val, v).

(** CMPXCHG: the result is the previous value. *)
Definition atomic_cmpxchg (v old_val new_val : Z) : Z * Z :=
  (if v =? old_val then new_val else v, v).
Definition atomic64_cmpxchg (v old_val new_val : Z) : Z * Z :=
  (if v =? old_val then new_val else v, v).

(** Returns the new value, the updated [*old_val] and the success flag. *)
Definition atomic_try_cmpxchg (v old_val new_val : Z) : Z * Z * bool :=
  if v =? old_val then (new_val, old_val, true) else (v, v, false).
Definition atomic64_try_cmpxchg (v old_val new_val : Z) : Z * Z * bool :=
  if v =? old_val then (new_val, old_val, true) else (v, v, false).

(** Bit operations on an array of 64-bit words, as a bit string. *)
Definition atomic_set_bit (bit : Z) (a : Z -> Z) : Z -> Z :=
  <[Z.shiftr bit 6 := Z.setbit (a (Z.shiftr bit 6)) (Z.land bit 63)]> a.
Definition atomic_clear_bit (bit : Z) (a : Z -> Z) : Z -> Z :=
  <[Z.shiftr bit 6 := Z.clearbit (a (Z.shiftr bit 6)) (Z.land bit 63)]> a.
Definition atomic_change_bit (bit : Z) (a : Z -> Z) : Z -> Z :=
  <[Z.shiftr bit 6 := Z.lxor (a (Z.shiftr bit 6)) (2 ^ Z.land bit 63)]> a.
Definition test_bit (bit : Z) (a : Z -> Z) : Z :=
  Z.land (Z.shiftr (a (Z.shiftr bit 6)) (Z.land bit 63)) 1.
Definition atomic_test_and_set_bit (bit : Z) (a : Z -> Z) : (Z -> Z) * Z :=
  (atomic_set_bit bit a, test_bit bit a).
Definition atomic_test_and_clear_bit (bit : Z) (a : Z -> Z) : (Z -> Z) * Z :=
  (atomic_clear_bit bit a, test_bit bit a).
Definition atomic_test_and_change_bit (bit : Z) (a : Z -> Z) : (Z -> Z) * Z :=
  (atomic_change_bit bit a, test_bit bit a).

(** ** Interrupt flag *)

(** RFLAGS of a processor; bit 9 enables interrupts. *)
Definition save_and_disable_interrupts (rflags : Z) : Z * Z := (Z.clearbit rflags 9, rflags).
Definition restore_interrupts (flags : Z) : Z := flags.
Definition interrupts_enabled (rflags : Z) : bool := Z.testbit rflags 9.

(** ** Spinlock *)

(** Where a processor is in the lock routines: outside, before the XCHG of
    [spinlock_lock], in its inner loop, before the XCHG of
    [spinlockrylock], or holding the lock. *)
Inductive spin_pc := SOut | SXchg | SSpin | STry | SIn.

(** What a processor outside or inside may start. *)
Inductive lock_call := CallLock | CallTry | CallUnlock | Continue.

Definition spinlock_init : Z := 0.
Definition spinlock_is_locked (lock : Z) : bool := negb (atomic_read lock =? 0).

Definition spin_step (c : lock_call) (pc : spin_pc) (lock : Z) : option (spin_pc * Z) :=
  match c, pc with
  | CallLock, SOut => Some (SXchg, lock)
  | CallTry, SOut => Some (STry, lock)
  | Continue, SXchg =>
      let '(lock, old) := atomic_xchg lock 1 in
      Some (if negb (old =? 0) then SSpin else SIn, lock)
  | Continue, SSpin => Some (if negb (atomic_read lock =? 0) then SSpin else SXchg, lock)
  | Continue, STry =>
      let '(lock, old) := atomic_xchg lock 1 in
      Some (if old =? 0 then SIn else SOut, lock)
  | CallUnlock, SIn => Some (SOut, atomic_set lock 0)
  | _, _ => None
  end.

(** [acquire_locks_ordered]: the order in which two locks are taken. *)
Definition acquire_locks_ordered (lock_a lock_b : Z) : Z * Z :=
  if lock_a <? lock_b then (lock_a, lock_b) else (lock_b, lock_a).

(** One processor's view of the interrupt-saving variants: RFLAGS and the
    saved flags. *)
Definition spinlock_lock_intsave (rflags : Z) : Z * Z := save_and_disable_interrupts rflags.
Definition spinlock_unlock_intrestore (flags : Z) : Z := restore_interrupts flags.

(** ** Read-write lock *)

(** RWLOCK_WRITER_MASK (bit 31) as the [int] it is stored as. *)
Definition RWLOCK_WRITER_MASK : Z := Z.shiftl 1 31.
Definition RWLOCK_READER_MASK : Z := RWLOCK_WRITER_MASK - 1.
Definition writer_value : Z := s32 RWLOCK_WRITER_MASK.

(** [x & mask] of an [int] and an unsigned mask. *)
Definition uand (x mask : Z) : Z := Z.land (w32 x) mask.

Inductive rw_pc :=
  | ROut
  | RRead                        (** [rwlock_read_lock] before the first read *)
  | RSpin (old : Z)              (** in the loop that waits for a writer *)
  | RCas (old new : Z)           (** before the CMPXCHG *)
  | RTryRead | RTryCas (old new : Z)
  | RIn                          (** holding as reader *)
  | WCas | WSpin | WTry
  | WIn.                         (** holding as writer *)

Inductive rw_call := CallRead | CallTryRead | CallWrite | CallTryWrite | CallReadUnlock
  | CallWriteUnlock | RwContinue.

(** After [old_val] was read: wait, or go on to the CMPXCHG.  A [continue] in a
    do-while loop goes to the loop condition, so the overflow test does not
    avoid the CMPXCHG. *)
Definition read_lock_test (old : Z) : rw_pc :=
  if negb (uand old RWLOCK_WRITER_MASK =? 0) then RSpin old
  else
    let new := s32 (old + 1) in
    if uand new RWLOCK_READER_MASK =? 0 then RCas old new
    else RCas old new.

Definition rw_step (c : rw_call) (pc : rw_pc) (lock : Z) : option (rw_pc * Z) :=
  match c, pc with
  | CallRead, ROut => Some (RRead, lock)
  | CallTryRead, ROut => Some (RTryRead, lock)
  | CallWrite, ROut => Some (WCas, lock)
  | CallTryWrite, ROut => Some (WTry, lock)
  | CallReadUnlock, RIn => Some (ROut, atomic_dec lock)
  | CallWriteUnlock, WIn => Some (ROut, atomic_set lock 0)
  | RwContinue, RRead => Some (read_lock_test (atomic_read lock), lock)
  | RwContinue, RSpin _ => Some (read_lock_test (atomic_read lock), lock)
  | RwContinue, RCas old new =>
      let '(lock, prev) := atomic_cmpxchg lock old new in
      Some (if negb (prev =? old) then RRead else RIn, lock)
  | RwContinue, RTryRead =>
      let old := atomic_read lock in
      if negb (uand old RWLOCK_WRITER_MASK =? 0) then Some (ROut, lock)
      else
        let new := s32 (old + 1) in
        if uand new RWLOCK_READER_MASK =? 0 then Some (ROut, lock) else Some (RTryCas old new, lock)
  | RwContinue, RTryCas old new =>
      let '(lock, prev) := atomic_cmpxchg lock old new in
      Some (if prev =? old then RIn else ROut, lock)
  | RwContinue, WCas =>
      let '(lock, prev) := atomic_cmpxchg lock 0 writer_value in
      Some (if negb (prev =? 0) then WSpin else WIn, lock)
  | RwContinue, WSpin => Some (if negb (atomic_read lock =? 0) then WSpin else WCas, lock)
  | RwContinue, WTry =>
      let '(lock, prev) := atomic_cmpxchg lock 0 writer_value in
      Some (if prev =? 0 then WIn else ROut, lock)
  | _, _ => None
  end.

(** ** Ticket lock *)

Record ticket_spinlock := mk_ticket { next_ticket : Z; serving_ticket : Z }.

Definition ticket_spinlock_init : ticket_spinlock := mk_ticket 0 0.

Inductive ticket_pc := TOut | TWait (my_ticket : Z) | TIn.

Definition ticket_step (c : lock_call) (pc : ticket_pc) (l : ticket_spinlock)
    : option (ticket_pc * ticket_spinlock) :=
  match c, pc with
  | CallLock, TOut =>
      let '(n, r) := atomic_add_return 1 (next_ticket l) in
      Some (TWait (s32 (r - 1)), mk_ticket n (serving_ticket l))
  | Continue, TWait my =>
      Some (if negb (atomic_read (serving_ticket l) =? my) then TWait my else TIn, l)
  | CallUnlock, TIn => Some (TOut, mk_ticket (next_ticket l) (atomic_inc (serving_ticket l)))
  | _, _ => None
  end.

(** [ticket_spinlockrylock], run without interference between its reads and
    its CMPXCHG. *)
Definition ticket_spinlockrylock (l : ticket_spinlock) : ticket_spinlock * bool :=
  let serving := atomic_read (serving_ticket l) in
  let next := atomic_read (next_ticket l) in
  if negb (serving =? next) then (l, false)
  else
    let '(n, prev) := atomic_cmpxchg (next_ticket l) next (s32 (next + 1)) in
    (mk_ticket n (serving_ticket l), prev =? next).

(** ** Systems of processors *)

(** Any of the processors takes one step. *)
Inductive sys_step {PC L C : Type} (f : C -> PC -> L -> option (PC * L)) :
    list PC * L -> list PC * L -> Prop :=
  | sys_step_intro pcs l i pc c pc' l' :
      pcs !! i = Some pc -> f c pc l = Some (pc', l') ->
      sys_step f (pcs, l) (<[i := pc']> pcs, l').

Inductive reachable {PC L C : Type} (f : C -> PC -> L -> option (PC * L)) (s0 : list PC * L) :
    list PC * L -> Prop :=
  | reach_init : reachable f s0 s0
  | reach_step s s' : reachable f s0 s -> sys_step f s s' -> reachable f s0 s'.

End Locks.
