(* ===== verification/LocksSpec.v ===== *)
(** * Atomics and locks: correctness

    Invariants of the three locks over all interleavings of any number of
    processors, by rule induction on reachability: mutual exclusion, readers
    against writers, first-come-first-served for the ticket lock. *)
From S2P Require Import Prelude Memory Chain Locks.
Import Locks.

(** ** Counting processors *)

Lemma lsum_insert_list {A} (f : A -> Z) l i x y :
  l !! i = Some x -> lsum f (<[i := y]> l) = lsum f l - f x + f y.
Proof.
  revert i. induction l as [|a l IH]; intros [|i] Hi; simplify_eq/=; unfold lsum in *; simpl.
  - lia.
  - rewrite IH by done. lia.
Qed.

Lemma lsum_elem {A} (f : A -> Z) l i x :
  (forall a, 0 <= f a) -> l !! i = Some x -> f x <= lsum f l.
Proof.
  intros Hf. revert i. induction l as [|a l IH]; intros [|i] Hi; simplify_eq/=; unfold lsum in *; simpl.
  - enough (0 <= foldr (fun a s => f a + s) 0 l) by lia.
    clear IH. induction l as [|b l IHl]; simpl; [lia|]. pose proof (Hf b). lia.
  - pose proof (Hf a). specialize (IH i Hi). lia.
Qed.

(** Two different processors both count. *)
Lemma lsum_two {A} (f : A -> Z) l i j x y :
  (forall a, 0 <= f a) -> l !! i = Some x -> l !! j = Some y -> i <> j -> f x + f y <= lsum f l.
Proof.
  intros Hf. revert i j. induction l as [|a l IH]; intros [|i] [|j] Hi Hj Hne; simplify_eq/=;
    unfold lsum in *; simpl.
  - pose proof (lsum_elem f l j y Hf Hj) as He. unfold lsum in He. lia.
  - pose proof (lsum_elem f l i x Hf Hi) as He. unfold lsum in He. lia.
  - pose proof (Hf a). specialize (IH i j Hi Hj ltac:(lia)). lia.
Qed.

Lemma lsum_zero {A} (f : A -> Z) x n : f x = 0 -> lsum f (replicate n x) = 0.
Proof. intros Hx. unfold lsum. induction n as [|n IH]; simpl; lia. Qed.

(** ** Spinlock *)

Definition s_holds (pc : spin_pc) : Z := match pc with SIn => 1 | _ => 0 end.

(** The lock word counts the holders. *)
Definition spin_inv (s : list spin_pc * Z) : Prop := (s.2 = 0 \/ s.2 = 1) /\ lsum s_holds s.1 = s.2.

Lemma spin_inv_step s s' : spin_inv s -> sys_step spin_step s s' -> spin_inv s'.
Proof.
  intros [Hl Hs] Hst. destruct Hst as [pcs l i pc c pc' l' Hpc E]. simpl in *.
  unfold spin_inv. simpl. rewrite (lsum_insert_list _ _ _ _ _ Hpc).
  pose proof (lsum_elem s_holds pcs i pc ltac:(by intros []) Hpc).
  destruct c, pc; simpl in E; try done; injection E as <- <-;
    unfold atomic_set, atomic_read in *; simpl in *; try lia; zbool; simpl in *; lia.
Qed.

Lemma spin_reach n s : reachable spin_step (replicate n SOut, spinlock_init) s -> spin_inv s.
Proof.
  induction 1 as [|s s' _ IH Hst].
  - split; [by left|]. by apply lsum_zero.
  - by eapply spin_inv_step.
Qed.

(** C17. The spinlock excludes: whatever [n] processors do with [spinlock_lock],
    [spinlockrylock] and [spinlock_unlock], in any interleaving of their atomic
    operations, at most one holds the lock, and the lock word is 1 exactly when
    one does. *)
Theorem spinlock_mutual_exclusion n pcs lock :
  reachable spin_step (replicate n SOut, spinlock_init) (pcs, lock) ->
  (forall i j, pcs !! i = Some SIn -> pcs !! j = Some SIn -> i = j) /\
  (spinlock_is_locked lock = true <-> exists i, pcs !! i = Some SIn).
Proof.
  intros Hr. destruct (spin_reach n _ Hr) as [Hl Hs]. simpl in *. split.
  - intros i j Hi Hj. destruct (decide (i = j)) as [|Hne]; [done|].
    pose proof (lsum_two s_holds pcs i j _ _ ltac:(by intros []) Hi Hj Hne). simpl in *. lia.
  - unfold spinlock_is_locked, atomic_read. rewrite negb_true_iff, Z.eqb_neq. split.
    + intros Hne. assert (lsum s_holds pcs = 1) as H1 by lia. clear -H1.
      induction pcs as [|pc pcs IH]; [done|]. unfold lsum in *. simpl in H1.
      destruct pc; try (destruct IH as [i Hi]; [simpl in H1; lia|exists (S i); done]). by exists 0%nat.
    + intros [i Hi]. pose proof (lsum_elem s_holds pcs i _ ltac:(by intros []) Hi). simpl in *. lia.
Qed.

(** ** Read-write lock *)

Definition r_holds (pc : rw_pc) : Z := match pc with RIn => 1 | _ => 0 end.
Definition w_holds (pc : rw_pc) : Z := match pc with WIn => 1 | _ => 0 end.

(** A pending CMPXCHG of a reader was prepared from a value without writer. *)
Definition cas_ok (n : Z) (pc : rw_pc) : Prop :=
  match pc with
  | RCas old new | RTryCas old new => 0 <= old <= n /\ new = old + 1
  | _ => True
  end.

Record rw_inv (n : nat) (s : list rw_pc * Z) : Prop := {
  rw_len : length s.1 = n;
  rw_cas : Forall (cas_ok (Z.of_nat n)) s.1;
  rw_val : (s.2 = lsum r_holds s.1 /\ lsum w_holds s.1 = 0) \/
           (s.2 = writer_value /\ lsum r_holds s.1 = 0 /\ lsum w_holds s.1 = 1);
}.

Lemma holds_bound {A} (f : A -> Z) l : (forall a, 0 <= f a <= 1) -> 0 <= lsum f l <= Z.of_nat (length l).
Proof. intros Hf. pose proof (lsum_bounds f l 0 1 (fun a _ => Hf a)). lia. Qed.

Lemma writer_bit x : - 2 ^ 31 <= x < 2 ^ 31 -> uand x RWLOCK_WRITER_MASK = 0 <-> 0 <= x.
Proof.
  intros Hx. unfold uand. change RWLOCK_WRITER_MASK with (2 ^ 31).
  assert (forall y, 0 <= y < 2 ^ 32 -> Z.land y (2 ^ 31) = 0 <-> y < 2 ^ 31) as Hy.
  { intros y Hy. split; intros E.
    - destruct (Z.lt_ge_cases y (2 ^ 31)); [done|]. exfalso.
      assert (Z.testbit y 31 = true) as Hb by (apply Z.testbit_true; [lia|]; 
        assert (y / 2 ^ 31 = 1) as -> by (symmetry; apply (Z.div_unique_pos _ _ _ (y - 2 ^ 31)); lia); done).
      assert (Z.testbit (Z.land y (2 ^ 31)) 31 = true) as Hb'.
      { rewrite Z.land_spec, Hb, Z.pow2_bits_true by lia. done. }
      rewrite E, Z.bits_0 in Hb'. done.
    - apply Z.bits_inj'. intros k Hk. rewrite Z.land_spec, Z.bits_0, Z.pow2_bits_eqb by lia.
      destruct (Z.eqb_spec 31 k) as [<-|]; [|by rewrite andb_false_r].
      rewrite andb_true_r. apply Z.testbit_false; [lia|]. rewrite Z.div_small by lia. done. }
  rewrite Hy by (by apply wrap_range).
  unfold wrap. destruct (Z.lt_ge_cases x 0).
  - rewrite <- (Z.mod_add x 1) by lia. rewrite Z.mod_small by lia. lia.
  - rewrite Z.mod_small by lia. lia.
Qed.

Lemma writer_value_eq : writer_value = - 2 ^ 31.
Proof. reflexivity. Qed.

(** What a reader prepares after reading [v]. *)
Lemma read_lock_test_ok n v :
  Z.of_nat n < 2 ^ 31 - 1 -> (0 <= v <= Z.of_nat n \/ v = writer_value) ->
  cas_ok (Z.of_nat n) (read_lock_test v) /\ r_holds (read_lock_test v) = 0 /\ w_holds (read_lock_test v) = 0.
Proof.
  intros Hn Hv. unfold read_lock_test. rewrite writer_value_eq in Hv.
  destruct (Z.eqb_spec (uand v RWLOCK_WRITER_MASK) 0) as [E|E]; simpl; [|done].
  apply writer_bit in E; [|lia]. destruct (_ =? 0); simpl; (split; [|done]); split; try lia;
    apply swrap_small; lia.
Qed.

Lemma rw_inv_step n s s' :
  Z.of_nat n < 2 ^ 31 - 1 -> rw_inv n s -> sys_step rw_step s s' -> rw_inv n s'.
Proof.
  intros Hn [Hlen Hcas Hval] Hst. destruct Hst as [pcs l i pc c pc' l' Hpc E]. simpl in *.
  pose proof (holds_bound r_holds pcs ltac:(intros []; simpl; lia)) as Hrb.
  pose proof (lsum_elem r_holds pcs i pc ltac:(intros []; simpl; lia) Hpc) as Hri.
  pose proof (lsum_elem w_holds pcs i pc ltac:(intros []; simpl; lia) Hpc) as Hwi.
  pose proof (proj1 (Forall_lookup _ _) Hcas i pc Hpc) as Hpcok.
  rewrite writer_value_eq in Hval.
  assert (0 <= l <= Z.of_nat n \/ l = writer_value) as Hlv by (rewrite writer_value_eq; lia).
  enough (cas_ok (Z.of_nat n) pc' /\
    ((l' = lsum r_holds pcs - r_holds pc + r_holds pc' /\ lsum w_holds pcs - w_holds pc + w_holds pc' = 0) \/
     (l' = - 2 ^ 31 /\ lsum r_holds pcs - r_holds pc + r_holds pc' = 0 /\
      lsum w_holds pcs - w_holds pc + w_holds pc' = 1))) as [Hok Hv].
  { split; simpl.
    - by rewrite length_insert.
    - by apply Forall_insert.
    - rewrite !(lsum_insert_list _ _ _ _ _ Hpc). rewrite writer_value_eq. done. }
  assert (1 <= l -> s32 (l - 1) = l - 1) as Hdec by (intros; apply swrap_small; rewrite writer_value_eq in *; lia).
  destruct (read_lock_test_ok n l Hn Hlv) as (Ht1 & Ht2 & Ht3).
  rewrite writer_value_eq in Hlv. clear Hcas.
  destruct c, pc; simpl in E; try done; unfold atomic_read, atomic_dec, atomic_set, atomic_cmpxchg in *;
    try (destruct (Z.eqb_spec (uand l RWLOCK_WRITER_MASK) 0) as [Hw|Hw]; simpl in E; [apply writer_bit in Hw; [|lia]|]);
    try (destruct (uand (s32 (l + 1)) RWLOCK_READER_MASK =? 0); simpl in E);
    injection E as <- <-; rewrite ?Ht2, ?Ht3; simpl in *; try (split; [done|]; lia).
  all: try (split; [by split; [lia|apply swrap_small; lia]|lia]).
  all: rewrite ?writer_value_eq; zbool; simpl; (split; [done|]); lia.
Qed.

Lemma rw_reach n s :
  Z.of_nat n < 2 ^ 31 - 1 -> reachable rw_step (replicate n ROut, 0) s -> rw_inv n s.
Proof.
  intros Hn. induction 1 as [|s s' _ IH Hst].
  - split; simpl.
    + apply length_replicate.
    + by apply Forall_replicate.
    + left. by rewrite !lsum_zero.
  - by eapply rw_inv_step.
Qed.

(** C18. The read-write lock: with fewer than 2^31 - 1 processors, in any
    interleaving, a writer holds the lock alone (no other writer and no
    reader), and without a writer the lock word is the number of readers. *)
Theorem rwlock_exclusion n pcs lock :
  Z.of_nat n < 2 ^ 31 - 1 -> reachable rw_step (replicate n ROut, 0) (pcs, lock) ->
  (forall i, pcs !! i = Some WIn ->
     lock = writer_value /\ forall j, j <> i -> pcs !! j <> Some WIn /\ pcs !! j <> Some RIn) /\
  ((forall i, pcs !! i <> Some WIn) -> lock = lsum r_holds pcs).
Proof.
  intros Hn Hr. destruct (rw_reach n _ Hn Hr) as [_ _ Hval]. simpl in Hval. split.
  - intros i Hi. pose proof (lsum_elem w_holds pcs i _ ltac:(intros []; simpl; lia) Hi) as Hw. simpl in Hw.
    destruct Hval as [[_ ?]|(-> & Hr0 & Hw1)]; [lia|]. split; [done|]. intros j Hne. split; intros Hj.
    + pose proof (lsum_two w_holds pcs i j _ _ ltac:(intros []; simpl; lia) Hi Hj ltac:(congruence)). simpl in *. lia.
    + pose proof (lsum_elem r_holds pcs j _ ltac:(intros []; simpl; lia) Hj). simpl in *. lia.
  - intros Hnw. destruct Hval as [[? _]|(_ & _ & Hw1)]; [done|]. exfalso.
    assert (forall pcs : list rw_pc, lsum w_holds pcs = 1 -> exists i, pcs !! i = Some WIn) as Hex.
    { clear. induction pcs as [|pc pcs IH]; [done|]. unfold lsum in *. simpl. intros H1.
      destruct pc; try (destruct IH as [i Hi]; [simpl in H1; lia|exists (S i); done]). by exists 0%nat. }
    destruct (Hex pcs Hw1) as [i Hi]. by apply (Hnw i).
Qed.

(** The overflow test of [rwlock_read_lock] does not protect: with
    2^31 - 1 readers the next one performs its CMPXCHG all the same and turns
    the lock word into the writer mark. *)
Theorem rwlock_reader_overflow :
  rw_step RwContinue RRead (2 ^ 31 - 1) = Some (RCas (2 ^ 31 - 1) writer_value, 2 ^ 31 - 1) /\
  rw_step RwContinue (RCas (2 ^ 31 - 1) writer_value) (2 ^ 31 - 1) = Some (RIn, writer_value).
Proof. split; vm_compute; reflexivity. Qed.

(** ** Ticket lock *)

(** The processors in line, the holder first. *)
Record ticket_inv (n : nat) (s : list ticket_pc * ticket_spinlock) (q : list nat) : Prop := {
  ti_len : length s.1 = n;
  ti_nodup : NoDup q;
  ti_members i : i ∈ q <-> exists pc, s.1 !! i = Some pc /\ pc <> TOut;
  ti_pos k i : q !! k = Some i ->
    s.1 !! i = Some (TWait (s32 (serving_ticket s.2 + Z.of_nat k))) \/ (k = 0%nat /\ s.1 !! i = Some TIn);
  ti_next : next_ticket s.2 = s32 (serving_ticket s.2 + Z.of_nat (length q));
  ti_serving : - 2 ^ 31 <= serving_ticket s.2 < 2 ^ 31;
}.

Lemma queue_length n s q : ticket_inv n s q -> (length q <= n)%nat.
Proof.
  intros Hi. rewrite <- (length_seq n 0). apply submseteq_length, NoDup_submseteq; [apply Hi|].
  intros i Hin. apply (ti_members _ _ _ Hi) in Hin as (pc & Hpc & _). apply lookup_lt_Some in Hpc.
  rewrite (ti_len _ _ _ Hi) in Hpc. apply elem_of_seq. lia.
Qed.

Lemma s32_add_idemp a b : s32 (s32 a + b) = s32 (a + b).
Proof.
  unfold swrap. change (2 ^ (32 - 1)) with (2 ^ 31).
  replace ((a + 2 ^ 31) mod 2 ^ 32 - 2 ^ 31 + b + 2 ^ 31) with ((a + 2 ^ 31) mod 2 ^ 32 + b) by lia.
  rewrite Zplus_mod_idemp_l. do 2 f_equal. lia.
Qed.

(** Tickets of a short line are different from the one being served. *)
Lemma s32_offset a k :
  - 2 ^ 31 <= a < 2 ^ 31 -> 0 <= k < 2 ^ 32 -> s32 (a + k) = a -> k = 0.
Proof.
  intros Ha Hk E. unfold swrap in E. change (2 ^ (32 - 1)) with (2 ^ 31) in E.
  pose proof (Z.div_mod (a + k + 2 ^ 31) (2 ^ 32) ltac:(lia)).
  destruct (Z.lt_ge_cases (a + k + 2 ^ 31) (2 ^ 32)).
  - rewrite Z.mod_small in E by lia. lia.
  - rewrite <- (Z.mod_add _ (-1)) in E by lia. rewrite Z.mod_small in E by lia. lia.
Qed.

(** One step is a transition of the line: join at the end, stay, or leave from
    the front. *)
Lemma ticket_inv_step n s s' q :
  Z.of_nat n < 2 ^ 32 -> ticket_inv n s q -> sys_step ticket_step s s' ->
  exists q', ticket_inv n s' q' /\ (q' = q \/ (exists i, q' = q ++ [i]) \/ (exists i, q = i :: q')).
Proof.
  intros Hn Hi Hst. pose proof (queue_length n s q Hi) as Hql. destruct Hst as [pcs l i pc c pc' l' Hpc E].
  destruct Hi as [Hlen Hnd Hmem Hpos Hnext Hsrv]. simpl in *.
  assert (i < length pcs)%nat as Hil by (by eapply lookup_lt_Some).
  destruct c, pc as [|t|]; simpl in E; try done; injection E as <- <-; simpl in *.
  - (* a processor takes a ticket *)
    assert (i ∉ q) as Hiq. { intros Hin. apply Hmem in Hin as (pc & ? & ?). congruence. }
    exists (q ++ [i]). split; [|right; left; by exists i]. split; simpl.
    + by rewrite length_insert.
    + apply NoDup_app. split_and!; [done|set_solver|apply NoDup_singleton].
    + intros j. rewrite elem_of_app, list_elem_of_singleton. destruct (decide (j = i)) as [->|Hne].
      * rewrite list_lookup_insert_eq by done. split; [intros _; by eexists|by right].
      * rewrite list_lookup_insert_ne by congruence. rewrite Hmem. split; [intros [?|?]; done|by left].
    + intros k j Hk. apply lookup_app_Some in Hk as [Hk|[Hge Hk]].
      * rewrite list_lookup_insert_ne; [by apply Hpos|]. intros ->. apply Hiq. by eapply list_elem_of_lookup_2.
      * apply list_lookup_singleton_Some in Hk as [Hk <-]. left. rewrite list_lookup_insert_eq by done.
        do 2 f_equal. rewrite Hnext. unfold Z.sub. rewrite s32_add_idemp, <- Z.add_assoc, s32_add_idemp.
        f_equal. lia.
    + rewrite Hnext, s32_add_idemp, length_app. simpl. f_equal. lia.
    + done.
  - (* the holder leaves *)
    assert (i ∈ q) as Hiq by (apply Hmem; by eexists).
    apply list_elem_of_lookup_1 in Hiq as [k Hk]. destruct (Hpos k i Hk) as [?|[-> _]]; [congruence|].
    destruct q as [|i0 q]; [done|]. simpl in Hk. injection Hk as ->. apply NoDup_cons in Hnd as [Hin Hnd].
    exists q. split; [|right; right; by exists i]. split; simpl.
    + by rewrite length_insert.
    + done.
    + intros j. destruct (decide (j = i)) as [->|Hne].
      * rewrite list_lookup_insert_eq by done. split; [done|]. intros (pc & [= <-] & ?). done.
      * rewrite list_lookup_insert_ne by congruence. rewrite <- Hmem. set_solver.
    + intros k j Hk. left. rewrite list_lookup_insert_ne by (intros ->; apply Hin; by eapply list_elem_of_lookup_2).
      destruct (Hpos (S k) j Hk) as [Hw|[? _]]; [|done]. rewrite Hw. unfold atomic_inc. rewrite s32_add_idemp.
      do 2 f_equal. apply (f_equal (swrap 32)). lia.
    + rewrite Hnext. unfold atomic_inc. rewrite s32_add_idemp. apply (f_equal (swrap 32)). simpl. lia.
    + unfold atomic_inc. exact (swrap_range 32 (serving_ticket l + 1) ltac:(lia)).
  - (* a processor in line looks at the number being served *)
    assert (i ∈ q) as Hiq by (apply Hmem; by eexists).
    apply list_elem_of_lookup_1 in Hiq as [k Hk]. pose proof (lookup_lt_Some _ _ _ Hk).
    destruct (Hpos k i Hk) as [Hw|[_ ?]]; [|congruence]. assert (t = s32 (serving_ticket l + Z.of_nat k)) as Et by congruence.
    exists q. split; [|by left]. unfold atomic_read.
    destruct (Z.eqb_spec (serving_ticket l) t) as [Es|Es]; simpl.
    + assert (k = 0%nat) as ->.
      { rewrite Et in Es. symmetry in Es. apply s32_offset in Es; lia. }
      split; simpl; try done.
      * by rewrite length_insert.
      * intros j. rewrite Hmem. destruct (decide (j = i)) as [->|Hne].
        -- rewrite list_lookup_insert_eq by done. split; intros _; by eexists.
        -- by rewrite list_lookup_insert_ne by congruence.
      * intros k' j Hk'. destruct (decide (j = i)) as [->|Hne].
        -- right. rewrite list_lookup_insert_eq by done. split; [|done]. by eapply NoDup_lookup.
        -- rewrite list_lookup_insert_ne by congruence. by apply Hpos.
    + rewrite list_insert_id by done. done.
Qed.

Lemma ticket_reach n s :
  Z.of_nat n < 2 ^ 32 -> reachable ticket_step (replicate n TOut, ticket_spinlock_init) s ->
  exists q, ticket_inv n s q.
Proof.
  intros Hn. induction 1 as [|s s' _ [q IH] Hst].
  - exists []. split; simpl; try done.
    + apply length_replicate.
    + constructor.
    + intros i. split; [set_solver|]. intros (pc & [-> _]%lookup_replicate & ?). done.
  - destruct (ticket_inv_step n s s' q Hn IH Hst) as (q' & ? & _). by exists q'.
Qed.

(** C19. The ticket lock excludes and is fair: with fewer than 2^32 processors
    (tickets wrap around), at most one processor holds the lock in every
    reachable state, and every step is a transition of one waiting line that
    processors join at the end and leave from the front, the holder being the
    first in line. *)
Theorem ticket_lock_fifo n pcs l :
  Z.of_nat n < 2 ^ 32 -> reachable ticket_step (replicate n TOut, ticket_spinlock_init) (pcs, l) ->
  exists q, NoDup q /\
    (forall i, i ∈ q <-> exists pc, pcs !! i = Some pc /\ pc <> TOut) /\
    (forall i, pcs !! i = Some TIn -> head q = Some i) /\
    (forall s', sys_step ticket_step (pcs, l) s' -> exists q', ticket_inv n s' q' /\
       (q' = q \/ (exists i, q' = q ++ [i]) \/ (exists i, q = i :: q'))).
Proof.
  intros Hn Hr. destruct (ticket_reach n _ Hn Hr) as [q Hi]. exists q. split_and!.
  - apply Hi.
  - apply Hi.
  - intros i Hin. assert (i ∈ q) as Hiq by (apply (ti_members _ _ _ Hi); by eexists).
    apply list_elem_of_lookup_1 in Hiq as [k Hk].
    destruct (ti_pos _ _ _ Hi k i Hk) as [Hw|[-> _]]; [simpl in Hw; congruence|]. by destruct q.
  - intros s' Hst. by eapply ticket_inv_step.
Qed.

(** ** Interrupt state *)

(** [spinlock_lock_intsave] disables interrupts on the processor and
    [spinlock_unlock_intrestore] brings back exactly the flags before it, also
    when the pairs are nested. *)
Theorem intsave_roundtrip rflags :
  let '(r1, saved) := spinlock_lock_intsave rflags in
  interrupts_enabled r1 = false /\ spinlock_unlock_intrestore saved = rflags /\
  (let '(r2, saved2) := spinlock_lock_intsave r1 in
   interrupts_enabled r2 = false /\ interrupts_enabled (spinlock_unlock_intrestore saved2) = false).
Proof.
  simpl. unfold interrupts_enabled, spinlock_unlock_intrestore, restore_interrupts.
  rewrite !Z.clearbit_eq. done.
Qed.

(** ** Witnesses *)

(** Two processors: the first takes the spinlock, the second spins. *)
Lemma spinlock_witness :
  exists pcs, reachable spin_step (replicate 2 SOut, spinlock_init) (pcs, 1) /\
    pcs !! 0%nat = Some SIn /\ (forall j, pcs !! j = Some SIn -> 0%nat = j).
Proof.
  assert (reachable spin_step (replicate 2 SOut, spinlock_init) ([SIn; SSpin], 1)) as Hr.
  { eapply reach_step; [|exact (sys_step_intro spin_step [SIn; SXchg] 1 1 SXchg Continue SSpin 1 eq_refl eq_refl)].
    eapply reach_step; [|exact (sys_step_intro spin_step [SIn; SOut] 1 1 SOut CallLock SXchg 1 eq_refl eq_refl)].
    eapply reach_step; [|exact (sys_step_intro spin_step [SXchg; SOut] 0 0 SXchg Continue SIn 1 eq_refl eq_refl)].
    eapply reach_step; [|exact (sys_step_intro spin_step [SOut; SOut] 0 0 SOut CallLock SXchg 0 eq_refl eq_refl)].
    apply reach_init. }
  exists [SIn; SSpin]. split; [exact Hr|]. split; [reflexivity|].
  intros j Hj. apply (proj1 (spinlock_mutual_exclusion 2 [SIn; SSpin] 1 Hr)); [reflexivity|exact Hj].
Defined.

Lemma rwlock_witness :
  exists pcs, reachable rw_step (replicate 2 ROut, 0) (pcs, writer_value) /\
    pcs !! 1%nat = Some WIn /\ pcs !! 0%nat <> Some RIn.
Proof.
  assert (reachable rw_step (replicate 2 ROut, 0) ([ROut; WIn], writer_value)) as Hr.
  { eapply reach_step; [|exact (sys_step_intro rw_step [ROut; WCas] 0 1 WCas RwContinue WIn writer_value eq_refl eq_refl)].
    eapply reach_step; [|exact (sys_step_intro rw_step [ROut; ROut] 0 1 ROut CallWrite WCas 0 eq_refl eq_refl)].
    apply reach_init. }
  exists [ROut; WIn]. split; [exact Hr|]. split; [reflexivity|].
  destruct (rwlock_exclusion 2 [ROut; WIn] writer_value) as [Hw _]; [lia|exact Hr|].
  apply (Hw 1%nat eq_refl). discriminate.
Defined.

Lemma ticket_witness :
  exists pcs l q, reachable ticket_step (replicate 2 TOut, ticket_spinlock_init) (pcs, l) /\
    pcs !! 1%nat = Some TIn /\ head q = Some 1%nat.
Proof.
  assert (reachable ticket_step (replicate 2 TOut, ticket_spinlock_init) ([TOut; TIn], mk_ticket 1 0)) as Hr.
  { eapply reach_step; [|exact (sys_step_intro ticket_step [TOut; TWait 0] (mk_ticket 1 0) 1 (TWait 0) Continue TIn (mk_ticket 1 0) eq_refl eq_refl)].
    eapply reach_step; [|exact (sys_step_intro ticket_step [TOut; TOut] (mk_ticket 0 0) 1 TOut CallLock (TWait 0) (mk_ticket 1 0) eq_refl eq_refl)].
    apply reach_init. }
  destruct (ticket_lock_fifo 2 [TOut; TIn] (mk_ticket 1 0)) as (q & _ & _ & Hh & _); [lia|exact Hr|].
  exists [TOut; TIn], (mk_ticket 1 0), q. split; [exact Hr|]. split; [reflexivity|].
  exact (Hh 1%nat eq_refl).
Defined.
