(* ===== verification/Lists.v ===== *)
(** * Intrusive doubly linked lists

    Models src/kernel/include/ds/lists.h.  [Lists] holds the operations on the
    byte memory: a node is 16 bytes, [next] then [prev].  [Links] holds the same
    operations on two pointer functions, the reference the byte-level ones are
    compared with.  [ring s h l] says that the list with head [h] consists of
    the nodes [l]; each operation is specified by how it changes [l], and by
    the bytes it may touch. *)
From S2P Require Import Prelude Memory.

Module Lists.

Definition next (m : mem) (n : Z) : Z := load 8 m n.
Definition prev (m : mem) (n : Z) : Z := load 8 m (n + 8).
Definition set_next (m : mem) (n v : Z) : mem := store 8 m n v.
Definition set_prev (m : mem) (n v : Z) : mem := store 8 m (n + 8) v.

Definition list_init (m : mem) (n : Z) : mem :=
  let m := set_next m n n in
  set_prev m n n.

Definition list_add (m : mem) (new_node prev next : Z) : mem :=
  let m := set_prev m next new_node in
  let m := set_next m new_node next in
  let m := set_prev m new_node prev in
  set_next m prev new_node.

Definition list_add_head (m : mem) (new_node head : Z) : mem :=
  list_add m new_node head (next m head).

Definition list_add_tail (m : mem) (new_node head : Z) : mem :=
  list_add m new_node (prev m head) head.

Definition list_del (m : mem) (entry : Z) : mem :=
  let m := set_next m (prev m entry) (next m entry) in
  let m := set_prev m (next m entry) (prev m entry) in
  let m := set_next m entry entry in
  set_prev m entry entry.

Definition list_replace (m : mem) (old new_node : Z) : mem :=
  let m := set_next m new_node (next m old) in
  let m := set_prev m (next m new_node) new_node in
  let m := set_prev m new_node (prev m old) in
  set_next m (prev m new_node) new_node.

Definition list_empty (m : mem) (head : Z) : bool := next m head =? head.

Definition container_of (ptr offset : Z) : Z := ptr - offset.

End Lists.

Module Links.
Section Ops.
Context {N : Type} `{EqDecision N}.

Record links := mk_links { next : N -> N; prev : N -> N }.

Definition set_next (n v : N) (s : links) : links := mk_links (<[n := v]> (next s)) (prev s).
Definition set_prev (n v : N) (s : links) : links := mk_links (next s) (<[n := v]> (prev s)).

Definition link_init (n : N) (s : links) : links := set_prev n n (set_next n n s).

Definition link_add (new_node prev_node next_node : N) (s : links) : links :=
  let s := set_prev next_node new_node s in
  let s := set_next new_node next_node s in
  let s := set_prev new_node prev_node s in
  set_next prev_node new_node s.

Definition link_add_tail (new_node head : N) (s : links) : links :=
  link_add new_node (prev s head) head s.

Definition link_del (entry : N) (s : links) : links :=
  let s := set_next (prev s entry) (next s entry) s in
  let s := set_prev (next s entry) (prev s entry) s in
  let s := set_next entry entry s in
  set_prev entry entry s.

Definition link_empty (head : N) (s : links) : bool := bool_decide (next s head = head).

End Ops.
Arguments links : clear implicits.
End Links.
Import Links.

(** ** Rings *)

Section Rings.
Context {N : Type} `{EqDecision N}.

Implicit Types s : links N.

(** Consecutive nodes point at each other. *)
Fixpoint linked s (l : list N) : Prop :=
  match l with
  | a :: ((b :: _) as l') => next s a = b /\ prev s b = a /\ linked s l'
  | _ => True
  end.

Definition ring s (h : N) (l : list N) : Prop := NoDup (h :: l) /\ linked s (h :: l ++ [h]).

Lemma linked_cons2 s a b l :
  linked s (a :: b :: l) <-> next s a = b /\ prev s b = a /\ linked s (b :: l).
Proof. done. Qed.

Lemma linked_app s l1 a l2 :
  linked s (l1 ++ a :: l2) <-> linked s (l1 ++ [a]) /\ linked s (a :: l2).
Proof.
  induction l1 as [|b l1 IH]; simpl.
  - split; [done|]. by intros [_ ?].
  - destruct l1 as [|c l1]; simpl in *.
    + destruct l2; tauto.
    + rewrite IH. tauto.
Qed.

(** The next pointers of all nodes but the last and the previous pointers of
    all but the first matter. *)
Lemma linked_frame s s' l :
  (forall a, a ∈ l -> a ∈ removelast l -> next s' a = next s a) ->
  (forall a, a ∈ tail l -> prev s' a = prev s a) ->
  linked s l -> linked s' l.
Proof.
  induction l as [|a l IH]; intros Hn Hp Hl; [done|]. destruct l as [|b l]; [done|].
  destruct Hl as (E1 & E2 & Hl). split_and!.
  - rewrite Hn; [done|set_solver|]. change (removelast (a :: b :: l)) with (a :: removelast (b :: l)). set_solver.
  - rewrite Hp; [done|simpl; set_solver].
  - apply IH; [| |done].
    + intros c H1 H2. apply Hn; [set_solver|].
      change (removelast (a :: b :: l)) with (a :: removelast (b :: l)). set_solver.
    + intros c Hc. apply Hp. simpl in *. set_solver.
Qed.

(** The ends of a ring. *)
Lemma ring_next s h l : ring s h l -> next s h = default h (head l).
Proof. intros [_ Hl]. destruct l as [|a l]; simpl in *; tauto. Qed.

Lemma ring_prev s h l : ring s h l -> prev s h = default h (last l).
Proof.
  intros [_ Hl]. destruct l as [|a l _] using rev_ind.
  - simpl in *. tauto.
  - rewrite last_snoc. simpl. rewrite <- app_assoc in Hl.
    change (h :: l ++ [a] ++ [h]) with ((h :: l) ++ a :: [h]) in Hl. apply linked_app in Hl as [_ Hl].
    simpl in Hl. tauto.
Qed.

Lemma ring_empty s h l : ring s h l -> link_empty h s = bool_decide (l = []).
Proof.
  intros Hr. unfold link_empty. rewrite (ring_next s h l Hr). destruct Hr as [[Hn _]%NoDup_cons _].
  destruct l as [|a l]; simpl; [by rewrite bool_decide_true|].
  apply bool_decide_eq_false_2. intros ->. apply Hn. by left.
Qed.

Lemma link_init_ring n s : ring (link_init n s) n [].
Proof.
  split; [apply NoDup_singleton|]. simpl. unfold link_init, set_prev, set_next. simpl.
  by rewrite !fn_lookup_insert.
Qed.

(** Nodes outside the touched ones keep their pointers. *)
Lemma ring_frame s s' h l :
  (forall a, a ∈ h :: l -> next s' a = next s a /\ prev s' a = prev s a) -> ring s h l -> ring s' h l.
Proof.
  intros Hf [Hnd Hl]. split; [done|]. eapply linked_frame; [| |exact Hl].
  - intros a Ha _. apply Hf. set_solver.
  - intros a Ha. apply Hf. simpl in Ha. set_solver.
Qed.

(** ** Insertion and removal *)

Lemma removelast_snoc (l : list N) a : removelast (l ++ [a]) = l.
Proof. rewrite removelast_app by done. by rewrite app_nil_r. Qed.

(** Every list of nodes with its last one split off. *)
Lemma cons_snoc (h : N) l : exists l0 p, h :: l = l0 ++ [p].
Proof. destruct l as [|p l _] using rev_ind; [by exists [], h|by exists (h :: l), p]. Qed.

Lemma link_add_tail_ring x h l s :
  ring s h l -> x ∉ h :: l -> ring (link_add_tail x h s) h (l ++ [x]).
Proof.
  intros Hr Hx. destruct (cons_snoc h l) as (l0 & p & Ep).
  assert (prev s h = p) as Eprev.
  { destruct Hr as [_ Hl]. change (h :: l ++ [h]) with ((h :: l) ++ [h]) in Hl. rewrite Ep, <- app_assoc in Hl.
    apply linked_app in Hl as [_ Hl]. simpl in Hl. tauto. }
  destruct Hr as [Hnd Hl]. unfold link_add_tail. rewrite Eprev.
  assert (h <> x) as Hhx by set_solver. assert (p ∈ h :: l) as Hp by (rewrite Ep; set_solver).
  split.
  - change (h :: l ++ [x]) with ((h :: l) ++ [x]). apply NoDup_app. split_and!; [done|set_solver|apply NoDup_singleton].
  - change (h :: (l ++ [x]) ++ [h]) with (((h :: l) ++ [x]) ++ [h]).
    change (h :: l ++ [h]) with ((h :: l) ++ [h]) in Hl.
    rewrite Ep, <- !app_assoc in *. apply linked_app. apply linked_app in Hl as [Hl0 _].
    unfold link_add, set_next, set_prev. split.
    + eapply linked_frame; [| |exact Hl0]; simpl.
      * intros a Ha Hra. rewrite removelast_snoc in Hra.
        apply NoDup_app in Hnd as (_ & Hd & _). rewrite !fn_lookup_insert_ne; [done|set_solver..].
      * intros a Ha. rewrite !fn_lookup_insert_ne; [done| |].
        -- intros <-. destruct l0 as [|b l0]; simpl in *; [set_solver|]. injection Ep as <- _.
           apply NoDup_cons in Hnd as [Hn _]. done.
        -- intros <-. apply Hx. destruct l0; simpl in *; set_solver.
    + simpl. rewrite !fn_lookup_insert. assert (p <> x) as Hpx by set_solver. split_and!.
      * done.
      * done.
      * rewrite fn_lookup_insert_ne by congruence. by rewrite fn_lookup_insert.
      * rewrite fn_lookup_insert_ne by congruence. by rewrite fn_lookup_insert.
      * done.
Qed.

Lemma link_del_ring x h l1 l2 s :
  ring s h (l1 ++ x :: l2) -> ring (link_del x s) h (l1 ++ l2) /\ ring (link_del x s) x [].
Proof.
  intros [Hnd Hl]. destruct (cons_snoc h l1) as (l0 & p & Ep).
  assert (exists q l3, l2 ++ [h] = q :: l3) as (q & l3 & Eq) by (destruct l2; simpl; eauto).
  change (h :: (l1 ++ x :: l2) ++ [h]) with (((h :: l1) ++ x :: l2) ++ [h]) in Hl.
  change (h :: l1 ++ x :: l2) with ((h :: l1) ++ x :: l2) in Hnd. rewrite Ep in Hnd, Hl.
  rewrite <- !app_assoc in Hl. simpl in Hl. rewrite Eq in Hl.
  apply linked_app in Hl as [Hl0 Hl]. destruct Hl as (E1 & E2 & E3 & E4 & Hl3).
  assert (x <> p /\ x <> q /\ x ∉ l0 /\ x ∉ l3) as (Hxp & Hxq & Hx0 & Hx3).
  { rewrite <- app_assoc in Hnd. apply NoDup_app in Hnd as (Hnd0 & Hd0 & Hnd1).
    simpl in Hnd1. apply NoDup_cons in Hnd1 as [Hp Hnd1]. apply NoDup_cons in Hnd1 as [Hxl2 Hnd2].
    assert (x <> h) as Hxh.
    { destruct l0 as [|b l0]; simpl in Ep; injection Ep as <- _; [set_solver|].
      intros ->. apply (Hd0 h); set_solver. }
    assert (x ∉ q :: l3) as Hq by (rewrite <- Eq; set_solver).
    split_and!; [set_solver|set_solver| |set_solver]. intros Hx. apply (Hd0 x Hx). set_solver. }
  unfold link_del, set_next, set_prev. simpl. rewrite E2, E3.
  rewrite fn_lookup_insert_ne by congruence. rewrite E3.
  split.
  - split.
    + rewrite <- Ep in Hnd. simpl in Hnd. apply NoDup_cons in Hnd as [Hh Hnd].
      apply NoDup_app in Hnd as (? & Hd & [_ ?]%NoDup_cons). apply NoDup_cons. split; [set_solver|].
      apply NoDup_app. split_and!; [done|set_solver|done].
    + change (h :: (l1 ++ l2) ++ [h]) with (((h :: l1) ++ l2) ++ [h]). rewrite Ep, <- !app_assoc. simpl. rewrite Eq.
      apply linked_app. split.
      * eapply linked_frame; [| |exact Hl0]; simpl.
        -- intros a Ha Hra. rewrite removelast_snoc in Hra. rewrite !fn_lookup_insert_ne; [done| |].
           ++ intros <-. apply NoDup_app in Hnd as (Hn & _ & _). apply NoDup_app in Hn as (_ & Hd & _). set_solver.
           ++ intros <-. done.
        -- intros a Ha. assert (a ∈ tail (h :: l1)) as Ha' by (by rewrite Ep). simpl in Ha'.
           rewrite !fn_lookup_insert_ne; [done| |].
           ++ intros <-. (* q is in l1: then l2 is empty and q = h, or NoDup fails *)
              rewrite <- Ep in Hnd. simpl in Hnd. apply NoDup_cons in Hnd as [Hh Hnd].
              apply NoDup_app in Hnd as (_ & Hd & _). destruct l2 as [|b l2]; simpl in Eq; injection Eq as -> _.
              ** set_solver.
              ** apply (Hd q Ha'). set_solver.
           ++ intros <-. apply Hx0. destruct l0 as [|b l0]; simpl in *; [injection Ep as <- ->; set_solver|].
              injection Ep as _ ->. set_solver.
      * apply linked_cons2. cbn [next prev]. rewrite fn_lookup_insert_ne, fn_lookup_insert by congruence.
        rewrite fn_lookup_insert_ne, fn_lookup_insert by congruence. split_and!; [done|done|].
        eapply linked_frame; [| |exact Hl3]; simpl.
        -- intros a Ha Hra. rewrite !fn_lookup_insert_ne; [done| |].
           ++ intros <-. (* p is in l2 *)
              assert (p ∈ removelast (l2 ++ [h])) as Hp2 by (by rewrite Eq). rewrite removelast_snoc in Hp2.
              apply NoDup_app in Hnd as (_ & Hd & _). apply (Hd p); set_solver.
           ++ intros <-. set_solver.
        -- intros a Ha. rewrite !fn_lookup_insert_ne; [done| |].
           ++ intros <-. (* q occurs twice *)
              assert (NoDup (l2 ++ [h])) as Hnd2.
              { apply NoDup_app. split_and!; [|rewrite <- Ep in Hnd; simpl in Hnd; apply NoDup_cons in Hnd as [Hh _]; set_solver|apply NoDup_singleton].
                apply NoDup_app in Hnd as (_ & _ & [_ ?]%NoDup_cons). done. }
              rewrite Eq in Hnd2. apply NoDup_cons in Hnd2 as [Hn _]. done.
           ++ intros <-. done.
  - split; [apply NoDup_singleton|]. simpl. by rewrite !fn_lookup_insert.
Qed.

(** Only the pointers of the neighbours and of the node itself change. *)
Lemma link_add_tail_other x h s a :
  a <> x -> a <> h -> a <> prev s h ->
  next (link_add_tail x h s) a = next s a /\ prev (link_add_tail x h s) a = prev s a.
Proof.
  intros H1 H2 H3. unfold link_add_tail, link_add, set_next, set_prev. simpl.
  rewrite !fn_lookup_insert_ne by congruence. done.
Qed.

Lemma link_del_other x s a :
  a <> x -> a <> prev s x -> a <> next s x -> prev s x <> x ->
  next (link_del x s) a = next s a /\ prev (link_del x s) a = prev s a.
Proof.
  intros H1 H2 H3 H4. unfold link_del, set_next, set_prev. simpl.
  rewrite (fn_lookup_insert_ne _ (prev s x) x) by done.
  rewrite !fn_lookup_insert_ne by congruence. done.
Qed.

(** Another ring is not touched. *)
Lemma link_add_tail_frame x h l s h' l' :
  ring s h l -> ring s h' l' -> x ∉ h' :: l' -> (forall a, a ∈ h :: l -> a ∉ h' :: l') ->
  ring (link_add_tail x h s) h' l'.
Proof.
  intros Hr Hr' Hx Hd. eapply ring_frame; [|exact Hr']. intros a Ha. apply link_add_tail_other.
  - by intros ->.
  - intros ->. apply (Hd h); set_solver.
  - intros ->. rewrite (ring_prev s h l Hr) in Ha. apply (Hd (default h (last l))); [|done].
    destruct (last l) eqn:E; simpl; [|by left]. right. by apply last_Some_elem_of.
Qed.

Lemma ring_neighbours s h l x :
  ring s h l -> x ∈ l -> next s x ∈ h :: l /\ prev s x ∈ h :: l /\ prev s x <> x.
Proof.
  intros [Hnd Hl] (l1 & l2 & ->)%list_elem_of_split.
  destruct (cons_snoc h l1) as (l0 & p & Ep).
  assert (exists q l3, l2 ++ [h] = q :: l3) as (q & l3 & Eq) by (destruct l2; simpl; eauto).
  change (h :: (l1 ++ x :: l2) ++ [h]) with (((h :: l1) ++ x :: l2) ++ [h]) in Hl.
  change (h :: l1 ++ x :: l2) with ((h :: l1) ++ x :: l2) in *. rewrite Ep in *.
  rewrite <- !app_assoc in Hl. simpl in Hl. rewrite Eq in Hl.
  apply linked_app in Hl as [_ (_ & E2 & E3 & _)]. rewrite E2, E3. split_and!.
  - assert (q ∈ l2 ++ [h]) as Hq by (rewrite Eq; by left). apply elem_of_app in Hq as [Hq|Hq%list_elem_of_singleton].
    + set_solver.
    + subst q. rewrite <- Ep. set_solver.
  - set_solver.
  - intros ->. rewrite <- app_assoc in Hnd. apply NoDup_app in Hnd as (_ & _ & Hnd). simpl in Hnd.
    apply NoDup_cons in Hnd as [Hn _]. set_solver.
Qed.

Lemma link_del_frame x h l s h' l' :
  ring s h l -> x ∈ l -> ring s h' l' -> (forall a, a ∈ h :: l -> a ∉ h' :: l') ->
  ring (link_del x s) h' l'.
Proof.
  intros Hr Hx Hr' Hd. destruct (ring_neighbours s h l x Hr Hx) as (Hn & Hp & Hne).
  eapply ring_frame; [|exact Hr']. intros a Ha. apply link_del_other; [..|done];
    intros ->; eapply Hd; try exact Ha; set_solver.
Qed.

End Rings.

(** ** The byte-level lists

    On nodes that do not overlap, the byte-level operations are the reference
    ones. *)

Definition view (m : mem) : links Z := mk_links (Lists.next m) (Lists.prev m).

Definition separated_set (D : Z -> Prop) : Prop :=
  (forall a, D a -> 0 <= a /\ a + 16 <= 2 ^ 64) /\
  (forall a b, D a -> D b -> a = b \/ a + 16 <= b \/ b + 16 <= a).

Definition separated (ns : list Z) : Prop := separated_set (fun a => a ∈ ns).

Definition node_bytes (ns : list Z) (x : Z) : Prop := exists n, n ∈ ns /\ in_range n 16 x.

(** The memory and the reference state hold the same pointers on [ns]. *)
Definition sim (ns : list Z) (m : mem) (s : links Z) : Prop :=
  forall a, a ∈ ns -> Lists.next m a = next s a /\ Lists.prev m a = prev s a.

Lemma sim_view ns m : sim ns m (view m).
Proof. by intros a _. Qed.

Lemma separated_sub (D D' : Z -> Prop) :
  separated_set D -> (forall a, D' a -> D a) -> separated_set D'.
Proof. intros [H1 H2] Hs. split; auto. Qed.

Lemma sim_set_next ns m s n v :
  separated ns -> n ∈ ns -> v ∈ ns -> sim ns m s -> sim ns (Lists.set_next m n v) (set_next n v s).
Proof.
  intros [Hw Hs] Hn Hv H a Ha. unfold Lists.set_next, Lists.next, Lists.prev, set_next. simpl.
  destruct (H a Ha) as [E1 E2]. destruct (decide (a = n)) as [->|Hne].
  - rewrite fn_lookup_insert, load8_store8 by (specialize (Hw v Hv); lia).
    rewrite load_store_ne by lia. done.
  - rewrite fn_lookup_insert_ne by congruence. destruct (Hs a n Ha Hn); [done|].
    rewrite !load_store_ne by lia. done.
Qed.

Lemma sim_set_prev ns m s n v :
  separated ns -> n ∈ ns -> v ∈ ns -> sim ns m s -> sim ns (Lists.set_prev m n v) (set_prev n v s).
Proof.
  intros [Hw Hs] Hn Hv H a Ha. unfold Lists.set_prev, Lists.next, Lists.prev, set_prev. simpl.
  destruct (H a Ha) as [E1 E2]. destruct (decide (a = n)) as [->|Hne].
  - rewrite fn_lookup_insert, load8_store8 by (specialize (Hw v Hv); lia).
    rewrite load_store_ne by lia. done.
  - rewrite fn_lookup_insert_ne by congruence. destruct (Hs a n Ha Hn); [done|].
    rewrite !load_store_ne by lia. done.
Qed.

#[local] Hint Resolve sim_set_next sim_set_prev : lunos.

Lemma list_init_sim ns m s n :
  separated ns -> n ∈ ns -> sim ns m s -> sim ns (Lists.list_init m n) (link_init n s).
Proof. unfold Lists.list_init, link_init. eauto with lunos. Qed.

Lemma list_add_tail_sim ns m s x h :
  separated ns -> x ∈ ns -> h ∈ ns -> prev s h ∈ ns -> sim ns m s ->
  sim ns (Lists.list_add_tail m x h) (link_add_tail x h s).
Proof.
  intros Hs Hx Hh Hp H. unfold Lists.list_add_tail, Lists.list_add, link_add_tail, link_add.
  rewrite (proj2 (H h Hh)). eauto 6 with lunos.
Qed.

Lemma list_del_sim ns m s x :
  separated ns -> x ∈ ns -> next s x ∈ ns -> prev s x ∈ ns -> prev s x <> x -> sim ns m s ->
  sim ns (Lists.list_del m x) (link_del x s).
Proof.
  intros Hs Hx Hn Hp Hne H. unfold Lists.list_del, link_del. destruct (H x Hx) as [E1 E2].
  rewrite E1, E2. set (m1 := Lists.set_next m _ _). set (s1 := set_next (prev s x) _ s).
  assert (sim ns m1 s1) as H1 by (apply sim_set_next; auto). destruct (H1 x Hx) as [E3 E4].
  rewrite E3, E4. assert (next s1 x = next s x) as E5.
  { unfold s1, set_next. simpl. by rewrite fn_lookup_insert_ne. }
  assert (prev s1 x = prev s x) as E6 by done.
  rewrite E5, E6. eauto 6 with lunos.
Qed.

(** Rings only depend on the pointers of their nodes. *)
Lemma ring_sim ns m s h l :
  sim ns m s -> (forall a, a ∈ h :: l -> a ∈ ns) -> ring s h l <-> ring (view m) h l.
Proof.
  intros Hs Hsub. split; apply ring_frame; intros a Ha; simpl; destruct (Hs a (Hsub a Ha)); done.
Qed.

Lemma ring_agree m m' h l :
  agree (node_bytes (h :: l)) m m' -> ring (view m) h l -> ring (view m') h l.
Proof.
  intros Ha. apply ring_frame. intros a Hin. simpl. unfold Lists.next, Lists.prev.
  split; symmetry; apply load_agree; (eapply agree_sub; [exact Ha|]);
    intros x Hx; exists a; (split; [done|]); unfold in_range in *; lia.
Qed.

Lemma ring_prev_in {N} `{EqDecision N} (s : links N) h l : ring s h l -> prev s h ∈ h :: l.
Proof.
  intros Hr. rewrite (ring_prev s h l Hr). destruct (last l) eqn:E; simpl; [|by left].
  right. by apply last_Some_elem_of.
Qed.

(** ** Specifications *)

Lemma list_init_spec m n :
  0 <= n -> n + 16 <= 2 ^ 64 ->
  ring (view (Lists.list_init m n)) n [] /\
  agree (fun x => ~ in_range n 16 x) m (Lists.list_init m n).
Proof.
  intros H1 H2. split.
  - assert (separated [n]) as Hs by (split; [intros a ->%list_elem_of_singleton; lia|set_solver]).
    apply (ring_sim [n] _ (link_init n (view m))); [|done|apply link_init_ring].
    apply list_init_sim; [done|by left|apply sim_view].
  - unfold Lists.list_init, Lists.set_next, Lists.set_prev.
    etransitivity; apply agree_store; unfold in_range; lia.
Qed.

(** Stores into nodes. *)
Lemma set_next_agree ns m n v :
  n ∈ ns -> agree (fun x => ~ node_bytes ns x) m (Lists.set_next m n v).
Proof. intros Hn. apply agree_store. intros x Hx Hr. apply Hx. exists n. split; [done|]. unfold in_range in *. lia. Qed.

Lemma set_prev_agree ns m n v :
  n ∈ ns -> agree (fun x => ~ node_bytes ns x) m (Lists.set_prev m n v).
Proof. intros Hn. apply agree_store. intros x Hx Hr. apply Hx. exists n. split; [done|]. unfold in_range in *. lia. Qed.

Lemma list_add_tail_spec m x h l :
  separated (x :: h :: l) -> x ∉ h :: l -> ring (view m) h l ->
  ring (view (Lists.list_add_tail m x h)) h (l ++ [x]) /\
  agree (fun y => ~ node_bytes (x :: h :: l) y) m (Lists.list_add_tail m x h).
Proof.
  intros Hs Hx Hr. pose proof (ring_prev_in _ h l Hr) as Hp. split.
  - apply (ring_sim (x :: h :: l) _ (link_add_tail x h (view m))).
    + apply list_add_tail_sim; [done|set_solver|set_solver|set_solver|apply sim_view].
    + set_solver.
    + by apply link_add_tail_ring.
  - unfold Lists.list_add_tail, Lists.list_add. simpl in Hp.
    etransitivity; [|apply set_next_agree; set_solver].
    etransitivity; [|apply set_prev_agree; set_solver].
    etransitivity; [|apply set_next_agree; set_solver].
    apply set_prev_agree; set_solver.
Qed.

Lemma list_del_spec m x h l1 l2 :
  separated (h :: l1 ++ x :: l2) -> ring (view m) h (l1 ++ x :: l2) ->
  ring (view (Lists.list_del m x)) h (l1 ++ l2) /\ ring (view (Lists.list_del m x)) x [] /\
  agree (fun y => ~ node_bytes (h :: l1 ++ x :: l2) y) m (Lists.list_del m x).
Proof.
  intros Hs Hr. destruct (ring_neighbours _ h _ x Hr) as (Hn & Hp & Hne); [set_solver|].
  destruct (link_del_ring x h l1 l2 _ Hr) as [R1 R2].
  assert (sim (h :: l1 ++ x :: l2) (Lists.list_del m x) (link_del x (view m))) as Hsim.
  { apply list_del_sim; [done|set_solver|done|done|done|apply sim_view]. }
  split_and!.
  - apply (ring_sim _ _ _ _ _ Hsim); [set_solver|done].
  - apply (ring_sim _ _ _ _ _ Hsim); [set_solver|done].
  - unfold Lists.list_del. simpl in Hn, Hp.
    set (m1 := Lists.set_next m _ _).
    assert (sim (h :: l1 ++ x :: l2) m1 (set_next (prev (view m) x) (next (view m) x) (view m))) as H1.
    { apply sim_set_next; [done|done|done|apply sim_view]. }
    destruct (H1 x) as [E3 E4]; [set_solver|].
    assert (Lists.next m1 x = Lists.next m x) as E5.
    { rewrite E3. unfold set_next. simpl. by rewrite fn_lookup_insert_ne. }
    rewrite E5.
    etransitivity; [|apply set_prev_agree; set_solver].
    etransitivity; [|apply set_next_agree; set_solver].
    etransitivity; [|apply set_prev_agree; done].
    apply set_next_agree; done.
Qed.
