(* ===== verification/Tasks.v ===== *)
(** * Tasks, the scheduler and the task manager: operations

    Models src/kernel/arch/x86_64/tasks/tasks.c and task_manager.c,
    src/kernel/kernel/scheduler/scheduler.c with context_switch.S, their
    headers, and the CPU numbering of src/kernel/arch/x86_64/smp/smp.c.  A
    [struct task] lives in the byte memory at the address [kmalloc] returned,
    with its list nodes inside it; 0 is NULL.  Each function is the work it does
    while it holds its lock.  [core] is the number [get_current_core_id] reads
    from the GS segment. *)
From S2P Require Import Prelude Memory PageAlloc Slab Pmm Klib Vmm Memmgr Lists.
Import Slab Pmm Klib Vmm Memmgr Lists.

(** Where the linker puts the list heads [all_tasks] and
    [__percpu_cpu_runqueue]: four nodes in one array, one apart from it. *)
Class TaskLinker := {
  all_tasks : Z;
  percpu_cpu_runqueue : Z;
  all_tasks_fit : 0 < all_tasks /\ all_tasks + 16 <= 2 ^ 64;
  percpu_cpu_runqueue_fit : 0 < percpu_cpu_runqueue /\ percpu_cpu_runqueue + 64 <= 2 ^ 64;
  list_heads_apart :
    all_tasks + 16 <= percpu_cpu_runqueue \/ percpu_cpu_runqueue + 64 <= all_tasks;
}.

Module Tasks.

Definition MAX_CORES : nat := 4.
Definition PID_MAX : Z := 1111111111.
Definition KERNEL_STACK_SIZE : Z := 4 * PAGE_SIZE.

Definition TASK_RUNNING : Z := 0x0.
Definition TASK_SLEEPING_INTERRUPTIBLE : Z := 0x1.
Definition TASK_ZOMBIE : Z := 0x6.

(** struct task_context: twenty 64-bit registers. *)
Definition sizeof_task_context : Z := 160.
Definition ctx_rip : Z := 120.
Definition ctx_cs : Z := 128.
Definition ctx_rflags : Z := 136.
Definition ctx_stack_ptr : Z := 144.
Definition ctx_ss : Z := 152.

(** struct task: the offsets of its fields. *)
Definition sizeof_task : Z := 312.
Definition t_pid : Z := 160.
Definition t_tgid : Z := 164.
Definition t_cpu_id : Z := 168.
Definition t_priority : Z := 172.
Definition t_state : Z := 176.
Definition t_md : Z := 184.
Definition t_kernel_stack_base : Z := 192.
Definition t_parent : Z := 200.
Definition t_children : Z := 208.
Definition t_siblings : Z := 224.
Definition t_zombie_children : Z := 240.
Definition t_zombie_siblings : Z := 256.
Definition t_tasks : Z := 272.
Definition t_tasks_runnable : Z := 288.
Definition t_exit_code : Z := 304.
Definition t_exit_signal : Z := 308.

Definition task_pid (m : mem) (t : Z) : Z := load 4 m (t + t_pid).
Definition task_cpu_id (m : mem) (t : Z) : Z := s32 (load 4 m (t + t_cpu_id)).
Definition task_state (m : mem) (t : Z) : Z := load 1 m (t + t_state).
Definition task_md (m : mem) (t : Z) : Z := load 8 m (t + t_md).
Definition task_kernel_stack_base (m : mem) (t : Z) : Z := load 8 m (t + t_kernel_stack_base).
Definition task_parent (m : mem) (t : Z) : Z := load 8 m (t + t_parent).

(** The registers [load_next_task] hands to the CPU, and where execution goes
    on: [iretq] takes rip, cs, rflags, rsp and ss from the frame it pushed. *)
Record cpu_state := mk_cpu {
  general : list Z;
  rip : Z; cs : Z; rflags : Z; rsp : Z; ss : Z;
}.

Definition load_next_task (m : mem) (cont : Z) : cpu_state :=
  mk_cpu (map (fun i => load 8 m (cont + 8 * Z.of_nat i)) (seq 0 15))
    (load 8 m (cont + ctx_rip)) (load 8 m (cont + ctx_cs)) (load 8 m (cont + ctx_rflags))
    (load 8 m (cont + ctx_stack_ptr)) (load 8 m (cont + ctx_ss)).

Section Ops.
Context `{Hhdm} `{Linker} `{TaskLinker} {P : Type} `{!PageAllocator P}.

Record kernel := mk_kernel {
  k_vmm : vmm P;
  pid_counter : Z;
  percpu_current_task : list Z;
  percpu_task_counter : list Z;
}.

Implicit Types k : kernel.

Definition k_mem k : mem := v_mem (k_vmm k).
Definition set_kvmm k (v : vmm P) : kernel :=
  mk_kernel v (pid_counter k) (percpu_current_task k) (percpu_task_counter k).
Definition set_kmem k (m : mem) : kernel := set_kvmm k (set_vmem (k_vmm k) m).
Definition set_kheap k (h : heap P) : kernel := set_kvmm k (set_heap (k_vmm k) h).
Definition set_pid_counter k (c : Z) : kernel :=
  mk_kernel (k_vmm k) c (percpu_current_task k) (percpu_task_counter k).
Definition set_current_task k (c : list Z) : kernel :=
  mk_kernel (k_vmm k) (pid_counter k) c (percpu_task_counter k).
Definition set_task_counter k (c : list Z) : kernel :=
  mk_kernel (k_vmm k) (pid_counter k) (percpu_current_task k) c.

Definition kmalloc_k (fuel : nat) (size : Z) k : option (kernel * Z) :=
  '(h, p) ← kmalloc fuel size (v_heap (k_vmm k)); Some (set_kheap k h, p).
Definition kfree_k (p : Z) k : option kernel :=
  '(h, _) ← kfree p (v_heap (k_vmm k)); Some (set_kheap k h).

Definition runqueue (cpu : nat) : Z := percpu_cpu_runqueue + 16 * Z.of_nat cpu.

(** ** tasks.c *)

Definition incr_pid_ctr k : kernel * Z :=
  let pid := pid_counter k in
  let c := w32 (pid + 1) in
  (set_pid_counter k (if PID_MAX <? c then 2 else c), pid).

Definition create_task (fuel : nat) k : option (kernel * Z) :=
  '(k, task) ← kmalloc_k fuel sizeof_task k;
  if task =? 0 then Some (k, 0) else
  let m := k_mem k in
  let m := store 4 m (task + t_pid) 0 in
  let m := store 4 m (task + t_tgid) (load 4 m (task + t_pid)) in
  let m := store 4 m (task + t_priority) 99 in
  let m := store 1 m (task + t_state) TASK_RUNNING in
  let m := store 8 m (task + t_md) 0 in
  let m := memset m task 0 sizeof_task_context in
  let m := store 8 m (task + t_parent) 0 in
  let m := list_init m (task + t_siblings) in
  let m := list_init m (task + t_children) in
  let m := list_init m (task + t_zombie_siblings) in
  let m := list_init m (task + t_zombie_children) in
  let m := store 4 m (task + t_exit_code) 0 in
  let m := store 4 m (task + t_exit_signal) 0 in
  Some (set_kmem k m, task).

Definition create_kernel_task (fuel : nat) (func : Z) k : option (kernel * Z) :=
  '(k, ktask) ← create_task fuel k;
  if ktask =? 0 then Some (k, 0) else
  '(k, stack) ← kmalloc_k fuel KERNEL_STACK_SIZE k;
  if stack =? 0 then k ← kfree_k ktask k; Some (k, 0) else
  let m := k_mem k in
  let m := store 8 m (ktask + t_kernel_stack_base) stack in
  let m := store 8 m (ktask + ctx_stack_ptr) (w64 (stack + KERNEL_STACK_SIZE)) in
  let m := store 8 m (ktask + ctx_rip) func in
  let m := store 8 m (ktask + ctx_rflags) 0x202 in
  let m := store 8 m (ktask + ctx_cs) 0x08 in
  let m := store 8 m (ktask + ctx_ss) 0x10 in
  let m := list_init m (ktask + t_tasks_runnable) in
  let m := list_add_tail m (ktask + t_tasks) all_tasks in
  Some (set_kmem k m, ktask).

Definition create_user_task (fuel : nat) k : option (kernel * Z) :=
  '(k, utask) ← create_task fuel k;
  if utask =? 0 then Some (k, 0) else
  let '(k, pid) := incr_pid_ctr k in
  let m := store 4 (k_mem k) (utask + t_pid) pid in
  let m := store 4 m (utask + t_tgid) (load 4 m (utask + t_pid)) in
  '(k, md) ← kmalloc_k fuel sizeof_mem_descriptor (set_kmem k m);
  let k := set_kmem k (store 8 (k_mem k) (utask + t_md) md) in
  if md =? 0 then k ← kfree_k utask k; Some (k, 0) else
  let m := list_init (k_mem k) (utask + t_tasks_runnable) in
  let m := list_add_tail m (utask + t_tasks) all_tasks in
  Some (set_kmem k m, utask).

Definition task_destroy (fuel : nat) (task : Z) k : option kernel :=
  let m := list_del (k_mem k) (task + t_tasks) in
  let m := list_del m (task + t_siblings) in
  let k := set_kmem k m in
  k ← (if task_md (k_mem k) task =? 0 then Some k
       else v ← mm_free fuel (task_md (k_mem k) task) (k_vmm k); Some (set_kvmm k v));
  k ← (if task_kernel_stack_base (k_mem k) task =? 0 then Some k
       else kfree_k (task_kernel_stack_base (k_mem k) task) k);
  kfree_k task k.

Definition task_add_child (parent child : Z) (m : mem) : mem :=
  if negb (task_parent m child =? parent) then m
  else list_add_tail m (child + t_siblings) (parent + t_children).

Definition task_remove_child (parent child : Z) (m : mem) : mem :=
  if negb (task_parent m child =? parent) then m
  else list_del m (child + t_siblings).

Definition task_add_zombie (parent zombie : Z) (m : mem) : mem :=
  if negb (task_parent m zombie =? parent) then m
  else
    let m := list_del m (zombie + t_siblings) in
    list_add_tail m (zombie + t_zombie_siblings) (parent + t_zombie_children).

Definition task_remove_zombie (parent zombie : Z) (m : mem) : mem :=
  if negb (task_parent m zombie =? parent) then m
  else list_del m (zombie + t_zombie_siblings).

Fixpoint orphan_loop (fuel : nat) (children node : Z) (m : mem) : option mem :=
  match fuel with
  | O => None
  | S fuel =>
    if node =? children then Some m else
    let node_to_remove := node in
    let node := next m node in
    orphan_loop fuel children node (list_del m node_to_remove)
  end.

Definition task_orphan_children (fuel : nat) (dead_parent : Z) (m : mem) : option mem :=
  orphan_loop fuel (dead_parent + t_children) (next m (dead_parent + t_children)) m.

(** ** scheduler.c *)

Definition scheduler_init k : kernel :=
  let m := list_init (k_mem k) all_tasks in
  let m := fold_left (fun m i => list_init m (runqueue i)) (seq 0 MAX_CORES) m in
  set_current_task (set_kmem k m) (replicate MAX_CORES 0).

Definition sched_task (task : Z) (cpu_id : nat) (m : mem) : mem :=
  if task =? 0 then m else list_add_tail m (task + t_tasks_runnable) (runqueue cpu_id).

Definition sched_remove_task (task : Z) (m : mem) : mem :=
  if task =? 0 then m else list_del m (task + t_tasks_runnable).

Definition get_current_task (core : nat) k : Z := nth core (percpu_current_task k) 0.

(** The task the scheduler picks on [core]; 0 when it finds none. *)
Definition pick_next (core : nat) (m : mem) (current : Z) : Z :=
  let runqueue := runqueue core in
  if current =? 0 then
    if negb (list_empty m runqueue) then container_of (next m runqueue) t_tasks_runnable else 0
  else
    let next_node := next m (current + t_tasks_runnable) in
    let next_node := if next_node =? runqueue then next m runqueue else next_node in
    if negb (next_node =? runqueue) then container_of next_node t_tasks_runnable else 0.

(** [schedule] ends in [load_next_task], which does not return: the result is
    the new state and the address of the context that is loaded. *)
Definition schedule (core : nat) k : kernel * Z :=
  let current := get_current_task core k in
  let next := pick_next core (k_mem k) current in
  if negb (next =? 0) && negb (next =? current)
  then (set_current_task k (<[core := next]> (percpu_current_task k)), next)
  else (k, current).

(** ** task_manager.c *)

(** [None]: an access outside the per-CPU array. *)
Fixpoint init_ctr_loop (n i : nat) (c : list Z) : option (list Z) :=
  match n with
  | O => Some c
  | S n => if decide (i < MAX_CORES)%nat then init_ctr_loop n (S i) (<[i := 0]> c) else None
  end.

Definition init_task_ctr (cpu_count : nat) k : option kernel :=
  c ← init_ctr_loop cpu_count 0 (percpu_task_counter k); Some (set_task_counter k c).

(** The loop of [find_least_busy_cpu] from [i] on. *)
Fixpoint least_loop (n i : nat) (c : list Z) (id : nat) (min : Z) : nat :=
  match n with
  | O => id
  | S n =>
    if nth i c 0 <? min then least_loop n (S i) c i (nth i c 0)
    else least_loop n (S i) c id min
  end.

Definition find_least_busy_cpu k : kernel * nat :=
  let c := percpu_task_counter k in
  let id := least_loop (MAX_CORES - 1) 1 c 0 (nth 0 c 0) in
  (set_task_counter k (<[id := s32 (nth id c 0 + 1)]> c), id).

Definition create_and_schedule_kernel_task (fuel : nat) (func : Z) k : option (kernel * Z) :=
  '(k, t) ← create_kernel_task fuel func k;
  let '(k, id) := find_least_busy_cpu k in
  let m := store 4 (k_mem k) (t + t_cpu_id) (Z.of_nat id) in
  Some (set_kmem k (sched_task t id m), t).

Definition task_exit (fuel : nat) (core : nat) (exit_code : Z) k : option (kernel * Z) :=
  let current := get_current_task core k in
  let m := store 4 (k_mem k) (current + t_exit_code) exit_code in
  let m := store 1 m (current + t_state) TASK_ZOMBIE in
  let m := sched_remove_task current m in
  let cpu := task_cpu_id m current in
  if negb ((0 <=? cpu) && (cpu <? Z.of_nat MAX_CORES)) then None else
  let c := percpu_task_counter k in
  let k := set_task_counter (set_kmem k m)
             (<[Z.to_nat cpu := s32 (nth (Z.to_nat cpu) c 0 - 1)]> c) in
  k ← (if task_md (k_mem k) current =? 0 then Some k
       else v ← mm_free fuel (task_md (k_mem k) current) (k_vmm k);
            let k := set_kvmm k v in
            Some (set_kmem k (store 8 (k_mem k) (current + t_md) 0)));
  let parent := task_parent (k_mem k) current in
  let k := if negb (parent =? 0) && (task_state (k_mem k) parent =? TASK_SLEEPING_INTERRUPTIBLE)
           then set_kmem k (task_add_zombie parent current (k_mem k)) else k in
  k ← (if negb (current + t_children =? next (k_mem k) (current + t_children))
       then m ← task_orphan_children fuel current (k_mem k); Some (set_kmem k m)
       else Some k);
  Some (schedule core k).

Definition wake_up_task (task : Z) k : kernel :=
  let k := set_kmem k (store 1 (k_mem k) (task + t_state) TASK_RUNNING) in
  let '(k, id) := find_least_busy_cpu k in
  let m := store 4 (k_mem k) (task + t_cpu_id) (Z.of_nat id) in
  set_kmem k (sched_task task id m).

End Ops.

(** ** smp.c: numbering the CPUs *)

(** [percpu_processor_ids] and [cpu_id_ctr]; the result is the number the GS
    base of the calling CPU points at, when it is set. *)
Definition init_percpu_data (processor_id : Z) (ids : list Z) : list Z * option Z :=
  if Z.of_nat MAX_CORES <=? processor_id then (ids, None)
  else (<[Z.to_nat processor_id := processor_id]> ids, Some processor_id).

(** One CPU taking its number: [init_percpu_data(cpu_id_ctr++)]. *)
Definition register_cpu (ids : list Z) (cpu_id_ctr : Z) : list Z * Z * option Z :=
  let '(ids, r) := init_percpu_data cpu_id_ctr ids in (ids, cpu_id_ctr + 1, r).

End Tasks.
