(* ===== verification/TasksSpec.v ===== *)
(** * The scheduler: specification

    [sched_ok m q]: the run queue of every CPU [c] is the list of tasks [q c],
    the list nodes do not overlap, and no task is queued twice.  [schedule] is
    then round robin over [q], and the other operations change [q]. *)
From S2P Require Import Prelude Memory PageAlloc Slab Pmm Klib Vmm Memmgr Lists Tasks.
Import Slab Pmm Klib Vmm Memmgr Lists Tasks.

Section Sched.
Context `{Hhdm} `{Linker} `{TaskLinker} {P : Type} `{!PageAllocator P}.

Implicit Types (k : kernel (P := P)) (q : nat -> list Z) (m : mem) (t : Z).

Definition node t : Z := t + t_tasks_runnable.

Definition is_node q (a : Z) : Prop :=
  exists c, (c < MAX_CORES)%nat /\ (a = runqueue c \/ exists t, t ∈ q c /\ a = node t).

Record sched_ok m q : Prop := {
  so_ring c : (c < MAX_CORES)%nat -> ring (view m) (runqueue c) (map node (q c));
  so_sep : separated_set (is_node q);
  so_pos c t : (c < MAX_CORES)%nat -> t ∈ q c -> 0 < t;
  so_once c d t : (c < MAX_CORES)%nat -> (d < MAX_CORES)%nat -> t ∈ q c -> t ∈ q d -> c = d;
  so_heads c d t : (c < MAX_CORES)%nat -> (d < MAX_CORES)%nat -> t ∈ q d -> node t <> runqueue c;
}.

Lemma container_of_node t : container_of (node t) t_tasks_runnable = t.
Proof. unfold container_of, node. lia. Qed.

Lemma elem_node t l : node t ∈ map node l <-> t ∈ l.
Proof.
  split.
  - intros (t' & E & Ht)%list_elem_of_fmap. unfold node in E. by assert (t = t') as -> by lia.
  - intros Ht. apply list_elem_of_fmap. eauto.
Qed.

Lemma runqueue_inj c d : runqueue c = runqueue d -> c = d.
Proof. unfold runqueue. lia. Qed.

(** ** Picking the next task *)

(** Following the pointers of a ring from its [i]-th node. *)
Lemma ring_next_at {N} `{EqDecision N} (s : Links.links N) h l i a :
  ring s h l -> l !! i = Some a -> Links.next s a = default h (l !! S i).
Proof.
  intros [_ Hl] Hi. apply list_elem_of_split_length in Hi as (l1 & l2 & -> & ->).
  change (h :: (l1 ++ a :: l2) ++ [h]) with (((h :: l1) ++ a :: l2) ++ [h]) in Hl.
  rewrite <- app_assoc in Hl. apply linked_app in Hl as [_ Hl].
  rewrite lookup_app_r by lia. replace (S (length l1) - length l1)%nat with 1%nat by lia.
  destruct l2 as [|b l2]; simpl in *; tauto.
Qed.

Lemma pick_next_idle c m q :
  sched_ok m q -> (c < MAX_CORES)%nat -> pick_next c m 0 = default 0 (head (q c)).
Proof.
  intros Hs Hc. pose proof (so_ring _ _ Hs c Hc) as Hr. unfold pick_next. simpl.
  pose proof (ring_next _ _ _ Hr) as En. simpl in En. unfold list_empty. rewrite En.
  destruct (q c) as [|t l] eqn:Eq; simpl.
  - by rewrite Z.eqb_refl.
  - rewrite (proj2 (Z.eqb_neq _ _)); [apply container_of_node|].
    apply (so_heads _ _ Hs c c t); [done|done|rewrite Eq; by left].
Qed.

Lemma pick_next_running c m q i t :
  sched_ok m q -> (c < MAX_CORES)%nat -> q c !! i = Some t ->
  q c !! (S i mod length (q c))%nat = Some (pick_next c m t).
Proof.
  intros Hs Hc Hi. pose proof (so_ring _ _ Hs c Hc) as Hr. unfold pick_next.
  assert (0 < t) as Ht by (by eapply (so_pos _ _ Hs c), list_elem_of_lookup_2).
  rewrite (proj2 (Z.eqb_neq _ _)) by lia. fold (node t).
  pose proof (ring_next_at _ _ _ i (node t) Hr) as En. simpl in En. rewrite En.
  2: { change (map node (q c)) with (node <$> q c). by rewrite list_lookup_fmap, Hi. }
  change (map node (q c)) with (node <$> q c). rewrite list_lookup_fmap.
  pose proof (lookup_lt_Some _ _ _ Hi) as Hlt.
  assert (forall j u, q c !! j = Some u -> node u =? runqueue c = false) as Hh.
  { intros j u Hu. apply Z.eqb_neq. apply (so_heads _ _ Hs c c u); [done|done|by eapply list_elem_of_lookup_2]. }
  destruct (q c !! S i) as [u|] eqn:Eu; simpl.
  - rewrite Nat.mod_small by (by eapply lookup_lt_Some). rewrite !(Hh _ _ Eu). simpl.
    by rewrite container_of_node, Eu.
  - apply lookup_ge_None in Eu. replace (S i) with (length (q c)) by lia. rewrite Nat.Div0.mod_same.
    rewrite Z.eqb_refl. pose proof (ring_next _ _ _ Hr) as E0. simpl in E0. rewrite E0.
    destruct (q c) as [|u l] eqn:Eq; [simpl in Hlt; lia|]. simpl. rewrite (Hh 0%nat u) by done. simpl.
    by rewrite container_of_node.
Qed.

(** ** Round robin *)

(** [n] rounds of the scheduler: the tasks it runs, in order. *)
Fixpoint schedule_n (c n : nat) k : list Z :=
  match n with
  | O => []
  | S n => let '(k, t) := schedule c k in t :: schedule_n c n k
  end.

Lemma schedule_mem c k : k_mem (schedule c k).1 = k_mem k.
Proof. unfold schedule. by destruct (_ && _). Qed.

Lemma schedule_next c q i t k :
  sched_ok (k_mem k) q -> (c < length (percpu_current_task k))%nat -> (c < MAX_CORES)%nat ->
  q c !! i = Some t -> get_current_task c k = t ->
  exists k' t', schedule c k = (k', t') /\ q c !! (S i mod length (q c))%nat = Some t' /\
    get_current_task c k' = t' /\ sched_ok (k_mem k') q /\
    length (percpu_current_task k') = length (percpu_current_task k).
Proof.
  intros Hs Hl Hc Hi Ht. pose proof (pick_next_running c _ q i t Hs Hc Hi) as Hn.
  unfold schedule. rewrite Ht. set (u := pick_next c (k_mem k) t) in *.
  assert (0 < u) as Hu by (by eapply (so_pos _ _ Hs c), list_elem_of_lookup_2).
  rewrite (proj2 (Z.eqb_neq u 0)) by lia. simpl. destruct (Z.eqb_spec u t) as [E|E]; simpl.
  - exists k, t. rewrite E in Hn. auto.
  - eexists _, u. split; [done|]. split_and!; [done| |done|].
    + unfold get_current_task. simpl. by rewrite nth_lookup, list_lookup_insert_eq.
    + simpl. by rewrite length_insert.
Qed.

(** The tasks run from position [i] on are the positions [i + 1], [i + 2], ...
    modulo the length of the queue. *)
Lemma schedule_n_lookup c q n : forall i t k,
  sched_ok (k_mem k) q -> (c < length (percpu_current_task k))%nat -> (c < MAX_CORES)%nat ->
  q c !! i = Some t -> get_current_task c k = t ->
  length (schedule_n c n k) = n /\
  forall j, (j < n)%nat -> schedule_n c n k !! j = q c !! ((S i + j) mod length (q c))%nat.
Proof.
  induction n as [|n IH]; intros i t k Hs Hl Hc Hi Ht; [split; [done|lia]|].
  destruct (schedule_next c q i t k Hs Hl Hc Hi Ht) as (k' & t' & E & Ht' & Hcur & Hs' & Hl').
  simpl. rewrite E. destruct (IH _ t' k' Hs' ltac:(lia) Hc Ht' Hcur) as [Hlen Hj].
  split; [simpl; lia|]. intros [|j] Hjn; simpl.
  - rewrite Nat.add_0_r. by rewrite Ht'.
  - rewrite Hj by lia. f_equal. replace (S (S i mod length (q c)) + j)%nat with (S i mod length (q c) + (1 + j))%nat by lia.
    rewrite Nat.Div0.add_mod_idemp_l. by replace (S i + (1 + j))%nat with (S (i + S j)) by lia.
Qed.

Lemma schedule_n_rotate c q i t k :
  sched_ok (k_mem k) q -> (c < length (percpu_current_task k))%nat -> (c < MAX_CORES)%nat ->
  q c !! i = Some t -> get_current_task c k = t ->
  schedule_n c (length (q c)) k = rotate (S i) (q c).
Proof.
  intros Hs Hl Hc Hi Ht. destruct (schedule_n_lookup c q (length (q c)) i t k Hs Hl Hc Hi Ht) as [Hlen Hj].
  apply list_eq. intros j. destruct (decide (j < length (q c))%nat) as [Hlt|Hge].
  - rewrite Hj by done. rewrite lookup_rotate_r by done. f_equal. unfold rotate_nat_add.
    by rewrite <- Nat2Z.inj_add, <- Nat2Z.inj_mod, Nat2Z.id.
  - rewrite !lookup_ge_None_2; [done|rewrite length_rotate; lia|lia].
Qed.

(** ** Changing the queues *)

Lemma is_node_bytes_ne q c d x :
  separated_set (is_node q) -> (forall c d t, (c < MAX_CORES)%nat -> (d < MAX_CORES)%nat -> t ∈ q d -> node t <> runqueue c) ->
  (forall c d t, (c < MAX_CORES)%nat -> (d < MAX_CORES)%nat -> t ∈ q c -> t ∈ q d -> c = d) ->
  (c < MAX_CORES)%nat -> (d < MAX_CORES)%nat -> c <> d ->
  node_bytes (runqueue c :: map node (q c)) x -> ~ node_bytes (runqueue d :: map node (q d)) x.
Proof.
  intros [_ Hsep] Hh Ho Hc Hd Hne (a & Ha & Hxa) (b & Hb & Hxb).
  assert (is_node q a /\ is_node q b) as [Na Nb].
  { split; [exists c|exists d]; (split; [done|]).
    - apply elem_of_cons in Ha as [->|(t & -> & ?)%list_elem_of_fmap]; eauto.
    - apply elem_of_cons in Hb as [->|(t & -> & ?)%list_elem_of_fmap]; eauto. }
  destruct (Hsep a b Na Nb) as [<-|?]; [|unfold in_range in *; lia].
  apply elem_of_cons in Ha as [->|(t & -> & Ht)%list_elem_of_fmap];
    apply elem_of_cons in Hb as [E|(u & E & Hu)%list_elem_of_fmap].
  - by apply runqueue_inj in E.
  - by apply (Hh c d u).
  - by apply (Hh d c t).
  - assert (t = u) as -> by (unfold node in E; lia). by apply Hne, (Ho c d u).
Qed.

(** A task in no queue, with a node apart from all others, may be queued. *)
Definition enqueueable q t : Prop :=
  0 < t /\ node t + 16 <= 2 ^ 64 /\
  forall a, is_node q a -> node t + 16 <= a \/ a + 16 <= node t.

Lemma enqueueable_fresh q t c : (c < MAX_CORES)%nat -> enqueueable q t -> t ∉ q c.
Proof.
  intros Hc (_ & _ & Hd) Ht. destruct (Hd (node t)); [exists c; eauto| |]; lia.
Qed.

Definition enqueue q (c : nat) t : nat -> list Z := <[c := q c ++ [t]]> q.

Lemma elem_enqueue q c t d u : u ∈ enqueue q c t d <-> u ∈ q d \/ (d = c /\ u = t).
Proof.
  unfold enqueue. destruct (decide (d = c)) as [->|Hne].
  - rewrite fn_lookup_insert. set_solver.
  - rewrite fn_lookup_insert_ne by done. naive_solver.
Qed.

Lemma enqueue_node q c t a :
  (c < MAX_CORES)%nat -> is_node (enqueue q c t) a <-> is_node q a \/ a = node t.
Proof.
  intros Hc. unfold is_node. setoid_rewrite elem_enqueue. split.
  - intros (d & Hd & [->|(u & [Hu|[-> ->]] & ->)]); eauto 8.
  - intros [(d & Hd & [->|(u & Hu & ->)])| ->]; eauto 8.
Qed.

Lemma sched_task_ok m q c t :
  sched_ok m q -> (c < MAX_CORES)%nat -> enqueueable q t ->
  sched_ok (sched_task t c m) (enqueue q c t) /\
  agree (fun x => ~ (in_range (node t) 16 x \/ exists a, is_node q a /\ in_range a 16 x)) m (sched_task t c m).
Proof.
  intros Hs Hc Hen. pose proof (so_ring _ _ Hs c Hc) as Hr. pose proof Hen as (Hpos & Hfit & Hap).
  unfold sched_task. rewrite (proj2 (Z.eqb_neq t 0)) by lia. fold (node t).
  assert (forall a, a ∈ runqueue c :: map node (q c) -> is_node q a) as Hnodes.
  { intros a [->|(u & -> & Hu)%list_elem_of_fmap]%elem_of_cons; exists c; eauto. }
  assert (separated_set (is_node (enqueue q c t))) as Hsep.
  { destruct (so_sep _ _ Hs) as [S1 S2]. split.
    - intros a [Ha| ->]%enqueue_node; [auto| |done]. unfold node, t_tasks_runnable. unfold node, t_tasks_runnable in Hfit. lia.
    - intros a b [Ha| ->]%enqueue_node [Hb| ->]%enqueue_node; auto. destruct (Hap a Ha); auto. }
  destruct (list_add_tail_spec m (node t) (runqueue c) (map node (q c))) as [Hr' Hag]; [| |done|].
  - eapply separated_sub; [exact Hsep|]. intros a [->|Ha]%elem_of_cons; apply enqueue_node; auto.
  - intros Hin%Hnodes. destruct (Hap _ Hin); lia.
  - split; [split|].
    + intros d Hd. unfold enqueue. destruct (decide (c = d)) as [<-|Hne].
      * rewrite fn_lookup_insert, map_app. exact Hr'.
      * rewrite fn_lookup_insert_ne by done. eapply ring_agree; [|by apply (so_ring _ _ Hs)].
        eapply agree_sub; [exact Hag|]. intros x Hx (a & [->|Ha]%elem_of_cons & Hxa).
        -- destruct Hx as (b & Hb & Hxb). assert (is_node q b) as Nb.
           { exists d. split; [done|]. apply elem_of_cons in Hb as [->|(u & -> & ?)%list_elem_of_fmap]; eauto. }
           destruct (Hap b Nb); unfold in_range in *; lia.
        -- revert Hx. apply (is_node_bytes_ne q c d); [apply Hs..|done|done|done|]. by exists a.
    + done.
    + intros d u Hd [Hu|[-> ->]]%elem_enqueue; [by apply (so_pos _ _ Hs d)|done].
    + intros d e u Hd He [Hu|[? ?]]%elem_enqueue [Hv|[? ?]]%elem_enqueue; subst; try done.
      * by apply (so_once _ _ Hs d e u).
      * by apply (enqueueable_fresh q t d) in Hu.
      * by apply (enqueueable_fresh q t e) in Hv.
    + intros d e u Hd He [Hu|[-> ->]]%elem_enqueue; [by apply (so_heads _ _ Hs d e)|].
      intros E. destruct (Hap (runqueue d)); [exists d; eauto| |]; lia.
    + eapply agree_sub; [exact Hag|]. intros x Hx (a & [->|Ha]%elem_of_cons & Hxa); apply Hx; eauto.
Qed.

(** ** Removing a task *)

Definition dequeue q (c : nat) t : nat -> list Z := <[c := filter (fun u => u <> t) (q c)]> q.

Lemma elem_dequeue q c t d u : u ∈ dequeue q c t d <-> u ∈ q d /\ (d = c -> u <> t).
Proof.
  unfold dequeue. destruct (decide (d = c)) as [->|Hne].
  - rewrite fn_lookup_insert, list_elem_of_filter. naive_solver.
  - rewrite fn_lookup_insert_ne by done. naive_solver.
Qed.

Lemma dequeue_node q c t a : is_node (dequeue q c t) a -> is_node q a.
Proof.
  intros (d & Hd & [->|(u & [Hu _]%elem_dequeue & ->)]); exists d; eauto.
Qed.

Lemma filter_ne_id (l : list Z) t : t ∉ l -> filter (fun u => u <> t) l = l.
Proof.
  induction l as [|a l IH]; intros Hn; [done|].
  rewrite filter_cons_True by set_solver. by rewrite IH by set_solver.
Qed.

Lemma filter_split_ne (l1 l2 : list Z) t :
  NoDup (l1 ++ t :: l2) -> filter (fun u => u <> t) (l1 ++ t :: l2) = l1 ++ l2.
Proof.
  intros (_ & Hd & [Hn _]%NoDup_cons)%NoDup_app. rewrite filter_app, filter_cons_False by auto.
  rewrite !filter_ne_id; [done|done|]. intros Ht. apply (Hd t Ht). by left.
Qed.

Lemma queue_NoDup m q c : sched_ok m q -> (c < MAX_CORES)%nat -> NoDup (q c).
Proof.
  intros Hs Hc. destruct (so_ring _ _ Hs c Hc) as [[_ Hnd]%NoDup_cons _].
  by apply NoDup_fmap_1 in Hnd.
Qed.

Lemma sched_remove_ok m q c t :
  sched_ok m q -> (c < MAX_CORES)%nat -> t ∈ q c ->
  sched_ok (sched_remove_task t m) (dequeue q c t) /\
  next (sched_remove_task t m) (node t) = node t /\
  agree (fun x => ~ exists a, is_node q a /\ in_range a 16 x) m (sched_remove_task t m).
Proof.
  intros Hs Hc Ht. pose proof (so_ring _ _ Hs c Hc) as Hr.
  pose proof (so_pos _ _ Hs c t Hc Ht) as Hpos. pose proof (queue_NoDup m q c Hs Hc) as Hnd.
  unfold sched_remove_task. rewrite (proj2 (Z.eqb_neq t 0)) by lia. fold (node t).
  pose proof Ht as (l1 & l2 & El)%list_elem_of_split.
  assert (forall a, a ∈ runqueue c :: map node (q c) -> is_node q a) as Hnodes.
  { intros a [->|(u & -> & Hu)%list_elem_of_fmap]%elem_of_cons; exists c; eauto. }
  assert (map node (q c) = map node l1 ++ node t :: map node l2) as Em by (rewrite El, map_app; done).
  rewrite Em in Hr, Hnodes.
  destruct (list_del_spec m (node t) (runqueue c) (map node l1) (map node l2)) as (R1 & R2 & Hag); [|done|].
  { eapply separated_sub; [apply (so_sep _ _ Hs)|exact Hnodes]. }
  split_and!.
  - split.
    + intros d Hd. unfold dequeue. destruct (decide (c = d)) as [<-|Hne].
      * rewrite fn_lookup_insert. rewrite El in Hnd |- *. rewrite filter_split_ne, map_app by done. exact R1.
      * rewrite fn_lookup_insert_ne by done. eapply ring_agree; [|by apply (so_ring _ _ Hs)].
        eapply agree_sub; [exact Hag|]. intros x Hx Hn. rewrite <- Em in Hn. revert Hx.
        by apply (is_node_bytes_ne q c d); [apply Hs..|done|done|done|].
    + eapply separated_sub; [apply (so_sep _ _ Hs)|]. intros a. apply dequeue_node.
    + intros d u Hd [Hu _]%elem_dequeue. by apply (so_pos _ _ Hs d).
    + intros d e u Hd He [Hu _]%elem_dequeue [Hv _]%elem_dequeue. by apply (so_once _ _ Hs d e u).
    + intros d e u Hd He [Hu _]%elem_dequeue. by apply (so_heads _ _ Hs d e).
  - exact (ring_next _ _ _ R2).
  - eapply agree_sub; [exact Hag|]. intros x Hx (a & Ha & Hxa). apply Hx. eauto.
Qed.

(** ** Orphaning *)

(** The loop empties the list from the front. *)
Lemma orphan_loop_spec fuel children : forall kids m,
  (length kids < fuel)%nat -> separated (children :: kids) -> ring (view m) children kids ->
  exists m', orphan_loop fuel children (next m children) m = Some m' /\
    ring (view m') children [] /\ (forall n, n ∈ kids -> ring (view m') n []) /\
    agree (fun x => ~ node_bytes (children :: kids) x) m m'.
Proof.
  induction fuel as [|fuel IH]; intros kids m Hf Hs Hr; [lia|].
  pose proof (ring_next _ _ _ Hr) as En. simpl in En. rewrite En.
  destruct kids as [|n kids]; simpl.
  - rewrite Z.eqb_refl. exists m. split_and!; [done|done|set_solver|reflexivity].
  - assert (n <> children) as Hne by (destruct Hr as [[Hn _]%NoDup_cons _]; set_solver).
    assert (n ∉ kids) as Hn by (destruct Hr as [[_ [? _]%NoDup_cons]%NoDup_cons _]; done).
    rewrite (proj2 (Z.eqb_neq _ _)) by done.
    destruct (list_del_spec m n children [] kids Hs Hr) as (R1 & R2 & Hag). simpl in R1, Hag.
    assert (next m n = next (list_del m n) children) as ->.
    { pose proof (ring_next _ _ _ R1) as E1. simpl in E1. rewrite E1.
      pose proof (ring_next_at _ _ _ 0 n Hr eq_refl) as E2. simpl in E2. rewrite E2. by destruct kids. }
    destruct (IH kids (list_del m n)) as (m' & E & Hr' & Hk & Hag').
    { simpl in Hf. lia. }
    { eapply separated_sub; [exact Hs|]. set_solver. }
    { exact R1. }
    exists m'. split_and!; [done|done| |].
    + intros a [->|Ha]%elem_of_cons; [|by apply Hk]. eapply ring_agree; [|exact R2].
      eapply agree_sub; [exact Hag'|]. intros x (a & ->%list_elem_of_singleton & Hxa) (b & Hb & Hxb).
      destruct Hs as [_ Hs]. destruct (Hs n b) as [<-|?]; [set_solver|set_solver| |unfold in_range in *; lia].
      apply elem_of_cons in Hb as [->|Hb]; done.
    + etransitivity; [exact Hag|]. eapply agree_sub; [exact Hag'|].
      intros x Hx (b & Hb & Hxb). apply Hx. exists b. set_solver.
Qed.

(** ** Balancing *)

Lemma least_loop_spec c n : forall i id,
  (id < i)%nat -> (forall j, (j < i)%nat -> nth id c 0 <= nth j c 0) ->
  (forall j, (j < id)%nat -> nth id c 0 < nth j c 0) ->
  let r := least_loop n i c id (nth id c 0) in
  (r < i + n)%nat /\ (forall j, (j < i + n)%nat -> nth r c 0 <= nth j c 0) /\
  (forall j, (j < r)%nat -> nth r c 0 < nth j c 0).
Proof.
  induction n as [|n IH]; intros i id Hid Hmin Hfst; simpl.
  - rewrite Nat.add_0_r. done.
  - rewrite Nat.add_succ_r. change (S (i + n)) with (S i + n)%nat.
    destruct (Z.ltb_spec (nth i c 0) (nth id c 0)) as [Hlt|Hge]; apply IH; try lia.
    + intros j Hj. destruct (decide (j = i)) as [->|]; [lia|]. specialize (Hmin j). lia.
    + intros j Hj. specialize (Hmin j). lia.
    + intros j Hj. destruct (decide (j = i)) as [->|]; [done|]. apply Hmin. lia.
    + done.
Qed.

(** All CPUs have [b] or [b + 1] tasks. *)
Definition balanced (c : list Z) (b : Z) : Prop := forall x, x ∈ c -> x = b \/ x = b + 1.

Lemma find_least_busy_spec k :
  length (percpu_task_counter k) = MAX_CORES ->
  (forall x, x ∈ percpu_task_counter k -> 0 <= x < 2 ^ 31 - 1) ->
  let c := percpu_task_counter k in
  exists id x, find_least_busy_cpu k = (set_task_counter k (<[id := x + 1]> c), id) /\
    c !! id = Some x /\ (forall j y, c !! j = Some y -> x <= y) /\
    (forall j y, c !! j = Some y -> (j < id)%nat -> x < y) /\
    (forall b, balanced c b -> exists b', balanced (<[id := x + 1]> c) b').
Proof.
  intros Hl Hr c. destruct (least_loop_spec c (MAX_CORES - 1) 1 0) as (Hlt1 & Hmin1 & Hfst1); [lia| |lia|].
  { intros j Hj. replace j with 0%nat by lia. done. }
  unfold find_least_busy_cpu. fold c. set (id := least_loop _ _ _ _ _) in *. fold c in Hl, Hr.
  assert (id < MAX_CORES)%nat as Hid by exact Hlt1.
  destruct (lookup_lt_is_Some_2 c id) as [x Hx]; [lia|].
  assert (forall j y, c !! j = Some y -> nth j c 0 = y) as Hn by (intros j y Hj; by rewrite nth_lookup, Hj).
  assert (forall j y, c !! j = Some y -> x <= y) as Hmin.
  { intros j y Hy. rewrite <- (Hn _ _ Hx), <- (Hn _ _ Hy). apply Hmin1.
    pose proof (lookup_lt_Some _ _ _ Hy) as Hlt. rewrite Hl in Hlt. exact Hlt. }
  exists id, x. rewrite (Hn _ _ Hx). rewrite swrap_small.
  2: lia.
  2: { assert (x ∈ c) as Hin by (by eapply list_elem_of_lookup_2). specialize (Hr x Hin). lia. }
  split_and!; try done.
  - intros j y Hy Hj. rewrite <- (Hn _ _ Hx), <- (Hn _ _ Hy). by apply Hfst1.
  - intros b Hb. exists x. intros y Hy. apply list_elem_of_lookup in Hy as [j Hj].
    assert (x ∈ c) as Hxin by (by eapply list_elem_of_lookup_2).
    destruct (decide (j = id)) as [->|Hne].
    + rewrite list_lookup_insert_eq in Hj by lia. injection Hj as <-. by right.
    + rewrite list_lookup_insert_ne in Hj by done. pose proof (Hmin j y Hj).
      assert (y ∈ c) as Hyin by (by eapply list_elem_of_lookup_2).
      destruct (Hb x Hxin), (Hb y Hyin); lia.
Qed.
End Sched.
