(* ===== verification/TasksClaims.v ===== *)
(** * Tasks and the scheduler: main theorems *)
From S2P Require Import Prelude Memory PageAlloc Slab Pmm Klib Vmm Memmgr Lists Tasks TasksSpec.
From S2P Require Import Buddy BuddyProofs BuddySpec HeapClaims.
Import Slab Pmm Klib Vmm Memmgr Lists Tasks.

Section TasksClaims.
Context `{Hhdm} `{Linker} `{TaskLinker} {P : Type} `{!PageAllocator P}.

Implicit Types (k : kernel (P := P)) (q : nat -> list Z) (m : mem) (t : Z).

(** ** Initialisation *)

Lemma init_queues_spec cs : forall m,
  NoDup cs -> (forall c, c ∈ cs -> (c < MAX_CORES)%nat) ->
  let m' := fold_left (fun m i => list_init m (runqueue i)) cs m in
  (forall c, c ∈ cs -> ring (view m') (runqueue c) []) /\
  agree (fun x => forall c, c ∈ cs -> ~ in_range (runqueue c) 16 x) m m'.
Proof.
  pose proof percpu_cpu_runqueue_fit as [Hpos Hfit].
  induction cs as [|c cs IH]; intros m Hnd Hlt; simpl.
  - split; [set_solver|reflexivity].
  - apply NoDup_cons in Hnd as [Hn Hnd]. assert (c < MAX_CORES)%nat as Hc by (apply Hlt; by left). unfold MAX_CORES in Hc.
    destruct (list_init_spec m (runqueue c)) as [Hr Hag]; [unfold runqueue; lia..|].
    destruct (IH (list_init m (runqueue c)) Hnd) as [IHr IHag]; [set_solver|]. split.
    + intros d [->|Hd]%elem_of_cons; [|by apply IHr]. eapply ring_agree; [|exact Hr].
      eapply agree_sub; [exact IHag|]. intros x (a & ->%list_elem_of_singleton & Hx) d Hd Hxd.
      destruct (decide (c = d)) as [->|Hne]; [done|]. unfold in_range, runqueue in *. lia.
    + etransitivity; [eapply agree_sub; [exact Hag|]|eapply agree_sub; [exact IHag|]]; set_solver.
Qed.

Lemma scheduler_init_spec k :
  sched_ok (k_mem (scheduler_init k)) (fun _ => []) /\
  ring (view (k_mem (scheduler_init k))) all_tasks [] /\
  percpu_current_task (scheduler_init k) = replicate MAX_CORES 0.
Proof.
  pose proof percpu_cpu_runqueue_fit as [Hpos Hfit]. pose proof all_tasks_fit as [Hpos' Hfit'].
  unfold scheduler_init. simpl percpu_current_task. unfold k_mem, set_current_task, set_kmem, set_kvmm, v_mem.
  simpl k_vmm. unfold set_vmem, set_heap. simpl v_heap.
  destruct (list_init_spec (h_mem (v_heap (k_vmm k))) all_tasks) as [Hr _]; [lia|lia|].
  destruct (init_queues_spec (seq 0 MAX_CORES) (list_init (h_mem (v_heap (k_vmm k))) all_tasks)) as [Hrs Hag].
  { apply NoDup_seq. }
  { intros c Hc%elem_of_seq. lia. }
  unfold set_mem. simpl h_mem. split_and!; [split| |done].
  - intros c Hc. apply Hrs, elem_of_seq. lia.
  - split.
    + intros a (c & Hc & [->|(t & Ht & _)]); [|set_solver]. unfold MAX_CORES, runqueue in *. lia.
    + intros a b (c & Hc & [->|(t & Ht & _)]) (d & Hd & [->|(u & Hu & _)]); [|set_solver..]. unfold runqueue. lia.
  - set_solver.
  - set_solver.
  - set_solver.
  - eapply ring_agree; [|exact Hr]. eapply agree_sub; [exact Hag|].
    intros x (a & ->%list_elem_of_singleton & Hx) c Hc%elem_of_seq Hxc. pose proof list_heads_apart.
    unfold in_range, runqueue, MAX_CORES in *. lia.
Qed.

(** C21. After [scheduler_init] every run queue and the list of all tasks is an
    empty list and no CPU has a current task.  Queueing a task appends it to
    the queue of the given CPU, removing one takes it out of its queue; the
    other queues keep their tasks and their order, and no byte outside the list
    nodes changes. *)
Theorem run_queues_correct k m q c t :
  (sched_ok (k_mem (scheduler_init k)) (fun _ => []) /\
   ring (view (k_mem (scheduler_init k))) all_tasks [] /\
   percpu_current_task (scheduler_init k) = replicate MAX_CORES 0) /\
  (sched_ok m q -> (c < MAX_CORES)%nat ->
   (enqueueable q t ->
    sched_ok (sched_task t c m) (enqueue q c t) /\
    agree (fun x => ~ (in_range (node t) 16 x \/ exists a, is_node q a /\ in_range a 16 x))
      m (sched_task t c m)) /\
   (t ∈ q c ->
    sched_ok (sched_remove_task t m) (dequeue q c t) /\
    agree (fun x => ~ exists a, is_node q a /\ in_range a 16 x) m (sched_remove_task t m))).
Proof.
  split; [apply scheduler_init_spec|]. intros Hs Hc. split.
  - by apply sched_task_ok.
  - intros Ht. destruct (sched_remove_ok m q c t Hs Hc Ht) as (? & _ & ?). done.
Qed.

(** ** Scheduling *)

(** C20. [schedule] is round robin.  On a CPU without a current task it starts the
    first task of the queue (and with an empty queue it loads a context from
    NULL); from the task at position [i] it goes to position [i + 1], from the
    last one to the first, so as many rounds as the queue has tasks run each of
    them exactly once, in queue order. *)
Theorem schedule_round_robin k q c :
  sched_ok (k_mem k) q -> (c < MAX_CORES)%nat -> length (percpu_current_task k) = MAX_CORES ->
  (get_current_task c k = 0 ->
   let t := default 0 (head (q c)) in
   (schedule c k).2 = t /\ get_current_task c (schedule c k).1 = t) /\
  (forall i t, q c !! i = Some t -> get_current_task c k = t ->
   schedule_n c (length (q c)) k = rotate (S i) (q c)).
Proof.
  intros Hs Hc Hl. split.
  - intros Hcur t. unfold schedule. rewrite Hcur, (pick_next_idle c _ q Hs Hc). fold t.
    assert (t = 0 \/ 0 < t) as Ht.
    { unfold t. destruct (q c) as [|u l] eqn:Eq; [by left|right]. simpl.
      apply (so_pos _ _ Hs c); [done|rewrite Eq; by left]. }
    destruct (Z.eqb_spec t 0) as [E|E]; simpl; [by rewrite E|]. split; [done|].
    unfold get_current_task. simpl. rewrite nth_lookup, list_lookup_insert_eq by lia. done.
  - intros i t Hi Ht. apply (schedule_n_rotate c q i t k); [done|lia|done|done|done].
Qed.

(** [find_least_busy_cpu] returns the first CPU with the fewest tasks and
    counts one task more for it, so counters that differ by at most one stay
    so. *)
Theorem find_least_busy_correct k :
  length (percpu_task_counter k) = MAX_CORES ->
  (forall x, x ∈ percpu_task_counter k -> 0 <= x < 2 ^ 31 - 1) ->
  let c := percpu_task_counter k in
  exists id x, find_least_busy_cpu k = (set_task_counter k (<[id := x + 1]> c), id) /\
    c !! id = Some x /\ (forall j y, c !! j = Some y -> x <= y) /\
    (forall j y, c !! j = Some y -> (j < id)%nat -> x < y) /\
    (forall b, balanced c b -> exists b', balanced (<[id := x + 1]> c) b').
Proof. apply find_least_busy_spec. Qed.

(** [task_orphan_children] finishes and empties the list of children; every
    former child is left as a list of its own, and no other byte changes. *)
Theorem task_orphan_children_correct fuel t kids m :
  separated ((t + t_children) :: kids) -> ring (view m) (t + t_children) kids ->
  (length kids < fuel)%nat ->
  exists m', task_orphan_children fuel t m = Some m' /\
    ring (view m') (t + t_children) [] /\ (forall n, n ∈ kids -> ring (view m') n []) /\
    agree (fun x => ~ node_bytes ((t + t_children) :: kids) x) m m'.
Proof. intros Hs Hr Hf. by apply orphan_loop_spec. Qed.

(** ** Exit *)

Lemma sched_ok_agree m m' q :
  agree (fun x => exists a, is_node q a /\ in_range a 16 x) m m' -> sched_ok m q -> sched_ok m' q.
Proof.
  intros Hag Hs. split; try apply Hs. intros c Hc. eapply ring_agree; [|by apply (so_ring _ _ Hs)].
  eapply agree_sub; [exact Hag|]. intros x (a & Ha & Hx). exists a. split; [|done]. exists c.
  split; [done|]. apply elem_of_cons in Ha as [->|(t & -> & ?)%list_elem_of_fmap]; eauto.
Qed.

(** The bytes of [t] hold no list node of a run queue but its own. *)
Definition owns q t : Prop :=
  forall a, is_node q a -> a = node t \/ a + 16 <= t \/ t + sizeof_task <= a.

(** A task whose node is not linked to the queue is scheduled after itself. *)
Lemma pick_next_detached c m q t :
  sched_ok m q -> (c < MAX_CORES)%nat -> 0 < t -> next m (node t) = node t -> node t <> runqueue c ->
  pick_next c m t = t.
Proof.
  intros Hs Hc Ht Hn Hne. unfold pick_next. cbv zeta. rewrite (proj2 (Z.eqb_neq t 0)) by lia. fold (node t).
  rewrite Hn, (proj2 (Z.eqb_neq (node t) (runqueue c))) by done.
  rewrite (proj2 (Z.eqb_neq (node t) (runqueue c))) by done. apply container_of_node.
Qed.

(** C22. [task_exit] does not leave the exiting task: the task becomes a zombie
    and is taken out of the run queue, but that links its node to itself, the
    scheduler then finds the task as its own successor, and the context that is
    loaded is the one of the task that just exited. *)
Theorem task_exit_resumes_exited_task fuel c code k q t :
  sched_ok (k_mem k) q -> (c < MAX_CORES)%nat -> t ∈ q c -> owns q t ->
  get_current_task c k = t -> task_cpu_id (k_mem k) t = Z.of_nat c ->
  task_md (k_mem k) t = 0 -> task_parent (k_mem k) t = 0 ->
  next (k_mem k) (t + t_children) = t + t_children ->
  exists k', task_exit fuel c code k = Some (k', t) /\
    get_current_task c k' = t /\ task_state (k_mem k') t = TASK_ZOMBIE /\
    sched_ok (k_mem k') (dequeue q c t).
Proof.
  intros Hs Hc Ht Hown Hcur Hcpu Hmd Hpar Hch. unfold task_exit. rewrite Hcur.
  set (m2 := store 1 _ (t + t_state) TASK_ZOMBIE).
  assert (forall n o, 0 <= o -> o + Z.of_nat n <= sizeof_task -> (o + Z.of_nat n <= 288 \/ 304 <= o) ->
    forall x, in_range (t + o) (Z.of_nat n) x -> ~ exists a, is_node q a /\ in_range a 16 x) as Hfield.
  { intros n o H1' H2' H3' x Hx (a & Ha & Hxa).
    destruct (Hown a Ha) as [->|?]; unfold node, t_tasks_runnable, sizeof_task, in_range in *; lia. }
  assert (sched_ok m2 q) as Hs2.
  { eapply sched_ok_agree; [|exact Hs]. unfold m2. etransitivity; apply agree_store;
      intros x Hx Hr; revert Hx; [apply (Hfield 4%nat t_exit_code)|apply (Hfield 1%nat t_state)];
      unfold t_exit_code, t_state, sizeof_task; try lia; exact Hr. }
  destruct (sched_remove_ok m2 q c t Hs2 Hc Ht) as (Hs3 & Hn3 & Hag).
  set (m3 := sched_remove_task t m2) in *.
  assert (forall n o, 0 <= o -> o + Z.of_nat n <= sizeof_task -> (o + Z.of_nat n <= 288 \/ 304 <= o) ->
    load n m3 (t + o) = load n m2 (t + o)) as Hload3.
  { intros n o ???. symmetry. apply load_agree. eapply agree_sub; [exact Hag|]. by apply Hfield. }
  assert (forall n o, 0 <= o -> o + Z.of_nat n <= 304 -> (o + Z.of_nat n <= 176 \/ 177 <= o) ->
    load n m2 (t + o) = load n (k_mem k) (t + o)) as Hload2.
  { intros n o ???. unfold m2, t_state, t_exit_code. rewrite !load_store_ne by lia. done. }
  assert (forall n o, 0 <= o -> o + Z.of_nat n <= 288 -> (o + Z.of_nat n <= 176 \/ 177 <= o) ->
    load n m3 (t + o) = load n (k_mem k) (t + o)) as Hload.
  { intros n o ???. rewrite Hload3 by (unfold sizeof_task; lia). apply Hload2; lia. }
  pose proof (so_pos _ _ Hs c t Hc Ht) as Hpos.
  unfold task_cpu_id, task_md, task_parent, next in *.
  rewrite (Hload 4%nat) by (unfold t_cpu_id; lia). rewrite Hcpu.
  rewrite (proj2 (Z.leb_le _ _)), (proj2 (Z.ltb_lt _ _)) by lia. cbn [negb andb].
  set (k1 := set_task_counter _ _). assert (k_mem k1 = m3) as Em by done. rewrite Em.
  rewrite (Hload 8%nat) by (unfold t_md; lia). rewrite Hmd. cbn [Z.eqb mbind option_bind].
  rewrite Em, (Hload 8%nat) by (unfold t_parent; lia). rewrite Hpar. cbn [Z.eqb negb andb].
  rewrite Em, (Hload 8%nat) by (unfold t_children; lia). rewrite Hch, Z.eqb_refl. cbn [negb mbind option_bind].
  assert (get_current_task c k1 = t) as Hcur1 by done.
  unfold schedule. rewrite Hcur1, Em.
  rewrite (pick_next_detached c m3 (dequeue q c t) t) by (try done; apply (so_heads _ _ Hs c c t); done).
  rewrite Z.eqb_refl, andb_false_r. exists k1. split_and!; [done|done| |by rewrite Em].
  unfold task_state. rewrite Em, (Hload3 1%nat) by (unfold t_state, sizeof_task; lia).
  unfold m2. rewrite (load_store_same 1); [done|]. unfold TASK_ZOMBIE. lia.
Qed.

(** ** Process numbers *)

Fixpoint pids (n : nat) k : list Z :=
  match n with
  | O => []
  | S n => let '(k, pid) := incr_pid_ctr k in pid :: pids n k
  end.

Lemma incr_pid_spec k :
  1 <= pid_counter k <= PID_MAX ->
  (incr_pid_ctr k).2 = pid_counter k /\
  pid_counter (incr_pid_ctr k).1 = (if pid_counter k =? PID_MAX then 2 else pid_counter k + 1).
Proof.
  intros Hk. unfold incr_pid_ctr, PID_MAX in *. simpl. split; [done|].
  rewrite wrap_small by lia. zbool; lia.
Qed.

Lemma pids_lookup n : forall k i,
  2 <= pid_counter k <= PID_MAX -> (i < n)%nat ->
  pids n k !! i = Some (2 + (pid_counter k - 2 + Z.of_nat i) mod (PID_MAX - 1)).
Proof.
  induction n as [|n IH]; intros k i Hk Hi; [lia|]. cbn [pids].
  destruct (incr_pid_spec k ltac:(lia)) as [E1 E2]. destruct (incr_pid_ctr k) as [k' pid]. simpl in *. subst pid.
  destruct i as [|i]; simpl.
  - rewrite Z.add_0_r, Z.mod_small by lia. f_equal. lia.
  - assert (2 <= pid_counter k' <= PID_MAX) as Hk' by (rewrite E2; unfold PID_MAX in *; zbool; lia).
    rewrite (IH k' i Hk') by lia. rewrite E2.
    f_equal. f_equal. destruct (Z.eqb_spec (pid_counter k) PID_MAX) as [E|E].
    + rewrite E. replace (PID_MAX - 2 + Z.of_nat (S i)) with (2 - 2 + Z.of_nat i + 1 * (PID_MAX - 1)) by lia.
      by rewrite Z_mod_plus_full.
    + f_equal. lia.
Qed.

(** Process numbers: from a counter in its range the [i]-th of [n] new
    processes gets the number [i] after the first, cyclically within
    [2 .. PID_MAX] (1 is reserved), so up to [PID_MAX - 1] successive processes
    have distinct numbers. *)
Theorem pid_allocation n k :
  2 <= pid_counter k <= PID_MAX ->
  (forall i, (i < n)%nat ->
    pids n k !! i = Some (2 + (pid_counter k - 2 + Z.of_nat i) mod (PID_MAX - 1))) /\
  (Z.of_nat n <= PID_MAX - 1 -> NoDup (pids n k)).
Proof.
  intros Hk. split; [intros i Hi; by apply pids_lookup|]. intros Hn. apply NoDup_alt. intros i j x Hi Hj.
  assert (length (pids n k) = n) as Hl.
  { clear. revert k. induction n as [|n IH]; intros k; simpl; [done|].
    destruct (incr_pid_ctr k) as [k' p]. simpl. by rewrite IH. }
  pose proof (lookup_lt_Some _ _ _ Hi) as Hin. pose proof (lookup_lt_Some _ _ _ Hj) as Hjn.
  rewrite pids_lookup in Hi, Hj by (done || lia). rewrite <- Hj in Hi. injection Hi as Hi.
  assert (((pid_counter k - 2 + Z.of_nat i) - (pid_counter k - 2 + Z.of_nat j)) mod (PID_MAX - 1) = 0) as Hm.
  { rewrite Zminus_mod. replace ((pid_counter k - 2 + Z.of_nat i) mod (PID_MAX - 1))
      with ((pid_counter k - 2 + Z.of_nat j) mod (PID_MAX - 1)) by lia. by rewrite Z.sub_diag. }
  apply Z.mod_divide in Hm as [z Hz]; [|unfold PID_MAX; lia]. unfold PID_MAX in *.
  assert (z = 0) as -> by nia. lia.
Qed.

End TasksClaims.

(** ** Witnesses: two tasks queued on CPU 1 *)

#[local] Existing Instance qemu_hhdm.
#[local] Existing Instance demo_linker.

Definition demo_task_linker : TaskLinker.
Proof.
  refine {| all_tasks := 0xffffffff80020000; percpu_cpu_runqueue := 0xffffffff80020100 |};
    [split; vm_compute; congruence|split; vm_compute; congruence|left; vm_compute; congruence].
Defined.
#[local] Existing Instance demo_task_linker.

Definition task_a : Z := 0xffff800000200000.
Definition task_b : Z := 0xffff800000200200.

(** Task a runs on CPU 1 and has no children. *)
Definition demo_task_mem : mem :=
  list_init (store 4 ∅ (task_a + t_cpu_id) 1) (task_a + t_children).

Definition demo_kernel : kernel (P := Buddy.buddy_state) :=
  mk_kernel (mk_vmm (mk_heap demo_task_mem Buddy.buddy_boot slab_allocator_init) 0 0 0 []) 2 [] [1; 0; 1; 0].

Definition demo_queues : nat -> list Z := enqueue (enqueue (fun _ => []) 1 task_a) 1 task_b.

Definition demo_running : kernel :=
  set_current_task
    (set_kmem (scheduler_init demo_kernel)
       (sched_task task_b 1 (sched_task task_a 1 (k_mem (scheduler_init demo_kernel))))) [0; task_a; 0; 0].

Lemma demo_enqueueable_a : enqueueable (fun _ => []) task_a.
Proof.
  split_and!; [vm_compute; congruence|vm_compute; congruence|].
  intros a (c & Hc & [->|(t & Ht & _)]); [|set_solver].
  unfold runqueue, node, t_tasks_runnable, task_a. cbn [percpu_cpu_runqueue demo_task_linker].
  unfold MAX_CORES in Hc. lia.
Qed.

Lemma demo_enqueueable_b : enqueueable (enqueue (fun _ => []) 1 task_a) task_b.
Proof.
  split_and!; [vm_compute; congruence|vm_compute; congruence|].
  intros a [(c & Hc & [->|(t & Ht & _)])| ->]%enqueue_node; [|set_solver| |unfold MAX_CORES; lia].
  - unfold runqueue, node, t_tasks_runnable, task_b. cbn [percpu_cpu_runqueue demo_task_linker].
    unfold MAX_CORES in Hc. lia.
  - right. vm_compute. congruence.
Qed.

Lemma demo_running_ok : sched_ok (k_mem demo_running) demo_queues.
Proof.
  unfold demo_running, demo_queues, k_mem. cbn [k_vmm set_current_task set_kmem set_kvmm].
  unfold v_mem, set_vmem, set_heap. cbn [v_heap]. unfold set_mem. cbn [h_mem].
  apply sched_task_ok; [|unfold MAX_CORES; lia|apply demo_enqueueable_b].
  apply sched_task_ok; [|unfold MAX_CORES; lia|apply demo_enqueueable_a].
  apply scheduler_init_spec.
Qed.

Lemma run_queues_witness :
  sched_ok (sched_task task_a 1 (k_mem (scheduler_init demo_kernel))) (enqueue (fun _ => []) 1 task_a) /\
  sched_ok (sched_remove_task task_a (k_mem demo_running)) (dequeue demo_queues 1 task_a).
Proof.
  split.
  - destruct (run_queues_correct demo_kernel (k_mem (scheduler_init demo_kernel)) (fun _ => []) 1 task_a)
      as [(Hs & _ & _) Hops].
    destruct (Hops Hs) as [Hq _]; [vm_compute; lia|].
    destruct (Hq demo_enqueueable_a) as [Hr _]. exact Hr.
  - destruct (run_queues_correct demo_kernel (k_mem demo_running) demo_queues 1 task_a) as [_ Hops].
    destruct (Hops demo_running_ok) as [_ Hq]; [vm_compute; lia|].
    destruct Hq as [Hr _]; [left|]. exact Hr.
Defined.

Lemma schedule_witness :
  schedule_n 1 2 demo_running = [task_b; task_a].
Proof.
  destruct (schedule_round_robin demo_running demo_queues 1 demo_running_ok) as [_ Hr];
    [vm_compute; lia|vm_compute; reflexivity|].
  exact (Hr 0%nat task_a eq_refl eq_refl).
Defined.

Lemma find_least_busy_witness :
  exists id x, find_least_busy_cpu demo_kernel = (set_task_counter demo_kernel (<[id := x + 1]> [1; 0; 1; 0]), id) /\
    x = 0.
Proof.
  destruct (find_least_busy_correct demo_kernel) as (id & x & E & Hx & Hmin & _).
  - reflexivity.
  - intros x Hx. repeat (apply elem_of_cons in Hx as [->|Hx]; [vm_compute; split; congruence|]).
    apply elem_of_nil in Hx. destruct Hx.
  - exists id, x. split; [exact E|]. pose proof (Hmin 1%nat 0 eq_refl) as Hle.
    apply list_elem_of_lookup_2 in Hx. cbn in Hx.
    repeat (apply elem_of_cons in Hx as [->|Hx]; [first [reflexivity|exfalso; apply Hle; reflexivity]|]).
    apply elem_of_nil in Hx. destruct Hx.
Defined.

(** A parent at address 4096 with one child node at address 8192. *)
Lemma task_orphan_witness :
  exists m m', task_orphan_children 2 4096 m = Some m' /\ ring (view m') 8192 [].
Proof.
  set (m := list_add_tail (list_init ∅ (4096 + t_children)) 8192 (4096 + t_children)).
  assert (separated [8192; 4096 + t_children]) as Hs.
  { split.
    - intros a Ha. repeat (apply elem_of_cons in Ha as [->|Ha]; [vm_compute; split; congruence|]). set_solver.
    - intros a b Ha Hb.
      repeat (apply elem_of_cons in Ha as [->|Ha]); repeat (apply elem_of_cons in Hb as [->|Hb]);
        unfold t_children; try lia; set_solver. }
  destruct (task_orphan_children_correct 2 4096 [8192] m) as (m' & E & _ & Hk & _).
  - eapply separated_sub; [exact Hs|]. set_solver.
  - apply (list_add_tail_spec _ 8192 (4096 + t_children) []);
      [exact Hs|unfold t_children; set_solver|].
    apply list_init_spec; vm_compute; congruence.
  - vm_compute. lia.
  - exists m, m'. split; [exact E|]. apply Hk. by left.
Defined.

Lemma task_exit_witness :
  exists k', task_exit 10 1 7 demo_running = Some (k', task_a) /\
    task_state (k_mem k') task_a = TASK_ZOMBIE.
Proof.
  destruct (task_exit_resumes_exited_task 10 1 7 demo_running demo_queues task_a)
    as (k' & E & _ & Hz & _).
  - apply demo_running_ok.
  - vm_compute. lia.
  - left.
  - intros a [[(c & Hc & [->|(t & Ht & _)])| ->]%enqueue_node| ->]%enqueue_node; try (unfold MAX_CORES; lia).
    + right. right. unfold runqueue, sizeof_task, task_a. cbn [percpu_cpu_runqueue demo_task_linker]. lia.
    + apply elem_of_nil in Ht. destruct Ht.
    + right. right. vm_compute. congruence.
  - reflexivity.
  - vm_compute. reflexivity.
  - vm_compute. reflexivity.
  - vm_compute. reflexivity.
  - vm_compute. reflexivity.
  - exists k'. split; [exact E|exact Hz].
Defined.

Lemma pid_witness : pids 3 demo_kernel !! 2%nat = Some 4.
Proof. apply (pid_allocation 3 demo_kernel); [vm_compute; split; congruence|lia]. Defined.
