(* ===== verification/Vfs.v ===== *)
(** * The virtual file system and the dentry cache: operations

    Models src/kernel/kernel/filesystems/dentry_cache.c and vfs.c with vfs.h.
    Dentries, inodes, open files and the hash table live in the byte memory;
    0 is NULL.  The functions a file system registers (struct
    inode_operations, struct file_operations) are not part of the kernel: they
    are the class [FileSystems].  Loops over strings and lists take fuel. *)
From S2P Require Import Prelude Memory PageAlloc Slab Pmm Klib Lists.
Import Slab Pmm Klib Lists.

(** Addresses the linker and the stack frame of [path_walk] provide: the hash
    table, the string literals and the variable [saveptr]. *)
Class VfsLinker := {
  dentry_hash_table : Z;
  lit_slash : Z;
  lit_dotdot : Z;
  lit_dot : Z;
  saveptr_addr : Z;
}.

Module Dcache.

Definition DENTRY_HASH_SIZE : Z := 256.

(** One round of the mixing: [hash += c; hash += hash << 10; hash ^= hash >> 6]. *)
Definition mix (hash c : Z) : Z :=
  let hash := w64 (hash + c) in
  let hash := w64 (hash + w64 (Z.shiftl hash 10)) in
  Z.lxor hash (Z.shiftr hash 6).

Definition hash_function (parent_inode_num : Z) (m : mem) (key length : Z) : Z :=
  let hash := 0 in
  let hash := fold_left (fun hash i => mix hash (Z.land (Z.shiftr parent_inode_num (Z.of_nat i * 8)) 0xFF))
                (seq 0 8) hash in
  let hash := fold_left (fun hash i => mix hash (read8 m (key + Z.of_nat i)))
                (seq 0 (Z.to_nat length)) hash in
  let hash := w64 (hash + w64 (Z.shiftl hash 3)) in
  let hash := Z.lxor hash (Z.shiftr hash 11) in
  w64 (hash + w64 (Z.shiftl hash 15)).

(** struct inode *)
Definition sizeof_inode : Z := 88.
Definition i_inode_number (m : mem) (i : Z) : Z := load 8 m i.
Definition i_i_ops (m : mem) (i : Z) : Z := load 8 m (i + 16).
Definition i_f_ops (m : mem) (i : Z) : Z := load 8 m (i + 24).
Definition i_mode (m : mem) (i : Z) : Z := load 4 m (i + 32).
Definition i_refcount (m : mem) (i : Z) : Z := s32 (load 4 m (i + 56)).
Definition i_sb_inode_list : Z := 64.
Definition i_private_data (m : mem) (i : Z) : Z := load 8 m (i + 80).

(** struct dentry *)
Definition sizeof_dentry : Z := 72.
Definition d_name (m : mem) (d : Z) : Z := load 8 m d.
Definition d_inode (m : mem) (d : Z) : Z := load 8 m (d + 8).
Definition d_parent (m : mem) (d : Z) : Z := load 8 m (d + 16).
Definition d_children : Z := 24.
Definition d_siblings : Z := 40.
Definition d_refcount (m : mem) (d : Z) : Z := s32 (load 4 m (d + 56)).
Definition d_hash_next (m : mem) (d : Z) : Z := load 8 m (d + 64).

(** [x->refcount += n] for the [int] field at address [a]. *)
Definition add_int (m : mem) (a n : Z) : mem := store 4 m a (load 4 m a + n).
Definition d_get (m : mem) (d : Z) : mem := add_int m (d + 56) 1.
Definition d_put (m : mem) (d : Z) : mem := add_int m (d + 56) (-1).
Definition i_get (m : mem) (i : Z) : mem := add_int m (i + 56) 1.
Definition i_put (m : mem) (i : Z) : mem := add_int m (i + 56) (-1).

Section Ops.
Context `{VfsLinker}.

Definition bucket_addr (bucket : Z) : Z := dentry_hash_table + 8 * bucket.

Definition dentry_ht_bucket (fuel : nat) (m : mem) (parent name : Z) : option Z :=
  let parent_inode_num := if negb (parent =? 0) then i_inode_number m (d_inode m parent) else 0 in
  len ← strlen fuel m name;
  Some (hash_function parent_inode_num m name len mod DENTRY_HASH_SIZE).

Definition dcache_init (m : mem) : mem :=
  fold_left (fun m i => store 8 m (bucket_addr (Z.of_nat i)) 0) (seq 0 (Z.to_nat DENTRY_HASH_SIZE)) m.

Definition dcache_add (fuel : nat) (entry : Z) (m : mem) : option mem :=
  if entry =? 0 then Some m else
  bucket ← dentry_ht_bucket fuel m (d_parent m entry) (d_name m entry);
  let m := store 8 m (entry + 64) (load 8 m (bucket_addr bucket)) in
  Some (store 8 m (bucket_addr bucket) entry).

(** [struct dentry **current]: the address of the link being followed. *)
Fixpoint remove_entry (fuel : nat) (m : mem) (current name : Z) : option mem :=
  match fuel with
  | O => None
  | S fuel =>
    let c := load 8 m current in
    if c =? 0 then Some m else
    r ← strcmp (S fuel) m (d_name m c) name;
    if r =? 0 then Some (store 8 m current (d_hash_next m c))
    else remove_entry fuel m (c + 64) name
  end.

Definition dcache_remove (fuel : nat) (entry : Z) (m : mem) : option mem :=
  if entry =? 0 then Some m else
  bucket ← dentry_ht_bucket fuel m (d_parent m entry) (d_name m entry);
  remove_entry fuel m (bucket_addr bucket) (d_name m entry).

Fixpoint find_entry (fuel : nat) (m : mem) (current name : Z) : option Z :=
  match fuel with
  | O => None
  | S fuel =>
    if current =? 0 then Some 0 else
    r ← strcmp (S fuel) m (d_name m current) name;
    if r =? 0 then Some current else find_entry fuel m (d_hash_next m current) name
  end.

Definition dcache_lookup (fuel : nat) (m : mem) (parent name : Z) : option Z :=
  if (parent =? 0) || (name =? 0) then Some 0 else
  bucket ← dentry_ht_bucket fuel m parent name;
  find_entry fuel m (load 8 m (bucket_addr bucket)) name.

End Ops.
End Dcache.

Module Vfs.
Import Dcache.

Definition INODE_FILE_TYPE_MASK : Z := 0xF000.
Definition INODE_FILE_DIRECTORY : Z := 0x4000.
Definition INODE_FILE_SOCKET : Z := 0xC000.
Definition INODE_FILE_LINK : Z := 0xA000.
Definition INODE_FILE_REGULAR_FILE : Z := 0x8000.
Definition INODE_FILE_BLOCK_DEVICE : Z := 0x6000.
Definition INODE_FILE_CHAR_DEVICE : Z := 0x2000.
Definition INODE_FILE_FIFO : Z := 0x1000.

Definition IS_LINK (type_mask : Z) : bool := Z.land type_mask INODE_FILE_TYPE_MASK =? INODE_FILE_LINK.
Definition IS_REGULAR_FILE (type_mask : Z) : bool := Z.land type_mask INODE_FILE_TYPE_MASK =? INODE_FILE_REGULAR_FILE.
Definition IS_DIRECTORY (type_mask : Z) : bool := Z.land type_mask INODE_FILE_TYPE_MASK =? INODE_FILE_DIRECTORY.
Definition IS_CHAR_DEVICE (type_mask : Z) : bool := Z.land type_mask INODE_FILE_TYPE_MASK =? INODE_FILE_CHAR_DEVICE.
Definition IS_BLOCK_DEVICE (type_mask : Z) : bool := Z.land type_mask INODE_FILE_TYPE_MASK =? INODE_FILE_BLOCK_DEVICE.
Definition IS_FIFO (type_mask : Z) : bool := Z.land type_mask INODE_FILE_TYPE_MASK =? INODE_FILE_FIFO.
Definition IS_SOCKET (type_mask : Z) : bool := Z.land type_mask INODE_FILE_TYPE_MASK =? INODE_FILE_SOCKET.

Definition VFS_OK : Z := 0.
Definition VFS_ENOENT : Z := -1.
Definition VFS_ENOMEM : Z := -2.
Definition VFS_EINVAL : Z := -3.
Definition VFS_EISDIR : Z := -5.

Definition DENTRY_NAME_MAX_LENGTH : Z := 255.

(** struct file: { inode, fpath { dentry, mnt }, offset, flags, mode, f_ops,
    private_data } *)
Definition sizeof_file : Z := 56.
Definition f_inode (m : mem) (f : Z) : Z := load 8 m f.
Definition f_dentry (m : mem) (f : Z) : Z := load 8 m (f + 8).
Definition f_offset (m : mem) (f : Z) : Z := load 8 m (f + 24).
Definition f_f_ops (m : mem) (f : Z) : Z := load 8 m (f + 40).

(** struct file_operations: the function pointers in use. *)
Definition fop_read (m : mem) (o : Z) : Z := load 8 m o.
Definition fop_write (m : mem) (o : Z) : Z := load 8 m (o + 8).
Definition fop_open (m : mem) (o : Z) : Z := load 8 m (o + 16).
Definition fop_close (m : mem) (o : Z) : Z := load 8 m (o + 24).
Definition fop_lseek (m : mem) (o : Z) : Z := load 8 m (o + 48).

(** struct filesystem: { name, mount, unmount, next } *)
Definition fs_name (m : mem) (fs : Z) : Z := load 8 m fs.
Definition fs_next (m : mem) (fs : Z) : Z := load 8 m (fs + 24).

Section State.
Context {P : Type}.

Record vfs := mk_vfs {
  vf_heap : heap P;
  registered_fs : Z;
  root_dentry : Z;
}.

Definition vf_mem (s : vfs) : mem := h_mem (vf_heap s).
Definition set_vf_heap (s : vfs) (h : heap P) : vfs := mk_vfs h (registered_fs s) (root_dentry s).
Definition set_vf_mem (s : vfs) (m : mem) : vfs := set_vf_heap s (set_mem (vf_heap s) m).
Definition set_registered_fs (s : vfs) (fs : Z) : vfs := mk_vfs (vf_heap s) fs (root_dentry s).
End State.
Arguments vfs : clear implicits.

(** The functions of the mounted file systems, by the function pointer that is
    called, with the arguments of the call.  They may change all of the state. *)
Class FileSystems (P : Type) := {
  call_lookup : Z -> Z -> Z -> vfs P -> option (vfs P * Z);
  call_open : Z -> Z -> Z -> vfs P -> option (vfs P * Z);
  call_close : Z -> Z -> Z -> vfs P -> option (vfs P * Z);
  call_read : Z -> Z -> Z -> Z -> Z -> vfs P -> option (vfs P * Z);
  call_write : Z -> Z -> Z -> Z -> Z -> vfs P -> option (vfs P * Z);
  call_lseek : Z -> Z -> Z -> Z -> vfs P -> option (vfs P * Z);
}.

Section Ops.
Context `{Hhdm} `{Linker} `{VfsLinker} {P : Type} `{!PageAllocator P} `{!FileSystems P}.

Implicit Types s : vfs P.

Definition kmalloc_v (fuel : nat) (size : Z) s : option (vfs P * Z) :=
  '(h, p) ← kmalloc fuel size (vf_heap s); Some (set_vf_heap s h, p).
Definition kfree_v (p : Z) s : option (vfs P) :=
  '(h, _) ← kfree p (vf_heap s); Some (set_vf_heap s h).
Definition kstrndup_v (fuel : nat) (str n : Z) s : option (vfs P * Z) :=
  '(h, p) ← kstrndup fuel str n (vf_heap s); Some (set_vf_heap s h, p).

(** ** Dentries *)

Definition alloc_dentry (fuel : nat) (parent name : Z) s : option (vfs P * Z) :=
  '(s, d) ← kmalloc_v fuel sizeof_dentry s;
  if d =? 0 then Some (s, 0) else
  '(s, nm) ← kstrndup_v fuel name DENTRY_NAME_MAX_LENGTH s;
  let m := store 8 (vf_mem s) d nm in
  if nm =? 0 then s ← kfree_v d (set_vf_mem s m); Some (s, 0) else
  let m := list_init m (d + d_children) in
  let m := list_init m (d + d_siblings) in
  let m := store 8 m (d + 16) parent in
  let m := if negb (parent =? 0) then list_add_tail m (d + d_siblings) (parent + d_children) else m in
  let m := store 4 m (d + 56) 1 in
  let m := store 4 m (d + 60) 0 in
  m ← dcache_add fuel d m;
  Some (set_vf_mem s m, d).

Definition instantiate_dentry (entry i_node : Z) (m : mem) : mem :=
  if (i_node =? 0) || (entry =? 0) then m else
  let m := store 8 m (entry + 8) i_node in
  i_get m i_node.

Definition free_dentry (fuel : nat) (d : Z) s : option (vfs P) :=
  let m := vf_mem s in
  let m := if negb (d_inode m d =? 0) then i_put m (d_inode m d) else m in
  m ← dcache_remove fuel d m;
  let s := set_vf_mem s m in
  s ← kfree_v (d_name (vf_mem s) d) s;
  kfree_v d s.

(** ** Paths *)

(** What [path_walk] does for one token, before it asks for the next one. *)
Inductive walk_step := WContinue (parent : Z) | WDone (result : Z).

Definition up (m : mem) (parent : Z) : Z :=
  if negb (d_parent m parent =? 0) then d_parent m parent else parent.

Definition walk_token (fuel : nat) (parent token path_copy : Z) s : option (vfs P * walk_step) :=
  let m := vf_mem s in
  if read8 m token =? 0 then Some (s, WContinue parent) else
  r ← strcmp fuel m token lit_dot;
  if r =? 0 then Some (s, WContinue parent) else
  r ← strcmp fuel m token lit_dotdot;
  if r =? 0 then
    let prev := up m parent in
    let m := d_get m prev in
    let m := d_put m parent in
    Some (set_vf_mem s m, WContinue prev)
  else
  current ← dcache_lookup fuel m parent token;
  '(s, current) ← (if current =? 0 then
      let inode := d_inode m parent in
      '(s, current) ← call_lookup (load 8 m (i_i_ops m inode)) inode token s;
      if current =? 0 then Some (s, 0) else
      m ← dcache_add fuel current (vf_mem s);
      Some (set_vf_mem s m, current)
    else Some (s, current));
  if current =? 0 then
    s ← kfree_v path_copy (set_vf_mem s (d_put (vf_mem s) parent));
    Some (s, WDone 0)
  else
  let m := vf_mem s in
  let saveptr := load 8 m saveptr_addr in
  if negb (saveptr =? 0) && (read8 m saveptr =? 0) then
    let m := d_get (d_put m parent) current in
    s ← kfree_v path_copy (set_vf_mem s m);
    Some (s, WDone current)
  else if negb (IS_DIRECTORY (i_mode m (d_inode m current))) then
    s ← kfree_v path_copy (set_vf_mem s (d_put m parent));
    Some (s, WDone 0)
  else
    Some (set_vf_mem s (d_get (d_put m parent) current), WContinue current).

(** [while(token)]: each round ends with the next [kstrtok_r] or a return. *)
Fixpoint walk_loop (fuel : nat) (parent token path_copy : Z) s : option (vfs P * Z) :=
  match fuel with
  | O => None
  | S fuel =>
    if token =? 0 then s ← kfree_v path_copy s; Some (s, parent) else
    '(s, r) ← walk_token (S fuel) parent token path_copy s;
    match r with
    | WDone d => Some (s, d)
    | WContinue parent =>
      '(m, token) ← kstrtok_r (S fuel) (vf_mem s) 0 lit_slash saveptr_addr;
      walk_loop fuel parent token path_copy (set_vf_mem s m)
    end
  end.

(** [wd_path] is the address of a [struct path], its dentry in the first word. *)
Definition path_walk (fuel : nat) (abs_path wd_path : Z) s : option (vfs P * Z) :=
  if abs_path =? 0 then Some (s, 0) else
  let m := vf_mem s in
  r ← strcmp fuel m abs_path lit_slash;
  if r =? 0 then Some (set_vf_mem s (d_get m (root_dentry s)), root_dentry s) else
  let parent := if negb (wd_path =? 0) && negb (load 8 m wd_path =? 0)
                then load 8 m wd_path else root_dentry s in
  r ← strcmp fuel m abs_path lit_dotdot;
  if r =? 0 then
    let prev_dir := up m parent in
    Some (set_vf_mem s (d_get m prev_dir), prev_dir)
  else
  r ← strcmp fuel m abs_path lit_dot;
  if r =? 0 then Some (set_vf_mem s (d_get m parent), parent) else
  let abs_path := if read8 m abs_path =? 47 then abs_path + 1 else abs_path in
  let s := set_vf_mem s (d_get m parent) in
  len ← strlen fuel (vf_mem s) abs_path;
  '(s, path_copy) ← kstrndup_v fuel abs_path len s;
  '(m, token) ← kstrtok_r fuel (vf_mem s) path_copy lit_slash saveptr_addr;
  walk_loop fuel parent token path_copy (set_vf_mem s m).

(** ** Inodes *)

Definition alloc_inode (fuel : nat) (sb : Z) s : option (vfs P * Z) :=
  if sb =? 0 then Some (s, 0) else
  '(s, ind) ← kmalloc_v fuel sizeof_inode s;
  if ind =? 0 then Some (s, 0) else
  let m := store 8 (vf_mem s) (ind + 8) sb in
  let m := store 4 m (ind + 56) 1 in
  let m := list_init m (ind + i_sb_inode_list) in
  let m := list_add_tail m (ind + i_sb_inode_list) (sb + 24) in
  Some (set_vf_mem s m, ind).

Definition free_inode (ind : Z) s : option (vfs P) :=
  if ind =? 0 then Some s else
  s ← (if i_i_ops (vf_mem s) ind =? 0 then Some s else kfree_v (i_i_ops (vf_mem s) ind) s);
  s ← (if i_f_ops (vf_mem s) ind =? 0 then Some s else kfree_v (i_f_ops (vf_mem s) ind) s);
  s ← (if i_private_data (vf_mem s) ind =? 0 then Some s
       else kfree_v (i_private_data (vf_mem s) ind) s);
  kfree_v ind (set_vf_mem s (list_del (vf_mem s) (ind + i_sb_inode_list))).

(** ** File systems *)

Definition register_filesystem (fs : Z) s : vfs P * Z :=
  if (fs =? 0) || (fs_name (vf_mem s) fs =? 0) then (s, VFS_EINVAL) else
  let s := set_vf_mem s (store 8 (vf_mem s) (fs + 24) (registered_fs s)) in
  (set_registered_fs s fs, VFS_OK).

Fixpoint find_fs_loop (fuel : nat) (m : mem) (fs name : Z) : option Z :=
  match fuel with
  | O => None
  | S fuel =>
    if fs =? 0 then Some 0 else
    r ← strcmp (S fuel) m (fs_name m fs) name;
    if r =? 0 then Some fs else find_fs_loop fuel m (fs_next m fs) name
  end.

Definition find_filesystem (fuel : nat) (name : Z) s : option Z :=
  if name =? 0 then Some 0 else find_fs_loop fuel (vf_mem s) (registered_fs s) name.

(** ** Open files *)

Definition vfs_open (fuel : nat) (abs_path wd flags file_out : Z) s : option (vfs P * Z) :=
  if (abs_path =? 0) || (file_out =? 0) then Some (s, VFS_EINVAL) else
  '(s, dirent) ← path_walk fuel abs_path wd s;
  if dirent =? 0 then Some (s, VFS_ENOENT) else
  if negb (IS_DIRECTORY (i_mode (vf_mem s) (d_inode (vf_mem s) dirent))) then Some (s, VFS_EISDIR) else
  '(s, f) ← kmalloc_v fuel sizeof_file s;
  if f =? 0 then Some (s, VFS_ENOMEM) else
  let m := vf_mem s in
  let m := store 8 m (f + 8) dirent in
  let m := store 8 m f (d_inode m dirent) in
  let m := store 8 m (f + 24) 0 in
  let m := store 4 m (f + 32) flags in
  let m := store 4 m (f + 36) 0 in
  let m := store 8 m (f + 48) 0 in
  let m := store 8 m (f + 40) (i_f_ops m (d_inode m dirent)) in
  let m := d_get m dirent in
  let m := i_get m (f_inode m f) in
  let s := set_vf_mem s m in
  '(s, ret) ← (if negb (f_f_ops m f =? 0) && negb (fop_open m (f_f_ops m f) =? 0)
               then call_open (fop_open m (f_f_ops m f)) (f_inode m f) f s
               else Some (s, VFS_OK));
  if negb (ret =? VFS_OK) then
    let m := d_put (vf_mem s) dirent in
    let m := i_put m (f_inode m f) in
    s ← kfree_v f (set_vf_mem s m);
    Some (s, ret)
  else Some (set_vf_mem s (store 8 (vf_mem s) file_out f), VFS_OK).

Definition vfs_close (f : Z) s : option (vfs P * Z) :=
  if f =? 0 then Some (s, VFS_EINVAL) else
  let m := vf_mem s in
  '(s, ret) ← (if negb (f_f_ops m f =? 0) && negb (fop_close m (f_f_ops m f) =? 0)
               then call_close (fop_close m (f_f_ops m f)) (f_inode m f) f s
               else Some (s, VFS_OK));
  let m := d_put (vf_mem s) (f_dentry (vf_mem s) f) in
  let m := i_put m (f_inode m f) in
  s ← kfree_v f (set_vf_mem s m);
  Some (s, ret).

Definition vfs_read (f buf count : Z) s : option (vfs P * Z) :=
  let m := vf_mem s in
  if (f =? 0) || (buf =? 0) || (f_f_ops m f =? 0) || (fop_read m (f_f_ops m f) =? 0)
  then Some (s, - VFS_EINVAL)
  else call_read (fop_read m (f_f_ops m f)) f buf count (f_offset m f) s.

Definition vfs_write (f buf count : Z) s : option (vfs P * Z) :=
  let m := vf_mem s in
  if (f =? 0) || (buf =? 0) || (f_f_ops m f =? 0) || (fop_write m (f_f_ops m f) =? 0)
  then Some (s, - VFS_EINVAL)
  else call_write (fop_write m (f_f_ops m f)) f buf count (f_offset m f) s.

Definition vfs_lseek (f offset whence : Z) s : option (vfs P * Z) :=
  let m := vf_mem s in
  if (f =? 0) || (f_f_ops m f =? 0) || (fop_lseek m (f_f_ops m f) =? 0)
  then Some (s, - VFS_EINVAL)
  else call_lseek (fop_lseek m (f_f_ops m f)) f offset whence s.

End Ops.
End Vfs.
