(* ===== verification/DcacheSpec.v ===== *)
(** * The dentry cache: specification

    [dcache_ok m B nm]: the bucket [b] of the hash table is the list of dentries
    [B b] and the dentry [e] has the name [nm e].  Adding, removing and looking
    up are operations on [B]. *)
From S2P Require Import Prelude Memory Chain PageAlloc Slab Pmm Klib KlibSpec Lists Vfs.
Import Klib Dcache.

(** ** Strings and hashing *)

Lemma strcmp_mono fuel fuel' m : forall s1 s2 r,
  strcmp fuel m s1 s2 = Some r -> (fuel <= fuel')%nat -> strcmp fuel' m s1 s2 = Some r.
Proof.
  revert fuel'. induction fuel as [|fuel IH]; intros fuel' s1 s2 r E Hle; [done|].
  destruct fuel' as [|fuel']; [lia|]. cbn [strcmp] in *. destruct (_ && _); [|done].
  apply IH; [done|lia].
Qed.

Lemma strlen_mono fuel fuel' m str len :
  strlen fuel m str = Some len -> (fuel <= fuel')%nat -> strlen fuel' m str = Some len.
Proof.
  unfold strlen. generalize 0. revert fuel'.
  induction fuel as [|fuel IH]; intros fuel' k E Hle; [done|]. destruct fuel' as [|fuel']; [lia|].
  cbn [strlen_loop] in *. destruct (_ =? 0); [done|]. apply IH; [done|lia].
Qed.

Lemma strlen_sound fuel m str l len : cstr m str l -> strlen fuel m str = Some len -> len = Z.of_nat (length l).
Proof.
  intros Hc E. pose proof (strlen_spec m str (fuel + S (length l)) l Hc ltac:(lia)) as E2.
  rewrite (strlen_mono fuel (fuel + S (length l)) m str len E) in E2 by lia. by injection E2.
Qed.

Lemma strcmp_sound fuel m s1 s2 l1 l2 r :
  cstr m s1 l1 -> cstr m s2 l2 -> strcmp fuel m s1 s2 = Some r -> r = 0 <-> l1 = l2.
Proof.
  intros H1 H2 E. destruct (strcmp_spec m s1 s2 l1 l2 (fuel + S (length l1)) H1 H2) as (r' & E' & Hr); [lia|].
  rewrite (strcmp_mono fuel (fuel + S (length l1)) m s1 s2 r E) in E' by lia. by injection E' as <-.
Qed.

(** The hash of a name, as a list of bytes, in a directory. *)
Definition hash_name (ino : Z) (l : list Z) : Z :=
  let hash := fold_left (fun hash i => mix hash (Z.land (Z.shiftr ino (Z.of_nat i * 8)) 0xFF)) (seq 0 8) 0 in
  let hash := fold_left mix l hash in
  let hash := w64 (hash + w64 (Z.shiftl hash 3)) in
  let hash := Z.lxor hash (Z.shiftr hash 11) in
  w64 (hash + w64 (Z.shiftl hash 15)) mod DENTRY_HASH_SIZE.

Definition parent_ino (m : mem) (parent : Z) : Z :=
  if negb (parent =? 0) then i_inode_number m (d_inode m parent) else 0.

Lemma fold_bytes m a : forall l k h,
  bytes m (a + Z.of_nat k) l ->
  fold_left (fun h i => mix h (read8 m (a + Z.of_nat i))) (seq k (length l)) h = fold_left mix l h.
Proof.
  induction l as [|b l IH]; intros k h Hb; [done|]. simpl.
  pose proof (Hb 0%nat b eq_refl) as E0. rewrite Z.add_0_r in E0. rewrite E0. apply IH.
  intros i c Hi. rewrite <- (Hb (S i) c Hi). f_equal. lia.
Qed.

Lemma bucket_spec fuel m parent name l :
  cstr m name l -> (length l < fuel)%nat ->
  dentry_ht_bucket fuel m parent name = Some (hash_name (parent_ino m parent) l).
Proof.
  intros Hc Hf. unfold dentry_ht_bucket. rewrite (strlen_spec m name fuel l Hc Hf). cbn [mbind option_bind].
  unfold hash_function, hash_name, parent_ino. rewrite Nat2Z.id.
  rewrite (fold_bytes m name l 0); [done|]. rewrite Z.add_0_r. apply Hc.
Qed.

Lemma bucket_sound fuel m parent name l b :
  cstr m name l -> dentry_ht_bucket fuel m parent name = Some b -> b = hash_name (parent_ino m parent) l.
Proof.
  intros Hc E. pose proof (bucket_spec (S (length l)) m parent name l Hc ltac:(lia)) as E2.
  unfold dentry_ht_bucket in *. destruct (strlen fuel m name) as [len|] eqn:El; [|done].
  rewrite (strlen_sound fuel m name l len Hc El) in E.
  rewrite (strlen_spec m name (S (length l)) l Hc) in E2 by lia. congruence.
Qed.

Lemma hash_name_range ino l : 0 <= hash_name ino l < DENTRY_HASH_SIZE.
Proof. apply Z.mod_pos_bound. reflexivity. Qed.

Section Cache.
Context `{VfsLinker}.

Implicit Types (m : mem) (B : Z -> list Z) (nm : Z -> list Z) (e : Z).

Definition table_byte (x : Z) : Prop := in_range dentry_hash_table (8 * DENTRY_HASH_SIZE) x.
Definition link_byte e (x : Z) : Prop := in_range (e + 64) 8 x.
Definition name_byte m e (l : list Z) (x : Z) : Prop := in_range (d_name m e) (Z.of_nat (length l) + 1) x.

(** Where a dentry may lie. *)
Definition dentry_mem e : Prop :=
  0 < e /\ e + sizeof_dentry <= 2 ^ 64 /\
  (e + sizeof_dentry <= dentry_hash_table \/ dentry_hash_table + 8 * DENTRY_HASH_SIZE <= e).

Definition disjoint_dentries e f : Prop := e + sizeof_dentry <= f \/ f + sizeof_dentry <= e.

Definition cached B e : Prop := exists b, 0 <= b < DENTRY_HASH_SIZE /\ e ∈ B b.

(** The cached dentries and their names are apart from each other and from the
    words that link them. *)
Record names_ok m B nm : Prop := {
  no_name e : cached B e -> cstr m (d_name m e) (nm e);
  no_mem e : cached B e -> dentry_mem e;
  no_apart e f : cached B e -> cached B f -> e = f \/ disjoint_dentries e f;
  no_names e x : cached B e -> name_byte m e (nm e) x -> ~ table_byte x /\ forall f, cached B f -> ~ link_byte f x;
}.

Record dcache_ok m B nm : Prop := {
  dk_names : names_ok m B nm;
  dk_chain b : 0 <= b < DENTRY_HASH_SIZE -> lchain 64 m (load 8 m (bucket_addr b)) (B b);
  dk_once b c e : 0 <= b < DENTRY_HASH_SIZE -> 0 <= c < DENTRY_HASH_SIZE -> e ∈ B b -> e ∈ B c -> b = c;
  dk_nodup b : 0 <= b < DENTRY_HASH_SIZE -> NoDup (B b);
}.

(** The bytes an operation on the cache [B] may write. *)
Definition cache_byte B (x : Z) : Prop := table_byte x \/ exists f, cached B f /\ link_byte f x.

Lemma bucket_word_table b x :
  0 <= b < DENTRY_HASH_SIZE -> in_range (bucket_addr b) 8 x -> table_byte x.
Proof. unfold table_byte, in_range, bucket_addr, DENTRY_HASH_SIZE. lia. Qed.

Lemma dentry_not_table e x : dentry_mem e -> in_range e sizeof_dentry x -> ~ table_byte x.
Proof. unfold dentry_mem, table_byte, in_range, sizeof_dentry, DENTRY_HASH_SIZE. lia. Qed.

(** The fields of a cached dentry before its link are no cache bytes. *)
Lemma field_not_cache m B nm e x :
  names_ok m B nm -> cached B e -> in_range e 64 x -> ~ cache_byte B x.
Proof.
  intros Hn He Hx [Ht|(f & Hf & Hl)].
  - revert Ht. apply (dentry_not_table e); [by apply Hn|]. unfold in_range, sizeof_dentry in *. lia.
  - destruct (no_apart _ _ _ Hn e f He Hf) as [<-|Hap];
      unfold disjoint_dentries, link_byte, in_range, sizeof_dentry in *; lia.
Qed.

Lemma d_name_kept m m' B nm e :
  names_ok m B nm -> agree (fun x => ~ cache_byte B x) m m' -> cached B e -> d_name m' e = d_name m e.
Proof.
  intros Hn Ha He. unfold d_name. symmetry. apply load_agree. eapply agree_sub; [exact Ha|].
  intros x Hx. apply (field_not_cache m B nm e x Hn He). unfold in_range in *. lia.
Qed.

Lemma names_ok_agree m m' B nm :
  names_ok m B nm -> agree (fun x => ~ cache_byte B x) m m' -> names_ok m' B nm.
Proof.
  intros Hn Ha. split; try apply Hn.
  - intros e He. rewrite (d_name_kept m m' B nm e Hn Ha He).
    eapply cstr_agree; [exact Ha| |by apply (no_name _ _ _ Hn)].
    intros x Hx. destruct (no_names _ _ _ Hn e x He Hx) as [Ht Hl]. intros [?|(f & Hf & ?)]; [done|]. by apply (Hl f).
  - intros e x He Hx. unfold name_byte in Hx. rewrite (d_name_kept m m' B nm e Hn Ha He) in Hx.
    by apply (no_names _ _ _ Hn e).
Qed.

Lemma names_ok_sub m B B' nm :
  names_ok m B nm -> (forall e, cached B' e -> cached B e) -> names_ok m B' nm.
Proof.
  intros Hn Hs. split.
  - intros e He. by apply (no_name _ _ _ Hn), Hs.
  - intros e He. by apply (no_mem _ _ _ Hn), Hs.
  - intros e f He Hf. by apply (no_apart _ _ _ Hn); apply Hs.
  - intros e x He Hx. destruct (no_names _ _ _ Hn e x (Hs e He) Hx) as [Ht Hl]. split; [done|].
    intros f Hf. apply Hl, Hs, Hf.
Qed.

(** The first entry of a bucket with the name [l]. *)
Fixpoint first_named nm (l : list Z) (es : list Z) : Z :=
  match es with
  | [] => 0
  | e :: es => if decide (nm e = l) then e else first_named nm l es
  end.

(** ** Lookup *)

Lemma find_entry_spec m nm name l : forall es fuel h,
  cstr m name l -> lchain 64 m h es -> (forall e, e ∈ es -> cstr m (d_name m e) (nm e)) ->
  (forall e, e ∈ es -> (length (nm e) + length es < fuel)%nat) -> (0 < fuel)%nat ->
  find_entry fuel m h name = Some (first_named nm l es).
Proof.
  induction es as [|e es IH]; intros fuel h Hn Hc Hnm Hf Hpos; (destruct fuel as [|fuel]; [lia|]); cbn [find_entry].
  - simpl in Hc. by rewrite Hc.
  - destruct Hc as (-> & Hne & Hc). rewrite (proj2 (Z.eqb_neq e 0)) by done.
    pose proof (Hf e ltac:(by left)) as Hfe. simpl in Hfe.
    destruct (strcmp_spec m (d_name m e) name (nm e) l (S fuel)) as (r & E & Hr); [apply Hnm; by left|done|lia|].
    rewrite E. cbn [mbind option_bind first_named]. case_decide as Hd.
    + by rewrite (proj2 Hr Hd).
    + rewrite (proj2 (Z.eqb_neq r 0)) by tauto. apply IH; try done.
      * intros f Hfin. apply Hnm. by right.
      * intros f Hfin. pose proof (Hf f ltac:(by right)) as Hff. simpl in Hff. lia.
      * lia.
Qed.

Lemma dcache_lookup_spec fuel m B nm parent name l :
  dcache_ok m B nm -> parent <> 0 -> name <> 0 -> cstr m name l -> (length l < fuel)%nat ->
  (forall e, e ∈ B (hash_name (parent_ino m parent) l) ->
     (length (nm e) + length (B (hash_name (parent_ino m parent) l)) < fuel)%nat) ->
  dcache_lookup fuel m parent name =
    Some (first_named nm l (B (hash_name (parent_ino m parent) l))).
Proof.
  intros Hd Hp Hn Hc Hf Hfs. unfold dcache_lookup. rewrite !(proj2 (Z.eqb_neq _ 0)) by done. cbn [orb].
  rewrite (bucket_spec fuel m parent name l Hc Hf). cbn [mbind option_bind].
  apply find_entry_spec; [done|apply Hd, hash_name_range| |done|lia].
  intros e He. apply (no_name _ _ _ (dk_names _ _ _ Hd)). exists (hash_name (parent_ino m parent) l). split; [apply hash_name_range|done].
Qed.

(** ** Insertion *)

Definition bucket_of m nm e : Z := hash_name (parent_ino m (d_parent m e)) (nm e).

(** A dentry that may be added: apart from the table and from the cached ones,
    its name away from all link words, and the cached names away from its own. *)
Record addable m B nm e : Prop := {
  ad_mem : dentry_mem e;
  ad_apart f : cached B f -> disjoint_dentries e f;
  ad_name : cstr m (d_name m e) (nm e);
  ad_name_apart x : name_byte m e (nm e) x -> ~ table_byte x /\ ~ link_byte e x /\ forall f, cached B f -> ~ link_byte f x;
  ad_links f x : cached B f -> name_byte m f (nm f) x -> ~ link_byte e x;
}.

Definition add_entry B (b : Z) e : Z -> list Z := <[b := e :: B b]> B.

Lemma elem_add_entry B b e c f : f ∈ add_entry B b e c <-> f ∈ B c \/ (c = b /\ f = e).
Proof.
  unfold add_entry. destruct (decide (c = b)) as [->|Hne].
  - rewrite fn_lookup_insert. set_solver.
  - rewrite fn_lookup_insert_ne by done. naive_solver.
Qed.

Lemma cached_add B b e f :
  0 <= b < DENTRY_HASH_SIZE -> cached (add_entry B b e) f <-> cached B f \/ f = e.
Proof.
  intros Hb. unfold cached. setoid_rewrite elem_add_entry. split.
  - intros (c & Hc & [?|[_ ->]]); eauto.
  - intros [(c & Hc & ?)| ->]; eauto.
Qed.

Lemma addable_names m B nm b e :
  0 <= b < DENTRY_HASH_SIZE -> names_ok m B nm -> addable m B nm e -> names_ok m (add_entry B b e) nm.
Proof.
  intros Hb Hn Ha. split.
  - intros f [Hf| ->]%cached_add; [by apply (no_name _ _ _ Hn)|apply Ha|done].
  - intros f [Hf| ->]%cached_add; [by apply (no_mem _ _ _ Hn)|apply Ha|done].
  - intros f g Hfc Hgc. apply cached_add in Hfc; [|done]. apply cached_add in Hgc; [|done].
    destruct Hfc as [Hfc| ->], Hgc as [Hgc| ->]; [by apply (no_apart _ _ _ Hn)|right|right|by left].
    + pose proof (ad_apart _ _ _ _ Ha f Hfc). unfold disjoint_dentries in *. lia.
    + by apply (ad_apart _ _ _ _ Ha).
  - intros f x Hfc Hx. apply cached_add in Hfc; [|done]. destruct Hfc as [Hfc| ->].
    + destruct (no_names _ _ _ Hn f x Hfc Hx) as [Ht Hl]. split; [done|].
      intros g [Hg| ->]%cached_add; [by apply Hl|by apply (ad_links _ _ _ _ Ha f)|done].
    + destruct (ad_name_apart _ _ _ _ Ha x Hx) as (Ht & Hl & Hls). split; [done|].
      intros g [Hg| ->]%cached_add; [by apply Hls|done|done].
Qed.

Lemma addable_fresh m B nm e c : addable m B nm e -> 0 <= c < DENTRY_HASH_SIZE -> e ∉ B c.
Proof.
  intros Ha Hc He. pose proof (ad_apart _ _ _ _ Ha e ltac:(by exists c)).
  unfold disjoint_dentries, sizeof_dentry in *. lia.
Qed.

(** Dentries other than [e] keep all their words. *)
Lemma add_keeps_links m m' B nm e f :
  names_ok m B nm -> addable m B nm e -> agree (fun x => ~ table_byte x /\ ~ link_byte e x) m m' ->
  cached B f -> agree (in_range (f + 64) 8) m m'.
Proof.
  intros Hn Ha Hag Hf. eapply agree_sub; [exact Hag|]. intros x Hx. split.
  - apply (dentry_not_table f); [by apply Hn|]. unfold in_range, sizeof_dentry in *. lia.
  - pose proof (ad_apart _ _ _ _ Ha f Hf). unfold disjoint_dentries, link_byte, in_range, sizeof_dentry in *. lia.
Qed.

(** [dcache_add] puts the dentry in front of its bucket; only the table and the
    link of the dentry are written. *)
Lemma dcache_add_spec fuel m B nm e :
  dcache_ok m B nm -> addable m B nm e -> (length (nm e) < fuel)%nat ->
  exists m', dcache_add fuel e m = Some m' /\
    dcache_ok m' (add_entry B (bucket_of m nm e) e) nm /\
    agree (fun x => ~ table_byte x /\ ~ link_byte e x) m m'.
Proof.
  intros Hd Ha Hf. pose proof (dk_names _ _ _ Hd) as Hn. set (b := bucket_of m nm e).
  assert (0 <= b < DENTRY_HASH_SIZE) as Hb by apply hash_name_range.
  destruct (ad_mem _ _ _ _ Ha) as (Hpos & Hfit & Hout).
  unfold dcache_add. rewrite (proj2 (Z.eqb_neq e 0)) by lia.
  rewrite (bucket_spec fuel m _ _ (nm e) (ad_name _ _ _ _ Ha) Hf). fold (bucket_of m nm e). fold b.
  cbn [mbind option_bind]. set (v := load 8 m (bucket_addr b)).
  set (m' := store 8 (store 8 m (e + 64) v) (bucket_addr b) e). exists m'.
  assert (agree (fun x => ~ table_byte x /\ ~ link_byte e x) m m') as Hag.
  { unfold m'. etransitivity; apply agree_store.
    - intros x [_ Hx] Hr. by apply Hx.
    - intros x [Hx _] Hr. by apply Hx, (bucket_word_table b). }
  split; [done|]. split; [|done]. split.
  - apply (names_ok_agree m); [by apply addable_names|]. eapply agree_sub; [exact Hag|].
    intros x Hx. split; [by contradict Hx; left|]. contradict Hx. right. exists e. split; [|done].
    apply cached_add; auto.
  - intros c Hc. unfold add_entry. destruct (decide (c = b)) as [->|Hne].
    + rewrite fn_lookup_insert. unfold m' at 2. unfold sizeof_dentry in *. rewrite load8_store8 by lia. simpl.
      split_and!; [done|lia|]. assert (load 8 m' (e + 64) = v) as ->.
      { unfold m'. rewrite load_store_ne by (unfold bucket_addr, DENTRY_HASH_SIZE in *; lia).
        apply load8_store8, load8_range. }
      eapply lchain_agree; [|by apply (dk_chain _ _ _ Hd)].
      intros f Hfb. apply (add_keeps_links m m' B nm e); try done. by exists b.
    + rewrite fn_lookup_insert_ne by done. unfold m' at 2.
      rewrite load_store_ne by (unfold bucket_addr; lia).
      rewrite load_store_ne by (unfold sizeof_dentry, bucket_addr, DENTRY_HASH_SIZE in *; lia).
      eapply lchain_agree; [|by apply (dk_chain _ _ _ Hd)].
      intros f Hfb. apply (add_keeps_links m m' B nm e); try done. by exists c.
  - intros c d f Hc Hd' [Hfc|[? ?]]%elem_add_entry [Hfd|[? ?]]%elem_add_entry; subst; try done.
    + by apply (dk_once _ _ _ Hd c d f).
    + by apply (addable_fresh m B nm e c Ha) in Hfc.
    + by apply (addable_fresh m B nm e d Ha) in Hfd.
  - intros c Hc. unfold add_entry. destruct (decide (c = b)) as [->|Hne].
    + rewrite fn_lookup_insert. apply NoDup_cons. split; [by apply (addable_fresh m B nm e b)|by apply (dk_nodup _ _ _ Hd)].
    + rewrite fn_lookup_insert_ne by done. by apply (dk_nodup _ _ _ Hd).
Qed.

(** ** Removal *)

(** The address of the link that is followed after the nodes [l1]. *)
Definition link_addr (cur : Z) (l1 : list Z) : Z :=
  match last l1 with None => cur | Some p => p + 64 end.

Lemma remove_entry_spec m nm name l : forall l1 fuel cur f l2,
  cstr m name l -> lchain 64 m (load 8 m cur) (l1 ++ f :: l2) ->
  (forall e, e ∈ l1 ++ [f] -> cstr m (d_name m e) (nm e) /\ (length (nm e) + length l1 + 1 < fuel)%nat) ->
  (forall e, e ∈ l1 -> nm e <> l) -> nm f = l ->
  remove_entry fuel m cur name = Some (store 8 m (link_addr cur l1) (d_hash_next m f)).
Proof.
  induction l1 as [|e l1 IH]; intros fuel cur f l2 Hn Hc Hnm Hne Hf;
    (destruct fuel as [|fuel]; [destruct (Hnm f); [set_solver|lia]|]); cbn [remove_entry].
  - destruct Hc as (-> & Hnz & _). rewrite (proj2 (Z.eqb_neq f 0)) by done.
    destruct (Hnm f ltac:(by left)) as [Hcf Hlf].
    destruct (strcmp_spec m (d_name m f) name (nm f) l (S fuel) Hcf Hn) as (r & E & Hr); [lia|].
    rewrite E. cbn [mbind option_bind]. by rewrite (proj2 Hr Hf).
  - destruct Hc as (-> & Hnz & Hc). rewrite (proj2 (Z.eqb_neq e 0)) by done.
    destruct (Hnm e ltac:(by left)) as [Hce Hle].
    destruct (strcmp_spec m (d_name m e) name (nm e) l (S fuel) Hce Hn) as (r & E & Hr); [lia|].
    rewrite E. cbn [mbind option_bind]. rewrite (proj2 (Z.eqb_neq r 0)).
    2: { intros E0. apply (Hne e); [by left|]. by apply Hr. }
    rewrite (IH fuel (e + 64) f l2); try done.
    + unfold link_addr. rewrite last_cons. by destruct (last l1).
    + intros g Hg. destruct (Hnm g ltac:(simpl; by right)) as [? Hlg]. simpl in Hlg. split; [done|lia].
    + intros g Hg. apply Hne. by right.
Qed.

Definition remove_bucket B (b : Z) (es : list Z) : Z -> list Z := <[b := es]> B.

Lemma remove_bucket_sub B b l1 f l2 c e :
  B b = l1 ++ f :: l2 -> e ∈ remove_bucket B b (l1 ++ l2) c -> e ∈ B c.
Proof.
  intros Eb. unfold remove_bucket. destruct (decide (c = b)) as [->|Hne].
  - rewrite fn_lookup_insert, Eb. set_solver.
  - by rewrite fn_lookup_insert_ne.
Qed.

Lemma last_cached B b l1 f l2 p :
  0 <= b < DENTRY_HASH_SIZE -> B b = l1 ++ f :: l2 -> last l1 = Some p -> p ∈ B b /\ cached B p.
Proof.
  intros Hb Eb Hp%last_Some_elem_of. assert (p ∈ B b) by (rewrite Eb; set_solver). split; [done|by exists b].
Qed.

(** The bucket the entry leaves. *)
Lemma unlink_chain_same m B nm b l1 f l2 :
  dcache_ok m B nm -> 0 <= b < DENTRY_HASH_SIZE -> B b = l1 ++ f :: l2 ->
  let m' := store 8 m (link_addr (bucket_addr b) l1) (d_hash_next m f) in
  lchain 64 m' (load 8 m' (bucket_addr b)) (l1 ++ l2).
Proof.
  intros Hd Hb Eb m'. pose proof (dk_names _ _ _ Hd) as Hn.
  pose proof (dk_chain _ _ _ Hd b Hb) as Hc. pose proof (dk_nodup _ _ _ Hd b Hb) as Hnd. rewrite Eb in Hc, Hnd.
  assert (lchain 64 m (d_hash_next m f) l2) as Hc2 by (apply (lchain_unlink 64 m _ l1 f l2 Hc)).
  assert (forall g, g ∈ l1 ++ l2 -> cached B g) as Hcg by (intros g Hg; exists b; split; [done|]; rewrite Eb; set_solver).
  unfold m'. clear m'. destruct l1 as [|a l1' _] using rev_ind.
  - unfold link_addr. simpl. rewrite load8_store8 by apply load8_range.
    eapply lchain_agree; [|exact Hc2]. intros g Hg. apply agree_store. intros x Hx Hr.
    apply (bucket_word_table b x Hb) in Hr. revert Hr. apply (dentry_not_table g); [by apply Hn, Hcg|].
    unfold in_range, sizeof_dentry in *. lia.
  - unfold link_addr in *. rewrite last_snoc in *. assert (cached B a) as Hca by (apply Hcg; set_solver).
    rewrite load_store_ne.
    2: { destruct (no_mem _ _ _ Hn a Hca) as (_ & _ & Ho). unfold bucket_addr, sizeof_dentry, DENTRY_HASH_SIZE in *. lia. }
    rewrite <- app_assoc in *. simpl in *.
    apply (lchain_relink 64 m _ l1' a (f :: l2) l2); [apply load8_range|done| |done].
    intros g Hg. destruct (no_apart _ _ _ Hn g a) as [->|Hap]; [apply Hcg; set_solver|done| |].
    + exfalso. apply NoDup_app in Hnd as (_ & Hd1 & [Hd2 _]%NoDup_cons). set_solver.
    + unfold disjoint_dentries, sizeof_dentry in Hap. lia.
Qed.

(** The other buckets. *)
Lemma unlink_chain_other m B nm b l1 f l2 c :
  dcache_ok m B nm -> 0 <= b < DENTRY_HASH_SIZE -> 0 <= c < DENTRY_HASH_SIZE -> c <> b -> B b = l1 ++ f :: l2 ->
  let m' := store 8 m (link_addr (bucket_addr b) l1) (d_hash_next m f) in
  lchain 64 m' (load 8 m' (bucket_addr c)) (B c).
Proof.
  intros Hd Hb Hcr Hne Eb m'. pose proof (dk_names _ _ _ Hd) as Hn.
  assert (load 8 m' (bucket_addr c) = load 8 m (bucket_addr c)) as ->.
  { unfold m', link_addr. rewrite load_store_ne; [done|]. destruct (last l1) as [p|] eqn:E.
    - destruct (no_mem _ _ _ Hn p) as (_ & _ & Ho); [by destruct (last_cached B b l1 f l2 p Hb Eb E)|].
      unfold bucket_addr, sizeof_dentry, DENTRY_HASH_SIZE in *. lia.
    - unfold bucket_addr. lia. }
  eapply lchain_agree; [|by apply (dk_chain _ _ _ Hd)]. intros g Hg. apply agree_store.
  intros x Hx Hr. assert (cached B g) as Hcg by (by exists c). unfold link_addr in Hr.
  destruct (last l1) as [p|] eqn:E.
  - destruct (last_cached B b l1 f l2 p Hb Eb E) as [Hp Hcp].
    destruct (no_apart _ _ _ Hn g p Hcg Hcp) as [->|Hap]; [by apply Hne, (dk_once _ _ _ Hd c b p)|].
    unfold disjoint_dentries, sizeof_dentry, in_range in *. lia.
  - apply (bucket_word_table b x Hb) in Hr. revert Hr. apply (dentry_not_table g); [by apply Hn|].
    unfold in_range, sizeof_dentry in *. lia.
Qed.

(** Relinking around one entry of a bucket. *)
Lemma unlink_ok m B nm b l1 f l2 :
  dcache_ok m B nm -> 0 <= b < DENTRY_HASH_SIZE -> B b = l1 ++ f :: l2 ->
  let m' := store 8 m (link_addr (bucket_addr b) l1) (d_hash_next m f) in
  dcache_ok m' (remove_bucket B b (l1 ++ l2)) nm /\ agree (fun x => ~ cache_byte B x) m m'.
Proof.
  intros Hd Hb Eb m'. pose proof (dk_nodup _ _ _ Hd b Hb) as Hnd. rewrite Eb in Hnd.
  assert (agree (fun x => ~ cache_byte B x) m m') as Hag.
  { apply agree_store. intros x Hx Hr. apply Hx. unfold link_addr in Hr. destruct (last l1) as [p|] eqn:E.
    - right. exists p. split; [by destruct (last_cached B b l1 f l2 p Hb Eb E)|done].
    - left. by apply (bucket_word_table b). }
  split; [split|done].
  - apply (names_ok_sub m' B); [apply (names_ok_agree m); [apply Hd|done]|].
    intros e (c & Hcr & He). exists c. split; [done|]. by apply (remove_bucket_sub B b l1 f l2).
  - intros c Hcr. unfold remove_bucket. destruct (decide (c = b)) as [->|Hne].
    + rewrite fn_lookup_insert. by apply (unlink_chain_same m B nm b l1 f l2).
    + rewrite fn_lookup_insert_ne by done. by apply (unlink_chain_other m B nm b l1 f l2 c).
  - intros c d e Hcr Hdr He1 He2. apply (dk_once _ _ _ Hd c d e); try done; by eapply remove_bucket_sub.
  - intros c Hcr. unfold remove_bucket. destruct (decide (c = b)) as [->|Hne].
    + rewrite fn_lookup_insert. apply NoDup_app in Hnd as (? & Hd1 & [_ ?]%NoDup_cons).
      apply NoDup_app. split_and!; [done|set_solver|done].
    + rewrite fn_lookup_insert_ne by done. by apply (dk_nodup _ _ _ Hd).
Qed.

(** ** Adding twice *)

(** A bucket whose only entry points at itself is searched for ever. *)
Lemma find_entry_loop m e name l ln fuel :
  e <> 0 -> load 8 m (e + 64) = e -> cstr m (d_name m e) ln -> cstr m name l -> l <> ln ->
  find_entry fuel m e name = None.
Proof.
  intros Hz Hl Hne Hn Hd. induction fuel as [|fuel IH]; [done|]. cbn [find_entry].
  rewrite (proj2 (Z.eqb_neq e 0)) by done. destruct (strcmp (S fuel) m (d_name m e) name) as [r|] eqn:E; [|done].
  cbn [mbind option_bind]. apply (strcmp_sound _ _ _ _ ln l) in E; [|done|done].
  rewrite (proj2 (Z.eqb_neq r 0)) by naive_solver. unfold d_hash_next. by rewrite Hl.
Qed.

(** ** Initialisation *)

Lemma init_loop_zero bs : forall m c,
  (Z.of_nat c ∈ map Z.of_nat bs \/ load 8 m (bucket_addr (Z.of_nat c)) = 0) ->
  load 8 (fold_left (fun m i => store 8 m (bucket_addr (Z.of_nat i)) 0) bs m) (bucket_addr (Z.of_nat c)) = 0.
Proof.
  induction bs as [|b bs IH]; intros m c Hc; simpl.
  - destruct Hc as [Hc|]; [set_solver|done].
  - apply IH. destruct (decide (c = b)) as [->|Hne].
    + right. apply load8_store8. lia.
    + destruct Hc as [Hc|Hc].
      * left. simpl in Hc. apply elem_of_cons in Hc as [E|]; [lia|done].
      * right. rewrite load_store_ne; [done|]. unfold bucket_addr. lia.
Qed.

Lemma cached_nil e : ~ cached (fun _ => []) e.
Proof. intros (b & _ & Hb%elem_of_nil). done. Qed.

Lemma dcache_init_ok m nm : dcache_ok (dcache_init m) (fun _ => []) nm.
Proof.
  split; [split|..]; try (intros; exfalso; by eapply cached_nil); try set_solver.
  - intros b Hb. simpl. replace b with (Z.of_nat (Z.to_nat b)) by lia. apply init_loop_zero. left.
    apply list_elem_of_fmap. exists (Z.to_nat b). split; [done|]. apply elem_of_seq. lia.
  - intros. apply NoDup_nil_2.
Qed.
End Cache.
