(* ===== verification/VfsClaims.v ===== *)
(** * The virtual file system: main theorems *)
From S2P Require Import Prelude Memory Chain PageAlloc Slab SlabProofs SlabHeap SlabSpec Pmm KmallocSpec.
From S2P Require Import Buddy BuddyProofs BuddySpec HeapClaims Klib KlibSpec Lists Vfs DcacheSpec.
Import Slab Pmm Klib Dcache Vfs.

(** ** The dentry cache *)

Section DcacheClaims.
Context `{VfsLinker}.

Implicit Types (m : mem) (B : Z -> list Z) (nm : Z -> list Z) (e : Z).

(** [dcache_lookup] terminates and returns the first dentry of the hash bucket
    of (parent, name) that has the name; it does not look at the parent of the
    dentry it finds. *)
Theorem dcache_lookup_correct fuel m B nm parent name l :
  dcache_ok m B nm -> parent <> 0 -> name <> 0 -> cstr m name l -> (length l < fuel)%nat ->
  (forall e, e ∈ B (hash_name (parent_ino m parent) l) ->
     (length (nm e) + length (B (hash_name (parent_ino m parent) l)) < fuel)%nat) ->
  dcache_lookup fuel m parent name =
    Some (first_named nm l (B (hash_name (parent_ino m parent) l))).
Proof. apply dcache_lookup_spec. Qed.

(** C27. A dentry that was just added is found: [dcache_add] puts it in front of
    its bucket, keeps the other entries of the cache and all memory but the
    table and the link word, and a lookup of its name in its directory returns
    it. *)
Theorem dcache_add_lookup fuel m B nm e :
  dcache_ok m B nm -> addable m B nm e -> (length (nm e) < fuel)%nat ->
  exists m', dcache_add fuel e m = Some m' /\
    dcache_ok m' (add_entry B (bucket_of m nm e) e) nm /\
    agree (fun x => ~ table_byte x /\ ~ link_byte e x) m m' /\
    (forall fuel' parent name, parent <> 0 -> name <> 0 -> cstr m' name (nm e) ->
       parent_ino m' parent = parent_ino m (d_parent m e) -> (length (nm e) < fuel')%nat ->
       (forall f, f ∈ add_entry B (bucket_of m nm e) e (bucket_of m nm e) ->
          (length (nm f) + length (B (bucket_of m nm e)) + 1 < fuel')%nat) ->
       dcache_lookup fuel' m' parent name = Some e).
Proof.
  intros Hd Ha Hf. destruct (dcache_add_spec fuel m B nm e Hd Ha Hf) as (m' & E & Hd' & Hag).
  exists m'. split_and!; try done. intros fuel' parent name Hp Hn Hc Hino Hf' Hfs.
  assert (hash_name (parent_ino m' parent) (nm e) = bucket_of m nm e) as Eb by (rewrite Hino; done).
  assert (add_entry B (bucket_of m nm e) e (bucket_of m nm e) = e :: B (bucket_of m nm e)) as El
    by (unfold add_entry; by rewrite fn_lookup_insert).
  rewrite (dcache_lookup_spec fuel' m' _ nm parent name (nm e) Hd' Hp Hn Hc Hf').
  - rewrite Eb, El. simpl. by rewrite decide_True.
  - rewrite Eb. intros f Hfin. specialize (Hfs f Hfin). rewrite El in *. simpl in *. lia.
Qed.

Lemma split_first_named nm l es e :
  e ∈ es -> nm e = l ->
  exists l1 f l2, es = l1 ++ f :: l2 /\ nm f = l /\ (forall g, g ∈ l1 -> nm g <> l).
Proof.
  intros He Hn. induction es as [|g es IH]; [set_solver|].
  destruct (decide (nm g = l)) as [Hg|Hg].
  - exists [], g, es. set_solver.
  - apply elem_of_cons in He as [->|He]; [done|]. destruct (IH He) as (l1 & f & l2 & -> & ? & ?).
    exists (g :: l1), f, l2. set_solver.
Qed.

(** [dcache_remove] of a cached dentry takes one dentry out of its bucket and
    keeps the others: the first one with the same name, which is the dentry
    itself when the names in the bucket are distinct. *)
Theorem dcache_remove_correct fuel m B nm e :
  dcache_ok m B nm -> e ∈ B (bucket_of m nm e) ->
  (forall f, f ∈ B (bucket_of m nm e) ->
     (length (nm f) + length (B (bucket_of m nm e)) < fuel)%nat) ->
  exists m' l1 f l2, dcache_remove fuel e m = Some m' /\
    B (bucket_of m nm e) = l1 ++ f :: l2 /\ nm f = nm e /\ (forall g, g ∈ l1 -> nm g <> nm e) /\
    dcache_ok m' (remove_bucket B (bucket_of m nm e) (l1 ++ l2)) nm /\
    agree (fun x => ~ cache_byte B x) m m' /\
    ((forall g, g ∈ B (bucket_of m nm e) -> nm g = nm e -> g = e) -> f = e).
Proof.
  intros Hd He Hf. set (b := bucket_of m nm e) in *.
  assert (0 <= b < DENTRY_HASH_SIZE) as Hb by apply hash_name_range.
  assert (cached B e) as Hce by (by exists b). pose proof (dk_names _ _ _ Hd) as Hn.
  destruct (split_first_named nm (nm e) (B b) e He eq_refl) as (l1 & f & l2 & El & Hnf & Hl1).
  exists (store 8 m (link_addr (bucket_addr b) l1) (d_hash_next m f)), l1, f, l2.
  destruct (unlink_ok m B nm b l1 f l2 Hd Hb El) as [Hd' Hag].
  split_and!; try done.
  - unfold dcache_remove. destruct (no_mem _ _ _ Hn e Hce) as (Hpos & _). rewrite (proj2 (Z.eqb_neq e 0)) by lia.
    rewrite (bucket_spec fuel m _ _ (nm e)); [|by apply (no_name _ _ _ Hn)|specialize (Hf e He); lia].
    cbn [mbind option_bind]. fold (bucket_of m nm e). fold b.
    apply (remove_entry_spec m nm (d_name m e) (nm e) l1 fuel (bucket_addr b) f l2); try done.
    + by apply (no_name _ _ _ Hn).
    + rewrite <- El. by apply (dk_chain _ _ _ Hd).
    + intros g Hg. assert (g ∈ B b) as Hgb by (rewrite El; set_solver). split.
      * apply (no_name _ _ _ Hn). by exists b.
      * specialize (Hf g Hgb). rewrite El, length_app in Hf. simpl in Hf. lia.
  - intros Hu. apply Hu; [rewrite El; set_solver|done].
Qed.

(** Adding a dentry that is already first in its bucket, as [path_walk] does
    with a dentry that [alloc_dentry] has cached, links it to itself: looking
    for any other name of that bucket never terminates. *)
Theorem dcache_double_add_diverges fuel m B nm e :
  dcache_ok m B nm -> head (B (bucket_of m nm e)) = Some e -> (length (nm e) < fuel)%nat ->
  exists m', dcache_add fuel e m = Some m' /\
    forall fuel' parent name l, parent <> 0 -> name <> 0 -> cstr m' name l -> l <> nm e ->
      hash_name (parent_ino m' parent) l = bucket_of m nm e ->
      dcache_lookup fuel' m' parent name = None.
Proof.
  intros Hd Hh Hf. set (b := bucket_of m nm e) in *.
  assert (0 <= b < DENTRY_HASH_SIZE) as Hb by apply hash_name_range.
  assert (e ∈ B b) as He by (destruct (B b); [done|injection Hh as ->; by left]).
  assert (cached B e) as Hce by (by exists b). pose proof (dk_names _ _ _ Hd) as Hn.
  destruct (no_mem _ _ _ Hn e Hce) as (Hpos & Hfit & Hout). unfold sizeof_dentry in *.
  pose proof (dk_chain _ _ _ Hd b Hb) as Hc. destruct (B b) as [|e' es] eqn:Eb; [done|]. injection Hh as ->.
  destruct Hc as (Hhead & _ & _).
  unfold dcache_add. rewrite (proj2 (Z.eqb_neq e 0)) by lia.
  rewrite (bucket_spec fuel m _ _ (nm e)); [|by apply (no_name _ _ _ Hn)|done].
  cbn [mbind option_bind]. fold (bucket_of m nm e). fold b. rewrite Hhead.
  set (m' := store 8 (store 8 m (e + 64) e) (bucket_addr b) e). exists m'. split; [done|].
  assert (agree (fun x => ~ cache_byte B x) m m') as Hag.
  { unfold m'. etransitivity; apply agree_store; intros x Hx Hr; apply Hx; [right; by exists e|left].
    by apply (bucket_word_table b). }
  intros fuel' parent name l Hp Hnm Hcn Hl Hbk. unfold dcache_lookup.
  rewrite !(proj2 (Z.eqb_neq _ 0)) by done. cbn [orb].
  destruct (dentry_ht_bucket fuel' m' parent name) as [b'|] eqn:Ek; [|done]. cbn [mbind option_bind].
  apply (bucket_sound fuel' m' parent name l) in Ek; [|done]. rewrite Hbk in Ek. subst b'.
  assert (load 8 m' (bucket_addr b) = e) as -> by (unfold m'; apply load8_store8; lia).
  apply (find_entry_loop m' e name l (nm e)); try done; [lia| |].
  - unfold m'. rewrite load_store_ne by (unfold bucket_addr, DENTRY_HASH_SIZE in *; lia). apply load8_store8. lia.
  - apply (no_name _ _ _ (names_ok_agree m m' B nm Hn Hag) e Hce).
Qed.
End DcacheClaims.

(** ** Reference counts *)

Lemma s32_mod x : s32 (x mod 256 ^ Z.of_nat 4) = s32 x.
Proof.
  unfold swrap. change (256 ^ Z.of_nat 4) with (2 ^ 32). rewrite Zplus_mod_idemp_l. done.
Qed.

Lemma s32_shift x n : - 2 ^ 31 <= s32 x + n < 2 ^ 31 -> s32 (x + n) = s32 x + n.
Proof.
  intros Hr. rewrite <- (swrap_small 32 (s32 x + n)) by lia. unfold swrap.
  f_equal. change (32 - 1) with 31.
  replace ((x + 2 ^ 31) mod 2 ^ 32 - 2 ^ 31 + n + 2 ^ 31) with ((x + 2 ^ 31) mod 2 ^ 32 + n) by lia.
  rewrite Zplus_mod_idemp_l. f_equal. lia.
Qed.

Lemma add_int_same m a n :
  - 2 ^ 31 <= s32 (load 4 m a) + n < 2 ^ 31 -> s32 (load 4 (add_int m a n) a) = s32 (load 4 m a) + n.
Proof. intros Hr. unfold add_int. rewrite load_store_eq, s32_mod. by apply s32_shift. Qed.

Lemma add_int_ne k m a n b :
  b + Z.of_nat k <= a \/ a + 4 <= b -> load k (add_int m a n) b = load k m b.
Proof. intros Hd. unfold add_int. apply load_store_ne. lia. Qed.

(** Evaluates loads over stores at disjoint or equal addresses. *)
Ltac mem_simp :=
  repeat first [ rewrite load_store_ne by lia | rewrite add_int_ne by lia | rewrite load8_store8 by lia ].

Section Objects.
Context `{Hhdm} `{Linker} {P : Type} `{!PageAllocator P}.

Implicit Types h : heap P.

Lemma repr_store h F A i x n a v :
  heap_repr h F A -> A i x -> x <= a -> a + Z.of_nat n <= x + nth i slab_sizes 0 ->
  heap_repr (set_mem h (store n (h_mem h) a v)) F A.
Proof.
  intros Hr Hx Ha Hn. apply (repr_client h F A i x); [done|done|]. apply agree_store.
  intros y Hy Hin. apply Hy. unfold in_range in *. lia.
Qed.

(** [repr_store] for a heap whose memory was written before. *)
Lemma repr_store' h m F A i x n a v :
  heap_repr (set_mem h m) F A -> A i x -> x <= a -> a + Z.of_nat n <= x + nth i slab_sizes 0 ->
  heap_repr (set_mem h (store n m a v)) F A.
Proof. intros Hr. apply (repr_store (set_mem h m) F A i x n a v Hr). Qed.

Lemma kmalloc_from_class fuel h h' f :
  slab_alloc 2 h = Some (h', f) -> f <> 0 -> kmalloc fuel sizeof_file h = Some (h', f).
Proof.
  intros E Hf. unfold kmalloc, SLAB_THRESHOLD, sizeof_file. simpl. unfold slab_alloc_size. simpl. rewrite E.
  cbn [mbind option_bind]. by rewrite (proj2 (Z.eqb_neq f 0)).
Qed.

Lemma slab_alloc_repr i h F A h' f :
  heap_repr h F A -> (i < NUM_SLAB_SIZES)%nat -> slab_alloc i h = Some (h', f) -> f <> 0 ->
  exists F', heap_repr h' F' (fun j x => A j x \/ (j = i /\ x = f)) /\
    (forall j x, A j x -> apart j x i f /\ kept j x (h_mem h) (h_mem h')).
Proof.
  intros (Ls & fl & Hh & HA) Hi E Hf.
  destruct (slab_alloc_spec i h F Ls fl Hh Hi) as (h2 & p & E2 & [(-> & -> & _)|(F' & Ls' & fl' & Hp)]).
  - rewrite E in E2. injection E2 as _ ->. done.
  - rewrite E in E2. injection E2 as -> ->. exists F'.
    destruct (repr_alloc h F A Ls fl i h2 p F' Ls' fl' Hh HA Hi Hp) as (? & _ & _ & ?). done.
Qed.

Lemma kfree_repr i x h F A :
  heap_repr h F A -> A i x -> obj_magic (h_mem h) x <> FREED_PATTERN ->
  exists h', kfree x h = Some (h', Freed) /\
    heap_repr h' F (fun j y => A j y /\ y <> x) /\
    (forall j y, A j y -> y <> x -> kept j y (h_mem h) (h_mem h')).
Proof.
  intros (Ls & fl & Hh & HA) Hx Hne. pose proof Hx as [Hi Hl]%HA.
  pose proof (kfree_slab_spec h F Ls fl i x Hh Hi Hl) as Hk.
  destruct (Z.eqb_spec (obj_magic (h_mem h) x) FREED_PATTERN); [done|].
  destruct Hk as (h' & Ls' & fl' & Ek & Hp). exists h'. split; [done|].
  by apply (repr_free h F A Ls fl i x h' Ls' fl').
Qed.
End Objects.

(** A mode has at most one of the seven file types. *)
Lemma file_type_unique mode :
  (length (filter Is_true (map (fun is_type => is_type mode)
    [IS_LINK; IS_REGULAR_FILE; IS_DIRECTORY; IS_CHAR_DEVICE; IS_BLOCK_DEVICE; IS_FIFO; IS_SOCKET])) <= 1)%nat.
Proof.
  cbn [map]. unfold IS_LINK, IS_REGULAR_FILE, IS_DIRECTORY, IS_CHAR_DEVICE, IS_BLOCK_DEVICE, IS_FIFO, IS_SOCKET.
  generalize (Z.land mode INODE_FILE_TYPE_MASK) as ty. intros ty.
  repeat match goal with |- context [ty =? ?c] => destruct (Z.eqb_spec ty c) as [->|_]; [vm_compute; lia|] end.
  vm_compute. lia.
Qed.

Section VfsClaims.
Context `{Hhdm} `{Linker} `{VfsLinker} {P : Type} `{!PageAllocator P} `{!FileSystems P}.

Implicit Types s : vfs P.

(** The root directory [d] with its inode [ino], and the caller's variable
    [file_out], lie in objects of the heap. *)
Record root_ok s (F : Z -> Prop) (A : nat -> Z -> Prop) (d ino file_out : Z) : Prop := {
  ro_heap : heap_repr (vf_heap s) F A;
  ro_root : root_dentry s = d;
  ro_d : exists i, A i d /\ sizeof_dentry <= nth i slab_sizes 0;
  ro_ino : exists i, A i ino /\ sizeof_inode <= nth i slab_sizes 0;
  ro_out : exists i o, A i o /\ o <> d /\ o <> ino /\ o <= file_out /\ file_out + 8 <= o + nth i slab_sizes 0;
  ro_ne : d <> ino;
  ro_words : 0 < d < 2 ^ 64 /\ 0 < ino < 2 ^ 64 /\ ino <> FREED_PATTERN /\ file_out <> 0;
  ro_link : d_inode (vf_mem s) d = ino;
  ro_dir : IS_DIRECTORY (i_mode (vf_mem s) ino) = true;
  ro_ops : i_f_ops (vf_mem s) ino = 0;
  ro_counts : - 2 ^ 31 <= d_refcount (vf_mem s) d < 2 ^ 31 - 2 /\ - 2 ^ 31 <= i_refcount (vf_mem s) ino < 2 ^ 31 - 1;
}.

(** The memory [vfs_open] leaves, from the memory [m] after the allocation of
    the file [f]. *)
Definition opened (m : mem) (f d ino flags file_out : Z) : mem :=
  let m := store 8 m (f + 8) d in
  let m := store 8 m f ino in
  let m := store 8 m (f + 24) 0 in
  let m := store 4 m (f + 32) flags in
  let m := store 4 m (f + 36) 0 in
  let m := store 8 m (f + 48) 0 in
  let m := store 8 m (f + 40) 0 in
  let m := d_get m d in
  let m := i_get m ino in
  store 8 m file_out f.

Lemma path_walk_root fuel abs_path wd s :
  abs_path <> 0 -> strcmp fuel (vf_mem s) abs_path lit_slash = Some 0 ->
  path_walk fuel abs_path wd s =
    Some (set_vf_mem s (d_get (vf_mem s) (root_dentry s)), root_dentry s).
Proof. intros Hp E. unfold path_walk. rewrite (proj2 (Z.eqb_neq abs_path 0)) by done. by rewrite E. Qed.

(** The file, the dentry, the inode and the caller's variable share no byte. *)
Definition sep4 (f d ino out : Z) : Prop :=
  (d + 72 <= ino \/ ino + 88 <= d) /\ (d + 72 <= f \/ f + 64 <= d) /\ (ino + 88 <= f \/ f + 64 <= ino) /\
  (out + 8 <= d \/ d + 72 <= out) /\ (out + 8 <= ino \/ ino + 88 <= out) /\ (out + 8 <= f \/ f + 64 <= out).

(** Allocating the file keeps the root directory and its inode. *)
Lemma root_alloc s F A d ino file_out h' f :
  root_ok s F A d ino file_out ->
  slab_alloc 2 (set_mem (vf_heap s) (d_get (vf_mem s) d)) = Some (h', f) -> f <> 0 ->
  sep4 f d ino file_out /\
  (exists F', heap_repr h' F' (fun j x => A j x \/ (j = 2%nat /\ x = f))) /\
  (forall n x, 0 <= x -> x + Z.of_nat n <= 88 -> load n (h_mem h') (ino + x) = load n (vf_mem s) (ino + x)) /\
  (forall n x, 0 <= x -> x + Z.of_nat n <= 56 -> load n (h_mem h') (d + x) = load n (vf_mem s) (d + x)) /\
  d_refcount (h_mem h') d = d_refcount (vf_mem s) d + 1.
Proof.
  intros R Ealloc Hf. destruct R as [Rh Rr (i & Hi & Hsd) (j & Hj & Hsi) (k & o & Hk & Hod & Hoi & Ho1 & Ho2) Rne Rw Rl Rdir Rops Rc].
  unfold sizeof_dentry, sizeof_inode in *.
  assert (heap_repr (set_mem (vf_heap s) (d_get (vf_mem s) d)) F A) as Rh1.
  { unfold d_get, add_int. apply (repr_store _ _ _ i d); [done|done|lia|lia]. }
  destruct (slab_alloc_repr 2 _ F A h' f Rh1 ltac:(unfold NUM_SLAB_SIZES; simpl; lia) Ealloc Hf) as (F' & Rh2 & Hold).
  pose proof (repr_apart _ _ _ i d j ino Rh Hi Hj Rne) as Apdi.
  pose proof (repr_apart _ _ _ k o i d Rh Hk Hi Hod) as Apod. pose proof (repr_apart _ _ _ k o j ino Rh Hk Hj Hoi) as Apoi.
  destruct (Hold i d Hi) as [Apdf Kd]. destruct (Hold j ino Hj) as [Apif Ki]. destruct (Hold k o Hk) as [Apof _].
  unfold apart in *. change (nth 2 slab_sizes 0) with 64 in *. cbn [h_mem set_mem] in Kd, Ki. split_and!.
  - unfold sep4. split_and!; [clear - Apdi Hsd Hsi|clear - Apdf Hsd|clear - Apif Hsi|clear - Apod Hsd Ho1 Ho2
      |clear - Apoi Hsi Ho1 Ho2|clear - Apof Ho1 Ho2]; lia.
  - by exists F'.
  - intros n x Hx Hn. rewrite (kept_load j ino _ _ n x Ki) by lia. unfold d_get. rewrite add_int_ne; [done|lia].
  - intros n x Hx Hn. rewrite (kept_load i d _ _ n x Kd) by lia. unfold d_get. rewrite add_int_ne; [done|lia].
  - unfold d_refcount in *. rewrite (kept_load i d _ _ 4 56 Kd) by lia. unfold d_get. apply add_int_same. lia.
Qed.

(** The heap after the writes of [vfs_open]. *)
Lemma opened_repr s F A d ino file_out h' F' f flags :
  root_ok s F A d ino file_out -> heap_repr h' F' (fun j x => A j x \/ (j = 2%nat /\ x = f)) ->
  heap_repr (set_mem h' (opened (h_mem h') f d ino flags file_out)) F' (fun j x => A j x \/ (j = 2%nat /\ x = f)).
Proof.
  intros [_ _ (i & Hi & Hsd) (j & Hj & Hsi) (k & o & Hk & _ & _ & Ho1 & Ho2) _ _ _ _ _ _] Rh.
  unfold sizeof_dentry, sizeof_inode, opened, d_get, i_get, add_int in *.
  apply (repr_store' _ _ _ _ k o); [|by left|lia|lia].
  apply (repr_store' _ _ _ _ j ino); [|by left|lia|lia].
  apply (repr_store' _ _ _ _ i d); [|by left|lia|lia].
  repeat (apply (repr_store' _ _ _ _ 2 f); [|by right|lia|change (nth 2 slab_sizes 0) with 64; lia]).
  destruct h'. exact Rh.
Qed.

(** What the written memory holds. *)
Lemma opened_fields m f d ino flags out :
  sep4 f d ino out -> 0 <= d < 2 ^ 64 -> 0 <= ino < 2 ^ 64 -> 0 <= f < 2 ^ 64 ->
  - 2 ^ 31 <= d_refcount m d < 2 ^ 31 - 1 -> - 2 ^ 31 <= i_refcount m ino < 2 ^ 31 - 1 ->
  let m' := opened m f d ino flags out in
  load 8 m' out = f /\ f_inode m' f = ino /\ f_dentry m' f = d /\ f_offset m' f = 0 /\ f_f_ops m' f = 0 /\
  d_refcount m' d = d_refcount m d + 1 /\ i_refcount m' ino = i_refcount m ino + 1.
Proof.
  intros (? & ? & ? & ? & ? & ?) Hd Hi Hf Hcd Hci m'. unfold m', opened, d_get, i_get.
  unfold f_inode, f_dentry, f_offset, f_f_ops, d_refcount, i_refcount in *.
  split_and!; try (mem_simp; done).
  - mem_simp. rewrite add_int_same; mem_simp; [done|lia].
  - mem_simp. rewrite add_int_same; mem_simp; [done|lia].
Qed.

Lemma open_root_eval fuel s F A d ino file_out abs_path wd flags h' f :
  root_ok s F A d ino file_out -> abs_path <> 0 ->
  strcmp fuel (vf_mem s) abs_path lit_slash = Some 0 ->
  slab_alloc 2 (set_mem (vf_heap s) (d_get (vf_mem s) d)) = Some (h', f) -> f <> 0 -> 0 <= f < 2 ^ 64 ->
  vfs_open fuel abs_path wd flags file_out s =
    Some (set_vf_mem (set_vf_heap s h') (opened (h_mem h') f d ino flags file_out), VFS_OK).
Proof.
  intros R Hp Hcmp Ealloc Hf Hfw.
  destruct (root_alloc s F A d ino file_out h' f R Ealloc Hf) as ((? & ? & ? & ? & ? & ?) & _ & Li & Ld & _).
  destruct R as [_ Rr _ _ _ _ (Hdw & Hiw & _ & Hfo) Rl Rdir Rops _].
  unfold vfs_open. rewrite (proj2 (Z.eqb_neq abs_path 0)) by done.
  rewrite (proj2 (Z.eqb_neq file_out 0)) by done. cbn [orb].
  rewrite (path_walk_root fuel abs_path wd s Hp Hcmp), Rr. cbn [mbind option_bind].
  rewrite (proj2 (Z.eqb_neq d 0)) by lia.
  unfold d_inode, i_mode, i_f_ops, vf_mem, set_vf_mem, set_vf_heap in *. cbn [vf_heap set_mem h_mem] in *.
  unfold d_get. rewrite (add_int_ne 8) by lia. rewrite Rl. rewrite (add_int_ne 4) by lia.
  rewrite Rdir. cbn [negb]. unfold kmalloc_v. cbn [vf_heap]. fold (d_get (h_mem (vf_heap s)) d).
  rewrite (kmalloc_from_class fuel _ h' f Ealloc Hf). cbn [mbind option_bind].
  rewrite (proj2 (Z.eqb_neq f 0)) by done. unfold set_vf_heap, i_f_ops, f_inode, f_f_ops. cbn [vf_heap registered_fs root_dentry].
  assert (load 8 (store 8 (h_mem h') (f + 8) d) (d + 8) = ino) as -> by (mem_simp; by rewrite Ld by lia).
  set (m6 := store 8 (store 4 _ (f + 36) 0) (f + 48) 0).
  assert (load 8 m6 (d + 8) = ino) as -> by (unfold m6; mem_simp; by rewrite Ld by lia).
  assert (load 8 m6 (ino + 24) = 0) as -> by (unfold m6; mem_simp; by rewrite Li by lia).
  assert (load 8 (add_int (store 8 m6 (f + 40) 0) (d + 56) 1) f = ino) as -> by (unfold m6; mem_simp; done).
  set (m8 := i_get _ ino). assert (load 8 m8 (f + 40) = 0) as -> by (unfold m8, i_get, m6; mem_simp; done).
  rewrite Z.eqb_refl. cbn [negb andb mbind option_bind]. rewrite Z.eqb_refl. reflexivity.
Qed.

(** Closing a file without a close operation: its object is freed and the two
    reference counts go down. *)
Lemma close_eval s h m F A i j f d ino :
  heap_repr (set_mem h m) F A -> A 2%nat f -> A i d -> A j ino ->
  sizeof_dentry <= nth i slab_sizes 0 -> sizeof_inode <= nth j slab_sizes 0 ->
  d <> ino -> d <> f -> ino <> f -> f <> 0 ->
  f_inode m f = ino -> f_dentry m f = d -> f_f_ops m f = 0 -> ino <> FREED_PATTERN ->
  - 2 ^ 31 < d_refcount m d < 2 ^ 31 -> - 2 ^ 31 < i_refcount m ino < 2 ^ 31 ->
  exists s2, vfs_close f (set_vf_mem (set_vf_heap s h) m) = Some (s2, VFS_OK) /\
    heap_repr (vf_heap s2) F (fun j x => A j x /\ x <> f) /\
    i_refcount (vf_mem s2) ino = i_refcount m ino - 1 /\ d_refcount (vf_mem s2) d = d_refcount m d - 1.
Proof.
  intros Rh Hf Hd Hi Hsd Hsi Hdi Hdf Hif Hf0 E2 E3 E5 Hpat Hc1 Hc2.
  pose proof (repr_apart _ _ _ i d j ino Rh Hd Hi Hdi). pose proof (repr_apart _ _ _ i d 2 f Rh Hd Hf Hdf).
  pose proof (repr_apart _ _ _ j ino 2 f Rh Hi Hf Hif). unfold apart in *. change (nth 2 slab_sizes 0) with 64 in *.
  unfold sizeof_dentry, sizeof_inode, f_inode, f_dentry, f_f_ops, d_refcount, i_refcount in *.
  set (m2 := i_put (d_put m d) ino).
  assert (heap_repr (set_mem h m2) F A) as Rh2.
  { unfold m2, i_put, d_put, add_int. apply (repr_store' _ _ _ _ j ino); [|done|lia|lia].
    apply (repr_store' _ _ _ _ i d); [done|done|lia|lia]. }
  destruct (kfree_repr 2 f (set_mem h m2) F _ Rh2) as (h3 & Ef & Rh3 & Hk3); [done| |].
  { unfold obj_magic. cbn [h_mem set_mem]. unfold m2, i_put, d_put. mem_simp. by rewrite E2. }
  cbn [h_mem set_mem] in Hk3. exists (set_vf_heap s h3). split_and!.
  - unfold vfs_close. rewrite (proj2 (Z.eqb_neq f 0)) by done. unfold vf_mem, set_vf_mem, set_vf_heap, f_f_ops, f_dentry, f_inode.
    cbn [vf_heap set_mem h_mem]. rewrite E5. cbn [Z.eqb negb andb mbind option_bind vf_heap set_mem h_mem].
    rewrite E3. unfold d_put. rewrite (add_int_ne 8) by lia. rewrite E2. fold (d_put m d). fold m2.
    unfold kfree_v. cbn [vf_heap]. unfold set_mem in Ef |- *. cbn [h_pages h_caches] in *. rewrite Ef. done.
  - done.
  - unfold vf_mem. cbn [vf_heap set_vf_heap]. rewrite (kept_load j ino m2 (h_mem h3) 4 56 (Hk3 j ino Hi Hif)) by lia.
    unfold m2, i_put. rewrite add_int_same; unfold d_put; rewrite add_int_ne by lia; lia.
  - unfold vf_mem. cbn [vf_heap set_vf_heap]. rewrite (kept_load i d m2 (h_mem h3) 4 56 (Hk3 i d Hd Hdf)) by lia.
    unfold m2, i_put. rewrite add_int_ne by lia. unfold d_put. rewrite add_int_same by lia. lia.
Qed.

(** C28. Opening and closing the root directory.  With room in the size class of
    [struct file], [vfs_open] of the path "/" returns an open file of the root
    directory at offset 0, and [vfs_close] gives the file back: the heap holds
    the objects it held before and the inode its old reference count.  The
    count of the dentry is one higher than before: the reference [path_walk]
    takes is never dropped. *)
Theorem vfs_open_close_root fuel s F A d ino file_out abs_path wd flags h' f :
  root_ok s F A d ino file_out -> abs_path <> 0 ->
  strcmp fuel (vf_mem s) abs_path lit_slash = Some 0 ->
  slab_alloc 2 (set_mem (vf_heap s) (d_get (vf_mem s) d)) = Some (h', f) -> f <> 0 -> 0 <= f < 2 ^ 64 ->
  exists s1 s2 F', vfs_open fuel abs_path wd flags file_out s = Some (s1, VFS_OK) /\
    (load 8 (vf_mem s1) file_out = f /\ f_inode (vf_mem s1) f = ino /\ f_dentry (vf_mem s1) f = d /\
     f_offset (vf_mem s1) f = 0) /\
    vfs_close f s1 = Some (s2, VFS_OK) /\
    heap_repr (vf_heap s2) F' (fun j x => (A j x \/ (j = 2%nat /\ x = f)) /\ x <> f) /\
    i_refcount (vf_mem s2) ino = i_refcount (vf_mem s) ino /\
    d_refcount (vf_mem s2) d = d_refcount (vf_mem s) d + 1.
Proof.
  intros R Hp Hcmp Ealloc Hf Hfw.
  pose proof (open_root_eval fuel s F A d ino file_out abs_path wd flags h' f R Hp Hcmp Ealloc Hf Hfw) as Eo.
  destruct (root_alloc s F A d ino file_out h' f R Ealloc Hf) as (Hsep & (F' & Rh') & Li & _ & Hcd).
  pose proof (opened_repr s F A d ino file_out h' F' f flags R Rh') as Rh1.
  assert (i_refcount (h_mem h') ino = i_refcount (vf_mem s) ino) as Hci by (unfold i_refcount; by rewrite Li by lia).
  destruct R as [_ Rr (i & Hi & Hsd) (j & Hj & Hsi) _ Rne (Hdw & Hiw & Hpat & Hfo) _ _ _ (Hc1 & Hc2)].
  destruct (opened_fields (h_mem h') f d ino flags file_out Hsep) as (E1 & E2 & E3 & E4 & E5 & E6 & E7); [lia..|].
  revert Eo Rh1 E1 E2 E3 E4 E5 E6 E7. generalize (opened (h_mem h') f d ino flags file_out). intros m1 Eo Rh1 E1 E2 E3 E4 E5 E6 E7.
  destruct Hsep as (? & ? & ? & _).
  destruct (close_eval s h' m1 F' _ i j f d ino Rh1) as (s2 & Ec & Rh2 & Ei & Ed); 
    [by right|by left|by left|done|done|done|lia|lia|done|done|done|done|done|lia|lia|].
  exists (set_vf_mem (set_vf_heap s h') m1), s2, F'. split_and!; try done; lia.
Qed.

(** [vfs_open] refuses exactly the files it is meant to open: a path that
    resolves to anything but a directory gives [VFS_EISDIR], no file is opened
    and the reference [path_walk] took stays. *)
Theorem vfs_open_refuses_files fuel abs_path wd flags file_out s s1 d :
  abs_path <> 0 -> file_out <> 0 -> path_walk fuel abs_path wd s = Some (s1, d) -> d <> 0 ->
  IS_DIRECTORY (i_mode (vf_mem s1) (d_inode (vf_mem s1) d)) = false ->
  vfs_open fuel abs_path wd flags file_out s = Some (s1, VFS_EISDIR).
Proof.
  intros Hp Hf E Hd Hdir. unfold vfs_open. rewrite !(proj2 (Z.eqb_neq _ 0)) by done. cbn [orb].
  rewrite E. cbn [mbind option_bind]. rewrite (proj2 (Z.eqb_neq d 0)) by done. by rewrite Hdir.
Qed.
End VfsClaims.

(** ** Witnesses: the cache *)

Section DcacheDemo.

Definition demo_vfs_linker : VfsLinker :=
  {| dentry_hash_table := 0x10000; lit_slash := 0xffff800000101e50; lit_dotdot := 0; lit_dot := 0; saveptr_addr := 0 |}.
#[local] Existing Instance demo_vfs_linker.

(** Directories with inode numbers 6, 43 and 237 at 0x1000, 0x3000 and 0x7000,
    and a file "a" at 0x5000 in the first; the names "a" and "b" for lookups. *)
Definition demo_dentries : mem :=
  let m := store 8 ∅ (0x1000 + 8) 0x2000 in
  let m := store 8 m 0x2000 6 in
  let m := store 8 m (0x3000 + 8) 0x4000 in
  let m := store 8 m 0x4000 43 in
  let m := store 8 m (0x7000 + 8) 0x8000 in
  let m := store 8 m 0x8000 237 in
  let m := store 8 m 0x5000 0x6000 in
  let m := store 8 m (0x5000 + 16) 0x1000 in
  let m := store 8 m 0x6000 97 in
  store 8 m 0x6010 98.

Definition demo_cache : mem := dcache_init demo_dentries.
Definition demo_name (e : Z) : list Z := [97].

Lemma demo_cstr m a b : b <> 0 -> read8 m a = b -> read8 m (a + 1) = 0 -> cstr m a [b].
Proof.
  intros Hb Ha Hz. apply cstr_cons. split_and!; [done|done|]. split_and!; [by intros i c ?|done|].
  simpl. by rewrite Z.add_0_r.
Qed.

Lemma demo_addable : addable demo_cache (fun _ => []) demo_name 0x5000.
Proof.
  assert (d_name demo_cache 0x5000 = 0x6000) as En by (vm_compute; reflexivity).
  split.
  - unfold dentry_mem, sizeof_dentry. simpl. lia.
  - intros f Hf. destruct (cached_nil f Hf).
  - rewrite En. apply demo_cstr; vm_compute; [congruence|reflexivity|reflexivity].
  - intros x Hx. unfold name_byte in Hx. rewrite En in Hx.
    unfold table_byte, link_byte, in_range, DENTRY_HASH_SIZE, demo_name in *. simpl in *.
    split_and!; [lia|lia|]. intros f Hf. destruct (cached_nil f Hf).
  - intros f x Hf. destruct (cached_nil f Hf).
Qed.

Definition demo_added : option mem := dcache_add 10 0x5000 demo_cache.
Definition demo_added_twice : option mem := m ← demo_added; dcache_add 10 0x5000 m.

Lemma run_eq {A} (r : option mem) (f : mem -> A) m a : r = Some m -> f <$> r = Some a -> f m = a.
Proof. intros ->. by intros [= ->]. Qed.

Lemma demo_added_facts m' :
  demo_added = Some m' ->
  bucket_of m' demo_name 0x5000 = bucket_of demo_cache demo_name 0x5000 /\
  parent_ino m' 0x1000 = 6 /\ cstr m' 0x6000 [97].
Proof.
  intros E. split_and!.
  - apply (run_eq demo_added (fun m => bucket_of m demo_name 0x5000) m' _ E). vm_compute. reflexivity.
  - apply (run_eq demo_added (fun m => parent_ino m 0x1000) m' _ E). vm_compute. reflexivity.
  - apply demo_cstr; [congruence|..].
    + apply (run_eq demo_added (fun m => read8 m 0x6000) m' _ E). vm_compute. reflexivity.
    + apply (run_eq demo_added (fun m => read8 m (0x6000 + 1)) m' _ E). vm_compute. reflexivity.
Qed.

Lemma demo_twice_facts m' m'' :
  demo_added = Some m' -> demo_added_twice = Some m'' ->
  cstr m'' 0x6010 [98] /\ hash_name (parent_ino m'' 0x7000) [98] = bucket_of m' demo_name 0x5000.
Proof.
  intros E E2. destruct (demo_added_facts m' E) as (Eb & _ & _). rewrite Eb. split.
  - apply demo_cstr; [congruence|..].
    + apply (run_eq demo_added_twice (fun m => read8 m 0x6010) m'' _ E2). vm_compute. reflexivity.
    + apply (run_eq demo_added_twice (fun m => read8 m (0x6010 + 1)) m'' _ E2). vm_compute. reflexivity.
  - apply (run_eq demo_added_twice (fun m => hash_name (parent_ino m 0x7000) [98]) m'' _ E2). vm_compute. reflexivity.
Qed.

Lemma dcache_add_witness :
  exists m', demo_added = Some m' /\ dcache_lookup 10 m' 0x1000 0x6000 = Some 0x5000.
Proof.
  destruct (dcache_add_lookup 10 demo_cache (fun _ => []) demo_name 0x5000) as (m' & E & _ & Hag & Hl).
  - apply dcache_init_ok.
  - apply demo_addable.
  - simpl. lia.
  - destruct (demo_added_facts m' E) as (_ & Ei & Hc). exists m'. split; [exact E|]. apply Hl.
    + congruence.
    + congruence.
    + exact Hc.
    + rewrite Ei. vm_compute. reflexivity.
    + simpl. lia.
    + intros f Hf. simpl. lia.
Defined.

(** The cache with the file "a". *)
Lemma demo_cached :
  exists m', demo_added = Some m' /\
    dcache_ok m' (add_entry (fun _ => []) (bucket_of demo_cache demo_name 0x5000) 0x5000) demo_name.
Proof.
  destruct (dcache_add_spec 10 demo_cache (fun _ => []) demo_name 0x5000) as (m' & E & Hd & _).
  - apply dcache_init_ok.
  - apply demo_addable.
  - simpl. lia.
  - exists m'. split; [exact E|exact Hd].
Qed.

Lemma dcache_lookup_witness :
  exists m', demo_added = Some m' /\ dcache_lookup 10 m' 0x1000 0x6000 = Some 0x5000.
Proof.
  destruct demo_cached as (m' & E & Hd). destruct (demo_added_facts m' E) as (Eb & Ei & Hc).
  exists m'. split; [exact E|].
  rewrite (dcache_lookup_correct 10 m' _ demo_name 0x1000 0x6000 [97] Hd).
  - rewrite Ei. vm_compute. reflexivity.
  - congruence.
  - congruence.
  - exact Hc.
  - simpl. lia.
  - rewrite Ei. intros f Hf. vm_compute. lia.
Defined.

Lemma dcache_remove_witness :
  exists m' m'', demo_added = Some m' /\ dcache_remove 10 0x5000 m' = Some m'' /\
    exists B, dcache_ok m'' B demo_name.
Proof.
  destruct demo_cached as (m' & E & Hd). destruct (demo_added_facts m' E) as (Eb & _ & _).
  destruct (dcache_remove_correct 10 m' _ demo_name 0x5000 Hd) as (m'' & l1 & f & l2 & Er & _ & _ & _ & Hd' & _).
  - rewrite Eb. unfold add_entry. rewrite fn_lookup_insert. left.
  - rewrite Eb. unfold add_entry. rewrite fn_lookup_insert. intros f Hf. simpl. lia.
  - exists m', m''. split; [exact E|]. split; [exact Er|]. eexists. exact Hd'.
Defined.

Lemma dcache_double_add_witness :
  exists m' m'', demo_added = Some m' /\ dcache_add 10 0x5000 m' = Some m'' /\
    dcache_lookup 1000 m'' 0x7000 0x6010 = None.
Proof.
  destruct demo_cached as (m' & E & Hd). destruct (demo_added_facts m' E) as (Eb & _ & _).
  destruct (dcache_double_add_diverges 10 m' _ demo_name 0x5000 Hd) as (m'' & E2 & Hl).
  - rewrite Eb. unfold add_entry. rewrite fn_lookup_insert. reflexivity.
  - simpl. lia.
  - exists m', m''. split; [exact E|]. split; [exact E2|].
    assert (demo_added_twice = Some m'') as E3 by (unfold demo_added_twice; rewrite E; exact E2).
    destruct (demo_twice_facts m' m'' E E3) as [Hc Hb].
    apply (Hl 1000%nat 0x7000 0x6010 [98]); [congruence|congruence|exact Hc|unfold demo_name; congruence|exact Hb].
Defined.

(** The parent is part of the hash only: the directory with inode 43 has no file
    "a", but the lookup returns the file of the directory with inode 6. *)
Example dcache_wrong_directory :
  (m ← dcache_add 10 0x5000 demo_cache; d ← dcache_lookup 10 m 0x3000 0x6000; Some (d, d_parent m d)) =
  Some (0x5000, 0x1000).
Proof. vm_compute. reflexivity. Qed.

End DcacheDemo.

(** ** Witnesses: a root directory on the booted machine *)

Section VfsDemo.
#[local] Existing Instance qemu_hhdm.
#[local] Existing Instance demo_linker.
#[local] Existing Instance demo_vfs_linker.

(** No file system is mounted. *)
Definition no_filesystems : FileSystems Buddy.buddy_state :=
  {| call_lookup := fun _ _ _ _ => None; call_open := fun _ _ _ _ => None; call_close := fun _ _ _ _ => None;
     call_read := fun _ _ _ _ _ _ => None; call_write := fun _ _ _ _ _ _ => None; call_lseek := fun _ _ _ _ _ => None |}.
#[local] Existing Instance no_filesystems.

Definition demo_d : Z := 0xffff800000100000 + 7984.
Definition demo_ino : Z := 0xffff800000100000 + 7856.
Definition demo_out : Z := 0xffff800000100000 + 7728.
Definition demo_f : Z := 0xffff800000102000 + 8112.

(** Three objects: the root dentry, its inode, and the caller's data, which holds
    the string "/" at offset 32. *)
Definition demo_objects : option (heap Buddy.buddy_state) :=
  h ← demo_heap; '(h, _) ← slab_alloc 3 h; '(h, _) ← slab_alloc 3 h; '(h, _) ← slab_alloc 3 h; Some h.

Definition demo_root (mode : Z) (h : heap Buddy.buddy_state) : vfs Buddy.buddy_state :=
  let m := store 8 (h_mem h) (demo_d + 8) demo_ino in
  let m := store 4 m (demo_d + 56) 1 in
  let m := store 8 m (demo_ino + 24) 0 in
  let m := store 4 m (demo_ino + 32) mode in
  let m := store 4 m (demo_ino + 56) 1 in
  let m := store 8 m (demo_out + 32) 47 in
  mk_vfs (set_mem h m) 0 demo_d.

Definition demo_objs (i : nat) (x : Z) : Prop := i = 3%nat /\ (x = demo_d \/ x = demo_ino \/ x = demo_out).

Lemma repr_equiv (h : heap Buddy.buddy_state) F A A' :
  (forall i x, A i x <-> A' i x) -> heap_repr h F A -> heap_repr h F A'.
Proof.
  intros HA (Ls & fl & Hh & HA'). exists Ls, fl. split; [done|]. intros i x. rewrite <- HA. apply HA'.
Qed.

Lemma demo_objects_ok : exists h F, demo_objects = Some h /\ heap_repr h F demo_objs.
Proof.
  destruct demo_heap_ok as (h & F & E & Hr). unfold demo_objects. rewrite E. cbn [mbind option_bind].
  assert ((fun h => p ← slab_alloc 3 h; q ← slab_alloc 3 p.1; r ← slab_alloc 3 q.1; Some (p.2, q.2, r.2)) h =
          Some (demo_d, demo_ino, demo_out)) as Ep.
  { apply (demo_run_eq (fun h => p ← slab_alloc 3 h; q ← slab_alloc 3 p.1; r ← slab_alloc 3 q.1; Some (p.2, q.2, r.2)) h _ E).
    vm_compute. reflexivity. }
  cbv beta in Ep.
  destruct (slab_alloc 3 h) as [[h1 p1]|] eqn:E1; [|discriminate]. cbn [mbind option_bind fst snd] in Ep |- *.
  destruct (slab_alloc 3 h1) as [[h2 p2]|] eqn:E2; [|discriminate]. cbn [mbind option_bind fst snd] in Ep |- *.
  destruct (slab_alloc 3 h2) as [[h3 p3]|] eqn:E3; [|discriminate]. cbn [mbind option_bind fst snd] in Ep |- *.
  injection Ep as -> -> ->.
  destruct (slab_alloc_repr 3 h F _ h1 demo_d Hr) as (F1 & Hr1 & _); [vm_compute; lia|exact E1|vm_compute; congruence|].
  destruct (slab_alloc_repr 3 h1 F1 _ h2 demo_ino Hr1) as (F2 & Hr2 & _); [vm_compute; lia|exact E2|vm_compute; congruence|].
  destruct (slab_alloc_repr 3 h2 F2 _ h3 demo_out Hr2) as (F3 & Hr3 & _); [vm_compute; lia|exact E3|vm_compute; congruence|].
  exists h3, F3. split; [reflexivity|]. eapply repr_equiv; [|exact Hr3]. intros i x. unfold demo_objs. tauto.
Qed.

Lemma demo_root_heap mode h F : heap_repr h F demo_objs -> heap_repr (vf_heap (demo_root mode h)) F demo_objs.
Proof.
  intros Hr. unfold demo_root. cbn [vf_heap]. cbv zeta.
  assert (demo_objs 3 demo_d /\ demo_objs 3 demo_ino /\ demo_objs 3 demo_out) as (Hd & Hi & Ho) by (unfold demo_objs; tauto).
  change (nth 3 slab_sizes 0) with 128 in *.
  apply (repr_store' _ _ _ _ 3 demo_out); [|exact Ho|lia|change (nth 3 slab_sizes 0) with 128; lia].
  do 3 (apply (repr_store' _ _ _ _ 3 demo_ino); [|exact Hi|lia|change (nth 3 slab_sizes 0) with 128; lia]).
  do 2 (apply (repr_store' _ _ _ _ 3 demo_d); [|exact Hd|lia|change (nth 3 slab_sizes 0) with 128; lia]).
  destruct h. exact Hr.
Qed.

Definition demo_vfs (mode : Z) : option (vfs Buddy.buddy_state) := demo_root mode <$> demo_objects.

Lemma demo_vfs_eq {A} mode (f : vfs Buddy.buddy_state -> A) h a :
  demo_objects = Some h -> f <$> demo_vfs mode = Some a -> f (demo_root mode h) = a.
Proof. unfold demo_vfs. intros ->. by intros [= ->]. Qed.

Lemma demo_root_ok h F :
  demo_objects = Some h -> heap_repr h F demo_objs ->
  root_ok (demo_root 0x4000 h) F demo_objs demo_d demo_ino demo_out.
Proof.
  intros E Hr.
  assert (demo_objs 3 demo_d /\ demo_objs 3 demo_ino /\ demo_objs 3 demo_out) as (Hd & Hi & Ho) by (unfold demo_objs; tauto).
  split.
  - apply demo_root_heap, Hr.
  - reflexivity.
  - exists 3%nat. split; [exact Hd|vm_compute; congruence].
  - exists 3%nat. split; [exact Hi|vm_compute; congruence].
  - exists 3%nat, demo_out. split; [exact Ho|]. split_and!; vm_compute; congruence.
  - vm_compute. congruence.
  - split_and!; vm_compute; congruence.
  - apply (demo_vfs_eq 0x4000 (fun s => d_inode (vf_mem s) demo_d) h _ E). vm_compute. reflexivity.
  - apply (demo_vfs_eq 0x4000 (fun s => IS_DIRECTORY (i_mode (vf_mem s) demo_ino)) h _ E). vm_compute. reflexivity.
  - apply (demo_vfs_eq 0x4000 (fun s => i_f_ops (vf_mem s) demo_ino) h _ E). vm_compute. reflexivity.
  - rewrite (demo_vfs_eq 0x4000 (fun s => d_refcount (vf_mem s) demo_d) h 1 E) by (vm_compute; reflexivity).
    rewrite (demo_vfs_eq 0x4000 (fun s => i_refcount (vf_mem s) demo_ino) h 1 E) by (vm_compute; reflexivity). lia.
Qed.

Definition demo_new_file (s : vfs Buddy.buddy_state) : option Z :=
  snd <$> slab_alloc 2 (set_mem (vf_heap s) (d_get (vf_mem s) demo_d)).

Lemma vfs_open_close_witness :
  exists s s1 s2, vfs_open 10 (demo_out + 32) 0 0 demo_out s = Some (s1, VFS_OK) /\
    vfs_close demo_f s1 = Some (s2, VFS_OK) /\
    d_refcount (vf_mem s2) demo_d = d_refcount (vf_mem s) demo_d + 1.
Proof.
  destruct demo_objects_ok as (h & F & E & Hr).
  pose proof (demo_vfs_eq 0x4000 demo_new_file h (Some demo_f) E ltac:(vm_compute; reflexivity)) as Ef.
  unfold demo_new_file in Ef.
  destruct (slab_alloc 2 (set_mem (vf_heap (demo_root 0x4000 h)) (d_get (vf_mem (demo_root 0x4000 h)) demo_d)))
    as [[h' f]|] eqn:Ea; [|discriminate]. injection Ef as ->.
  destruct (vfs_open_close_root 10 (demo_root 0x4000 h) F demo_objs demo_d demo_ino demo_out (demo_out + 32) 0 0 h' demo_f)
    as (s1 & s2 & F' & Eo & _ & Ec & _ & _ & Hc).
  - apply demo_root_ok; [exact E|exact Hr].
  - vm_compute. congruence.
  - apply (demo_vfs_eq 0x4000 (fun s => strcmp 10 (vf_mem s) (demo_out + 32) lit_slash) h _ E). vm_compute. reflexivity.
  - exact Ea.
  - vm_compute. congruence.
  - split; vm_compute; congruence.
  - exists (demo_root 0x4000 h), s1, s2. split; [exact Eo|]. split; [exact Ec|exact Hc].
Defined.

(** The same path when it names a regular file. *)
Lemma vfs_open_refuses_witness :
  exists s s1, vfs_open 10 (demo_out + 32) 0 0 demo_out s = Some (s1, VFS_EISDIR).
Proof.
  destruct demo_objects_ok as (h & F & E & Hr). set (s := demo_root 0x8000 h).
  exists s, (set_vf_mem s (d_get (vf_mem s) (root_dentry s))).
  apply (vfs_open_refuses_files 10 (demo_out + 32) 0 0 demo_out s _ (root_dentry s)).
  - vm_compute. congruence.
  - vm_compute. congruence.
  - apply path_walk_root; [vm_compute; congruence|].
    apply (demo_vfs_eq 0x8000 (fun s => strcmp 10 (vf_mem s) (demo_out + 32) lit_slash) h _ E). vm_compute. reflexivity.
  - vm_compute. congruence.
  - apply (demo_vfs_eq 0x8000 (fun s => let s1 := set_vf_mem s (d_get (vf_mem s) (root_dentry s)) in
      IS_DIRECTORY (i_mode (vf_mem s1) (d_inode (vf_mem s1) (root_dentry s)))) h _ E). vm_compute. reflexivity.
Defined.

End VfsDemo.
