(* ===== verification/Console.v ===== *)
(** * The console: framebuffer and terminal, operations

    Models src/kernel/arch/x86_64/drivers/framebuffer.c and tty_font.c,
    src/kernel/kernel/console/tty/tty.c and their headers.  Pixels are 32-bit
    words of the byte memory; the cells of the terminal are a list of the length
    of the C array.  [None] is an access outside that array, or [hcf]. *)
From S2P Require Import Prelude Memory PageAlloc Slab Pmm Klib.
Import Klib.

Module Font.

Definition FONT_WIDTH : Z := 8.
Definition FONT_HEIGHT : Z := 8.

Definition font8x8_basic : list (list Z) := [
  [0x00; 0x00; 0x00; 0x00; 0x00; 0x00; 0x00; 0x00];
  [0x18; 0x3C; 0x3C; 0x18; 0x18; 0x00; 0x18; 0x00];
  [0x6C; 0x6C; 0x00; 0x00; 0x00; 0x00; 0x00; 0x00];
  [0x6C; 0x6C; 0xFE; 0x6C; 0xFE; 0x6C; 0x6C; 0x00];
  [0x30; 0x7C; 0xC0; 0x78; 0x0C; 0xF8; 0x30; 0x00];
  [0x00; 0xC6; 0xCC; 0x18; 0x30; 0x66; 0xC6; 0x00];
  [0x38; 0x6C; 0x38; 0x76; 0xDC; 0xCC; 0x76; 0x00];
  [0x60; 0x60; 0xC0; 0x00; 0x00; 0x00; 0x00; 0x00];
  [0x18; 0x30; 0x60; 0x60; 0x60; 0x30; 0x18; 0x00];
  [0x60; 0x30; 0x18; 0x18; 0x18; 0x30; 0x60; 0x00];
  [0x00; 0x66; 0x3C; 0xFF; 0x3C; 0x66; 0x00; 0x00];
  [0x00; 0x30; 0x30; 0xFC; 0x30; 0x30; 0x00; 0x00];
  [0x00; 0x00; 0x00; 0x00; 0x00; 0x30; 0x30; 0x60];
  [0x00; 0x00; 0x00; 0xFC; 0x00; 0x00; 0x00; 0x00];
  [0x00; 0x00; 0x00; 0x00; 0x00; 0x30; 0x30; 0x00];
  [0x06; 0x0C; 0x18; 0x30; 0x60; 0xC0; 0x80; 0x00];
  [0x7C; 0xC6; 0xCE; 0xDE; 0xF6; 0xE6; 0x7C; 0x00];
  [0x30; 0x70; 0x30; 0x30; 0x30; 0x30; 0xFC; 0x00];
  [0x78; 0xCC; 0x0C; 0x38; 0x60; 0xCC; 0xFC; 0x00];
  [0x78; 0xCC; 0x0C; 0x38; 0x0C; 0xCC; 0x78; 0x00];
  [0x1C; 0x3C; 0x6C; 0xCC; 0xFE; 0x0C; 0x1E; 0x00];
  [0xFC; 0xC0; 0xF8; 0x0C; 0x0C; 0xCC; 0x78; 0x00];
  [0x38; 0x60; 0xC0; 0xF8; 0xCC; 0xCC; 0x78; 0x00];
  [0xFC; 0xCC; 0x0C; 0x18; 0x30; 0x30; 0x30; 0x00];
  [0x78; 0xCC; 0xCC; 0x78; 0xCC; 0xCC; 0x78; 0x00];
  [0x78; 0xCC; 0xCC; 0x7C; 0x0C; 0x18; 0x70; 0x00];
  [0x00; 0x30; 0x30; 0x00; 0x00; 0x30; 0x30; 0x00];
  [0x00; 0x30; 0x30; 0x00; 0x00; 0x30; 0x30; 0x60];
  [0x18; 0x30; 0x60; 0xC0; 0x60; 0x30; 0x18; 0x00];
  [0x00; 0x00; 0xFC; 0x00; 0x00; 0xFC; 0x00; 0x00];
  [0x60; 0x30; 0x18; 0x0C; 0x18; 0x30; 0x60; 0x00];
  [0x78; 0xCC; 0x0C; 0x18; 0x30; 0x00; 0x30; 0x00];
  [0x7C; 0xC6; 0xDE; 0xDE; 0xDE; 0xC0; 0x78; 0x00];
  [0x30; 0x78; 0xCC; 0xCC; 0xFC; 0xCC; 0xCC; 0x00];
  [0xFC; 0x66; 0x66; 0x7C; 0x66; 0x66; 0xFC; 0x00];
  [0x3C; 0x66; 0xC0; 0xC0; 0xC0; 0x66; 0x3C; 0x00];
  [0xF8; 0x6C; 0x66; 0x66; 0x66; 0x6C; 0xF8; 0x00];
  [0xFE; 0x62; 0x68; 0x78; 0x68; 0x62; 0xFE; 0x00];
  [0xFE; 0x62; 0x68; 0x78; 0x68; 0x60; 0xF0; 0x00];
  [0x3C; 0x66; 0xC0; 0xC0; 0xCE; 0x66; 0x3E; 0x00];
  [0xCC; 0xCC; 0xCC; 0xFC; 0xCC; 0xCC; 0xCC; 0x00];
  [0x78; 0x30; 0x30; 0x30; 0x30; 0x30; 0x78; 0x00];
  [0x1E; 0x0C; 0x0C; 0x0C; 0xCC; 0xCC; 0x78; 0x00];
  [0xE6; 0x66; 0x6C; 0x78; 0x6C; 0x66; 0xE6; 0x00];
  [0xF0; 0x60; 0x60; 0x60; 0x62; 0x66; 0xFE; 0x00];
  [0xC6; 0xEE; 0xFE; 0xFE; 0xD6; 0xC6; 0xC6; 0x00];
  [0xC6; 0xE6; 0xF6; 0xDE; 0xCE; 0xC6; 0xC6; 0x00];
  [0x38; 0x6C; 0xC6; 0xC6; 0xC6; 0x6C; 0x38; 0x00];
  [0xFC; 0x66; 0x66; 0x7C; 0x60; 0x60; 0xF0; 0x00];
  [0x78; 0xCC; 0xCC; 0xCC; 0xDC; 0x78; 0x1C; 0x00];
  [0xFC; 0x66; 0x66; 0x7C; 0x6C; 0x66; 0xE6; 0x00];
  [0x78; 0xCC; 0xE0; 0x70; 0x1C; 0xCC; 0x78; 0x00];
  [0xFC; 0xB4; 0x30; 0x30; 0x30; 0x30; 0x78; 0x00];
  [0xCC; 0xCC; 0xCC; 0xCC; 0xCC; 0xCC; 0xFC; 0x00];
  [0xCC; 0xCC; 0xCC; 0xCC; 0xCC; 0x78; 0x30; 0x00];
  [0xC6; 0xC6; 0xC6; 0xD6; 0xFE; 0xEE; 0xC6; 0x00];
  [0xC6; 0xC6; 0x6C; 0x38; 0x38; 0x6C; 0xC6; 0x00];
  [0xCC; 0xCC; 0xCC; 0x78; 0x30; 0x30; 0x78; 0x00];
  [0xFE; 0xC6; 0x8C; 0x18; 0x32; 0x66; 0xFE; 0x00];
  [0x78; 0x60; 0x60; 0x60; 0x60; 0x60; 0x78; 0x00];
  [0xC0; 0x60; 0x30; 0x18; 0x0C; 0x06; 0x02; 0x00];
  [0x78; 0x18; 0x18; 0x18; 0x18; 0x18; 0x78; 0x00];
  [0x10; 0x38; 0x6C; 0xC6; 0x00; 0x00; 0x00; 0x00];
  [0x00; 0x00; 0x00; 0x00; 0x00; 0x00; 0x00; 0xFF];
  [0x30; 0x30; 0x18; 0x00; 0x00; 0x00; 0x00; 0x00];
  [0x00; 0x00; 0x78; 0x0C; 0x7C; 0xCC; 0x76; 0x00];
  [0xE0; 0x60; 0x60; 0x7C; 0x66; 0x66; 0xDC; 0x00];
  [0x00; 0x00; 0x78; 0xCC; 0xC0; 0xCC; 0x78; 0x00];
  [0x1C; 0x0C; 0x0C; 0x7C; 0xCC; 0xCC; 0x76; 0x00];
  [0x00; 0x00; 0x78; 0xCC; 0xFC; 0xC0; 0x78; 0x00];
  [0x38; 0x6C; 0x60; 0xF0; 0x60; 0x60; 0xF0; 0x00];
  [0x00; 0x00; 0x76; 0xCC; 0xCC; 0x7C; 0x0C; 0xF8];
  [0xE0; 0x60; 0x6C; 0x76; 0x66; 0x66; 0xE6; 0x00];
  [0x30; 0x00; 0x70; 0x30; 0x30; 0x30; 0x78; 0x00];
  [0x0C; 0x00; 0x0C; 0x0C; 0x0C; 0xCC; 0xCC; 0x78];
  [0xE0; 0x60; 0x66; 0x6C; 0x78; 0x6C; 0xE6; 0x00];
  [0x70; 0x30; 0x30; 0x30; 0x30; 0x30; 0x78; 0x00];
  [0x00; 0x00; 0xCC; 0xFE; 0xFE; 0xD6; 0xC6; 0x00];
  [0x00; 0x00; 0xF8; 0xCC; 0xCC; 0xCC; 0xCC; 0x00];
  [0x00; 0x00; 0x78; 0xCC; 0xCC; 0xCC; 0x78; 0x00];
  [0x00; 0x00; 0xDC; 0x66; 0x66; 0x7C; 0x60; 0xF0];
  [0x00; 0x00; 0x76; 0xCC; 0xCC; 0x7C; 0x0C; 0x1E];
  [0x00; 0x00; 0xDC; 0x76; 0x66; 0x60; 0xF0; 0x00];
  [0x00; 0x00; 0x7C; 0xC0; 0x78; 0x0C; 0xF8; 0x00];
  [0x10; 0x30; 0x7C; 0x30; 0x30; 0x34; 0x18; 0x00];
  [0x00; 0x00; 0xCC; 0xCC; 0xCC; 0xCC; 0x76; 0x00];
  [0x00; 0x00; 0xCC; 0xCC; 0xCC; 0x78; 0x30; 0x00];
  [0x00; 0x00; 0xC6; 0xD6; 0xFE; 0xFE; 0x6C; 0x00];
  [0x00; 0x00; 0xC6; 0x6C; 0x38; 0x6C; 0xC6; 0x00];
  [0x00; 0x00; 0xCC; 0xCC; 0xCC; 0x7C; 0x0C; 0xF8];
  [0x00; 0x00; 0xFC; 0x98; 0x30; 0x64; 0xFC; 0x00];
  [0x1C; 0x30; 0x30; 0xE0; 0x30; 0x30; 0x1C; 0x00];
  [0x18; 0x18; 0x18; 0x00; 0x18; 0x18; 0x18; 0x00];
  [0xE0; 0x30; 0x30; 0x1C; 0x30; 0x30; 0xE0; 0x00];
  [0x76; 0xDC; 0x00; 0x00; 0x00; 0x00; 0x00; 0x00]].

(** A [char] is its byte; those from 128 on are negative in C, hence unknown. *)
Definition font_get_char (c : Z) : list Z :=
  if (32 <=? c) && (c <=? 126) then nth (Z.to_nat (c - 32)) font8x8_basic []
  else nth 0 font8x8_basic [].

End Font.

Module Framebuffer.
Import Font.

(** struct limine_framebuffer: the fields in use. *)
Record framebuffer := mk_fb { fb_address : Z; fb_width : Z; fb_height : Z; fb_pitch : Z }.

(** The address of [fb_ptr[y * (pitch / 4) + x]]. *)
Definition pixel_addr (fb : framebuffer) (x y : Z) : Z :=
  fb_address fb + 4 * (y * (fb_pitch fb / 4) + x).

(** [fb_init]: [None] for a missing response, otherwise the framebuffers of
    the boot loader's answer. *)
Definition fb_init (response : option (list framebuffer)) : option framebuffer * Z :=
  match response with
  | None | Some [] => (None, -1)
  | Some (fb :: _) => (Some fb, 0)
  end.

Definition fb_put_pixel (primary_fb : option framebuffer) (x y color : Z) (m : mem) : mem :=
  match primary_fb with
  | None => m
  | Some fb =>
    if (x <? fb_width fb) && (y <? fb_height fb) then store 4 m (pixel_addr fb x y) color else m
  end.

(** [for (y = 0; y < height; y++) for (x = 0; x < width; x++)] *)
Definition fb_clear (primary_fb : option framebuffer) (color : Z) (m : mem) : mem :=
  match primary_fb with
  | None => m
  | Some fb =>
    fold_left (fun m y =>
      fold_left (fun m x => store 4 m (pixel_addr fb (Z.of_nat x) (Z.of_nat y)) color)
        (seq 0 (Z.to_nat (fb_width fb))) m)
      (seq 0 (Z.to_nat (fb_height fb))) m
  end.

(** The body of the two loops of [fb_put_char]. *)
Definition put_dot (fb : framebuffer) (byte x y row col fg_color bg_color : Z) (m : mem) : mem :=
  let pixel_x := w32 (x + col) in
  let pixel_y := w32 (y + row) in
  if (pixel_x <? fb_width fb) && (pixel_y <? fb_height fb) then
    let color := if negb (Z.land byte (Z.shiftr 0x80 col) =? 0) then fg_color else bg_color in
    store 4 m (pixel_addr fb pixel_x pixel_y) color
  else m.

Definition put_row (fb : framebuffer) (byte x y row fg_color bg_color : Z) (m : mem) : mem :=
  fold_left (fun m col => put_dot fb byte x y row (Z.of_nat col) fg_color bg_color m)
    (seq 0 (Z.to_nat FONT_WIDTH)) m.

Definition fb_put_char (primary_fb : option framebuffer) (c x y fg_color bg_color : Z) (m : mem) : mem :=
  match primary_fb with
  | None => m
  | Some fb =>
    let char_bitmap := font_get_char c in
    fold_left (fun m row =>
      put_row fb (nth row char_bitmap 0) x y (Z.of_nat row) fg_color bg_color m)
      (seq 0 (Z.to_nat FONT_HEIGHT)) m
  end.

(** The string is read while the screen is written. *)
Fixpoint fb_put_string_loop (fuel : nat) (primary_fb : option framebuffer)
    (str x current_x y fg_color bg_color : Z) (m : mem) : option mem :=
  match fuel with
  | O => None
  | S fuel =>
    if read8 m str =? 0 then Some m
    else if read8 m str =? 10 then
      fb_put_string_loop fuel primary_fb (str + 1) x x (w32 (y + FONT_HEIGHT)) fg_color bg_color m
    else
      fb_put_string_loop fuel primary_fb (str + 1) x (w32 (current_x + FONT_WIDTH)) y fg_color bg_color
        (fb_put_char primary_fb (read8 m str) current_x y fg_color bg_color m)
  end.

Definition fb_put_string (fuel : nat) (primary_fb : option framebuffer)
    (str x y fg_color bg_color : Z) (m : mem) : option mem :=
  fb_put_string_loop fuel primary_fb str x x y fg_color bg_color m.

End Framebuffer.

Module Tty.
Import Font Framebuffer.

Definition TAB_WIDTH : Z := 8.
Definition TERM_CELLS : nat := 240 * 135.

Record term_cell_t := mk_cell { ch : Z; fg : Z; bg : Z }.

Record terminal := mk_term {
  primary_fb : option framebuffer;
  total_rows : Z;
  total_columns : Z;
  current_row : Z;
  current_column : Z;
  terminal_fg_color : Z;
  terminal_bg_color : Z;
  terminal_buffer : list term_cell_t;
  t_mem : mem;
}.

Implicit Types t : terminal.

Definition set_size t (rows columns : Z) : terminal :=
  mk_term (primary_fb t) rows columns (current_row t) (current_column t)
    (terminal_fg_color t) (terminal_bg_color t) (terminal_buffer t) (t_mem t).
Definition set_cursor t (row column : Z) : terminal :=
  mk_term (primary_fb t) (total_rows t) (total_columns t) row column
    (terminal_fg_color t) (terminal_bg_color t) (terminal_buffer t) (t_mem t).
Definition terminal_setcolor (fg_color bg_color : Z) t : terminal :=
  mk_term (primary_fb t) (total_rows t) (total_columns t) (current_row t) (current_column t)
    fg_color bg_color (terminal_buffer t) (t_mem t).
Definition set_buffer t (b : list term_cell_t) : terminal :=
  mk_term (primary_fb t) (total_rows t) (total_columns t) (current_row t) (current_column t)
    (terminal_fg_color t) (terminal_bg_color t) b (t_mem t).
Definition set_tmem t (m : mem) : terminal :=
  mk_term (primary_fb t) (total_rows t) (total_columns t) (current_row t) (current_column t)
    (terminal_fg_color t) (terminal_bg_color t) (terminal_buffer t) m.

(** [total_rows * total_columns] is an [int] product. *)
Definition buffer_size t : Z := w64 (s32 (total_rows t * total_columns t)).

(** Draws one cell at the text position (x, y). *)
Definition draw t (c : term_cell_t) (x y : Z) : terminal :=
  set_tmem t (fb_put_char (primary_fb t) (ch c) (w32 (x * FONT_WIDTH)) (w32 (y * FONT_HEIGHT))
                (fg c) (bg c) (t_mem t)).

(** [for (i = i0; i < i0 + n; i++) terminal_buffer[i] = f(terminal_buffer[i])] *)
Fixpoint update_cells (f : term_cell_t -> term_cell_t) (n i : nat) (b : list term_cell_t)
    : option (list term_cell_t) :=
  match n with
  | O => Some b
  | S n => c ← b !! i; update_cells f n (S i) (<[i := f c]> b)
  end.

Definition get_screen_dimensions t : option terminal :=
  fb ← primary_fb t;
  Some (set_size t (w16 (fb_height fb / FONT_HEIGHT)) (w16 (fb_width fb / FONT_WIDTH))).

(** One row of [terminal_render], from column [x]. *)
Fixpoint render_row (n : nat) (x y : Z) t : option terminal :=
  match n with
  | O => Some t
  | S n =>
    c ← terminal_buffer t !! Z.to_nat (y * total_columns t + x);
    render_row n (x + 1) y (draw t c x y)
  end.

Fixpoint render_rows (n : nat) (y : Z) t : option terminal :=
  match n with
  | O => Some t
  | S n => t ← render_row (Z.to_nat (total_columns t)) 0 y t; render_rows n (y + 1) t
  end.

Definition terminal_render t : option terminal := render_rows (Z.to_nat (total_rows t)) 0 t.

Definition terminal_initialize (fg bg : Z) t : option terminal :=
  t ← get_screen_dimensions t;
  let t := set_cursor t 0 0 in
  let t := terminal_setcolor fg bg t in
  b ← update_cells (fun _ => mk_cell 32 fg bg) (Z.to_nat (buffer_size t)) 0 (terminal_buffer t);
  terminal_render (set_buffer t b).

Definition terminal_putentryat (c : term_cell_t) (x y : Z) t : option terminal :=
  if (total_columns t <=? x) || (total_rows t <=? y) then Some t else
  let index := Z.to_nat (y * total_columns t + x) in
  if decide (index < length (terminal_buffer t))%nat then
    Some (draw (set_buffer t (<[index := c]> (terminal_buffer t))) c x y)
  else None.

(** [memmove] of [rows - 1] rows to the front, then the last row is blanked. *)
Definition terminal_scroll t : option terminal :=
  let n := (total_rows t - 1) * total_columns t in
  if decide (0 <= n /\ total_columns t + n <= Z.of_nat (length (terminal_buffer t))) then
    let b := terminal_buffer t in
    let b := take (Z.to_nat n) (drop (Z.to_nat (total_columns t)) b) ++ drop (Z.to_nat n) b in
    b ← update_cells (fun c => mk_cell 32 (fg c) (bg c)) (Z.to_nat (total_columns t)) (Z.to_nat n) b;
    Some (set_cursor (set_buffer t b) (w16 (total_rows t - 1)) (current_column t))
  else None.

Definition terminal_newline t : option terminal :=
  let t := set_cursor t (w16 (current_row t + 1)) 0 in
  if total_rows t <=? current_row t then
    t ← terminal_scroll t; terminal_render t
  else Some t.

Definition terminal_putchar (c : term_cell_t) t : option terminal :=
  if ch c =? 10 then terminal_newline t else
  if ch c =? 9 then
    let t := set_cursor t (current_row t)
               (w16 (current_column t + (TAB_WIDTH - current_column t mod TAB_WIDTH))) in
    if total_columns t <=? current_column t then terminal_newline t else Some t
  else
  t ← terminal_putentryat c (current_column t) (current_row t) t;
  let t := set_cursor t (current_row t) (w16 (current_column t + 1)) in
  if total_columns t <=? current_column t then terminal_newline t else Some t.

(** [for (i = 0; i < size; i++)], from address [data]. *)
Fixpoint terminal_write_loop (n : nat) (data : Z) t : option terminal :=
  match n with
  | O => Some t
  | S n =>
    t ← terminal_putchar (mk_cell (read8 (t_mem t) data) (terminal_fg_color t) (terminal_bg_color t)) t;
    terminal_write_loop n (data + 1) t
  end.

Definition terminal_write (data size : Z) t : option terminal :=
  terminal_write_loop (Z.to_nat size) data t.

Definition terminal_writestring (fuel : nat) (data : Z) t : option terminal :=
  len ← strlen fuel (t_mem t) data; terminal_write data len t.

Definition terminal_clear t : option terminal :=
  b ← update_cells (fun _ => mk_cell 32 0xFFFFFF 0x000035) (Z.to_nat (buffer_size t)) 0 (terminal_buffer t);
  terminal_render (set_cursor (set_buffer t b) 0 0).

End Tty.
