(* ===== verification/ConsoleSpec.v ===== *)
(** * The console: correctness

    The terminal is specified as a grid of cells with a cursor ([grid]).
    [term_ok fb t g] relates the terminal to a grid and to the screen: the
    cells of the grid are those of the buffer, and every pixel of the screen
    that belongs to a cell shows the glyph of that cell in its colours. *)
From S2P Require Import Prelude Memory PageAlloc Slab Pmm Klib KlibSpec Console.
Import Klib Font Framebuffer Tty.

(** ** Pixels *)

Record screen_ok (fb : framebuffer) : Prop := {
  sc_addr : 0 <= fb_address fb;
  sc_width : 8 <= fb_width fb < 2 ^ 18;
  sc_height : 8 <= fb_height fb < 2 ^ 18;
  sc_pitch : 4 * fb_width fb <= fb_pitch fb;
}.

Definition pixel (m : mem) (fb : framebuffer) (x y : Z) : Z := load 4 m (pixel_addr fb x y).

Definition on_screen (fb : framebuffer) (x y : Z) : Prop :=
  0 <= x < fb_width fb /\ 0 <= y < fb_height fb.

(** The bytes of the framebuffer. *)
Definition fb_byte (fb : framebuffer) (a : Z) : Prop :=
  in_range (fb_address fb) (fb_pitch fb * fb_height fb) a.

Section Pixels.
Variable fb : framebuffer.
Hypothesis Hfb : screen_ok fb.

Lemma stride_bounds : fb_width fb <= fb_pitch fb / 4 /\ 4 * (fb_pitch fb / 4) <= fb_pitch fb.
Proof.
  destruct Hfb. split; [apply Z.div_le_lower_bound; lia|]. apply Z.mul_div_le. lia.
Qed.

Lemma pixel_addr_apart x y x' y' :
  on_screen fb x y -> on_screen fb x' y' -> (x, y) <> (x', y') ->
  pixel_addr fb x y + 4 <= pixel_addr fb x' y' \/ pixel_addr fb x' y' + 4 <= pixel_addr fb x y.
Proof.
  intros [Hx Hy] [Hx' Hy'] Hne. pose proof stride_bounds as [Hs _]. unfold pixel_addr.
  set (s := fb_pitch fb / 4) in *. destruct (Z.lt_trichotomy y y') as [?|[->|?]]; [nia| |nia].
  assert (x <> x') by congruence. lia.
Qed.

Lemma pixel_bytes x y a :
  on_screen fb x y -> in_range (pixel_addr fb x y) 4 a -> fb_byte fb a.
Proof.
  intros [Hx Hy] Ha. pose proof stride_bounds as [Hs Hp]. unfold pixel_addr, fb_byte, in_range in *.
  set (s := fb_pitch fb / 4) in *. split; [nia|].
  assert (4 * (y * s + x) + 4 <= 4 * s * fb_height fb) by nia.
  assert (4 * s * fb_height fb <= fb_pitch fb * fb_height fb) by (apply Z.mul_le_mono_nonneg_r; lia). lia.
Qed.

(** Writing one pixel. *)
Lemma pixel_store m x y x' y' v :
  on_screen fb x y -> on_screen fb x' y' ->
  pixel (store 4 m (pixel_addr fb x y) v) fb x' y' =
    if decide ((x', y') = (x, y)) then w32 v else pixel m fb x' y'.
Proof.
  intros H1 H2. unfold pixel. case_decide as E.
  - injection E as -> ->. by rewrite load_store_eq.
  - apply load_store_ne. destruct (pixel_addr_apart x' y' x y H2 H1 E); lia.
Qed.

Lemma pixel_store_frame m x y v :
  on_screen fb x y -> agree (fun a => ~ fb_byte fb a) m (store 4 m (pixel_addr fb x y) v).
Proof. intros H. apply agree_store. intros a Ha Hr. by apply Ha, (pixel_bytes x y). Qed.

Lemma fold_agree {A} (Q : Z -> Prop) (f : mem -> A -> mem) l : forall m,
  (forall a m, a ∈ l -> agree Q m (f m a)) -> agree Q m (fold_left f l m).
Proof.
  induction l as [|a l IH]; intros m Hf; [done|]. cbn [fold_left]. etransitivity; [apply Hf; by left|].
  apply IH. intros b m' Hb. apply Hf. by right.
Qed.

(** Clearing the screen writes nothing else. *)
Lemma fb_clear_agree color m : agree (fun a => ~ fb_byte fb a) m (fb_clear (Some fb) color m).
Proof.
  apply fold_agree. intros y m1 Hy%elem_of_seq. apply fold_agree. intros x m2 Hx%elem_of_seq.
  apply pixel_store_frame. unfold on_screen. lia.
Qed.

(** ** Glyphs *)

(** The colour of the dot in row [r] and column [k] of a character. *)
Definition dot (c fgc bgc r k : Z) : Z :=
  w32 (if negb (Z.land (nth (Z.to_nat r) (font_get_char c) 0) (Z.shiftr 0x80 k) =? 0) then fgc else bgc).

(** A function on pixels replaced inside a box of [w] times [h] pixels. *)
Definition in_box (x y w h px py : Z) : Prop := x <= px < x + w /\ y <= py < y + h.

#[local] Instance in_box_dec x y w h px py : Decision (in_box x y w h px py).
Proof. unfold in_box. apply _. Defined.

Lemma put_dot_spec m c x y r k fgc bgc :
  0 <= r -> on_screen fb (x + k) (y + r) ->
  let m' := put_dot fb (nth (Z.to_nat r) (font_get_char c) 0) x y r k fgc bgc m in
  (forall px py, on_screen fb px py ->
     pixel m' fb px py = if decide ((px, py) = (x + k, y + r)) then dot c fgc bgc r k else pixel m fb px py) /\
  agree (fun a => ~ fb_byte fb a) m m'.
Proof.
  intros Hr Hs m'. pose proof Hs as [Hx Hy]. destruct Hfb. unfold m', put_dot.
  rewrite !wrap_small by lia. rewrite !(proj2 (Z.ltb_lt _ _)) by lia. cbn [andb]. split.
  - intros px py Hp. rewrite pixel_store by done. done.
  - by apply pixel_store_frame.
Qed.

Lemma put_row_spec m c x y r fgc bgc n :
  0 <= r -> 0 <= x -> x + Z.of_nat n <= fb_width fb -> 0 <= y + r < fb_height fb ->
  let m' := fold_left (fun m col => put_dot fb (nth (Z.to_nat r) (font_get_char c) 0) x y r (Z.of_nat col) fgc bgc m)
              (seq 0 n) m in
  (forall px py, on_screen fb px py ->
     pixel m' fb px py = if decide (in_box x (y + r) (Z.of_nat n) 1 px py) then dot c fgc bgc r (px - x) else pixel m fb px py) /\
  agree (fun a => ~ fb_byte fb a) m m'.
Proof.
  induction n as [|n IH]; intros Hr Hx Hn Hy; cbv zeta.
  - split; [|reflexivity]. intros px py _. rewrite decide_False; [done|]. unfold in_box. lia.
  - rewrite seq_S, fold_left_app. cbn [fold_left Nat.add]. destruct IH as [IHp IHa]; [lia..|].
    destruct (put_dot_spec (fold_left (fun m col => put_dot fb (nth (Z.to_nat r) (font_get_char c) 0) x y r (Z.of_nat col) fgc bgc m)
              (seq 0 n) m) c x y r (Z.of_nat n) fgc bgc) as [Hp Ha]; [lia|split; lia|].
    split; [|etransitivity; [exact IHa|exact Ha]]. intros px py Ho. rewrite Hp, IHp by done.
    unfold in_box. destruct (decide ((px, py) = _)) as [E|E].
    + injection E as -> ->. rewrite decide_True by lia. f_equal. lia.
    + repeat case_decide; try done; exfalso; [lia|]. apply E. f_equal; lia.
Qed.

(** [fb_put_char] draws the glyph in its box and nothing else. *)
Lemma put_char_spec m c x y fgc bgc :
  0 <= x -> 0 <= y -> x + 8 <= fb_width fb -> y + 8 <= fb_height fb ->
  let m' := fb_put_char (Some fb) c x y fgc bgc m in
  (forall px py, on_screen fb px py ->
     pixel m' fb px py = if decide (in_box x y 8 8 px py) then dot c fgc bgc (py - y) (px - x) else pixel m fb px py) /\
  agree (fun a => ~ fb_byte fb a) m m'.
Proof.
  intros Hx Hy Hw Hh. unfold fb_put_char. change (Z.to_nat FONT_HEIGHT) with 8%nat.
  assert (forall n, (n <= 8)%nat ->
    let m' := fold_left (fun m row => put_row fb (nth row (font_get_char c) 0) x y (Z.of_nat row) fgc bgc m) (seq 0 n) m in
    (forall px py, on_screen fb px py ->
       pixel m' fb px py = if decide (in_box x y 8 (Z.of_nat n) px py) then dot c fgc bgc (py - y) (px - x) else pixel m fb px py) /\
    agree (fun a => ~ fb_byte fb a) m m') as Hn; [|by apply (Hn 8%nat)].
  induction n as [|n IH]; intros Hn8; cbv zeta.
  - split; [|reflexivity]. intros px py _. rewrite decide_False; [done|]. unfold in_box. lia.
  - rewrite seq_S, fold_left_app. cbn [fold_left Nat.add]. destruct IH as [IHp IHa]; [lia|].
    set (m1 := fold_left _ (seq 0 n) m) in *.
    destruct (put_row_spec m1 c x y (Z.of_nat n) fgc bgc 8) as [Hp Ha]; [lia..|].
    rewrite Nat2Z.id in Hp, Ha. unfold put_row. change (Z.to_nat FONT_WIDTH) with 8%nat.
    split; [|etransitivity; [exact IHa|exact Ha]]. intros px py Ho. rewrite Hp, IHp by done.
    unfold in_box. repeat case_decide; try done; try (exfalso; lia). f_equal. lia.
Qed.
End Pixels.

(** ** The grid *)

(** The text screen: a cursor and a cell for every row and column. *)
Record grid := mk_grid { g_row : Z; g_col : Z; g_cell : Z -> Z -> term_cell_t }.

Definition rows (fb : framebuffer) : Z := fb_height fb / 8.
Definition cols (fb : framebuffer) : Z := fb_width fb / 8.

Section Grid.
Variable fb : framebuffer.
Implicit Type g : grid.

Definition g_blank (c : term_cell_t) : grid := mk_grid 0 0 (fun _ _ => c).

(** Every row moves up; the new last row keeps its colours. *)
Definition g_scroll (cell : Z -> Z -> term_cell_t) : Z -> Z -> term_cell_t :=
  fun y x => if y =? rows fb - 1 then mk_cell 32 (fg (cell y x)) (bg (cell y x)) else cell (y + 1) x.

Definition g_newline g : grid :=
  if g_row g + 1 <? rows fb then mk_grid (g_row g + 1) 0 (g_cell g)
  else mk_grid (g_row g) 0 (g_scroll (g_cell g)).

(** The cursor moves to column [col], on the next line if there is no such column. *)
Definition g_advance (col : Z) g : grid :=
  if col <? cols fb then mk_grid (g_row g) col (g_cell g) else g_newline g.

Definition g_set (y x : Z) (c : term_cell_t) (cell : Z -> Z -> term_cell_t) : Z -> Z -> term_cell_t :=
  fun y' x' => if (y' =? y) && (x' =? x) then c else cell y' x'.

Definition g_putchar (c : term_cell_t) g : grid :=
  if ch c =? 10 then g_newline g
  else if ch c =? 9 then g_advance (8 * (g_col g / 8 + 1)) g
  else g_advance (g_col g + 1) (mk_grid (g_row g) (g_col g) (g_set (g_row g) (g_col g) c (g_cell g))).

Definition g_write (f b : Z) (s : list Z) g : grid :=
  fold_left (fun g c => g_putchar (mk_cell c f b) g) s g.

(** ** The terminal shows a grid *)

Definition in_grid (y x : Z) : Prop := 0 <= y < rows fb /\ 0 <= x < cols fb.

(** The 64 pixels of the cell at row [y] and column [x] show [c]. *)
Definition shows (m : mem) (y x : Z) (c : term_cell_t) : Prop :=
  forall r k, 0 <= r < 8 -> 0 <= k < 8 ->
    pixel m fb (x * 8 + k) (y * 8 + r) = dot (ch c) (fg c) (bg c) r k.

Definition cell_at (b : list term_cell_t) (y x : Z) : option term_cell_t :=
  b !! Z.to_nat (y * cols fb + x).

Record term_fits (t : terminal) : Prop := {
  tf_fb : primary_fb t = Some fb;
  tf_rows : total_rows t = rows fb;
  tf_cols : total_columns t = cols fb;
  tf_len : length (terminal_buffer t) = TERM_CELLS;
}.

Record term_ok (t : terminal) g : Prop := {
  to_fits : term_fits t;
  to_row : current_row t = g_row g;
  to_col : current_column t = g_col g;
  to_cursor : in_grid (g_row g) (g_col g);
  to_cells : forall y x, in_grid y x -> cell_at (terminal_buffer t) y x = Some (g_cell g y x);
  to_shows : forall y x, in_grid y x -> shows (t_mem t) y x (g_cell g y x);
}.

(** What no operation on the terminal changes: its colours, and every byte
    outside the framebuffer. *)
Definition same_rest (t t' : terminal) : Prop :=
  terminal_fg_color t' = terminal_fg_color t /\ terminal_bg_color t' = terminal_bg_color t /\
  agree (fun a => ~ fb_byte fb a) (t_mem t) (t_mem t').

#[export] Instance same_rest_trans : Transitive same_rest.
Proof.
  intros t1 t2 t3 (? & ? & ?) (? & ? & ?). split_and!; [congruence..|]. by etransitivity.
Qed.

Lemma same_rest_eq t t' :
  terminal_fg_color t' = terminal_fg_color t -> terminal_bg_color t' = terminal_bg_color t ->
  t_mem t' = t_mem t -> same_rest t t'.
Proof. intros ? ? E. split_and!; [done..|]. by rewrite E. Qed.
End Grid.

Section Terminal.
Variable fb : framebuffer.
Hypothesis Hfb : screen_ok fb.
Hypothesis Hfit : rows fb * cols fb <= Z.of_nat TERM_CELLS.

Lemma dims : 1 <= rows fb < 2 ^ 15 /\ 1 <= cols fb < 2 ^ 15 /\
  8 * rows fb <= fb_height fb /\ 8 * cols fb <= fb_width fb.
Proof.
  destruct Hfb. unfold rows, cols. split_and!; try (apply Z.div_le_lower_bound; lia);
    try (apply Z.div_lt_upper_bound; lia); apply Z.mul_div_le; lia.
Qed.

Lemma TERM_CELLS_val : Z.of_nat TERM_CELLS = 32400.
Proof. by vm_compute. Qed.

Lemma cell_index y x : in_grid fb y x -> 0 <= y * cols fb + x < rows fb * cols fb.
Proof. intros [Hy Hx]. pose proof dims. nia. Qed.

Lemma cell_index_inj y x y' x' :
  in_grid fb y x -> in_grid fb y' x' -> y * cols fb + x = y' * cols fb + x' -> y = y' /\ x = x'.
Proof. intros [Hy Hx] [Hy' Hx'] E. pose proof dims. assert (y = y') by nia. nia. Qed.

Lemma cell_exists t y x : term_fits fb t -> in_grid fb y x -> is_Some (cell_at fb (terminal_buffer t) y x).
Proof.
  intros Ht Hyx. apply lookup_lt_is_Some. rewrite (tf_len _ _ Ht).
  pose proof (cell_index _ _ Hyx). apply Nat2Z.inj_lt. rewrite Z2Nat.id by lia. lia.
Qed.

(** Drawing one cell. *)
Lemma draw_spec t c y x :
  term_fits fb t -> in_grid fb y x ->
  shows fb (t_mem (draw t c x y)) y x c /\
  (forall y' x' c', in_grid fb y' x' -> (y', x') <> (y, x) ->
     shows fb (t_mem t) y' x' c' -> shows fb (t_mem (draw t c x y)) y' x' c') /\
  same_rest fb t (draw t c x y).
Proof.
  intros Ht [Hy Hx]. pose proof dims as (HR & HC & HR8 & HC8). unfold draw. cbn [t_mem set_tmem].
  rewrite (tf_fb _ _ Ht). unfold FONT_WIDTH, FONT_HEIGHT. rewrite !wrap_small by lia.
  destruct (put_char_spec fb Hfb (t_mem t) (ch c) (x * 8) (y * 8) (fg c) (bg c)) as [Hp Ha]; [lia..|].
  split_and!.
  - intros r k Hr Hk. rewrite Hp by (split; lia). rewrite decide_True by (unfold in_box; lia).
    f_equal; lia.
  - intros y' x' c' [Hy' Hx'] Hne Hs r k Hr Hk. rewrite Hp by (split; lia).
    rewrite decide_False; [by apply Hs|]. unfold in_box. intros [? ?]. apply Hne. f_equal; lia.
  - by split_and!.
Qed.

Lemma draw_fits t c x y : term_fits fb t -> term_fits fb (draw t c x y).
Proof. by intros []. Qed.

(** ** Rendering *)

(** [t'] is [t] with another picture. *)
Definition redrawn (t t' : terminal) : Prop :=
  t' = set_tmem t (t_mem t') /\ same_rest fb t t'.

Lemma redrawn_fits t t' : redrawn t t' -> term_fits fb t -> term_fits fb t'.
Proof. intros [-> _] []. by split. Qed.

Lemma redrawn_trans t1 t2 t3 : redrawn t1 t2 -> redrawn t2 t3 -> redrawn t1 t3.
Proof.
  intros [E1 H1] [E2 H2]. split; [rewrite E2, E1; by destruct t1|]. by transitivity t2.
Qed.

Lemma draw_redrawn t c y x : term_fits fb t -> in_grid fb y x -> redrawn t (draw t c x y).
Proof. intros Ht Hyx. split; [done|]. by apply draw_spec. Qed.

(** The cells that a predicate selects are on the screen. *)
Definition shown (P : Z -> Z -> Prop) (t : terminal) : Prop :=
  forall y x c, in_grid fb y x -> P y x -> cell_at fb (terminal_buffer t) y x = Some c ->
    shows fb (t_mem t) y x c.

Lemma shown_weaken (P Q : Z -> Z -> Prop) t :
  (forall y x, in_grid fb y x -> Q y x -> P y x) -> shown P t -> shown Q t.
Proof. intros H Hs y x c Hg Hq. by apply Hs, H. Qed.

Lemma draw_shown P t c y x :
  term_fits fb t -> in_grid fb y x -> cell_at fb (terminal_buffer t) y x = Some c ->
  shown P t -> shown (fun y' x' => P y' x' \/ (y', x') = (y, x)) (draw t c x y).
Proof.
  intros Ht Hg Hc Hs y' x' c' Hg' HP Hc'. destruct (draw_spec t c y x Ht Hg) as (H1 & H2 & _).
  destruct (decide ((y', x') = (y, x))) as [E|E].
  - injection E as -> ->. cbn in Hc'. by assert (c' = c) as -> by congruence.
  - apply H2; [done..|]. destruct HP; [by apply Hs|done].
Qed.

Lemma render_row_spec n y : forall x t,
  term_fits fb t -> 0 <= y < rows fb -> 0 <= x -> x + Z.of_nat n = cols fb ->
  shown (fun y' x' => y' < y \/ y' = y /\ x' < x) t ->
  exists t', render_row n x y t = Some t' /\ redrawn t t' /\ shown (fun y' _ => y' < y + 1) t'.
Proof.
  induction n as [|n IH]; intros x t Ht Hy Hx Hn Hs.
  - exists t. split_and!; [done|by split; [destruct t|apply same_rest_eq]|].
    revert Hs. apply shown_weaken. intros y' x' [? ?]. lia.
  - assert (in_grid fb y x) as Hg by (split; lia). destruct (cell_exists t y x Ht Hg) as [c Hc].
    cbn [render_row]. rewrite (tf_cols _ _ Ht). unfold cell_at in Hc. rewrite Hc. cbn [mbind option_bind].
    destruct (IH (x + 1) (draw t c x y)) as (t' & E & Hr & Hs'); [by apply draw_fits|lia..| |].
    + eapply shown_weaken; [|exact (draw_shown _ t c y x Ht Hg Hc Hs)]. intros y' x' _ ?. cbv beta.
      destruct (decide (y' = y /\ x' = x)) as [[-> ->]|]; [by right|left; lia].
    + exists t'. split_and!; [done| |done]. eapply redrawn_trans; [by apply draw_redrawn|done].
Qed.

Lemma render_rows_spec n : forall y t,
  term_fits fb t -> 0 <= y -> y + Z.of_nat n = rows fb -> shown (fun y' _ => y' < y) t ->
  exists t', render_rows n y t = Some t' /\ redrawn t t' /\ shown (fun _ _ => True) t'.
Proof.
  induction n as [|n IH]; intros y t Ht Hy Hn Hs.
  - exists t. split_and!; [done|by split; [destruct t|apply same_rest_eq]|].
    revert Hs. apply shown_weaken. intros y' x' [? ?]. lia.
  - pose proof dims as (_ & HC & _). cbn [render_rows]. rewrite (tf_cols _ _ Ht).
    destruct (render_row_spec (Z.to_nat (cols fb)) y 0 t) as (t1 & E1 & Hr1 & Hs1); [done|lia..| |].
    { revert Hs. apply shown_weaken. intros y' x' [_ ?]. lia. }
    rewrite E1. cbn [mbind option_bind].
    destruct (IH (y + 1) t1) as (t2 & E2 & Hr2 & Hs2); [by eapply redrawn_fits|lia|lia|done|].
    exists t2. split_and!; [done| |done]. by eapply redrawn_trans.
Qed.

(** Rendering puts every cell of the buffer on the screen. *)
Lemma terminal_render_spec t :
  term_fits fb t ->
  exists t', terminal_render t = Some t' /\ redrawn t t' /\ shown (fun _ _ => True) t'.
Proof.
  intros Ht. pose proof dims as (HR & _). unfold terminal_render. rewrite (tf_rows _ _ Ht).
  apply render_rows_spec; [done|lia|lia|]. intros y x c [? ?]. lia.
Qed.

(** ... so a terminal whose buffer holds a grid shows it after rendering. *)
Lemma render_ok t g :
  term_fits fb t -> current_row t = g_row g -> current_column t = g_col g -> in_grid fb (g_row g) (g_col g) ->
  (forall y x, in_grid fb y x -> cell_at fb (terminal_buffer t) y x = Some (g_cell g y x)) ->
  exists t', terminal_render t = Some t' /\ term_ok fb t' g /\ same_rest fb t t'.
Proof.
  intros Ht Hr Hc Hcur Hcells. destruct (terminal_render_spec t Ht) as (t' & E & Hd & Hs).
  exists t'. split_and!; [done| |apply Hd]. pose proof (redrawn_fits _ _ Hd Ht) as Ht'.
  destruct Hd as [Et _]. split; try (rewrite Et; done).
  - done.
  - done.
  - intros y x Hg. apply Hs; [done..|]. rewrite Et. by apply Hcells.
Qed.

(** ** Buffer updates *)

Lemma update_cells_spec f n : forall i b,
  (i + n <= length b)%nat ->
  exists b', update_cells f n i b = Some b' /\ length b' = length b /\
    forall j, b' !! j = if decide (i <= j < i + n)%nat then f <$> b !! j else b !! j.
Proof.
  induction n as [|n IH]; intros i b Hi.
  - exists b. split_and!; [done..|]. intros j. rewrite decide_False by lia. done.
  - destruct (lookup_lt_is_Some_2 b i) as [c Hc]; [lia|]. cbn [update_cells]. rewrite Hc. cbn [mbind option_bind].
    destruct (IH (S i) (<[i:=f c]> b)) as (b' & E & Hl & Hb); [rewrite length_insert; lia|].
    exists b'. rewrite length_insert in Hl. split_and!; [done..|]. intros j. rewrite Hb.
    destruct (decide (j = i)) as [->|Hj].
    + rewrite decide_False by lia. rewrite decide_True by lia.
      rewrite list_lookup_insert_eq by lia. by rewrite Hc.
    + rewrite list_lookup_insert_ne by done. repeat case_decide; try lia; done.
Qed.

Lemma update_cells_overrun f n : forall i b,
  (i <= length b)%nat -> (length b < i + n)%nat -> update_cells f n i b = None.
Proof.
  induction n as [|n IH]; intros i b Hi Hn; [lia|]. cbn [update_cells].
  destruct (b !! i) as [c|] eqn:Hc; [|done]. cbn [mbind option_bind].
  apply lookup_lt_Some in Hc. apply IH; rewrite length_insert; lia.
Qed.

Lemma buffer_size_val t :
  term_fits fb t -> buffer_size t = rows fb * cols fb.
Proof.
  intros Ht. pose proof dims as (HR & HC & _). unfold buffer_size. rewrite (tf_rows _ _ Ht), (tf_cols _ _ Ht).
  rewrite TERM_CELLS_val in Hfit. rewrite swrap_small, wrap_small by lia. done.
Qed.

(** Filling the buffer with one cell and rendering it. *)
Lemma fill_ok t f c :
  term_fits fb t -> (forall c', f c' = c) ->
  exists b, update_cells f (Z.to_nat (buffer_size t)) 0 (terminal_buffer t) = Some b /\
    exists t', terminal_render (set_cursor (set_buffer t b) 0 0) = Some t' /\
      term_ok fb t' (g_blank c) /\ same_rest fb t t'.
Proof.
  intros Ht Hf. pose proof dims as (HR & HC & _). rewrite buffer_size_val by done.
  pose proof (tf_len _ _ Ht) as Hl. destruct (update_cells_spec f (Z.to_nat (rows fb * cols fb)) 0 (terminal_buffer t))
    as (b & E & Hlb & Hb); [rewrite Hl; lia|]. exists b. split; [done|].
  destruct (render_ok (set_cursor (set_buffer t b) 0 0) (g_blank c)) as (t' & E' & Hok & Hs); try done.
  - destruct Ht. split; try done. by rewrite <- Hl.
  - split; cbn; lia.
  - intros y x Hg. destruct (cell_exists t y x Ht Hg) as [c' Hc']. cbn. unfold cell_at in *.
    pose proof (cell_index y x Hg). rewrite Hb, decide_True by lia. rewrite Hc'. cbn. by rewrite Hf.
  - by exists t'.
Qed.
End Terminal.
