(* ===== verification/ConsoleClaims.v ===== *)
(** * The console: theorems

    Every operation of the terminal is the operation of the grid of the same
    name, keeps the screen in step with the grid, and writes nothing but the
    framebuffer.  The last section runs the theorems on a small screen. *)
From S2P Require Import Prelude Memory PageAlloc Slab Pmm Klib KlibSpec Console ConsoleSpec.
Import Klib Font Framebuffer Tty.

(** What an operation that takes grid [g] to [g'] does to a terminal. *)
Definition does (fb : framebuffer) (t : terminal) (r : option terminal) (g' : grid) : Prop :=
  exists t', r = Some t' /\ term_ok fb t' g' /\ same_rest fb t t'.

Section Operations.
Variable fb : framebuffer.
Hypothesis Hfb : screen_ok fb.
Hypothesis Hfit : rows fb * cols fb <= Z.of_nat TERM_CELLS.
Implicit Types (t : terminal) (g : grid).

Lemma does_trans t1 t2 r g : same_rest fb t1 t2 -> does fb t2 r g -> does fb t1 r g.
Proof. intros H (t' & E & Hok & Hs). exists t'. split_and!; [done..|]. by transitivity t2. Qed.

Lemma set_cursor_fits t r c : term_fits fb t -> term_fits fb (set_cursor t r c).
Proof. by intros []. Qed.

Lemma set_cursor_ok t g r c :
  term_ok fb t g -> in_grid fb r c -> term_ok fb (set_cursor t r c) (mk_grid r c (g_cell g)).
Proof. intros [] ?. split; try done. by apply set_cursor_fits. Qed.

(** The buffer after a scroll. *)
Lemma scroll_buffer t g :
  term_ok fb t g ->
  exists b, terminal_scroll t = Some (set_cursor (set_buffer t b) (rows fb - 1) (current_column t)) /\
    length b = TERM_CELLS /\
    forall y x, in_grid fb y x -> cell_at fb b y x = Some (g_scroll fb (g_cell g) y x).
Proof.
  intros Hok. pose proof (to_fits _ _ _ Hok) as Ht. pose proof (dims fb Hfb) as (HR & HC & _).
  pose proof (tf_len _ _ Ht) as Hl. unfold terminal_scroll. rewrite (tf_rows _ _ Ht), (tf_cols _ _ Ht).
  set (n := (rows fb - 1) * cols fb) in *. assert (0 <= n /\ n + cols fb = rows fb * cols fb) as [Hn0 Hn] by nia.
  rewrite decide_True by lia. set (b0 := take _ _ ++ _).
  assert (length b0 = TERM_CELLS) as Hl0 by (unfold b0; rewrite length_app, length_take, !length_drop; lia).
  destruct (update_cells_spec (fun c => mk_cell 32 (fg c) (bg c)) (Z.to_nat (cols fb)) (Z.to_nat n) b0)
    as (b & E & Hlb & Hb); [lia|].
  rewrite E. cbn [mbind option_bind]. exists b. rewrite wrap_small by lia. split_and!; [done|lia|].
  intros y x Hg. pose proof (cell_index fb Hfb y x Hg) as Hi. unfold cell_at. rewrite Hb.
  pose proof (to_cells _ _ _ Hok) as Hcells. unfold g_scroll. destruct Hg as [Hy Hx].
  destruct (Z.eqb_spec y (rows fb - 1)) as [->|Hne].
  - rewrite decide_True by lia. unfold b0. rewrite lookup_app_r by (rewrite length_take, length_drop; lia).
    rewrite lookup_drop, length_take, length_drop, Hl.
    replace (_ + _)%nat with (Z.to_nat ((rows fb - 1) * cols fb + x)) by lia.
    unfold cell_at in Hcells. rewrite Hcells by (split; lia). done.
  - assert (y * cols fb + x < n) by (unfold n; nia). rewrite decide_False by lia.
    unfold b0. rewrite lookup_app_l by (rewrite length_take, length_drop; lia).
    rewrite lookup_take_lt, lookup_drop by lia.
    rewrite <- Hcells by (split; lia). unfold cell_at. f_equal. lia.
Qed.

Lemma newline_does t g : term_ok fb t g -> does fb t (terminal_newline t) (g_newline fb g).
Proof.
  intros Hok. pose proof (to_fits _ _ _ Hok) as Ht. pose proof (dims fb Hfb) as (HR & HC & _).
  destruct (to_cursor _ _ _ Hok) as [Hrow Hcol]. unfold terminal_newline, g_newline.
  rewrite (to_row _ _ _ Hok), wrap_small by lia. cbn [total_rows current_row set_cursor].
  rewrite (tf_rows _ _ Ht). destruct (Z.ltb_spec (g_row g + 1) (rows fb)).
  - rewrite (proj2 (Z.leb_gt _ _)) by lia. eexists. split_and!; [done| |by apply same_rest_eq].
    apply set_cursor_ok; [done|split; lia].
  - rewrite (proj2 (Z.leb_le _ _)) by lia.
    pose proof (set_cursor_ok t g (g_row g) 0 Hok ltac:(split; lia)) as Hok'.
    destruct (scroll_buffer _ _ Hok') as (b & E & Hl & Hb).
    replace (terminal_scroll _) with (terminal_scroll (set_cursor t (g_row g) 0)) by done.
    rewrite E. cbn [mbind option_bind].
    eapply (does_trans _ (set_cursor (set_buffer t b) (rows fb - 1) 0)); [by apply same_rest_eq|].
    apply render_ok; try done; cbn.
    + by destruct Ht.
    + lia.
    + split; lia.
Qed.

(** Moving the cursor within the line, or to the next one. *)
Lemma advance_does t g col :
  term_ok fb t g -> 0 <= col ->
  does fb t (let t' := set_cursor t (current_row t) col in
             if total_columns t' <=? current_column t' then terminal_newline t' else Some t')
    (g_advance fb col g).
Proof.
  intros Hok Hcol. pose proof (to_fits _ _ _ Hok) as Ht. cbv zeta. cbn [total_columns current_column set_cursor].
  rewrite (tf_cols _ _ Ht). unfold g_advance. destruct (Z.ltb_spec col (cols fb)).
  - rewrite (proj2 (Z.leb_gt _ _)) by lia. eexists. split_and!; [done| |by apply same_rest_eq].
    destruct (to_cursor _ _ _ Hok). rewrite (to_row _ _ _ Hok). apply set_cursor_ok; [done|split; lia].
  - rewrite (proj2 (Z.leb_le _ _)) by lia.
    replace (terminal_newline (set_cursor t (current_row t) col)) with (terminal_newline t) by done.
    by apply newline_does.
Qed.

Lemma putentry_does t g c :
  term_ok fb t g ->
  does fb t (terminal_putentryat c (current_column t) (current_row t) t)
    (mk_grid (g_row g) (g_col g) (g_set (g_row g) (g_col g) c (g_cell g))).
Proof.
  intros Hok. pose proof (to_fits _ _ _ Hok) as Ht. pose proof (dims fb Hfb) as (HR & HC & _).
  pose proof (to_cursor _ _ _ Hok) as Hg. pose proof (cell_index fb Hfb _ _ Hg) as Hi.
  destruct Hg as [Hrow Hcol]. unfold terminal_putentryat.
  rewrite (to_row _ _ _ Hok), (to_col _ _ _ Hok), (tf_cols _ _ Ht), (tf_rows _ _ Ht).
  rewrite !(proj2 (Z.leb_gt _ _)) by lia. cbn [orb]. rewrite (tf_len _ _ Ht).
  rewrite decide_True by lia. set (i := Z.to_nat _). set (t1 := set_buffer t _).
  assert (term_fits fb t1) as Ht1.
  { destruct Ht. split; cbn; try done. by rewrite length_insert. }
  assert (forall y x, in_grid fb y x ->
    cell_at fb (terminal_buffer t1) y x = Some (g_set (g_row g) (g_col g) c (g_cell g) y x)) as Hcells.
  { intros y x Hyx. unfold g_set, cell_at, t1, i. cbn [terminal_buffer set_buffer].
    pose proof (cell_index fb Hfb y x Hyx). pose proof (cell_index_inj fb Hfb y x (g_row g) (g_col g) Hyx) as Hinj.
    destruct (Z.eqb_spec y (g_row g)), (Z.eqb_spec x (g_col g)); cbn [andb];
      try (rewrite list_lookup_insert_ne; [by apply (to_cells _ _ _ Hok)|intros E; destruct Hinj; [by split|lia|lia]]).
    subst. rewrite list_lookup_insert_eq; [done|rewrite (tf_len _ _ Ht); lia]. }
  destruct (draw_spec fb Hfb t1 c (g_row g) (g_col g) Ht1) as (H1 & H2 & H3); [by split|].
  eexists. split_and!; [done| |exact H3]. split.
  - by apply draw_fits.
  - apply Hok.
  - apply Hok.
  - by split.
  - exact Hcells.
  - intros y x Hyx. cbn [g_cell]. unfold g_set. destruct (Z.eqb_spec y (g_row g)), (Z.eqb_spec x (g_col g)); cbn [andb];
      try (apply H2; [done|congruence|by apply (to_shows _ _ _ Hok)]). by subst.
Qed.

Lemma putchar_does t g c : term_ok fb t g -> does fb t (terminal_putchar c t) (g_putchar fb c g).
Proof.
  intros Hok. pose proof (dims fb Hfb) as (HR & HC & _). destruct (to_cursor _ _ _ Hok) as [_ Hcol].
  unfold terminal_putchar, g_putchar. destruct (ch c =? 10); [by apply newline_does|].
  destruct (ch c =? 9).
  - pose proof (Z.div_mod (g_col g) 8 ltac:(lia)). pose proof (Z.mod_pos_bound (g_col g) 8 ltac:(lia)).
    unfold TAB_WIDTH. rewrite (to_col _ _ _ Hok), wrap_small by lia.
    replace (g_col g + (8 - g_col g mod 8)) with (8 * (g_col g / 8 + 1)) by lia.
    apply advance_does; [done|lia].
  - destruct (putentry_does t g c Hok) as (t1 & E & Hok1 & Hs). rewrite E. cbn [mbind option_bind].
    eapply does_trans; [exact Hs|]. pose proof (to_col _ _ _ Hok1) as Hc1. cbn in Hc1.
    rewrite Hc1, wrap_small by lia. apply advance_does; [done|lia].
Qed.

(** The bytes of a string, read before anything is written. *)
Definition bytes_at (m : mem) (a : Z) (n : nat) : list Z := map (fun i => read8 m (a + Z.of_nat i)) (seq 0 n).

Lemma bytes_at_S m a n : bytes_at m a (S n) = read8 m a :: bytes_at m (a + 1) n.
Proof.
  unfold bytes_at. cbn [seq map]. rewrite <- seq_shift, map_map. f_equal; [f_equal; lia|].
  apply map_ext. intros i. f_equal. lia.
Qed.

Lemma bytes_at_agree P m m' a n :
  agree P m m' -> (forall x, in_range a (Z.of_nat n) x -> P x) -> bytes_at m a n = bytes_at m' a n.
Proof.
  intros Ha HP. unfold bytes_at. apply map_ext_in. intros i Hi%in_seq. apply Ha, HP.
  unfold in_range. lia.
Qed.

Lemma write_does n : forall data t g,
  term_ok fb t g -> (forall a, in_range data (Z.of_nat n) a -> ~ fb_byte fb a) ->
  does fb t (terminal_write_loop n data t)
    (g_write fb (terminal_fg_color t) (terminal_bg_color t) (bytes_at (t_mem t) data n) g).
Proof.
  induction n as [|n IH]; intros data t g Hok Hd; [by exists t|].
  rewrite bytes_at_S. cbn [terminal_write_loop]. unfold g_write. cbn [fold_left].
  set (c := mk_cell _ _ _). destruct (putchar_does t g c Hok) as (t1 & E & Hok1 & Hs). rewrite E.
  cbn [mbind option_bind]. eapply does_trans; [exact Hs|]. destruct Hs as (Hf & Hb & Ha).
  rewrite <- Hf, <- Hb. rewrite (bytes_at_agree _ _ _ (data + 1) n Ha).
  - apply IH; [done|]. intros a Hr. apply Hd. unfold in_range in *. lia.
  - intros a Hr. apply Hd. unfold in_range in *. lia.
Qed.
End Operations.

(** ** Properties *)

Lemma terminal_initialize_spec fb t f b :
  screen_ok fb -> primary_fb t = Some fb -> length (terminal_buffer t) = TERM_CELLS ->
  (rows fb * cols fb <= Z.of_nat TERM_CELLS ->
     exists t', terminal_initialize f b t = Some t' /\ term_ok fb t' (g_blank (mk_cell 32 f b)) /\
       terminal_fg_color t' = f /\ terminal_bg_color t' = b /\
       agree (fun a => ~ fb_byte fb a) (t_mem t) (t_mem t')) /\
  (Z.of_nat TERM_CELLS < rows fb * cols fb < 2 ^ 31 -> terminal_initialize f b t = None).
Proof.
  intros Hfb Ht Hl. pose proof (dims fb Hfb) as (HR & HC & _).
  unfold terminal_initialize, get_screen_dimensions. rewrite Ht. cbn [mbind option_bind].
  change (fb_height fb / FONT_HEIGHT) with (rows fb). change (fb_width fb / FONT_WIDTH) with (cols fb).
  rewrite !wrap_small by lia. set (t1 := terminal_setcolor f b _). split.
  - intros Hfit. assert (term_fits fb t1) as Ht1 by (by split).
    destruct (fill_ok fb Hfb Hfit t1 (fun _ => mk_cell 32 f b) (mk_cell 32 f b) Ht1)
      as (b' & E & t' & E' & Hok & Hf & Hb & Ha); [done|].
    rewrite E. cbn [mbind option_bind]. exists t'. by split_and!.
  - intros Hbig. rewrite (update_cells_overrun _ _ 0 (terminal_buffer t1)); [done|lia|].
    change (length (terminal_buffer t1)) with (length (terminal_buffer t)). rewrite Hl.
    unfold buffer_size. cbn [total_rows total_columns t1 terminal_setcolor set_cursor set_size].
    rewrite swrap_small, wrap_small by lia. lia.
Qed.

(** C37. [terminal_initialize] on a framebuffer whose text screen fits the cell
    buffer clears the whole screen: every cell is a blank in the given
    colours, in the buffer and in pixels, the cursor is at the origin, and no
    byte outside the framebuffer changes.  On a larger framebuffer it writes
    past the end of the buffer, which the code does not check. *)
Theorem terminal_initialize_correct fb t f b :
  screen_ok fb -> primary_fb t = Some fb -> length (terminal_buffer t) = TERM_CELLS ->
  (rows fb * cols fb <= Z.of_nat TERM_CELLS ->
     exists t', terminal_initialize f b t = Some t' /\ term_ok fb t' (g_blank (mk_cell 32 f b)) /\
       terminal_fg_color t' = f /\ terminal_bg_color t' = b /\
       agree (fun a => ~ fb_byte fb a) (t_mem t) (t_mem t')) /\
  (Z.of_nat TERM_CELLS < rows fb * cols fb < 2 ^ 31 -> terminal_initialize f b t = None).
Proof. apply terminal_initialize_spec. Qed.

(** C36. Writing characters to the terminal is writing them to the grid: each
    one lands at the cursor in the current colours, a newline and a full line
    move to the next row, a tab to the next multiple of eight, and beyond the
    last row everything moves up by one.  Afterwards every cell of the grid is
    in the buffer and every one of its pixels on the screen, and no byte
    outside the framebuffer has changed. *)
Theorem terminal_write_refines fb t g data size :
  screen_ok fb -> rows fb * cols fb <= Z.of_nat TERM_CELLS ->
  term_ok fb t g -> 0 <= size -> (forall a, in_range data size a -> ~ fb_byte fb a) ->
  exists t', terminal_write data size t = Some t' /\
    term_ok fb t' (g_write fb (terminal_fg_color t) (terminal_bg_color t)
                     (bytes_at (t_mem t) data (Z.to_nat size)) g) /\
    same_rest fb t t'.
Proof.
  intros Hfb Hfit Hok Hs Hd. apply write_does; [done..|]. intros a Ha. apply Hd.
  by rewrite Z2Nat.id in Ha by lia.
Qed.

(** [terminal_clear] resets every cell to a blank in the default colours,
    in the buffer and on the screen, and the cursor to the origin. *)
Theorem terminal_clear_correct fb t g :
  screen_ok fb -> rows fb * cols fb <= Z.of_nat TERM_CELLS -> term_ok fb t g ->
  exists t', terminal_clear t = Some t' /\ term_ok fb t' (g_blank (mk_cell 32 0xFFFFFF 0x000035)) /\
    same_rest fb t t'.
Proof.
  intros Hfb Hfit Hok.
  destruct (fill_ok fb Hfb Hfit t (fun _ => mk_cell 32 0xFFFFFF 0x000035) (mk_cell 32 0xFFFFFF 0x000035) (to_fits _ _ _ Hok))
    as (b & E & t' & E' & Hr); [done|].
  unfold terminal_clear. rewrite E. cbn [mbind option_bind]. exists t'. by split.
Qed.

(** ** A screen of four columns and three rows *)

Definition demo_fb : framebuffer := mk_fb 0x1000 32 24 128.
Definition demo_term : terminal :=
  mk_term (Some demo_fb) 0 0 0 0 0 0 (replicate TERM_CELLS (mk_cell 0 0 0)) (<[0x100 := 65]> ∅).

Lemma demo_screen : screen_ok demo_fb.
Proof. by split. Qed.

Lemma demo_fit : rows demo_fb * cols demo_fb <= Z.of_nat TERM_CELLS.
Proof. rewrite TERM_CELLS_val. by vm_compute. Qed.

(** The screen after [terminal_initialize]. *)
Lemma terminal_initialize_correct_witness :
  exists t, terminal_initialize 0xFFFFFF 0x35 demo_term = Some t /\
    term_ok demo_fb t (g_blank (mk_cell 32 0xFFFFFF 0x35)) /\
    terminal_fg_color t = 0xFFFFFF /\ terminal_bg_color t = 0x35 /\
    agree (fun a => ~ fb_byte demo_fb a) (t_mem demo_term) (t_mem t).
Proof.
  apply (terminal_initialize_correct demo_fb demo_term 0xFFFFFF 0x35 demo_screen);
    [reflexivity|apply length_replicate|exact demo_fit].
Defined.

(** A terminal that shows a blank grid, over any memory. *)
Lemma demo_started (m : mem) :
  exists t, term_ok demo_fb t (g_blank (mk_cell 32 0xFFFFFF 0x35)) /\
    agree (fun a => ~ fb_byte demo_fb a) m (t_mem t).
Proof.
  destruct (fill_ok demo_fb demo_screen demo_fit
    (mk_term (Some demo_fb) 3 4 0 0 0 0 (replicate TERM_CELLS (mk_cell 0 0 0)) m)
    (fun _ => mk_cell 32 0xFFFFFF 0x35) (mk_cell 32 0xFFFFFF 0x35)) as (b & _ & t & _ & Hok & _ & _ & Ha);
    [by split; [..|apply length_replicate]|done|].
  by exists t.
Qed.

(** One character on that terminal moves the cursor by one. *)
Lemma terminal_write_refines_witness :
  exists t t' g, terminal_write 0x100 1 t = Some t' /\ term_ok demo_fb t' g /\
    g_col g = 1 /\ ch (g_cell g 0 0) = 65.
Proof.
  destruct (demo_started (<[0x100 := 65]> ∅)) as (t & Hok & Ha).
  assert (read8 (t_mem t) 0x100 = 65) as H65.
  { rewrite <- Ha; [reflexivity|]. unfold fb_byte, in_range. cbn. lia. }
  destruct (terminal_write_refines demo_fb t _ 0x100 1 demo_screen demo_fit Hok) as (t' & E & Hok' & _).
  - lia.
  - intros a. unfold fb_byte, in_range. cbn. lia.
  - exists t, t'. eexists. split; [exact E|]. split; [exact Hok'|].
    change (Z.to_nat 1) with 1%nat. rewrite bytes_at_S, H65. split; reflexivity.
Defined.

Lemma terminal_clear_correct_witness :
  exists t t', terminal_clear t = Some t' /\ term_ok demo_fb t' (g_blank (mk_cell 32 0xFFFFFF 0x000035)).
Proof.
  destruct (demo_started ∅) as (t & Hok & _).
  destruct (terminal_clear_correct demo_fb t _ demo_screen demo_fit Hok) as (t' & E & Hok' & _).
  by exists t, t'.
Defined.
