(* ===== verification/Klog.v ===== *)
(** * The kernel log: operations

    Models src/kernel/kernel/console/logging/klogging.c with bufferutils.h and
    klogging.h: the formatter [kvsprintf] on the byte memory, and the four
    printing routines on top of the terminal.  The arguments of a variadic call
    are a list of 64-bit values, as the calling convention passes them; [None]
    is undefined behaviour (an argument that was not passed, an endless string,
    a cell outside the terminal's buffer) or waiting for ever. *)
From S2P Require Import Prelude Memory PageAlloc Slab Pmm Klib Locks Console.
Import Klib Locks Tty.

(** Where the compiler and the linker put the arrays and literals in use: the
    buffer of the caller, the block-scoped arrays of [kvsprintf] (no two of
    them live at the same time), and the string literals. *)
Class KlogLinker := {
  buf : Z;
  num_buf : Z;
  lit_percent_l : Z;
  lit_overflow : Z;
  lit_open : Z;
  lit_ok : Z;
  lit_warning : Z;
  lit_error : Z;
  lit_close : Z;
}.

Module Klog.

Definition KPRINTF_BUF_SIZE : Z := 1024.
Definition MAX_INT_DIGITS : Z := 21.
Definition MAX_HEX_DIGITS : Z := 17.
Definition EOVERFLOW : Z := 75.

(** ** bufferutils.h: the memory, the new length and the value of the macro *)

Definition BUFFER_SAFE_WRITE_CH (m : mem) (buf len max ch : Z) : mem * Z * bool :=
  if len <? max then (write8 m (buf + len) ch, len + 1, true) else (m, len, false).

(** [while ( *s && len < max - 1) buf[len++] = *s++] *)
Fixpoint write_str_loop (fuel : nat) (m : mem) (buf len max s : Z) : option (mem * Z * Z) :=
  match fuel with
  | O => None
  | S fuel =>
    if negb (read8 m s =? 0) && (len <? max - 1)
    then write_str_loop fuel (write8 m (buf + len) (read8 m s)) buf (len + 1) max (s + 1)
    else Some (m, len, s)
  end.

Definition BUFFER_SAFE_WRITE_STR (fuel : nat) (m : mem) (buf len max str : Z) : option (mem * Z * bool) :=
  '(m, len, s) ← write_str_loop fuel m buf len max str;
  let res := if negb (read8 m s =? 0) && (max - 1 <=? len) then false else true in
  Some (m, len, res).

(** [for (i = 0; i < int_str_len; i++)] of the case 'd', from index [i]. *)
Fixpoint write_chars (n : nat) (m : mem) (buf len max num_buf : Z) (i : Z) : mem * Z * bool :=
  match n with
  | O => (m, len, true)
  | S n =>
    let '(m, len, ok) := BUFFER_SAFE_WRITE_CH m buf len max (read8 m (num_buf + i)) in
    if ok : bool then write_chars n m buf len max num_buf (i + 1) else (m, len, false)
  end.

(** [if (!...) return -EOVERFLOW;] and the rest of the function. *)
Definition emit (r : mem * Z * bool) (k : mem -> Z -> option (mem * Z)) : option (mem * Z) :=
  let '(m, len, ok) := r in if ok : bool then k m len else Some (m, - EOVERFLOW).

(** ** kvsprintf *)

Section Format.
Context `{KlogLinker}.

(** The next argument; with none left the behaviour is undefined. *)
Definition va_arg (args : list Z) : option (Z * list Z) :=
  match args with [] => None | a :: args => Some (a, args) end.

(** The switch on the conversion character [curr_ch]; [format] is behind it.
    [k] is the rest of the loop. *)
Definition convert (fuel : nat) (m : mem) (buf len format : Z) (args : list Z) (curr_ch : Z)
    (k : mem -> Z -> Z -> list Z -> option (mem * Z)) : option (mem * Z) :=
  let put_str m len str k :=
    r ← BUFFER_SAFE_WRITE_STR fuel m buf len KPRINTF_BUF_SIZE str; emit r k in
  let put_ch m len ch k := emit (BUFFER_SAFE_WRITE_CH m buf len KPRINTF_BUF_SIZE ch) k in
  if curr_ch =? 100 then (* 'd' *)
    '(a, args) ← va_arg args;
    '(m, int_str_len) ← itoa fuel m (s32 a) num_buf;
    emit (write_chars (Z.to_nat int_str_len) m buf len KPRINTF_BUF_SIZE num_buf 0)
      (fun m len => k m len format args)
  else if curr_ch =? 115 then (* 's' *)
    '(str, args) ← va_arg args;
    put_str m len str (fun m len => k m len format args)
  else if curr_ch =? 99 then (* 'c' *)
    '(a, args) ← va_arg args;
    put_ch m len (w8 a) (fun m len => k m len format args)
  else if curr_ch =? 112 then (* 'p' *)
    '(ptr, args) ← va_arg args;
    if ptr =? 0 then
      let m := store 4 m num_buf 0x00307830 in (* char msg[] = "0x0" *)
      put_str m len num_buf (fun m len => k m len format args)
    else
      '(m, _) ← ui64_to_hex_str fuel m ptr num_buf;
      put_str m len num_buf (fun m len => k m len format args)
  else if curr_ch =? 120 then (* 'x' *)
    '(a, args) ← va_arg args;
    '(m, _) ← ui64_to_hex_str fuel m (w32 a) num_buf;
    put_str m len num_buf (fun m len => k m len format args)
  else if curr_ch =? 108 then (* 'l' *)
    if read8 m format =? 117 then (* 'u' *)
      '(val, args) ← va_arg args;
      '(m, _) ← ul_to_str fuel m val num_buf;
      put_str m len num_buf (fun m len => k m len (format + 1) args)
    else if read8 m format =? 120 then (* 'x' *)
      '(val, args) ← va_arg args;
      '(m, _) ← ui64_to_hex_str fuel m val num_buf;
      put_str m len num_buf (fun m len => k m len (format + 1) args)
    else
      put_str m len lit_percent_l (fun m len =>
        put_ch m len (read8 m format) (fun m len => k m len (format + 1) args))
  else if curr_ch =? 117 then (* 'u' *)
    '(a, args) ← va_arg args;
    '(m, _) ← ul_to_str fuel m (w32 a) num_buf;
    put_str m len num_buf (fun m len => k m len format args)
  else
    put_ch m len 37 (fun m len => put_ch m len curr_ch (fun m len => k m len format args)).

Fixpoint kvsprintf_loop (fuel : nat) (m : mem) (buf len format : Z) (args : list Z) : option (mem * Z) :=
  match fuel with
  | O => None
  | S fuel =>
    if read8 m format =? 0 then Some (m, len) else
    let curr_ch := read8 m format in
    let format := format + 1 in
    if negb (curr_ch =? 37) then
      emit (BUFFER_SAFE_WRITE_CH m buf len KPRINTF_BUF_SIZE curr_ch)
        (fun m len => kvsprintf_loop fuel m buf len format args)
    else if read8 m format =? 37 then
      emit (BUFFER_SAFE_WRITE_CH m buf len KPRINTF_BUF_SIZE curr_ch)
        (fun m len => kvsprintf_loop fuel m buf len (format + 1) args)
    else
      let curr_ch := read8 m format in
      convert (S fuel) m buf len (format + 1) args curr_ch
        (fun m len format args => kvsprintf_loop fuel m buf len format args)
  end.

Definition kvsprintf (fuel : nat) (m : mem) (buf format : Z) (args : list Z) : option (mem * Z) :=
  kvsprintf_loop fuel m buf 0 format args.

(** ** kprintf and the tagged variants

    The state: the terminal with the memory, the lock and the RFLAGS of the
    CPU that prints. *)
Record console := mk_console { c_term : terminal; kprint_lock : Z; c_rflags : Z }.

Definition set_term (k : console) (t : terminal) : console := mk_console t (kprint_lock k) (c_rflags k).

(** A CPU that finds the lock taken spins; with nobody to release it, for ever. *)
Definition lock_intsave (k : console) : option (console * Z) :=
  let '(rflags, flags) := spinlock_lock_intsave (c_rflags k) in
  match spin_step Continue SXchg (kprint_lock k) with
  | Some (SIn, lock) => Some (mk_console (c_term k) lock rflags, flags)
  | _ => None
  end.

Definition unlock_intrestore (k : console) (flags : Z) : console :=
  mk_console (c_term k) (atomic_set (kprint_lock k) 0) (spinlock_unlock_intrestore flags).

(** [t] with the lock held. *)
Definition locked (k : console) (f : terminal -> option terminal) : option console :=
  '(k, flags) ← lock_intsave k;
  t ← f (c_term k);
  Some (unlock_intrestore (set_term k t) flags).

(** [kvsprintf] into the caller's array; on overflow the error message. *)
Definition print_with (fuel : nat) (k : console) (format : Z) (args : list Z)
    (f : Z -> terminal -> option terminal) : option console :=
  '(m, out_len) ← kvsprintf fuel (t_mem (c_term k)) buf format args;
  let k := set_term k (set_tmem (c_term k) m) in
  if out_len <? 0 then locked k (terminal_writestring fuel lit_overflow)
  else locked k (f out_len).

(** [terminal_writestring("["); terminal_setcolor(...); ...] *)
Definition write_tagged (fuel : nat) (color tag out_len : Z) (t : terminal) : option terminal :=
  t ← terminal_writestring fuel lit_open t;
  let t := terminal_setcolor color 0x000035 t in
  t ← terminal_writestring fuel tag t;
  let t := terminal_setcolor 0xFFFFFF 0x000035 t in
  t ← terminal_writestring fuel lit_close t;
  terminal_write buf out_len t.

Definition kprintf (fuel : nat) (k : console) (format : Z) (args : list Z) : option console :=
  print_with fuel k format args (fun out_len => terminal_write buf out_len).

Definition KSUCCESS (fuel : nat) (k : console) (format : Z) (args : list Z) : option console :=
  print_with fuel k format args (write_tagged fuel 0x00FF00 lit_ok).

Definition KWARN (fuel : nat) (k : console) (format : Z) (args : list Z) : option console :=
  print_with fuel k format args (write_tagged fuel 0xFFFF00 lit_warning).

Definition KERROR (fuel : nat) (k : console) (format : Z) (args : list Z) : option console :=
  print_with fuel k format args (write_tagged fuel 0xFF0000 lit_error).

(** The levels of tagged messages. *)
Inductive level := Success | Warning | Error.

Definition klog (lv : level) : nat -> console -> Z -> list Z -> option console :=
  match lv with Success => KSUCCESS | Warning => KWARN | Error => KERROR end.

End Format.

End Klog.
