(* ===== verification/KlogSpec.v ===== *)
(** * The kernel log: correctness

    A format string is parsed into [directive]s, each directive with its
    arguments expands to [chunk]s of text, and the chunks are laid out in a
    buffer of 1024 bytes.  [kvsprintf] computes this function on byte memory;
    the printing routines write its result to the grid of the terminal. *)
From S2P Require Import Prelude Memory PageAlloc Slab Pmm Klib KlibSpec Locks Console ConsoleSpec ConsoleClaims Klog.
Import Klib Locks Tty Klog.

(** ** Numerals *)

(** The digits of [v] in base [b], most significant first ([n] bounds their number). *)
Fixpoint num (b : Z) (n : nat) (v : Z) : list Z :=
  match n with
  | O => []
  | S n => (if v <? b then [] else num b n (v / b)) ++ [v mod b]
  end.

Lemma num_unique b n ds v :
  2 <= b -> Forall (fun d => 0 <= d < b) ds -> read_digits b ds = v ->
  ((1 < length ds)%nat -> head ds <> Some 0) -> ds <> [] -> (length ds <= n)%nat ->
  ds = num b n v.
Proof.
  intros Hb. revert n v. induction ds as [|d ds IH] using rev_ind; intros n v Hr Hv Hh Hne Hn; [done|].
  apply Forall_app in Hr as [Hr Hd]. rewrite Forall_singleton in Hd.
  rewrite length_app in *. destruct n as [|n]; [simpl in Hn; lia|]. cbn [num].
  unfold read_digits in Hv. rewrite fold_left_app in Hv. cbn [fold_left] in Hv.
  change (fold_left _ ds 0) with (read_digits b ds) in Hv. simpl in Hn, Hh.
  assert (v mod b = d) as -> by (symmetry; apply (Z.mod_unique _ _ (read_digits b ds)); lia).
  assert (v / b = read_digits b ds) as ->.
  { symmetry. apply (Z.div_unique _ _ _ d); lia. }
  f_equal. destruct (decide (ds = [])) as [->|Hds].
  - rewrite (proj2 (Z.ltb_lt _ _)); [done|]. cbn in Hv. lia.
  - destruct ds as [|e ds]; [done|]. assert (e <> 0) as He.
    { intros ->. apply Hh; simpl; [lia|done]. }
    assert (1 <= read_digits b (e :: ds)) as Hpos.
    { apply Forall_cons in Hr as [He0 Hr]. unfold read_digits. cbn [fold_left].
      assert (1 <= 0 * b + e) as H1 by lia. revert H1 Hr. generalize (0 * b + e). clear -Hb.
      induction ds as [|x ds IH]; intros a Ha Hr; [done|]. apply Forall_cons in Hr as [Hx Hr].
      cbn [fold_left]. apply IH; [nia|done]. }
    rewrite (proj2 (Z.ltb_ge _ _)) by nia. apply IH; try done; [|lia].
    intros _ [= E]. done.
Qed.

Lemma num_length b n v k :
  2 <= b -> 0 <= v < b ^ Z.of_nat k -> (1 <= k)%nat -> (length (num b n v) <= k)%nat.
Proof.
  intros Hb. revert v k. induction n as [|n IH]; intros v k Hv Hk; simpl; [lia|].
  rewrite length_app. simpl. destruct (Z.ltb_spec v b); simpl; [lia|].
  destruct k as [|k]; [lia|]. rewrite Nat2Z.inj_succ, Z.pow_succ_r in Hv by lia.
  assert (1 <= k)%nat by (destruct k; [simpl in Hv; lia|lia]).
  pose proof (Z.div_pos v b ltac:(lia) ltac:(lia)). pose proof (Z.div_lt_upper_bound v b (b ^ Z.of_nat k)).
  specialize (IH (v / b) k). lia.
Qed.

Arguments num : simpl never.

Definition dec_str (v : Z) : list Z := (fun d => 48 + d) <$> num 10 64 v.
Definition hex_str (v : Z) : list Z := hex_char <$> num 16 64 v.

(** What [%d] prints; the smallest [int] has no negation, see [itoa_int_min]. *)
Definition int_str (i : Z) : list Z :=
  if i =? - 2 ^ 31 then [45; 40]
  else (if i <? 0 then [45] else []) ++ dec_str (Z.abs i).

Lemma read_digits_length b ds :
  2 <= b -> Forall (fun d => 0 <= d < b) ds -> ((1 < length ds)%nat -> head ds <> Some 0) ->
  (1 < length ds)%nat -> 2 ^ Z.of_nat (length ds - 1) <= read_digits b ds.
Proof.
  intros Hb Hr Hh Hl. destruct ds as [|e ds]; [simpl in Hl; lia|].
  apply Forall_cons in Hr as [He Hr]. assert (e <> 0) by (intros ->; by apply Hh).
  unfold read_digits. cbn [fold_left]. replace (length (e :: ds) - 1)%nat with (length ds) by (simpl; lia).
  assert (1 <= 0 * b + e) as H1 by lia. rewrite <- (Z.mul_1_l (2 ^ _)).
  assert (forall a, 1 <= a -> a * 2 ^ Z.of_nat (length ds) <= fold_left (fun acc d => acc * b + d) ds a) as Hfold.
  { clear -Hb Hr. induction ds as [|x ds IH]; intros a Ha; [simpl; lia|].
    apply Forall_cons in Hr as [Hx Hr]. cbn [fold_left]. etransitivity; [|apply IH; [done|nia]].
    simpl length. rewrite Nat2Z.inj_succ, Z.pow_succ_r by lia.
    assert (0 < 2 ^ Z.of_nat (length ds)) by (apply Z.pow_pos_nonneg; lia). nia. }
  etransitivity; [|apply Hfold, H1]. apply Z.mul_le_mono_nonneg_r; [|lia]. apply Z.pow_nonneg. lia.
Qed.

Lemma printed_num b ds v :
  2 <= b -> Forall (fun d => 0 <= d < b) ds -> read_digits b ds = v -> 0 <= v < 2 ^ 64 ->
  ((1 < length ds)%nat -> head ds <> Some 0) -> ds <> [] -> ds = num b 64 v.
Proof.
  intros Hb Hr Hv Hv64 Hh Hne. apply num_unique; try done.
  destruct (decide (1 < length ds)%nat) as [Hl|]; [|lia].
  pose proof (read_digits_length b ds Hb Hr Hh Hl) as Hp. rewrite Hv in Hp.
  assert (Z.of_nat (length ds - 1) < 64); [|lia]. apply (Z.pow_lt_mono_r_iff 2); lia.
Qed.

Lemma prints_num b ch m str ds v :
  2 <= b -> prints b ch m str ds v -> 0 <= v < 2 ^ 64 -> ds = num b 64 v.
Proof. intros Hb (_ & Hv & Hr & Hh & Hne) Hv64. by apply printed_num. Qed.

(** ** Formats *)

Inductive directive :=
  | DLit (c : Z)              (** a character, or [%%] *)
  | DDec | DStr | DChr | DPtr | DHex | DUns
  | DLongU | DLongX
  | DUnknownLong (c : Z)      (** [%l] before another character *)
  | DUnknown (c : Z).

Definition conversion (c : Z) : directive :=
  if c =? 37 then DLit 37 else if c =? 100 then DDec else if c =? 115 then DStr
  else if c =? 99 then DChr else if c =? 112 then DPtr else if c =? 120 then DHex
  else if c =? 117 then DUns else DUnknown c.

Definition long_conversion (c : Z) : directive :=
  if c =? 117 then DLongU else if c =? 120 then DLongX else DUnknownLong c.

(** [None]: the format ends inside a conversion. *)
Fixpoint parse (f : list Z) : option (list directive) :=
  match f with
  | [] => Some []
  | c :: f =>
    if c =? 37 then
      match f with
      | [] => None
      | d :: f =>
        if d =? 108 then match f with [] => None | e :: f => cons (long_conversion e) <$> parse f end
        else cons (conversion d) <$> parse f
      end
    else cons (DLit c) <$> parse f
  end.

(** Text that was written character by character, or as a string: the macros
    for the two leave different room at the end of the buffer. *)
Inductive chunk := Chars (l : list Z) | Text (l : list Z).

Definition chunk_text (c : chunk) : list Z := match c with Chars l | Text l => l end.
Definition text (cs : list chunk) : list Z := concat (chunk_text <$> cs).

Definition chunk_fits (n : Z) (c : chunk) : bool :=
  match c with
  | Chars l => n + Z.of_nat (length l) <=? 1024
  | Text l => bool_decide (l = []) || (n + Z.of_nat (length l) <=? 1023)
  end.

Fixpoint fits (n : Z) (cs : list chunk) : bool :=
  match cs with
  | [] => true
  | c :: cs => chunk_fits n c && fits (n + Z.of_nat (length (chunk_text c))) cs
  end.

(** The strings that arguments point to. *)
Definition strings := gmap Z (list Z).

Definition expand1 (strs : strings) (d : directive) (args : list Z) : option (list chunk * list Z) :=
  match d, args with
  | DLit c, _ => Some ([Chars [c]], args)
  | DUnknown c, _ => Some ([Chars [37]; Chars [c]], args)
  | DUnknownLong c, _ => Some ([Text [37; 108]; Chars [c]], args)
  | DDec, a :: args => Some ([Chars (int_str (s32 a))], args)
  | DStr, a :: args => l ← strs !! a; Some ([Text l], args)
  | DChr, a :: args => Some ([Chars [w8 a]], args)
  | DPtr, a :: args => Some ([Text (if a =? 0 then [48; 120; 48] else hex_str a)], args)
  | DHex, a :: args => Some ([Text (hex_str (w32 a))], args)
  | DUns, a :: args => Some ([Text (dec_str (w32 a))], args)
  | DLongU, a :: args => Some ([Text (dec_str a)], args)
  | DLongX, a :: args => Some ([Text (hex_str a)], args)
  | _, [] => None
  end.

Fixpoint expand (strs : strings) (ds : list directive) (args : list Z) : option (list chunk) :=
  match ds with
  | [] => Some []
  | d :: ds => '(cs, args) ← expand1 strs d args; app cs <$> expand strs ds args
  end.

(** The text of a formatted message. *)
Definition format_text (strs : strings) (f args : list Z) : option (list chunk) :=
  ds ← parse f; expand strs ds args.

Lemma fits_bound n cs : 0 <= n -> fits n cs = true -> n <= 1024 -> n + Z.of_nat (length (text cs)) <= 1024.
Proof.
  revert n. induction cs as [|c cs IH]; intros n Hn; cbn [fits]; [simpl; lia|].
  intros [Hc Hf]%andb_prop Hn'. unfold text in *. cbn [fmap list_fmap concat]. rewrite length_app.
  apply IH in Hf; [lia|lia|]. destruct c as [l|l]; cbn [chunk_fits chunk_text] in *; [lia|].
  apply orb_prop in Hc as [->%bool_decide_eq_true|Hc]; simpl in *; lia.
Qed.

(** Any message of at most 1023 characters fits. *)
Lemma fits_small n cs : 0 <= n -> n + Z.of_nat (length (text cs)) <= 1023 -> fits n cs = true.
Proof.
  revert n. induction cs as [|c cs IH]; intros n Hn Hl; cbn [fits]; [done|].
  unfold text in Hl. cbn [fmap list_fmap concat] in Hl. rewrite length_app in Hl.
  apply andb_true_intro. split; [|apply IH; unfold text; lia].
  destruct c as [l|l]; cbn [chunk_fits chunk_text] in *; [lia|]. apply orb_true_intro. right. lia.
Qed.

(** ** Numbers in memory *)

Lemma dec_str_length v : 0 <= v < 2 ^ 64 -> (length (dec_str v) <= 20)%nat.
Proof. intros Hv. unfold dec_str. rewrite length_fmap. apply num_length; lia. Qed.

Lemma hex_str_length v : 0 <= v < 2 ^ 64 -> (length (hex_str v) <= 16)%nat.
Proof. intros Hv. unfold hex_str. rewrite length_fmap. apply num_length; lia. Qed.

Lemma print_ul fuel m v str :
  0 <= v < 2 ^ 64 -> (66 <= fuel)%nat ->
  exists m' len, ul_to_str fuel m v str = Some (m', len) /\ cstr m' str (dec_str v) /\
    agree (fun x => ~ in_range str MAX_INT_DIGITS x) m m'.
Proof.
  intros Hv Hf. destruct (ul_to_str_roundtrip m v str fuel Hv Hf) as (m' & ds & E & Hp & Ha).
  assert (ds = num 10 64 v) as -> by (eapply prints_num; [lia|exact Hp|exact Hv]). exists m'. eexists. split_and!; [done|apply Hp|].
  eapply agree_sub; [exact Ha|]. pose proof (dec_str_length v Hv) as Hl. unfold dec_str in Hl.
  rewrite length_fmap in Hl. unfold in_range, MAX_INT_DIGITS. lia.
Qed.

Lemma print_hex fuel m v str :
  0 <= v < 2 ^ 64 -> (66 <= fuel)%nat ->
  exists m' len, ui64_to_hex_str fuel m v str = Some (m', len) /\ cstr m' str (hex_str v) /\
    agree (fun x => ~ in_range str MAX_HEX_DIGITS x) m m'.
Proof.
  intros Hv Hf. destruct (ui64_to_hex_str_roundtrip m v str fuel Hv Hf) as (m' & ds & E & Hp & Ha).
  assert (ds = num 16 64 v) as -> by (eapply prints_num; [lia|exact Hp|exact Hv]). exists m'. eexists. split_and!; [done|apply Hp|].
  eapply agree_sub; [exact Ha|]. pose proof (hex_str_length v Hv) as Hl. unfold hex_str in Hl.
  rewrite length_fmap in Hl. unfold in_range, MAX_HEX_DIGITS. lia.
Qed.

(** The smallest [int]: one character for the digit, the sign, and the end. *)
Lemma itoa_min fuel m str :
  (66 <= fuel)%nat ->
  exists m', itoa fuel m (- 2 ^ 31) str = Some (m', 2) /\ cstr m' str [45; 40] /\
    agree (fun x => ~ in_range str 3 x) m m'.
Proof.
  intros Hf. unfold itoa. change (- 2 ^ 31 <? 0) with true. cbv iota.
  change (s32 (- - 2 ^ 31)) with (- 2 ^ 31). destruct fuel as [|fuel]; [lia|]. cbn [itoa_loop].
  change (Z.rem (- 2 ^ 31) 10 + 48) with 40. change (0 <? Z.quot (- 2 ^ 31) 10) with false.
  cbv iota. cbn [mbind option_bind]. rewrite Z.add_0_r. change (0 + 1) with 1. change (1 + 1) with 2.
  set (m1 := write8 (write8 m str 40) (str + 1) 45).
  destruct (finish_print m1 str [40; 45] (S fuel)) as (m' & E & Hc & Ha); try done.
  - intros [|[|i]] b Hi; cbn in Hi; [injection Hi as <-|injection Hi as <-|done];
      unfold m1; rewrite !read8_write8; [rewrite decide_False, decide_True by lia|rewrite decide_True by lia]; done.
  - by repeat constructor.
  - simpl. lia.
  - change (Z.of_nat (length [40; 45])) with 2 in *. rewrite E. cbn [mbind option_bind].
    exists m'. split_and!; [done|exact Hc|]. transitivity m1; [|eapply agree_sub; [exact Ha|]; unfold in_range; lia].
    intros x Hx. unfold in_range in Hx. unfold m1. rewrite !read8_write8, !decide_False by lia. done.
Qed.

Lemma print_int fuel m i str :
  - 2 ^ 31 <= i < 2 ^ 31 -> (66 <= fuel)%nat ->
  exists m', itoa fuel m i str = Some (m', Z.of_nat (length (int_str i))) /\ cstr m' str (int_str i) /\
    agree (fun x => ~ in_range str MAX_INT_DIGITS x) m m'.
Proof.
  intros Hi Hf. unfold int_str. destruct (Z.eqb_spec i (- 2 ^ 31)) as [->|Hne].
  - destruct (itoa_min fuel m str Hf) as (m' & E & Hc & Ha). exists m'. split_and!; [done..|].
    eapply agree_sub; [exact Ha|]. unfold in_range, MAX_INT_DIGITS. lia.
  - destruct (itoa_roundtrip m i str fuel) as (m' & ds & len & E & Hc & Hl & Hv & Hr & Hh & Hds & Ha); [lia|done|].
    assert (0 <= Z.abs i < 2 ^ 31) as Habs by lia. assert (ds = num 10 64 (Z.abs i)) as -> by (apply printed_num; try done; lia).
    fold (dec_str (Z.abs i)) in *. exists m'. split_and!; [rewrite E; do 2 f_equal|done|].
    + rewrite Hl. unfold dec_str. rewrite length_app, length_fmap. destruct (i <? 0); cbn [length]; lia.
    + eapply agree_sub; [exact Ha|]. pose proof (num_length 10 64 (Z.abs i) 10 ltac:(lia) ltac:(lia) ltac:(lia)).
      unfold in_range, MAX_INT_DIGITS. destruct (i <? 0); lia.
Qed.

(** ** The buffer *)

Lemma bytes_app m a l1 l2 :
  bytes m a l1 -> bytes m (a + Z.of_nat (length l1)) l2 -> bytes m a (l1 ++ l2).
Proof.
  intros H1 H2 i b Hi. apply lookup_app_Some in Hi as [Hi|[Hge Hi]]; [by apply H1|].
  rewrite <- (H2 _ _ Hi). f_equal. lia.
Qed.

Section Buffer.
Variable B : Z.

Definition in_buf (x : Z) : Prop := in_range B KPRINTF_BUF_SIZE x.

(** [out] is in the buffer. *)
Definition holds (m : mem) (out : list Z) : Prop := bytes m B out /\ Z.of_nat (length out) <= 1024.

(** A macro that appends the chunk [c] to [out]. *)
Definition appends (m : mem) (out : list Z) (c : chunk) (r : mem * Z * bool) : Prop :=
  agree (fun x => ~ in_buf x) m r.1.1 /\ r.2 = chunk_fits (Z.of_nat (length out)) c /\
  (r.2 = true -> r.1.2 = Z.of_nat (length (out ++ chunk_text c)) /\ holds r.1.1 (out ++ chunk_text c)).

Lemma append_ch m out ch :
  holds m out -> 0 <= ch < 256 ->
  appends m out (Chars [ch]) (BUFFER_SAFE_WRITE_CH m B (Z.of_nat (length out)) KPRINTF_BUF_SIZE ch).
Proof.
  intros [Hb Hl] Hch. unfold BUFFER_SAFE_WRITE_CH, appends, KPRINTF_BUF_SIZE. cbn [chunk_fits chunk_text length].
  destruct (Z.ltb_spec (Z.of_nat (length out)) 1024); cbn [fst snd]; split_and!.
  - intros x Hx. unfold in_buf, in_range, KPRINTF_BUF_SIZE in Hx. rewrite read8_write8, decide_False by lia. done.
  - symmetry. apply Z.leb_le. lia.
  - intros _. rewrite length_app. cbn [length]. split; [lia|]. split; [|rewrite length_app; cbn [length]; lia].
    apply bytes_app.
    + intros i b Hi. rewrite read8_write8, decide_False; [by apply Hb|]. apply lookup_lt_Some in Hi. lia.
    + intros [|i] b Hi; [injection Hi as <-|done]. rewrite read8_write8, decide_True by lia. by apply Z.mod_small.
  - done.
  - symmetry. apply Z.leb_gt. lia.
  - done.
Qed.

Lemma holds_agree m m' out : agree in_buf m m' -> holds m out -> holds m' out.
Proof.
  intros Ha [Hb Hl]. split; [|done]. eapply bytes_agree; [exact Ha| |done].
  intros x Hx. unfold in_buf, in_range, KPRINTF_BUF_SIZE in *. lia.
Qed.

(** The loop of [BUFFER_SAFE_WRITE_STR]: [l1] is copied, [l2] is left. *)
Lemma write_str_loop_spec l : forall fuel m out s,
  holds m out -> cstr m s l -> (forall x, in_range s (Z.of_nat (length l) + 1) x -> ~ in_buf x) ->
  (length l < fuel)%nat ->
  exists m' l1 l2, l = l1 ++ l2 /\
    write_str_loop fuel m B (Z.of_nat (length out)) KPRINTF_BUF_SIZE s =
      Some (m', Z.of_nat (length (out ++ l1)), s + Z.of_nat (length l1)) /\
    holds m' (out ++ l1) /\ cstr m' (s + Z.of_nat (length l1)) l2 /\
    (l2 <> [] -> 1023 <= Z.of_nat (length (out ++ l1))) /\ (l1 <> [] -> Z.of_nat (length (out ++ l1)) <= 1023) /\
    agree (fun x => ~ in_buf x) m m'.
Proof.
  induction l as [|c l IH]; intros fuel m out s Ho Hc Hd Hf; (destruct fuel as [|fuel]; [simpl in Hf; lia|]);
    cbn [write_str_loop].
  - exists m, [], []. rewrite !app_nil_r. cbn [length]. rewrite Z.add_0_r. destruct Hc as (Hb & Hn & H0).
    rewrite Z.add_0_r in H0. rewrite H0. cbn [negb andb Z.eqb]. split_and!; try done.
    split_and!; [done..|]. by rewrite Z.add_0_r.
  - pose proof Hc as (Hrd & Hnz & Hc')%cstr_cons. rewrite Hrd, (proj2 (Z.eqb_neq _ _)) by done. cbn [negb andb].
    unfold KPRINTF_BUF_SIZE at 1. destruct (Z.ltb_spec (Z.of_nat (length out)) (1024 - 1)) as [Hlt|Hge].
    + assert (0 <= c < 256) as Hcr by (rewrite <- Hrd; apply read8_range).
      destruct (append_ch m out c Ho Hcr) as (Ha & _ & Hok). unfold BUFFER_SAFE_WRITE_CH, KPRINTF_BUF_SIZE in Ha, Hok.
      rewrite (proj2 (Z.ltb_lt _ _)) in Ha, Hok by lia. cbn [fst snd] in Ha, Hok. destruct (Hok eq_refl) as [El Ho'].
      cbn [chunk_text] in El, Ho'.
      destruct (IH fuel (write8 m (B + Z.of_nat (length out)) c) (out ++ [c]) (s + 1))
        as (m' & l1 & l2 & -> & E & Hh & Hc2 & H1 & H2 & Ha'); [done| | |simpl in Hf; lia|].
      * eapply cstr_agree; [exact Ha| |done]. intros x Hx. apply Hd. unfold in_range in *. simpl. lia.
      * intros x Hx. apply Hd. unfold in_range in *. simpl. lia.
      * exists m', (c :: l1), l2. rewrite <- El in E. rewrite <- (app_assoc out [c] l1) in *. cbn [app] in *.
        replace (s + Z.of_nat (length (c :: l1))) with (s + 1 + Z.of_nat (length l1)) by (cbn [length]; lia).
        split_and!; try done.
        -- intros _. destruct l1 as [|e l1]; [|by apply H2]. rewrite length_app. cbn [length]. lia.
        -- by etransitivity.
    + exists m, [], (c :: l). rewrite !app_nil_r. cbn [length]. rewrite Z.add_0_r. by split_and!.
Qed.

Lemma append_str fuel m out s l :
  holds m out -> cstr m s l -> (forall x, in_range s (Z.of_nat (length l) + 1) x -> ~ in_buf x) ->
  (length l < fuel)%nat ->
  exists r, BUFFER_SAFE_WRITE_STR fuel m B (Z.of_nat (length out)) KPRINTF_BUF_SIZE s = Some r /\
    appends m out (Text l) r.
Proof.
  intros Ho Hc Hd Hf. destruct (write_str_loop_spec l fuel m out s Ho Hc Hd Hf)
    as (m' & l1 & l2 & -> & E & Hh & Hc2 & H1 & H2 & Ha).
  unfold BUFFER_SAFE_WRITE_STR. rewrite E. cbn [mbind option_bind]. eexists. split; [done|].
  unfold appends. cbn [fst snd chunk_fits chunk_text]. split; [done|]. rewrite !length_app in *.
  destruct l2 as [|e l2].
  - rewrite !app_nil_r. cbn [length] in *. destruct Hc2 as (_ & _ & H0). cbn [length] in H0. rewrite Z.add_0_r in H0.
    rewrite H0. cbn [negb Z.eqb andb]. split; [|intros _; by rewrite Nat.add_0_r, <- length_app in *].
    symmetry. destruct l1 as [|d l1]; [done|]. apply orb_true_intro. right. apply Z.leb_le.
    specialize (H2 ltac:(done)). lia.
  - apply cstr_cons in Hc2 as (Hrd & Hnz & _). rewrite Hrd, (proj2 (Z.eqb_neq _ _)) by done. cbn [negb andb].
    specialize (H1 ltac:(done)). unfold KPRINTF_BUF_SIZE. rewrite (proj2 (Z.leb_le _ _)) by lia. split; [|done].
    symmetry. apply orb_false_intro; [apply bool_decide_eq_false; by destruct l1|]. apply Z.leb_gt.
    cbn [length]. lia.
Qed.

Lemma appends_app m out c l r :
  0 <= c < 256 -> holds m out ->
  appends (write8 m (B + Z.of_nat (length out)) c) (out ++ [c]) (Chars l) r ->
  Z.of_nat (length out) < 1024 ->
  appends m out (Chars (c :: l)) r.
Proof.
  intros Hc Ho (Ha & E & Hok) Hlt. destruct (append_ch m out c Ho Hc) as (Ha1 & _ & _).
  unfold BUFFER_SAFE_WRITE_CH, KPRINTF_BUF_SIZE in Ha1. rewrite (proj2 (Z.ltb_lt _ _)) in Ha1 by lia.
  split_and!; [by etransitivity| |].
  - rewrite E. cbn [chunk_fits]. rewrite length_app. cbn [length]. f_equal. lia.
  - intros Ht. destruct (Hok Ht) as [El Hh]. cbn [chunk_text] in *. by rewrite <- app_assoc in El, Hh.
Qed.

(** The loop of [%d]. *)
Lemma append_chars l : forall m out i nb,
  holds m out -> bytes m (nb + i) l -> Forall (fun c => 0 <= c < 256) l ->
  (forall x, in_range (nb + i) (Z.of_nat (length l)) x -> ~ in_buf x) ->
  appends m out (Chars l) (write_chars (length l) m B (Z.of_nat (length out)) KPRINTF_BUF_SIZE nb i).
Proof.
  induction l as [|c l IH]; intros m out i nb Ho Hb Hr Hd; cbn [length write_chars].
  - split_and!; [done| |].
    + cbn [fst snd chunk_fits length]. symmetry. apply Z.leb_le. destruct Ho. lia.
    + intros _. cbn [fst snd chunk_text]. by rewrite app_nil_r.
  - apply Forall_cons in Hr as [Hc Hr].
    assert (read8 m (nb + i) = c) as -> by (rewrite <- (Hb 0%nat c eq_refl); f_equal; lia).
    destruct (append_ch m out c Ho Hc) as (Ha & _ & Hok). unfold BUFFER_SAFE_WRITE_CH in *.
    unfold KPRINTF_BUF_SIZE in Ha, Hok |- * at 1. destruct (Z.ltb_spec (Z.of_nat (length out)) 1024) as [Hlt|Hge].
    + destruct (Hok eq_refl) as [El Ho']. cbn [fst snd chunk_text] in *. rewrite El. apply appends_app; try done.
      apply IH; [done| |done|].
      * eapply bytes_agree; [exact Ha| |].
        -- intros x Hx. apply Hd. unfold in_range in *. cbn [length]. lia.
        -- intros k b Hk. rewrite <- (Hb (S k) b Hk). f_equal. lia.
      * intros x Hx. apply Hd. unfold in_range in *. cbn [length]. lia.
    + split_and!; [done| |done]. cbn [fst snd chunk_fits length]. symmetry. apply Z.leb_gt. lia.
Qed.
End Buffer.

(** ** The formatter *)

Section Formatter.
Context `{KlogLinker}.
Variables (B : Z) (strs : strings) (L : nat).

(** The bytes the formatter leaves alone. *)
Definition keep (x : Z) : Prop := ~ in_buf B x /\ ~ in_range num_buf MAX_INT_DIGITS x.

Hypothesis Hnum : forall x, in_range num_buf MAX_INT_DIGITS x -> ~ in_buf B x.

(** A string that stays as it is while the formatter runs. *)
Definition kept_str (m : mem) (a : Z) (l : list Z) : Prop :=
  cstr m a l /\ (forall x, in_range a (Z.of_nat (length l) + 1) x -> keep x) /\ (length l <= L)%nat.

Lemma kept_str_agree m m' a l : agree keep m m' -> kept_str m a l -> kept_str m' a l.
Proof. intros Ha (Hc & Hk & Hl). split_and!; [|done..]. by eapply cstr_agree. Qed.

(** What the formatter reads besides the format: its arguments' strings and a literal. *)
Definition sources (m : mem) : Prop :=
  (forall a l, strs !! a = Some l -> kept_str m a l) /\ kept_str m lit_percent_l [37; 108].

Lemma sources_agree m m' : agree keep m m' -> sources m -> sources m'.
Proof. intros Ha [Hs Hl]. split; [intros a l E|]; (eapply kept_str_agree; [exact Ha|]); [by apply Hs|done]. Qed.

(** The result of formatting the chunks [cs] behind [out]. *)
Definition outcome (m : mem) (out : list Z) (cs : list chunk) (res : option (mem * Z)) : Prop :=
  exists m' r, res = Some (m', r) /\ agree keep m m' /\
    if fits (Z.of_nat (length out)) cs
    then r = Z.of_nat (length (out ++ text cs)) /\ holds B m' (out ++ text cs)
    else r = - EOVERFLOW.

Lemma buf_keep m m' : agree (fun x => ~ in_buf B x) m m' -> agree keep m m'.
Proof. intros Ha. eapply agree_sub; [exact Ha|]. by intros x []. Qed.

Lemma num_keep m m' n : n <= MAX_INT_DIGITS -> agree (fun x => ~ in_range num_buf n x) m m' -> agree keep m m'.
Proof. intros Hn Ha. eapply agree_sub; [exact Ha|]. intros x [_ Hx] Hr. apply Hx. unfold in_range in *. lia. Qed.

Lemma num_holds m m' n out :
  n <= MAX_INT_DIGITS -> agree (fun x => ~ in_range num_buf n x) m m' -> holds B m out -> holds B m' out.
Proof.
  intros Hn Ha. apply holds_agree. eapply agree_sub; [exact Ha|]. intros x Hx Hr. apply (Hnum x); [|done].
  unfold in_range in *. lia.
Qed.

Lemma outcome_agree m m1 out cs res : agree keep m m1 -> outcome m1 out cs res -> outcome m out cs res.
Proof. intros Ha (m' & r & E & Ha' & Hr). exists m', r. split_and!; [done|by etransitivity|done]. Qed.

(** One chunk, then the rest. *)
Lemma emit_chunk m out c cs r k :
  appends B m out c r ->
  (forall m', agree keep m m' -> holds B m' (out ++ chunk_text c) ->
     outcome m' (out ++ chunk_text c) cs (k m' (Z.of_nat (length (out ++ chunk_text c))))) ->
  outcome m out (c :: cs) (emit r k).
Proof.
  destruct r as [[m' len] ok]. intros (Ha & E & Hok) Hk. cbn [fst snd] in *. apply buf_keep in Ha.
  unfold emit. unfold outcome. cbn [fits]. rewrite <- E. destruct ok.
  - destruct (Hok eq_refl) as [-> Hh]. destruct (Hk m' Ha Hh) as (m2 & r2 & E2 & Ha2 & Hr2).
    exists m2, r2. split_and!; [done|by etransitivity|]. cbn [andb]. rewrite length_app, Nat2Z.inj_add in Hr2.
    unfold text in *. cbn [fmap list_fmap concat]. by rewrite app_assoc.
  - by exists m', (- EOVERFLOW).
Qed.

Lemma emit_ch m out ch cs k :
  holds B m out -> 0 <= ch < 256 ->
  (forall m', agree keep m m' -> holds B m' (out ++ [ch]) ->
     outcome m' (out ++ [ch]) cs (k m' (Z.of_nat (length (out ++ [ch]))))) ->
  outcome m out (Chars [ch] :: cs)
    (emit (BUFFER_SAFE_WRITE_CH m B (Z.of_nat (length out)) KPRINTF_BUF_SIZE ch) k).
Proof. intros Ho Hch Hk. by apply emit_chunk; [apply append_ch|]. Qed.

Lemma emit_str fuel m out s l cs k :
  holds B m out -> cstr m s l -> (forall x, in_range s (Z.of_nat (length l) + 1) x -> ~ in_buf B x) ->
  (length l < fuel)%nat ->
  (forall m', agree keep m m' -> holds B m' (out ++ l) ->
     outcome m' (out ++ l) cs (k m' (Z.of_nat (length (out ++ l))))) ->
  outcome m out (Text l :: cs)
    (r ← BUFFER_SAFE_WRITE_STR fuel m B (Z.of_nat (length out)) KPRINTF_BUF_SIZE s; emit r k).
Proof.
  intros Ho Hc Hd Hf Hk. destruct (append_str B fuel m out s l Ho Hc Hd Hf) as (r & E & Ha).
  rewrite E. cbn [mbind option_bind]. by apply emit_chunk.
Qed.

(** A number that was printed to [num_buf], then its string. *)
Lemma emit_num fuel m m1 n out l cs k :
  holds B m out -> n <= MAX_INT_DIGITS -> agree (fun x => ~ in_range num_buf n x) m m1 ->
  cstr m1 num_buf l -> Z.of_nat (length l) < MAX_INT_DIGITS -> (21 <= fuel)%nat ->
  (forall m', agree keep m m' -> holds B m' (out ++ l) ->
     outcome m' (out ++ l) cs (k m' (Z.of_nat (length (out ++ l))))) ->
  outcome m out (Text l :: cs)
    (r ← BUFFER_SAFE_WRITE_STR fuel m1 B (Z.of_nat (length out)) KPRINTF_BUF_SIZE num_buf; emit r k).
Proof.
  intros Ho Hn Ha Hc Hl Hf Hk. unfold MAX_INT_DIGITS in Hl. apply (outcome_agree m m1); [by eapply num_keep|].
  apply emit_str; [by eapply num_holds|done| |lia|].
  - intros x Hx. apply Hnum. unfold in_range, MAX_INT_DIGITS in *. lia.
  - intros m' Ha' Hh. apply Hk; [|done]. etransitivity; [by eapply num_keep|done].
Qed.

(** The format behind the current position. *)
Definition format_at (m : mem) (a : Z) (f : list Z) : Prop :=
  cstr m a f /\ forall x, in_range a (Z.of_nat (length f) + 1) x -> keep x.

Lemma format_agree m m' a f : agree keep m m' -> format_at m a f -> format_at m' a f.
Proof. intros Ha [Hc Hk]. split; [by eapply cstr_agree|done]. Qed.

Lemma format_cons m a c f : format_at m a (c :: f) -> read8 m a = c /\ c <> 0 /\ 0 <= c < 256 /\ format_at m (a + 1) f.
Proof.
  intros [(Hr & Hn & Hc)%cstr_cons Hk]. split_and!; try done; try (rewrite <- Hr; apply read8_range).
  split; [done|]. intros x Hx. apply Hk. unfold in_range in *. cbn [length]. lia.
Qed.

(** The rest of the loop, from any memory and output that a conversion leaves. *)
Definition continues (m : mem) (cs : list chunk) (k : mem -> Z -> option (mem * Z)) : Prop :=
  forall m' out, agree keep m m' -> holds B m' out -> outcome m' out cs (k m' (Z.of_nat (length out))).

Definition word_args (args : list Z) : Prop := Forall (fun a => 0 <= a < 2 ^ 64) args.

Lemma int_str_bytes i : - 2 ^ 31 <= i < 2 ^ 31 -> Forall (fun c => 0 <= c < 256) (int_str i).
Proof.
  intros Hi. destruct (print_int 66 ∅ i 0 Hi ltac:(lia)) as (m & _ & (Hb & _) & _).
  apply Forall_lookup. intros k c Hk. rewrite <- (Hb k c Hk). apply read8_range.
Qed.

Lemma int_str_length i : - 2 ^ 31 <= i < 2 ^ 31 -> Z.of_nat (length (int_str i)) < MAX_INT_DIGITS.
Proof.
  intros Hi. unfold int_str, MAX_INT_DIGITS. destruct (Z.eqb_spec i (- 2 ^ 31)); [cbn; lia|].
  pose proof (num_length 10 64 (Z.abs i) 10 ltac:(lia) ltac:(lia) ltac:(lia)).
  rewrite length_app. unfold dec_str. rewrite length_fmap. destruct (i <? 0); cbn [length]; lia.
Qed.

Lemma msg_cstr m a : cstr (store 4 m a 0x00307830) a [48; 120; 48] /\
  agree (fun x => ~ in_range a 4 x) m (store 4 m a 0x00307830).
Proof.
  split; [|by apply agree_store; intros x Hx]. split_and!; [|by repeat constructor|].
  - intros [|[|[|i]]] b Hi; cbn in Hi; try done; injection Hi as <-; unfold store;
      rewrite !read8_insert; repeat case_decide; try lia; done.
  - cbn [length]. unfold store. rewrite !read8_insert; repeat case_decide; try lia; done.
Qed.

(** The conversions that print a number as a string. *)
Ltac number lem :=
  let m1 := fresh "m1" in let E := fresh "E" in let Hc := fresh "Hc" in let Ha := fresh "Ha" in
  destruct lem as (m1 & ? & E & Hc & Ha); [|lia|rewrite E; cbn [mbind option_bind];
    eapply emit_num; [done| |exact Ha|exact Hc| |lia|]; [unfold MAX_INT_DIGITS, MAX_HEX_DIGITS; lia| |]].

Lemma convert_spec fuel m out c args args' cs1 cs format k :
  c <> 37 -> c <> 108 -> 0 <= c < 256 -> expand1 strs (conversion c) args = Some (cs1, args') -> word_args args ->
  holds B m out -> sources m -> (66 + L <= fuel)%nat ->
  continues m cs (fun m len => k m len format args') ->
  outcome m out (cs1 ++ cs) (convert fuel m B (Z.of_nat (length out)) format args c k).
Proof.
  intros H37 H108 Hcr He Hw Ho [Hs Hlit] Hf Hk. unfold conversion in He. unfold convert.
  rewrite (proj2 (Z.eqb_neq c 37)) in He by done. rewrite (proj2 (Z.eqb_neq c 108)) by done.
  destruct (Z.eqb_spec c 100); [|destruct (Z.eqb_spec c 115); [|destruct (Z.eqb_spec c 99);
    [|destruct (Z.eqb_spec c 112); [|destruct (Z.eqb_spec c 120); [|destruct (Z.eqb_spec c 117)]]]]];
    (destruct args as [|a args]; cbn [expand1] in He; [try discriminate He|]); cbn [va_arg mbind option_bind];
    try apply Forall_cons in Hw as [Ha _].
  - injection He as <- <-. pose proof (swrap_range 32 a ltac:(lia)) as Hr. change (32 - 1) with 31 in Hr.
    destruct (print_int fuel m (s32 a) num_buf Hr ltac:(lia)) as (m1 & -> & [Hb _] & Ha1).
    cbn [mbind option_bind]. rewrite Nat2Z.id. apply (outcome_agree m m1); [by eapply num_keep|].
    apply emit_chunk.
    + apply append_chars; [by eapply num_holds|by rewrite Z.add_0_r|by apply int_str_bytes|].
      intros x Hx. apply Hnum. pose proof (int_str_length _ Hr). unfold in_range in *. lia.
    + intros m' Ha' Hh. apply Hk; [|done]. etransitivity; [by eapply num_keep|done].
  - cbn [mbind option_bind] in He. destruct (strs !! a) as [l|] eqn:El; [|discriminate He].
    injection He as <- <-. destruct (Hs _ _ El) as (Hc & Hkp & Hl).
    apply emit_str; [done|done|intros x Hx; by apply Hkp|lia|]. intros m' Ha' Hh. by apply Hk.
  - injection He as <- <-. apply emit_ch; [done|apply (wrap_range 8); lia|]. intros m' Ha' Hh. by apply Hk.
  - injection He as <- <-. destruct (Z.eqb_spec a 0).
    + destruct (msg_cstr m num_buf) as [Hc Ha1]. eapply emit_num; [done| |exact Ha1|exact Hc| |lia|];
        [unfold MAX_INT_DIGITS; lia|unfold MAX_INT_DIGITS; cbn; lia|]. intros m' Ha' Hh. by apply Hk.
    + number (print_hex fuel m a num_buf); [done|pose proof (hex_str_length a Ha); unfold MAX_INT_DIGITS; lia|].
      intros m' Ha' Hh. by apply Hk.
  - injection He as <- <-. pose proof (wrap_range 32 a ltac:(lia)) as Hr.
    number (print_hex fuel m (w32 a) num_buf); [lia|pose proof (hex_str_length (w32 a) ltac:(lia)); unfold MAX_INT_DIGITS; lia|].
    intros m' Ha' Hh. by apply Hk.
  - injection He as <- <-. pose proof (wrap_range 32 a ltac:(lia)) as Hr.
    number (print_ul fuel m (w32 a) num_buf); [lia|pose proof (dec_str_length (w32 a) ltac:(lia)); unfold MAX_INT_DIGITS; lia|].
    intros m' Ha' Hh. by apply Hk.
  - injection He as <- <-. apply emit_ch; [done|lia|]. intros m1 Ha1 Hh1.
    apply emit_ch; [done|done|]. intros m2 Ha2 Hh2. apply Hk; [by etransitivity|done].
  - injection He as <- <-. apply emit_ch; [done|lia|]. intros m1 Ha1 Hh1.
    apply emit_ch; [done|done|]. intros m2 Ha2 Hh2. apply Hk; [by etransitivity|done].
Qed.

Lemma convert_long fuel m out e args args' cs1 cs format k :
  0 <= e < 256 -> read8 m format = e -> keep format ->
  expand1 strs (long_conversion e) args = Some (cs1, args') -> word_args args ->
  holds B m out -> sources m -> (66 + L <= fuel)%nat ->
  continues m cs (fun m len => k m len (format + 1) args') ->
  outcome m out (cs1 ++ cs) (convert fuel m B (Z.of_nat (length out)) format args 108 k).
Proof.
  intros Her Hrd Hkf He Hw Ho [_ (Hc & Hkp & _)] Hf Hk. unfold convert. cbn [Z.eqb Pos.eqb]. rewrite Hrd.
  unfold long_conversion in He. destruct (Z.eqb_spec e 117); [|destruct (Z.eqb_spec e 120)].
  - destruct args as [|a args]; [done|]. cbn [va_arg mbind option_bind]. apply Forall_cons in Hw as [Ha _].
    injection He as <- <-. number (print_ul fuel m a num_buf); [done|pose proof (dec_str_length a Ha); unfold MAX_INT_DIGITS; lia|].
    intros m' Ha' Hh. by apply Hk.
  - destruct args as [|a args]; [done|]. cbn [va_arg mbind option_bind]. apply Forall_cons in Hw as [Ha _].
    injection He as <- <-. number (print_hex fuel m a num_buf); [done|pose proof (hex_str_length a Ha); unfold MAX_INT_DIGITS; lia|].
    intros m' Ha' Hh. by apply Hk.
  - injection He as <- <-. cbn [app]. apply emit_str; [done|done|intros x Hx; by apply Hkp|cbn; lia|].
    intros m1 Ha1 Hh1. rewrite <- (Ha1 format Hkf), Hrd. apply emit_ch; [done|done|].
    intros m2 Ha2 Hh2. apply Hk; [by etransitivity|done].
Qed.

Lemma expand1_args d args cs args' : expand1 strs d args = Some (cs, args') -> word_args args -> word_args args'.
Proof.
  intros He Hw. destruct d, args as [|a args]; cbn [expand1] in He; try discriminate He;
    try (destruct (strs !! a); [|discriminate He]; cbn [mbind option_bind] in He);
    injection He as _ <-; try done; by apply Forall_cons in Hw as [_ ?].
Qed.

Lemma expand_cons d ds args cs :
  expand strs (d :: ds) args = Some cs ->
  exists cs1 args' cs2, expand1 strs d args = Some (cs1, args') /\ expand strs ds args' = Some cs2 /\ cs = cs1 ++ cs2.
Proof.
  cbn [expand]. destruct (expand1 strs d args) as [[cs1 args']|]; [|done]. cbn [mbind option_bind].
  destruct (expand strs ds args') as [cs2|] eqn:E2; [|done]. intros [= <-]. by exists cs1, args', cs2.
Qed.

Lemma fmap_cons_Some (d : directive) r ds : cons d <$> r = Some ds -> exists ds', r = Some ds' /\ ds = d :: ds'.
Proof. destruct r; [|done]. intros [= <-]. eauto. Qed.

Lemma loop_spec n : forall f fuel m out format args ds cs,
  (length f <= n)%nat -> parse f = Some ds -> expand strs ds args = Some cs -> word_args args ->
  format_at m format f -> holds B m out -> sources m -> (length f + 67 + L <= fuel)%nat ->
  outcome m out cs (kvsprintf_loop fuel m B (Z.of_nat (length out)) format args).
Proof.
  induction n as [|n IH]; intros f fuel m out format args ds cs Hn Hp He Hw Hfmt Ho Hs Hf.
  all: (destruct fuel as [|fuel]; [lia|]); cbn [kvsprintf_loop]; destruct f as [|c f].
  1, 3: injection Hp as <-; injection He as <-; destruct Hfmt as [(_ & _ & H0) _]; cbn [length] in H0;
    rewrite Z.add_0_r in H0; rewrite H0; cbn [Z.eqb]; exists m, (Z.of_nat (length out)); unfold text; cbn [fits fmap list_fmap concat];
    rewrite app_nil_r; by split_and!.
  { cbn [length] in Hn. lia. }
  apply format_cons in Hfmt as (Hrd & Hc0 & Hcr & Hfmt1). rewrite Hrd, (proj2 (Z.eqb_neq c 0)) by done.
  assert (forall f' args' ds' cs' fmt' k',
    (length f' <= n)%nat -> parse f' = Some ds' -> expand strs ds' args' = Some cs' -> word_args args' ->
    format_at m fmt' f' -> (length f' <= length f)%nat ->
    k' = (fun m len => kvsprintf_loop fuel m B len fmt' args') -> continues m cs' k') as Hcont.
  { intros f' args' ds' cs' fmt' k' ? ? ? ? ? ? -> m' out' Ha' Hh'. cbn [length] in Hf.
    eapply (IH f'); try done; [by eapply format_agree|by eapply sources_agree|lia]. }
  cbn [parse length] in *. destruct (Z.eqb_spec c 37) as [->|Hc37]; cbn [negb].
  - destruct f as [|d f]; [done|]. apply format_cons in Hfmt1 as (Hrd1 & Hd0 & Hdr & Hfmt2). rewrite Hrd1.
    cbn [length] in *. destruct (Z.eqb_spec d 108) as [->|Hd108].
    + destruct f as [|e f]; [done|]. apply fmap_cons_Some in Hp as (ds' & Hp & ->).
      apply expand_cons in He as (cs1 & args' & cs2 & He1 & He2 & ->). pose proof Hfmt2 as [_ Hk2].
      apply format_cons in Hfmt2 as (Hrd2 & He0 & Her & Hfmt3). cbn [Z.eqb Pos.eqb length] in *.
      eapply convert_long; try done; [apply Hk2; unfold in_range; lia|lia|].
      eapply (Hcont f); try done; [lia|by eapply expand1_args|lia].
    + apply fmap_cons_Some in Hp as (ds' & Hp & ->).
      apply expand_cons in He as (cs1 & args' & cs2 & He1 & He2 & ->).
      destruct (Z.eqb_spec d 37) as [->|Hd37].
      * cbn in He1. injection He1 as <- <-. apply emit_ch; [done|lia|]. intros m' Ha' Hh'.
        eapply (Hcont f args _ _ _ _ ltac:(lia) Hp He2 Hw Hfmt2 ltac:(lia) eq_refl); done.
      * eapply convert_spec; try done; [lia|]. eapply (Hcont f); try done; [lia|by eapply expand1_args|lia].
  - apply fmap_cons_Some in Hp as (ds' & Hp & ->). apply expand_cons in He as (cs1 & args' & cs2 & He1 & He2 & ->).
    injection He1 as <- <-. apply emit_ch; [done|done|]. intros m' Ha' Hh'.
    eapply (Hcont f args _ _ _ _ ltac:(lia) Hp He2 Hw Hfmt1 ltac:(lia) eq_refl); done.
Qed.

(** [kvsprintf] computes [format_text]. *)
Lemma kvsprintf_spec fuel m format f args cs :
  format_text strs f args = Some cs -> word_args args -> format_at m format f -> sources m ->
  (length f + 67 + L <= fuel)%nat ->
  outcome m [] cs (kvsprintf fuel m B format args).
Proof.
  intros He Hw Hfmt Hs Hf. unfold format_text in He. destruct (parse f) as [ds|] eqn:Hp; [|done].
  apply (loop_spec (length f) f fuel m [] format args ds cs); try done.
Qed.
End Formatter.
