(* ===== verification/KlogClaims.v ===== *)
(** * The kernel log: theorems

    The formatter, and the routines that print a formatted message on the
    terminal under the print lock. *)
From Stdlib Require Import String Ascii.
From S2P Require Import Prelude Memory PageAlloc Slab Pmm Klib KlibSpec Locks.
From S2P Require Import Console ConsoleSpec ConsoleClaims Klog KlogSpec.
Import Klib Locks Framebuffer Tty Klog.

(** The bytes of a literal. *)
Definition lit (s : string) : list Z :=
  map (fun a => Z.of_N (N_of_ascii a)) (list_ascii_of_string s).

Definition overflow_text : list Z :=
  lit "Error: Buffer overflow - data exceeds the allowed buffer size of 1024 chars."%string.

(** ** Formatting *)


(** ** Printing *)

(** The message that is shown. *)
Definition message (cs : list chunk) : list Z := if fits 0 cs then text cs else overflow_text.

Section Printing.
Context `{KlogLinker}.
Variables (fb : framebuffer) (strs : strings) (L : nat).
Hypothesis Hfb : screen_ok fb.
Hypothesis Hfit : rows fb * cols fb <= Z.of_nat TERM_CELLS.
Hypothesis Hnum : forall x, in_range num_buf MAX_INT_DIGITS x -> ~ in_buf buf x.
Hypothesis Hbuf : forall x, in_buf buf x -> ~ fb_byte fb x.
Hypothesis Hnum_fb : forall x, in_range num_buf MAX_INT_DIGITS x -> ~ fb_byte fb x.

(** The bytes that printing leaves alone. *)
Definition quiet (x : Z) : Prop := keep buf x /\ ~ fb_byte fb x.

Definition literals : list (Z * list Z) :=
  [(lit_overflow, overflow_text); (lit_open, lit "["%string); (lit_ok, lit "OK"%string); (lit_warning, lit "WARNING"%string);
   (lit_error, lit "ERROR"%string); (lit_close, lit "] "%string)].

Definition quiet_str (m : mem) (a : Z) (l : list Z) : Prop :=
  cstr m a l /\ forall x, in_range a (Z.of_nat (length l) + 1) x -> quiet x.

Definition literals_ok (m : mem) : Prop := forall a l, (a, l) ∈ literals -> quiet_str m a l.

Lemma quiet_str_agree m m' a l : agree quiet m m' -> quiet_str m a l -> quiet_str m' a l.
Proof. intros Ha [Hc Hq]. split; [by eapply cstr_agree|done]. Qed.

Lemma literals_agree m m' : agree quiet m m' -> literals_ok m -> literals_ok m'.
Proof. intros Ha Hl a l Hin. eapply quiet_str_agree; [done|by apply Hl]. Qed.

Lemma bytes_at_bytes m a l : bytes m a l -> bytes_at m a (length l) = l.
Proof.
  intros Hb. unfold bytes_at. apply list_eq. intros i. rewrite list_lookup_fmap.
  destruct (decide (i < length l)%nat) as [Hi|Hi].
  - rewrite lookup_seq_lt by done. cbn [fmap option_fmap option_map]. destruct (lookup_lt_is_Some_2 l i Hi) as [b E].
    rewrite E. f_equal. by apply Hb.
  - rewrite lookup_seq_ge by lia. by rewrite lookup_ge_None_2 by lia.
Qed.

Lemma writestring_does fuel t g a l :
  term_ok fb t g -> quiet_str (t_mem t) a l -> (length l < fuel)%nat ->
  does fb t (terminal_writestring fuel a t) (g_write fb (terminal_fg_color t) (terminal_bg_color t) l g).
Proof.
  intros Hok [Hc Hq] Hf. unfold terminal_writestring. rewrite (strlen_spec _ _ _ _ Hc Hf). cbn [mbind option_bind].
  unfold terminal_write. rewrite Nat2Z.id. rewrite <- (bytes_at_bytes (t_mem t) a l) at 2 by apply Hc.
  apply write_does; [done..|]. intros x Hx. apply Hq. unfold in_range in *. lia.
Qed.

Lemma write_buf_does t g l :
  term_ok fb t g -> bytes (t_mem t) buf l -> Z.of_nat (length l) <= 1024 ->
  does fb t (terminal_write buf (Z.of_nat (length l)) t)
    (g_write fb (terminal_fg_color t) (terminal_bg_color t) l g).
Proof.
  intros Hok Hb Hl. unfold terminal_write. rewrite Nat2Z.id. rewrite <- (bytes_at_bytes (t_mem t) buf l Hb) at 2.
  apply write_does; [done..|]. intros x Hx. apply Hbuf. unfold in_buf, in_range, KPRINTF_BUF_SIZE in *. lia.
Qed.

(** [k'] is [k] after printing: the lock is free again, interrupts are as
    before, and the terminal shows [g]. *)
Definition printed (k : console) (res : option console) (g : grid) : Prop :=
  exists k', res = Some k' /\ term_ok fb (c_term k') g /\ kprint_lock k' = 0 /\ c_rflags k' = c_rflags k /\
    agree quiet (t_mem (c_term k)) (t_mem (c_term k')).

Lemma locked_does k (f : terminal -> option terminal) t' g' :
  kprint_lock k = 0 -> f (c_term k) = Some t' -> term_ok fb t' g' ->
  agree quiet (t_mem (c_term k)) (t_mem t') -> printed k (locked k f) g'.
Proof.
  intros Hl E Hok Ha. unfold locked, lock_intsave, spinlock_lock_intsave, save_and_disable_interrupts. rewrite Hl.
  cbn [spin_step atomic_xchg Z.eqb negb mbind option_bind c_term]. rewrite E. cbn [mbind option_bind].
  eexists. split; [done|]. by split_and!.
Qed.

(** With the lock taken by nobody who will release it, printing does not end. *)
Lemma locked_held k f : kprint_lock k <> 0 -> locked k f = None.
Proof.
  intros Hl. unfold locked, lock_intsave, spinlock_lock_intsave, save_and_disable_interrupts.
  cbn [spin_step atomic_xchg]. by rewrite (proj2 (Z.eqb_neq _ _)).
Qed.

Lemma outside_quiet m m' : agree (fun a => ~ fb_byte fb a) m m' -> agree quiet m m'.
Proof. intros Ha. eapply agree_sub; [exact Ha|]. by intros x []. Qed.

Lemma set_tmem_ok t g m :
  agree (fb_byte fb) (t_mem t) m -> term_ok fb t g -> term_ok fb (set_tmem t m) g.
Proof.
  intros Ha [[] ? ? ? ? Hsh]. split; try done. intros y x Hg r c Hr Hc. cbn [t_mem set_tmem].
  rewrite <- (Hsh y x Hg r c Hr Hc). unfold pixel. apply load_agree. intros a Hin. symmetry. apply Ha.
  eapply (pixel_bytes fb Hfb); [|exact Hin]. destruct Hg as [Hy Hx]. pose proof (dims fb Hfb). split; lia.
Qed.

(** The common part of the four routines, against what each does with the buffer. *)
Lemma print_with_does fuel k g format f args cs (F : Z -> terminal -> option terminal) (G : list Z -> grid) :
  term_ok fb (c_term k) g -> kprint_lock k = 0 -> literals_ok (t_mem (c_term k)) ->
  format_text strs f args = Some cs -> word_args args ->
  format_at buf (t_mem (c_term k)) format f -> sources buf strs L (t_mem (c_term k)) ->
  (length f + 100 + L <= fuel)%nat ->
  (forall t l, term_ok fb t g -> literals_ok (t_mem t) -> bytes (t_mem t) buf l -> Z.of_nat (length l) <= 1024 ->
     terminal_fg_color t = terminal_fg_color (c_term k) -> terminal_bg_color t = terminal_bg_color (c_term k) ->
     exists t', F (Z.of_nat (length l)) t = Some t' /\ term_ok fb t' (G l) /\ agree quiet (t_mem t) (t_mem t')) ->
  printed k (print_with fuel k format args F)
    (if fits 0 cs then G (text cs)
     else g_write fb (terminal_fg_color (c_term k)) (terminal_bg_color (c_term k)) overflow_text g).
Proof.
  intros Hok Hl Hlit He Hw Hfmt Hs Hf HF. unfold print_with.
  destruct (kvsprintf_spec buf strs L Hnum fuel _ format f args cs He Hw Hfmt Hs ltac:(lia)) as (m' & r & E & Ha & Hr).
  rewrite E. cbn [mbind option_bind app length] in *. change (Z.of_nat 0) with 0 in Hr.
  assert (agree quiet (t_mem (c_term k)) m') as Haq by (eapply agree_sub; [exact Ha|]; by intros x []).
  set (k1 := set_term k _). assert (term_ok fb (c_term k1) g) as Hok1.
  { apply set_tmem_ok; [|done]. eapply agree_sub; [exact Ha|]. intros x Hx.
    split; intros Hin; [by apply (Hbuf x)|by apply (Hnum_fb x)]. }
  assert (literals_ok (t_mem (c_term k1))) as Hlit1 by (eapply literals_agree; [exact Haq|done]).
  assert (forall res g', printed k1 res g' -> printed k res g') as Hpr.
  { intros res g' (k' & E' & ? & ? & ? & Ha'). exists k'. split_and!; try done.
    etransitivity; [exact Haq|exact Ha']. }
  destruct (fits 0 cs).
  - destruct Hr as [-> [Hb Hlen]]. rewrite (proj2 (Z.ltb_ge _ _)) by lia.
    destruct (HF (c_term k1) (text cs)) as (t' & E' & Hok' & Ha'); try done.
    apply Hpr. eapply locked_does; done.
  - subst r. cbn [Z.ltb Z.compare Z.opp EOVERFLOW].
    destruct (writestring_does fuel (c_term k1) g lit_overflow overflow_text) as (t' & E' & Hok' & _ & _ & Ha');
      [done|apply Hlit1; left| |].
    + change (length overflow_text) with 76%nat. lia.
    + apply Hpr. eapply locked_does; try done. by apply outside_quiet.
Qed.
End Printing.

(** ** Properties *)

(** The state in which the log can be used: the screen fits the terminal's
    buffer and shows [g], the lock is free, the caller's buffer, the number
    buffer and the framebuffer are apart, and the literals and the strings of
    the arguments are in memory, away from what printing writes. *)
Record console_ready `{KlogLinker} (fb : framebuffer) (strs : strings) (L : nat) (k : console) (g : grid) : Prop := {
  cr_screen : screen_ok fb;
  cr_fit : rows fb * cols fb <= Z.of_nat TERM_CELLS;
  cr_num : forall x, in_range num_buf MAX_INT_DIGITS x -> ~ in_buf buf x;
  cr_buf : forall x, in_buf buf x -> ~ fb_byte fb x;
  cr_num_fb : forall x, in_range num_buf MAX_INT_DIGITS x -> ~ fb_byte fb x;
  cr_term : term_ok fb (c_term k) g;
  cr_lock : kprint_lock k = 0;
  cr_literals : literals_ok fb (t_mem (c_term k));
  cr_sources : sources buf strs L (t_mem (c_term k));
}.

(** [kprintf] writes the formatted message at the cursor in the current
    colours, or the overflow notice when it does not fit the buffer; the print
    lock is free again and the interrupt flag as before. *)
Theorem kprintf_correct `{KlogLinker} fb strs L fuel k g format f args cs :
  console_ready fb strs L k g ->
  format_text strs f args = Some cs -> word_args args -> format_at buf (t_mem (c_term k)) format f ->
  (length f + 100 + L <= fuel)%nat ->
  printed fb k (kprintf fuel k format args)
    (g_write fb (terminal_fg_color (c_term k)) (terminal_bg_color (c_term k)) (message cs) g).
Proof.
  intros [] He Hw Hfmt Hf. unfold message. set (F := fun l => g_write fb (terminal_fg_color (c_term k)) (terminal_bg_color (c_term k)) l g).
  replace (g_write _ _ _ _ _) with (if fits 0 cs then F (text cs) else F overflow_text) by (by destruct (fits 0 cs)).
  eapply print_with_does; try done. intros t l Hok Hlit Hb Hl Ef Eb.
  destruct (write_buf_does fb cr_screen0 cr_fit0 cr_buf0 t g l Hok Hb Hl) as (t' & E & Hok' & _ & _ & Ha).
  exists t'. split_and!; [done| |by apply outside_quiet]. unfold F. by rewrite <- Ef, <- Eb.
Qed.

(** The colour and the text of a tag. *)
Definition level_color (lv : level) : Z :=
  match lv with Success => 0x00FF00 | Warning => 0xFFFF00 | Error => 0xFF0000 end.
Definition level_tag (lv : level) : list Z :=
  lit (match lv with Success => "OK" | Warning => "WARNING" | Error => "ERROR" end)%string.

(** [[OK] message] with the tag in its colour, in the colours [f] and [b] of
    the terminal before. *)
Definition g_tagged (fb : framebuffer) (f b : Z) (lv : level) (l : list Z) (g : grid) : grid :=
  g_write fb 0xFFFFFF 0x35 l
    (g_write fb 0xFFFFFF 0x35 (lit "] "%string)
      (g_write fb (level_color lv) 0x35 (level_tag lv) (g_write fb f b (lit "["%string) g))).

Section Tagged.
Context `{KlogLinker}.
Variables (fb : framebuffer).
Hypothesis Hfb : screen_ok fb.
Hypothesis Hfit : rows fb * cols fb <= Z.of_nat TERM_CELLS.
Hypothesis Hbuf : forall x, in_buf buf x -> ~ fb_byte fb x.

Lemma setcolor_ok t g f b : term_ok fb t g -> term_ok fb (terminal_setcolor f b t) g.
Proof. by intros [[]]. Qed.

Lemma write_tagged_does fuel t g lv tag l :
  term_ok fb t g -> literals_ok fb (t_mem t) -> bytes (t_mem t) buf l -> Z.of_nat (length l) <= 1024 ->
  (tag, level_tag lv) ∈ literals -> (20 <= fuel)%nat ->
  exists t', write_tagged fuel (level_color lv) tag (Z.of_nat (length l)) t = Some t' /\
    term_ok fb t' (g_tagged fb (terminal_fg_color t) (terminal_bg_color t) lv l g) /\
    agree (quiet fb) (t_mem t) (t_mem t').
Proof.
  intros Hok Hlit Hb Hl Hin Hf. unfold write_tagged.
  destruct (writestring_does fb Hfb Hfit fuel t g lit_open (lit "["%string) Hok) as (t1 & -> & Hok1 & _ & _ & Ha1);
    [apply Hlit; right; left|cbn; lia|]. cbn [mbind option_bind].
  assert (literals_ok fb (t_mem t1)) as Hlit1 by (eapply literals_agree; [by apply outside_quiet|done]).
  destruct (writestring_does fb Hfb Hfit fuel (terminal_setcolor (level_color lv) 0x35 t1) _ tag (level_tag lv)
    (setcolor_ok _ _ _ _ Hok1)) as (t2 & -> & Hok2 & _ & _ & Ha2);
    [by apply Hlit1|destruct lv; cbn; lia|]. cbn [mbind option_bind].
  change (t_mem (terminal_setcolor _ _ t1)) with (t_mem t1) in Ha2.
  assert (literals_ok fb (t_mem t2)) as Hlit2 by (eapply literals_agree; [by apply outside_quiet|done]).
  destruct (writestring_does fb Hfb Hfit fuel (terminal_setcolor 0xFFFFFF 0x35 t2) _ lit_close (lit "] "%string)
    (setcolor_ok _ _ _ _ Hok2)) as (t3 & -> & Hok3 & Hf3 & Hb3 & Ha3);
    [apply Hlit2; do 5 right; left|cbn; lia|]. cbn [mbind option_bind].
  change (t_mem (terminal_setcolor _ _ t2)) with (t_mem t2) in Ha3.
  assert (agree (fun a => ~ fb_byte fb a) (t_mem t) (t_mem t3)) as Ha
    by (etransitivity; [exact Ha1|]; etransitivity; [exact Ha2|exact Ha3]).
  destruct (write_buf_does fb Hfb Hfit Hbuf t3 _ l Hok3) as (t4 & -> & Hok4 & _ & _ & Ha4); [|done|].
  - eapply bytes_agree; [exact Ha| |done]. intros x Hx. apply Hbuf. unfold in_buf, in_range, KPRINTF_BUF_SIZE in *. lia.
  - exists t4. split_and!; [done| |apply outside_quiet; by etransitivity]. by rewrite Hf3, Hb3 in Hok4.
Qed.
End Tagged.

(** [KSUCCESS], [KWARN] and [KERROR] write the level's tag in its colour
    between brackets and then the formatted message in white, all under the
    lock; a message that does not fit the buffer gives the overflow notice
    without a tag. *)
Theorem klog_tagged_correct `{KlogLinker} fb strs L lv fuel k g format f args cs :
  console_ready fb strs L k g ->
  format_text strs f args = Some cs -> word_args args -> format_at buf (t_mem (c_term k)) format f ->
  (length f + 100 + L <= fuel)%nat ->
  printed fb k (klog lv fuel k format args)
    (let '(f, b) := (terminal_fg_color (c_term k), terminal_bg_color (c_term k)) in
     if fits 0 cs then g_tagged fb f b lv (text cs) g else g_write fb f b overflow_text g).
Proof.
  intros [] He Hw Hfmt Hf. cbv beta iota.
  set (tag := match lv with Success => lit_ok | Warning => lit_warning | Error => lit_error end).
  assert (klog lv fuel k format args = print_with fuel k format args (write_tagged fuel (level_color lv) tag)) as ->
    by (by destruct lv).
  eapply (print_with_does fb strs L cr_screen0 cr_fit0 cr_num0 cr_buf0 cr_num_fb0 _ _ _ _ f args cs _
    (fun l => g_tagged fb (terminal_fg_color (c_term k)) (terminal_bg_color (c_term k)) lv l g)); try done.
  intros t l Hok Hlit Hb Hl Ef Eb. rewrite <- Ef, <- Eb. apply write_tagged_does; try done; [|lia].
  unfold tag. destruct lv; cbn; set_solver.
Qed.

(** ** A message on the small screen *)

Fixpoint cstrb (m : mem) (a : Z) (l : list Z) : bool :=
  match l with
  | [] => read8 m a =? 0
  | b :: l => (read8 m a =? b) && negb (b =? 0) && cstrb m (a + 1) l
  end.

Lemma cstrb_sound m l : forall a, cstrb m a l = true -> cstr m a l.
Proof.
  induction l as [|b l IH]; intros a; cbn [cstrb].
  - intros H0%Z.eqb_eq. split_and!; [by intros i b|by constructor|]. cbn [length]. by rewrite Z.add_0_r.
  - intros [[H1%Z.eqb_eq H2%negb_true_iff%Z.eqb_neq]%andb_prop H3]%andb_prop.
    apply cstr_cons. split_and!; [done|done|by apply IH].
Qed.

Fixpoint put_str (l : list Z) (a : Z) (m : mem) : mem :=
  match l with [] => write8 m a 0 | b :: l => put_str l (a + 1) (write8 m a b) end.

#[local] Instance demo_klog : KlogLinker := {
  buf := 0x4000; num_buf := 0x5000; lit_percent_l := 0x6000; lit_overflow := 0x6100; lit_open := 0x6200;
  lit_ok := 0x6300; lit_warning := 0x6400; lit_error := 0x6500; lit_close := 0x6600 }.

Definition demo_format : list Z := lit "cpu %u is %s"%string.
Definition demo_strs : strings := {[ 0x7100 := lit "up"%string ]}.
Definition demo_mem : mem :=
  put_str demo_format 0x7000 (put_str (lit "up"%string) 0x7100
    (fold_right (fun '(a, l) m => put_str l a m) (put_str [37; 108] lit_percent_l ∅) literals)).

(** Strings that lie in 0x6000 .. 0x8000 of the demo memory. *)
Lemma demo_quiet a l :
  cstrb demo_mem a l = true -> 0x6000 <= a -> a + Z.of_nat (length l) < 0x8000 -> quiet_str demo_fb demo_mem a l.
Proof.
  intros Hc Ha Hl. split; [by apply cstrb_sound|]. intros x Hx.
  unfold quiet, keep, in_buf, fb_byte, in_range, MAX_INT_DIGITS, KPRINTF_BUF_SIZE in *. cbn. lia.
Qed.

Lemma demo_literals a l : (a, l) ∈ literals -> quiet_str demo_fb demo_mem a l.
Proof.
  unfold literals. intros Hin. repeat (apply elem_of_cons in Hin as [Hin|Hin]; [injection Hin as -> ->;
    apply demo_quiet; [vm_compute; reflexivity|cbn; lia|vm_compute; reflexivity]|]). by apply elem_of_nil in Hin.
Qed.

Lemma demo_ready :
  exists k, console_ready demo_fb demo_strs 2 k (g_blank (mk_cell 32 0xFFFFFF 0x35)) /\
    format_at buf (t_mem (c_term k)) 0x7000 demo_format.
Proof.
  destruct (demo_started demo_mem) as (t & Hok & Ha). exists (mk_console t 0 0x202).
  assert (agree (quiet demo_fb) demo_mem (t_mem t)) as Hq by (by apply outside_quiet).
  assert (forall a l, quiet_str demo_fb demo_mem a l -> (length l <= 2)%nat -> kept_str buf 2 (t_mem t) a l) as Hkept.
  { intros a l Hs Hl. destruct (quiet_str_agree _ _ _ _ _ Hq Hs) as [Hc Hx]. split_and!; [done| |done].
    intros x Hr. by apply Hx. }
  split; [split|].
  - exact demo_screen.
  - exact demo_fit.
  - intros x. unfold in_buf, in_range, MAX_INT_DIGITS, KPRINTF_BUF_SIZE. cbn. lia.
  - intros x. unfold in_buf, fb_byte, in_range, KPRINTF_BUF_SIZE. cbn. lia.
  - intros x. unfold fb_byte, in_range, MAX_INT_DIGITS. cbn. lia.
  - exact Hok.
  - reflexivity.
  - intros a l Hin. eapply quiet_str_agree; [exact Hq|by apply demo_literals].
  - split.
    + intros a l. unfold demo_strs. intros [<- <-]%lookup_singleton_Some. apply Hkept; [|vm_compute; lia].
      apply demo_quiet; [vm_compute; reflexivity|lia|vm_compute; reflexivity].
    + apply Hkept; [|cbn; lia]. apply demo_quiet; [vm_compute; reflexivity|cbn; lia|vm_compute; reflexivity].
  - assert (quiet_str demo_fb demo_mem 0x7000 demo_format) as Hs
      by (apply demo_quiet; [vm_compute; reflexivity|lia|vm_compute; reflexivity]).
    destruct (quiet_str_agree _ _ _ _ _ Hq Hs) as [Hc Hx]. split; [done|]. intros x Hr. by apply Hx.
Qed.

Lemma demo_text : text <$> format_text demo_strs demo_format [3; 0x7100] = Some (lit "cpu 3 is up"%string).
Proof. vm_compute. reflexivity. Qed.

Lemma demo_args : word_args [3; 0x7100].
Proof. by repeat constructor. Qed.


Lemma kprintf_correct_witness :
  exists k g, printed demo_fb k (kprintf 200 k 0x7000 [3; 0x7100]) g.
Proof.
  destruct demo_ready as (k & Hr & Hfmt).
  destruct (format_text demo_strs demo_format [3; 0x7100]) as [cs|] eqn:E; [|by vm_compute in E].
  exists k. eexists. apply (kprintf_correct demo_fb demo_strs 2 200 k _ 0x7000 demo_format _ cs Hr E demo_args Hfmt).
  vm_compute. lia.
Defined.

Lemma klog_tagged_correct_witness :
  exists k g, printed demo_fb k (klog Error 200 k 0x7000 [3; 0x7100]) g.
Proof.
  destruct demo_ready as (k & Hr & Hfmt).
  destruct (format_text demo_strs demo_format [3; 0x7100]) as [cs|] eqn:E; [|by vm_compute in E].
  pose proof (klog_tagged_correct demo_fb demo_strs 2 Error 200 k _ 0x7000 demo_format _ cs Hr E demo_args Hfmt) as Hp.
  exists k. eexists. apply Hp. vm_compute. lia.
Defined.

(** A format that ends in a percent sign: the terminator is taken for an
    unknown conversion and what lies behind it is printed. *)
Example trailing_percent :
  (fun r => (bytes_at r.1 0x4000 4, r.2)) <$>
    kvsprintf 200 (put_str [37] 0x7000 (put_str [33] 0x7002 ∅)) 0x4000 0x7000 [] = Some ([37; 0; 33; 0], 3).
Proof. vm_compute. reflexivity. Qed.
