(* ===== verification/Devices.v ===== *)
(** * Interrupt controllers and timers: operations

    Models src/kernel/arch/x86_64/interrupt_controllers/pic.c and apic.c and
    src/kernel/arch/x86_64/timer/timer.c.  What the CPU exchanges with the
    devices is a history of [dev_event]s; what a device answers is a function of
    the history so far ([Platform], the machine is not code of the
    repository), so that successive reads of a clock can differ.  A call of
    the log is an event with its format, as the source spells it, and its
    arguments.  A loop that waits for
    a device takes fuel; [None] is waiting for ever. *)
From Stdlib Require Import String.
From S2P Require Import Prelude Memory PageAlloc Slab Pmm Klib Locks Console Klog Vmm.
Import Klog Vmm.

(** ** The machine *)

(** An argument of a log call: a number, or a string. *)
Inductive log_arg := Num (n : Z) | Str (s : string).

Inductive dev_event :=
  | Outb (port val : Z)
  | Inb (port : Z)
  | Rdtsc
  | Cpuid (leaf : Z)
  | ApicRead (reg : Z)
  | ApicWrite (reg val : Z)
  | Lidt (limit base : Z)
  | Sti
  | Lgdt (limit base : Z)
  | LoadSegments (code data : Z)
  | Ltr (selector : Z)
  | Wrmsr (msr val : Z)
  | Kprintf (format : string) (args : list log_arg)
  | Log (lv : level) (format : string) (args : list log_arg).

Notation history := (list dev_event).

Record cpuid_regs := mk_regs { eax : Z; ebx : Z; ecx : Z; edx : Z }.

(** The devices: the value a read returns after a history. *)
Class Platform := {
  tsc : history -> Z;
  port_in : history -> Z -> Z;
  cpuid_leaf : Z -> cpuid_regs;
  apic_reg : history -> Z -> Z;
  tsc_range : forall h, 0 <= tsc h < 2 ^ 64;
  port_range : forall h p, 0 <= port_in h p < 256;
  apic_range : forall h r, 0 <= apic_reg h r < 2 ^ 32;
  cpuid_range : forall l, 0 <= eax (cpuid_leaf l) < 2 ^ 32 /\ 0 <= ebx (cpuid_leaf l) < 2 ^ 32 /\
    0 <= ecx (cpuid_leaf l) < 2 ^ 32 /\ 0 <= edx (cpuid_leaf l) < 2 ^ 32;
}.

Module Devices.

(** The static variables of apic.c and timer.c, and the history. *)
Record dev := mk_dev {
  hist : history;
  apic_base : Z;
  apic_timer_frequency : Z;
  cpu_cycles_per_10ms : Z;
}.

(** Computations that talk to the devices. *)
Definition io (A : Type) : Type := dev -> option (dev * A).
#[export] Instance io_ret : MRet io := fun A a d => Some (d, a).
#[export] Instance io_bind : MBind io := fun A B f c d => '(d, a) ← c d; f a d.

Definition emit_event (e : dev_event) : io unit := fun d =>
  Some (mk_dev (hist d ++ [e]) (apic_base d) (apic_timer_frequency d) (cpu_cycles_per_10ms d), tt).
Definition get {A} (f : dev -> A) : io A := fun d => Some (d, f d).
Definition set_base (b : Z) : io unit := fun d =>
  Some (mk_dev (hist d) b (apic_timer_frequency d) (cpu_cycles_per_10ms d), tt).
Definition set_frequency (f : Z) : io unit := fun d =>
  Some (mk_dev (hist d) (apic_base d) f (cpu_cycles_per_10ms d), tt).
Definition set_cycles (c : Z) : io unit := fun d =>
  Some (mk_dev (hist d) (apic_base d) (apic_timer_frequency d) c, tt).

Definition kprintf (format : string) (args : list log_arg) : io unit := emit_event (Kprintf format args).
Definition klog (lv : level) (format : string) (args : list log_arg) : io unit := emit_event (Log lv format args).

(** ** pic.c *)

Definition outb (port val : Z) : io unit := emit_event (Outb (w16 port) (w8 val)).
Definition io_wait : io unit := emit_event (Outb 0x80 0).

Definition PIC1_COMMAND : Z := 0x20.
Definition PIC1_DATA : Z := 0x21.
Definition PIC2_COMMAND : Z := 0xA0.
Definition PIC2_DATA : Z := 0xA1.
Definition ICW1_ICW4 : Z := 0x01.
Definition ICW1_INIT : Z := 0x10.
Definition ICW4_8086 : Z := 0x01.

Definition pic_remap (offset1 offset2 : Z) : io unit :=
  outb PIC1_COMMAND (Z.lor ICW1_INIT ICW1_ICW4);;
  io_wait;;
  outb PIC2_COMMAND (Z.lor ICW1_INIT ICW1_ICW4);;
  io_wait;;
  outb PIC1_DATA offset1;;
  io_wait;;
  outb PIC2_DATA offset2;;
  io_wait;;
  outb PIC1_DATA 4;;
  io_wait;;
  outb PIC2_DATA 2;;
  io_wait;;
  outb PIC1_DATA ICW4_8086;;
  io_wait;;
  outb PIC2_DATA ICW4_8086;;
  io_wait.

Definition disable_pic : io unit :=
  outb PIC1_DATA 0xFF;;
  outb PIC2_DATA 0xFF.

(** ** timer.c *)

Section Platform.
Context `{Platform}.

Definition inb (port : Z) : io Z :=
  h ← get hist; emit_event (Inb port);; mret (port_in h port).

Definition cpuid (leaf : Z) : io cpuid_regs :=
  emit_event (Cpuid leaf);; mret (cpuid_leaf leaf).

(** RDTSC leaves the counter in EDX:EAX. *)
Definition get_cpu_cycles : io Z :=
  h ← get hist;
  emit_event Rdtsc;;
  let lo := w32 (tsc h) in
  let hi := Z.shiftr (tsc h) 32 in
  mret (Z.lor (w64 (Z.shiftl hi 32)) lo).

Definition get_cpu_frequency_mhz : io Z :=
  r ← cpuid 0x80000007;
  (if Z.land (edx r) (Z.shiftl 1 8) =? 0
   then klog Warning "TSC may still work but it isn't reliable\n" [] else mret tt);;
  r ← cpuid 0x15;
  if negb (eax r =? 0) && negb (ebx r =? 0) && negb (ecx r =? 0) then
    let tsc_freq := w64 (ecx r * ebx r) / eax r in
    mret (tsc_freq / 1000000)
  else
  r ← cpuid 0x16;
  if negb (eax r =? 0) then mret (eax r) else mret 0.

Definition RTC_SECONDS : Z := 0x00.
Definition RTC_REGISTER_A : Z := 0x0A.
Definition CMOS_ADDRESS : Z := 0x70.
Definition CMOS_DATA : Z := 0x71.

Definition read_rtc_register (reg : Z) : io Z :=
  outb CMOS_ADDRESS reg;;
  io_wait;;
  inb CMOS_DATA.

(** [while (read_rtc_register(RTC_REGISTER_A) & 0x80);] *)
Fixpoint rtc_wait_update (fuel : nat) : io unit :=
  match fuel with
  | O => fun _ => None
  | S fuel =>
    a ← read_rtc_register RTC_REGISTER_A;
    if negb (Z.land a 0x80 =? 0) then rtc_wait_update fuel else mret tt
  end.

(** [while (current_second == start_second) current_second = ...] *)
Fixpoint rtc_wait_second (fuel : nat) (start_second current_second : Z) : io Z :=
  match fuel with
  | O => fun _ => None
  | S fuel =>
    if current_second =? start_second
    then current_second ← read_rtc_register RTC_SECONDS; rtc_wait_second fuel start_second current_second
    else mret current_second
  end.

Definition calibrate_with_rtc (fuel : nat) : io unit :=
  kprintf "Calibrating with RTC...\n" [];;
  rtc_wait_update fuel;;
  start_second ← read_rtc_register RTC_SECONDS;
  let current_second := start_second in
  current_second ← rtc_wait_second fuel start_second current_second;
  start_cycles ← get_cpu_cycles;
  let start_second := current_second in
  current_second ← rtc_wait_second fuel start_second current_second;
  end_cycles ← get_cpu_cycles;
  let cycles_per_second := w64 (end_cycles - start_cycles) in
  set_cycles (cycles_per_second / 100);;
  c ← get cpu_cycles_per_10ms;
  kprintf "RTC calibration: %lu cycles/second, %lu cycles/10ms\n" [Num cycles_per_second; Num c].

Definition known_freqs : list (string * Z) :=
  [("3.0 GHz CPU"%string, 30000000); ("2.4 GHz CPU"%string, 24000000); ("3.6 GHz CPU"%string, 36000000);
   ("2.0 GHz CPU"%string, 20000000); ("1.0 GHz CPU"%string, 10000000)].

Fixpoint print_freqs (i : Z) (l : list (string * Z)) : io unit :=
  match l with
  | [] => mret tt
  | (description, cycles_10ms) :: l =>
    kprintf "%d: %s - %lu cycles per 10ms\n" [Num i; Str description; Num cycles_10ms];;
    print_freqs (i + 1) l
  end.

Definition calibrate_with_known_frequencies : io unit :=
  kprintf "Available frequency estimates:\n" [];;
  print_freqs 0 known_freqs;;
  set_cycles 24000000;;
  c ← get cpu_cycles_per_10ms;
  kprintf "Using conservative estimate: %lu cycles per 10ms\n" [Num c].

Definition calibrate_cpu_timing (fuel : nat) : io unit :=
  c ← get cpu_cycles_per_10ms;
  if negb (c =? 0) then mret tt else
  kprintf "=== CPU Timing Calibration ===\n" [];;
  cpu_freq_mhz ← get_cpu_frequency_mhz;
  if 0 <? cpu_freq_mhz then
    set_cycles (w64 (cpu_freq_mhz * 10000));;
    c ← get cpu_cycles_per_10ms;
    kprintf "CPUID calibration: %lu MHz CPU = %lu cycles per 10ms\n" [Num cpu_freq_mhz; Num c]
  else
  klog Warning "CPUID frequency detection failed, trying RTC...\n" [];;
  calibrate_with_rtc fuel;;
  c ← get cpu_cycles_per_10ms;
  done_ ← (if 0 <? c then
             if (c <? 1000000) || (100000000 <? c) then
               kprintf "RTC calibration seems wrong: %lu cycles\n" [Num c];;
               set_cycles 0;; mret false
             else klog Success "RTC calibration successful\n" [];; mret true
           else mret false);
  if done_ : bool then mret tt else
  klog Warning "RTC calibration failed, using known frequency estimate...\n" [];;
  calibrate_with_known_frequencies.

(** [while (get_cpu_cycles() < target) pause] *)
Fixpoint wait_until (fuel : nat) (target : Z) : io unit :=
  match fuel with
  | O => fun _ => None
  | S fuel => c ← get_cpu_cycles; if c <? target then wait_until fuel target else mret tt
  end.

Definition cpu_wait_10ms (fuel : nat) : io unit :=
  c ← get cpu_cycles_per_10ms;
  (if c =? 0 then calibrate_cpu_timing fuel else mret tt);;
  start ← get_cpu_cycles;
  c ← get cpu_cycles_per_10ms;
  let target := w64 (start + c) in
  wait_until fuel target.

(** ** apic.c *)

Definition APIC_BASE_ADDR : Z := 0xFEE00000.
Definition APIC_EOI : Z := 0xB0.
Definition APIC_SPURIOUS_VECTOR : Z := 0xF0.
Definition APIC_ERROR_STATUS : Z := 0x280.
Definition APIC_LINT0 : Z := 0x350.
Definition APIC_LINT1 : Z := 0x360.
Definition APIC_ERROR : Z := 0x370.
Definition APIC_TIMER_LVT : Z := 0x320.
Definition APIC_TIMER_INITIAL : Z := 0x380.
Definition APIC_TIMER_CURRENT : Z := 0x390.
Definition APIC_TIMER_DIVIDE : Z := 0x3E0.
Definition APIC_TIMER_LVT_MASKED : Z := 0x10000.
Definition APIC_TIMER_PERIODIC : Z := 0x00020000.
Definition APIC_TIMER_VECTOR : Z := 0x40.
Definition apic_vaddr : Z := 0xFFFFFF8000000000.

Definition apic_read (reg : Z) : io Z :=
  base ← get apic_base;
  if negb (base =? 0) then h ← get hist; emit_event (ApicRead reg);; mret (apic_reg h reg) else mret 0.

Definition apic_write (reg value : Z) : io unit :=
  base ← get apic_base;
  if negb (base =? 0) then emit_event (ApicWrite reg (w32 value)) else mret tt.

Definition apic_timer_calibrate (fuel : nat) : io unit :=
  klog Success "Calibrating APIC timer using PIT...\n" [];;
  apic_write APIC_TIMER_LVT 0x10000;;
  apic_write APIC_TIMER_DIVIDE 0x3;;
  apic_write APIC_TIMER_INITIAL 0xFFFFFFFF;;
  cpu_wait_10ms fuel;;
  apic_current ← apic_read APIC_TIMER_CURRENT;
  let apic_ticks_in_10ms := w32 (0xFFFFFFFF - apic_current) in
  set_frequency (w32 (apic_ticks_in_10ms * 100));;
  apic_write APIC_TIMER_LVT 0x10000;;
  apic_write APIC_TIMER_INITIAL 0;;
  f ← get apic_timer_frequency;
  klog Success "APIC timer calibrated: %u ticks per second\n" [Num f].

Definition apic_timer_init_cpu (cpu_id : Z) : io Z :=
  base ← get apic_base;
  if base =? 0 then klog Error "APIC not globally initialized\n" [];; mret (-1) else
  spurious ← apic_read APIC_SPURIOUS_VECTOR;
  let spurious := Z.lor spurious 0x100 in
  let spurious := Z.land spurious (Z.lnot 0xFF) in
  let spurious := Z.lor spurious 0xFF in
  apic_write APIC_SPURIOUS_VECTOR spurious;;
  spurious_check ← apic_read APIC_SPURIOUS_VECTOR;
  if Z.land spurious_check 0x100 =? 0 then
    klog Error "CPU %u: Failed to enable APIC (spurious=0x%x)\n" [Num cpu_id; Num spurious_check];; mret (-1)
  else
  apic_write APIC_TIMER_LVT 0x10000;;
  apic_write APIC_LINT0 0x10000;;
  apic_write APIC_LINT1 0x10000;;
  apic_write APIC_ERROR 0x10000;;
  apic_write APIC_ERROR_STATUS 0;;
  apic_write APIC_ERROR_STATUS 0;;
  error_status ← apic_read APIC_ERROR_STATUS;
  (if negb (error_status =? 0)
   then klog Warning "CPU %u: APIC error status: 0x%x\n" [Num cpu_id; Num error_status] else mret tt);;
  apic_write APIC_EOI 0;;
  mret 0.

Definition apic_timer_set_frequency (frequency : Z) : io unit :=
  f ← get apic_timer_frequency;
  if f =? 0 then klog Error "APIC timer not calibrated\n" [] else
  if frequency =? 0 then klog Error "Invalid frequency: 0\n" [] else
  let initial_count := f / frequency in
  initial_count ← (if initial_count =? 0
                   then klog Warning "Frequency too high, setting to minimum\n" [];; mret 1
                   else mret initial_count);
  apic_write APIC_TIMER_DIVIDE 0x3;;
  apic_write APIC_TIMER_LVT (Z.lor (Z.lor APIC_TIMER_PERIODIC APIC_TIMER_VECTOR) APIC_TIMER_LVT_MASKED);;
  apic_write APIC_TIMER_INITIAL initial_count.

(** [apic_timer_handler] before it calls [schedule]. *)
Definition apic_timer_ack : io unit := apic_write APIC_EOI 0.

Definition apic_timer_enable : io unit :=
  lvt ← apic_read APIC_TIMER_LVT;
  apic_write APIC_TIMER_LVT (Z.land lvt (Z.lnot 0x10000)).

Definition apic_timer_disable : io unit :=
  lvt ← apic_read APIC_TIMER_LVT;
  apic_write APIC_TIMER_LVT (Z.lor lvt 0x10000).

End Platform.

(** [apic_global_init], with the page tables it maps the registers in. *)
Section Global.
Context `{Platform} `{Hhdm} `{Linker} {P : Type} `{!PageAllocator P}.

Definition mmio_flags : Z :=
  Z.lor (Z.lor (Z.lor PTE_PRESENT PTE_WRITABLE) PTE_CACHE_DISABLE) PTE_WRITETHROUGH.

Definition apic_global_init (fuel : nat) (v : vmm P) (d : dev) : option (vmm P * dev * Z) :=
  let kernel_as := get_kernel_as v in
  '(v, result) ← vmm_map_range kernel_as apic_vaddr APIC_BASE_ADDR 0x1000 mmio_flags v;
  if negb (result =? 0) then
    '(d, _) ← klog Error "Failed to map APIC base address\n" [] d;
    Some (v, d, -1)
  else
    '(d, _) ← (set_base apic_vaddr;;
               klog Success "APIC mapped at virtual address 0x%lx\n" [Num apic_vaddr];;
               apic_timer_calibrate fuel) d;
    Some (v, d, 0).

End Global.

End Devices.
