(* ===== verification/DevicesSpec.v ===== *)
(** * Interrupt controllers and timers: correctness

    The history of device accesses is read back as the state it puts a device
    in: [pic_state] runs the initialisation protocol of the 8259A, [last_write]
    gives the value of a local APIC register.  Waiting is proved to end under
    hypotheses on the clocks, which a concrete platform at the end satisfies. *)
From Stdlib Require Import String.
From S2P Require Import Prelude Memory PageAlloc Slab Pmm Klib Locks Console Klog Vmm Devices.
Import Vmm Devices.

(** ** Running device programs *)

(** The state after one event. *)
Definition log_event (d : dev) (e : dev_event) : dev :=
  mk_dev (hist d ++ [e]) (apic_base d) (apic_timer_frequency d) (cpu_cycles_per_10ms d).
Definition with_frequency (d : dev) (f : Z) : dev := mk_dev (hist d) (apic_base d) f (cpu_cycles_per_10ms d).
Definition with_cycles (d : dev) (c : Z) : dev := mk_dev (hist d) (apic_base d) (apic_timer_frequency d) c.

(** Their fields; unfolding nested states would be exponential. *)
Lemma hist_log d e : hist (log_event d e) = hist d ++ [e].
Proof. done. Qed.
Lemma base_log d e : apic_base (log_event d e) = apic_base d.
Proof. done. Qed.
Lemma freq_log d e : apic_timer_frequency (log_event d e) = apic_timer_frequency d.
Proof. done. Qed.
Lemma cycles_log d e : cpu_cycles_per_10ms (log_event d e) = cpu_cycles_per_10ms d.
Proof. done. Qed.
Lemma hist_freq d f : hist (with_frequency d f) = hist d.
Proof. done. Qed.
Lemma base_freq d f : apic_base (with_frequency d f) = apic_base d.
Proof. done. Qed.
Lemma freq_freq d f : apic_timer_frequency (with_frequency d f) = f.
Proof. done. Qed.
Lemma hist_cycles d c : hist (with_cycles d c) = hist d.
Proof. done. Qed.
Lemma base_cycles d c : apic_base (with_cycles d c) = apic_base d.
Proof. done. Qed.
Lemma freq_cycles d c : apic_timer_frequency (with_cycles d c) = apic_timer_frequency d.
Proof. done. Qed.
Lemma cycles_cycles d c : cpu_cycles_per_10ms (with_cycles d c) = c.
Proof. done. Qed.

Create HintDb devs.
#[export] Hint Rewrite hist_log base_log freq_log cycles_log hist_freq base_freq freq_freq
  hist_cycles base_cycles freq_cycles cycles_cycles : devs.

Section Run.
Context {A B : Type}.
Implicit Types (d : dev) (k : A -> io B).

Lemma bind_eq (c : io A) k d d' a : c d = Some (d', a) -> (c ≫= k) d = k a d'.
Proof. intros E. unfold mbind, io_bind. by rewrite E. Qed.

Lemma bind_assoc {C} (c : io C) (f : C -> io A) k d : ((c ≫= f) ≫= k) d = (c ≫= (fun x => f x ≫= k)) d.
Proof. unfold mbind, io_bind. by destruct (c d) as [[d' x]|]. Qed.

Lemma ret_bind a k d : (mret a ≫= k) d = k a d.
Proof. done. Qed.

Lemma get_bind (f : dev -> A) k d : (get f ≫= k) d = k (f d) d.
Proof. done. Qed.
End Run.

Lemma emit_bind {B} e (k : unit -> io B) d : (emit_event e ≫= k) d = k tt (log_event d e).
Proof. done. Qed.

Lemma emit_end e d : emit_event e d = Some (log_event d e, tt).
Proof. done. Qed.

Lemma cycles_bind {B} c (k : unit -> io B) d : (set_cycles c ≫= k) d = k tt (with_cycles d c).
Proof. done. Qed.

Lemma frequency_bind {B} f (k : unit -> io B) d : (set_frequency f ≫= k) d = k tt (with_frequency d f).
Proof. done. Qed.

(** Runs a device program as far as it has no loop and no test. *)
Ltac fields := autorewrite with devs in *.
Ltac run_io :=
  unfold kprintf, klog, outb, io_wait;
  repeat first [rewrite bind_assoc | rewrite emit_bind | rewrite get_bind | rewrite ret_bind
    | rewrite cycles_bind | rewrite frequency_bind | rewrite emit_end | progress cbv beta].

(** ** The 8259A pair *)

(** One controller: the initialisation word it expects next, its vector
    offset, cascade word, mode word and interrupt mask. *)
Record pic := mk_pic { expects : nat; offset : Z; cascade : Z; mode : Z; imr : Z }.

(** A write to the command port with bit 4 set starts the initialisation; the
    data port then takes ICW2, ICW3 and ICW4, and after that the mask. *)
Definition pic_command (v : Z) (p : pic) : pic :=
  if Z.testbit v 4 then mk_pic 2 (offset p) (cascade p) (mode p) 0 else p.
Definition pic_data (v : Z) (p : pic) : pic :=
  match expects p with
  | 2%nat => mk_pic 3 v (cascade p) (mode p) (imr p)
  | 3%nat => mk_pic 4 (offset p) v (mode p) (imr p)
  | 4%nat => mk_pic 0 (offset p) (cascade p) v (imr p)
  | _ => mk_pic 0 (offset p) (cascade p) (mode p) v
  end.

Definition pic_event (s : pic * pic) (e : dev_event) : pic * pic :=
  match e with
  | Outb p v =>
    if p =? PIC1_COMMAND then (pic_command v s.1, s.2)
    else if p =? PIC1_DATA then (pic_data v s.1, s.2)
    else if p =? PIC2_COMMAND then (s.1, pic_command v s.2)
    else if p =? PIC2_DATA then (s.1, pic_data v s.2)
    else s
  | _ => s
  end.

(** The controllers after a history, from their state [s] at the start. *)
Definition pic_state (s : pic * pic) (h : history) : pic * pic := fold_left pic_event h s.

(** [pic_remap] followed by [disable_pic] takes both controllers, from any
    state, through their whole initialisation: vectors at the given offsets,
    cascaded on line 2, 8086 mode, every line masked. *)
Lemma pic_setup_correct d o1 o2 s :
  0 <= o1 < 256 -> 0 <= o2 < 256 ->
  exists d', (pic_remap o1 o2;; disable_pic) d = Some (d', tt) /\
    pic_state s (hist d') = (mk_pic 0 o1 4 ICW4_8086 0xFF, mk_pic 0 o2 2 ICW4_8086 0xFF) /\
    apic_base d' = apic_base d /\ apic_timer_frequency d' = apic_timer_frequency d /\
    cpu_cycles_per_10ms d' = cpu_cycles_per_10ms d /\ (length (hist d') = length (hist d) + 18)%nat.
Proof.
  intros H1 H2. unfold pic_remap, disable_pic. run_io. eexists. split; [reflexivity|]. fields.
  split; [|split_and!; [done..|rewrite !length_app; cbn [length]; lia]].
  unfold pic_state. rewrite !fold_left_app. cbn [fold_left].
  set (s0 := fold_left pic_event (hist d) s).
  rewrite (wrap_small 8 o1), (wrap_small 8 o2) by lia. by destruct s0.
Qed.

(** ** The local APIC *)

(** The value last written to a register. *)
Definition last_write (reg : Z) (h : history) : option Z :=
  fold_left (fun acc e => match e with ApicWrite r v => if r =? reg then Some v else acc | _ => acc end) h None.

Lemma last_write_snoc reg h e :
  last_write reg (h ++ [e]) = match e with ApicWrite r v => if r =? reg then Some v else last_write reg h | _ => last_write reg h end.
Proof. unfold last_write. by rewrite fold_left_app. Qed.

#[export] Hint Rewrite last_write_snoc : lunos.

(** Registers the manual lets software read back: the enable bit of the
    spurious vector register, and mask, mode and vector of the timer entry. *)
Class ApicReadback `{Platform} := {
  svr_readback : forall h v, last_write APIC_SPURIOUS_VECTOR h = Some v ->
    Z.testbit (apic_reg h APIC_SPURIOUS_VECTOR) 8 = Z.testbit v 8;
  lvt_readback : forall h v, last_write APIC_TIMER_LVT h = Some v ->
    Z.land (apic_reg h APIC_TIMER_LVT) 0x700FF = Z.land v 0x700FF;
}.

Ltac apic_regs :=
  unfold APIC_EOI, APIC_SPURIOUS_VECTOR, APIC_ERROR_STATUS, APIC_LINT0, APIC_LINT1, APIC_ERROR, APIC_TIMER_LVT,
    APIC_TIMER_INITIAL, APIC_TIMER_CURRENT, APIC_TIMER_DIVIDE in *;
  rewrite ?last_write_snoc; cbn [Z.eqb Pos.eqb].

Section Apic.
Context `{ApicReadback}.

Lemma land_bit x k : 0 <= k -> (Z.land x (2 ^ k) =? 0) = negb (Z.testbit x k).
Proof.
  intros Hk. destruct (Z.testbit x k) eqn:E; cbn [negb].
  - apply Z.eqb_neq. intros E0. assert (Z.testbit (Z.land x (2 ^ k)) k = true) as Ht
      by (by rewrite Z.land_spec, E, Z.pow2_bits_true by lia). by rewrite E0, Z.bits_0 in Ht.
  - apply Z.eqb_eq, Z.bits_inj'. intros n Hn. rewrite Z.land_spec, Z.bits_0.
    destruct (decide (n = k)) as [->|Hne]; [by rewrite E|]. by rewrite Z.pow2_bits_false, andb_false_r by done.
Qed.

(** The word [apic_timer_init_cpu] writes to the spurious vector register. *)
Definition svr_word (s : Z) : Z := Z.lor (Z.land (Z.lor s 0x100) (Z.lnot 0xFF)) 0xFF.

Lemma svr_word_bits s n : 0 <= n -> Z.testbit (svr_word s) n = (n <? 8) || (n =? 8) || Z.testbit s n.
Proof.
  intros Hn. unfold svr_word. change 0xFF with (Z.ones 8). change 0x100 with (2 ^ 8).
  rewrite Z.lor_spec, Z.land_spec, Z.lor_spec, Z.lnot_spec, Z.testbit_ones, Z.pow2_bits_eqb by lia.
  rewrite (proj2 (Z.leb_le 0 n)) by lia. zbool; cbn; rewrite ?orb_true_r, ?andb_true_r, ?orb_false_r, ?andb_false_r; lia || done.
Qed.

Lemma svr_word_range s : 0 <= s < 2 ^ 32 -> 0 <= svr_word s < 2 ^ 32.
Proof.
  intros Hs. unfold svr_word. apply lor_range; [lia| |lia].
  assert (0 <= Z.lor s 0x100 < 2 ^ 32) as Hl by (apply lor_range; lia).
  change (Z.lnot 0xFF) with (Z.lnot (Z.ones 8)). rewrite land_lnot_ones by lia.
  pose proof (Z.mod_pos_bound (Z.lor s 0x100) (2 ^ 8)). pose proof (Z.mod_le (Z.lor s 0x100) (2 ^ 8)). lia.
Qed.

Lemma apic_write_bind {B} r v (k : unit -> io B) d :
  apic_base d <> 0 -> (apic_write r v ≫= k) d = k tt (log_event d (ApicWrite r (w32 v))).
Proof. intros Hb. unfold apic_write. run_io. by rewrite (proj2 (Z.eqb_neq _ _)). Qed.

Lemma apic_write_end r v d :
  apic_base d <> 0 -> apic_write r v d = Some (log_event d (ApicWrite r (w32 v)), tt).
Proof. intros Hb. unfold apic_write. run_io. by rewrite (proj2 (Z.eqb_neq _ _)). Qed.

Lemma apic_read_bind {B} r (k : Z -> io B) d :
  apic_base d <> 0 -> (apic_read r ≫= k) d = k (apic_reg (hist d) r) (log_event d (ApicRead r)).
Proof. intros Hb. unfold apic_read. run_io. by rewrite (proj2 (Z.eqb_neq _ _)). Qed.
End Apic.

Ltac run_apic :=
  repeat first [rewrite apic_write_bind by (fields; done) | rewrite apic_read_bind by (fields; done)
    | rewrite apic_write_end by (fields; done) | progress run_io].

(** What [apic_timer_init_cpu] leaves on success. *)
Definition apic_ready (h : history) : Prop :=
  (exists v, last_write APIC_SPURIOUS_VECTOR h = Some v /\ Z.testbit v 8 = true /\ v mod 256 = 0xFF) /\
  last_write APIC_TIMER_LVT h = Some APIC_TIMER_LVT_MASKED /\
  last_write APIC_LINT0 h = Some APIC_TIMER_LVT_MASKED /\
  last_write APIC_LINT1 h = Some APIC_TIMER_LVT_MASKED /\
  last_write APIC_ERROR h = Some APIC_TIMER_LVT_MASKED /\
  last h = Some (ApicWrite APIC_EOI 0).

Lemma svr_word_vector s : svr_word s mod 256 = 0xFF.
Proof.
  change 256 with (2 ^ 8). change 0xFF with (Z.ones 8). apply Z.bits_inj'. intros n Hn.
  rewrite Z.testbit_ones, (proj2 (Z.leb_le 0 n)) by lia. destruct (Z.ltb_spec n 8).
  - rewrite Z.mod_pow2_bits_low, svr_word_bits by lia. rewrite (proj2 (Z.ltb_lt _ _)) by lia. done.
  - by rewrite Z.mod_pow2_bits_high by lia.
Qed.

(** The end of [apic_timer_init_cpu]: report errors, acknowledge. *)
Lemma init_end `{Platform} cpu_id e d :
  apic_base d <> 0 ->
  exists d', ((if negb (e =? 0) then emit_event (Log Klog.Warning "CPU %u: APIC error status: 0x%x\n" [Num cpu_id; Num e]) else mret tt)
      ≫= (fun _ => apic_write APIC_EOI 0 ≫= fun _ => mret 0)) d = Some (d', 0) /\
    apic_base d' = apic_base d /\ apic_timer_frequency d' = apic_timer_frequency d /\
    (forall reg, reg <> APIC_EOI -> last_write reg (hist d') = last_write reg (hist d)) /\
    last (hist d') = Some (ApicWrite APIC_EOI 0).
Proof.
  intros Hb. destruct (negb (e =? 0)); run_apic; eexists; (split; [reflexivity|]); fields;
    (split_and!; [done|done| |by rewrite last_snoc]); intros reg Hreg; rewrite !last_write_snoc;
    by rewrite (proj2 (Z.eqb_neq _ _)).
Qed.

(** [apic_timer_init_cpu] fails, touching no register, exactly when the
    registers are not mapped; otherwise it enables the local APIC with spurious
    vector 255, keeps the other bits of that register, masks the timer, both
    LINT pins and the error entry, and acknowledges what was pending. *)
Lemma apic_timer_init_cpu_correct `{ApicReadback} cpu_id d :
  exists d' r, apic_timer_init_cpu cpu_id d = Some (d', r) /\
    apic_base d' = apic_base d /\ apic_timer_frequency d' = apic_timer_frequency d /\
    if decide (apic_base d = 0) then r = -1 /\ (forall reg, last_write reg (hist d') = last_write reg (hist d))
    else r = 0 /\ apic_ready (hist d') /\
      (exists v, last_write APIC_SPURIOUS_VECTOR (hist d') = Some v /\
         forall n, 8 < n -> Z.testbit v n = Z.testbit (apic_reg (hist d) APIC_SPURIOUS_VECTOR) n).
Proof.
  unfold apic_timer_init_cpu. rewrite get_bind. destruct (decide (apic_base d = 0)) as [Hb|Hb].
  - rewrite (proj2 (Z.eqb_eq _ _)) by done. run_io. eexists _, _. split; [reflexivity|]. fields. split_and!; try done.
    intros reg. by rewrite last_write_snoc.
  - rewrite (proj2 (Z.eqb_neq _ _)) by done. run_apic. fold (svr_word (apic_reg (hist d) APIC_SPURIOUS_VECTOR)).
    pose proof (apic_range (hist d) APIC_SPURIOUS_VECTOR) as Hr. set (s := apic_reg (hist d) APIC_SPURIOUS_VECTOR) in *.
    rewrite (wrap_small 32 (svr_word s)) by (by apply svr_word_range).
    set (d1 := log_event (log_event d _) _). change 0x100 with (2 ^ 8). rewrite land_bit by lia.
    fields. change (hist (log_event _ _)) with (hist d1).
    rewrite (svr_readback (hist d1) (svr_word s)), svr_word_bits by (unfold d1; fields; apic_regs; done || lia).
    cbn [Z.ltb Z.eqb Z.compare Pos.compare Pos.compare_cont Pos.eqb orb negb].
    assert (apic_base d1 <> 0) as Hb1 by (unfold d1; by fields). run_apic.
    edestruct (init_end cpu_id) as (d' & E & Hb' & Hf' & Hw & Hl); [|rewrite E]; [by fields|].
    clear E. exists d', 0. rewrite Hb', Hf'. unfold apic_ready. rewrite !Hw by done. fields. apic_regs.
    assert (last_write 0xF0 (hist d1) = Some (svr_word s)) as ->
      by (unfold d1; fields; rewrite !last_write_snoc; done).
    split_and!; try done; try (unfold d1; by fields); exists (svr_word s); split_and!; try done.
    + by rewrite svr_word_bits by lia.
    + apply svr_word_vector.
    + intros n Hn. rewrite svr_word_bits by lia. by rewrite (proj2 (Z.ltb_ge n 8)), (proj2 (Z.eqb_neq n 8)) by lia.
Qed.
