(* ===== verification/TimerSpec.v ===== *)
(** * Timers: correctness

    Calibration of the CPU clock, waiting on it, and the programming of the
    local APIC timer. *)
From Stdlib Require Import String.
From S2P Require Import Prelude Memory PageAlloc Slab Pmm Klib Locks Console Klog Vmm Devices DevicesSpec.
Import Vmm Devices.

(** ** Reading the clocks *)

Lemma join_halves x : 0 <= x < 2 ^ 64 -> Z.lor (w64 (Z.shiftl (Z.shiftr x 32) 32)) (w32 x) = x.
Proof.
  intros Hx. unfold wrap. rewrite Z.shiftl_mul_pow2, Z.shiftr_div_pow2 by lia.
  pose proof (Z.div_mod x (2 ^ 32) ltac:(lia)) as Hdm. pose proof (Z.mod_pos_bound x (2 ^ 32) ltac:(lia)) as Hm.
  rewrite (Z.mod_small (x / 2 ^ 32 * 2 ^ 32)) by lia.
  assert (Z.land (x / 2 ^ 32 * 2 ^ 32) (x mod 2 ^ 32) = 0) as H0.
  { rewrite <- Z.shiftl_mul_pow2, <- (Z.land_ones x 32) by lia. apply Z.bits_inj'. intros n Hn.
    rewrite Z.land_spec, Z.land_spec, Z.testbit_ones, Z.bits_0 by lia. destruct (Z.ltb_spec n 32).
    - by rewrite Z.shiftl_spec_low by lia.
    - by rewrite !andb_false_r. }
  pose proof (Z.add_lor_land (x / 2 ^ 32 * 2 ^ 32) (x mod 2 ^ 32)). lia.
Qed.

Section Clocks.
Context `{Platform}.

Lemma get_cpu_cycles_bind {B} (k : Z -> io B) d :
  (get_cpu_cycles ≫= k) d = k (tsc (hist d)) (log_event d Rdtsc).
Proof. unfold get_cpu_cycles. run_io. by rewrite join_halves by apply tsc_range. Qed.

(** The events of one poll of a clock register, and the value it reads. *)
Definition poll_events (reg : Z) : history := [Outb CMOS_ADDRESS reg; Outb 0x80 0; Inb CMOS_DATA].
Definition rtc_value (h : history) (reg : Z) : Z := port_in (h ++ [Outb CMOS_ADDRESS reg; Outb 0x80 0]) CMOS_DATA.

(** The history after [n] polls. *)
Fixpoint polls (h : history) (reg : Z) (n : nat) : history :=
  match n with O => h | S n => polls (h ++ poll_events reg) reg n end.

Definition log_poll (d : dev) (reg : Z) : dev :=
  log_event (log_event (log_event d (Outb CMOS_ADDRESS reg)) (Outb 0x80 0)) (Inb CMOS_DATA).

Lemma read_rtc_bind {B} reg (k : Z -> io B) d :
  0 <= reg < 256 -> (read_rtc_register reg ≫= k) d = k (rtc_value (hist d) reg) (log_poll d reg).
Proof.
  intros Hr. unfold read_rtc_register, inb. run_io. rewrite (wrap_small 8) by lia.
  change (w16 CMOS_ADDRESS) with CMOS_ADDRESS. fields. unfold rtc_value. by rewrite <- app_assoc.
Qed.

Lemma hist_poll d reg : hist (log_poll d reg) = hist d ++ poll_events reg.
Proof. unfold log_poll. fields. by rewrite <- !app_assoc. Qed.

(** Two states that differ only in their history and the measured clock. *)
Definition same_apic (d d' : dev) : Prop :=
  apic_base d' = apic_base d /\ apic_timer_frequency d' = apic_timer_frequency d /\
  exists h, hist d' = hist d ++ h /\ forall reg h0, last_write reg (h0 ++ h) = last_write reg h0.

#[export] Instance same_apic_preorder : PreOrder same_apic.
Proof.
  split.
  - intros d. split_and!; [done..|]. exists []. rewrite app_nil_r. split; [done|]. intros reg h0. by rewrite app_nil_r.
  - intros d1 d2 d3 (? & ? & h & E & Hh) (? & ? & h' & E' & Hh'). split_and!; [congruence..|].
    exists (h ++ h'). split; [by rewrite E', E, app_assoc|]. intros reg h0. by rewrite app_assoc, Hh', Hh.
Qed.

Definition is_apic_write (e : dev_event) : bool := match e with ApicWrite _ _ => true | _ => false end.

Lemma log_same_apic d e : is_apic_write e = false -> same_apic d (log_event d e).
Proof.
  intros He. split_and!; [done..|]. exists [e]. split; [done|]. intros reg h0. rewrite last_write_snoc. by destruct e.
Qed.

Lemma cycles_same_apic d c : same_apic d (with_cycles d c).
Proof. split_and!; [done..|]. exists []. rewrite app_nil_r. split; [done|]. intros reg h0. by rewrite app_nil_r. Qed.

Lemma poll_same_apic d reg : same_apic d (log_poll d reg) /\ cpu_cycles_per_10ms (log_poll d reg) = cpu_cycles_per_10ms d.
Proof. split; [|done]. unfold log_poll. do 2 (etransitivity; [|by apply log_same_apic]). by apply log_same_apic. Qed.

(** ** Waiting *)

(** The time stamp counter advances by at least [rate] from one read to the
    next, until it comes near its end. *)
Definition tsc_advances (rate limit : Z) : Prop :=
  0 < rate /\ limit < 2 ^ 64 /\ forall h, tsc h < limit -> tsc h + rate <= tsc (h ++ [Rdtsc]).

Lemma wait_until_spec rate limit target n : forall d,
  tsc_advances rate limit -> target <= limit -> target <= tsc (hist d) + rate * Z.of_nat n ->
  exists d' j, wait_until (S n) target d = Some (d', tt) /\
    hist d' = hist d ++ replicate (S j) Rdtsc /\ target <= tsc (hist d ++ replicate j Rdtsc) /\
    (forall i, (i < j)%nat -> tsc (hist d ++ replicate i Rdtsc) < target) /\
    same_apic d d' /\ cpu_cycles_per_10ms d' = cpu_cycles_per_10ms d.
Proof.
  induction n as [|n IH]; intros d (Hr & Hlim & Hadv) Ht Hn; cbn [wait_until]; rewrite get_cpu_cycles_bind.
  1: rewrite (proj2 (Z.ltb_ge _ _)) by lia.
  2: destruct (Z.ltb_spec (tsc (hist d)) target) as [Hlt|Hge].
  1, 3: exists (log_event d Rdtsc), O; cbn [replicate]; rewrite app_nil_r;
    split_and!; [done|done|lia|intros i Hi; lia|by apply log_same_apic|done].
  destruct (IH (log_event d Rdtsc)) as (d' & j & E & Eh & Hj & Hi & Hs & Hc); [done|done| |].
  - fields. specialize (Hadv (hist d) ltac:(lia)). nia.
  - fields. assert (forall i, (hist d ++ [Rdtsc]) ++ replicate i Rdtsc = hist d ++ replicate (S i) Rdtsc) as Es
      by (intros i; by rewrite <- app_assoc).
    exists d', (S j). rewrite Es in *. split_and!; try done.
    + intros [|i] Hlt'; [cbn [replicate]; by rewrite app_nil_r|]. rewrite <- Es. apply Hi. lia.
    + etransitivity; [|exact Hs]. by apply log_same_apic.
Qed.

(** ** Calibration *)

(** The clock ticks: within [K] polls the update flag reads clear, and the
    seconds differ from any given value. *)
Definition rtc_alive (K : nat) : Prop := forall h,
  (exists n, (n < K)%nat /\ Z.land (rtc_value (polls h RTC_REGISTER_A n) RTC_REGISTER_A) 0x80 = 0) /\
  forall s, exists n, (n < K)%nat /\ rtc_value (polls h RTC_SECONDS n) RTC_SECONDS <> s.

Definition same_clock (d d' : dev) : Prop := same_apic d d' /\ cpu_cycles_per_10ms d' = cpu_cycles_per_10ms d.

#[export] Instance same_clock_preorder : PreOrder same_clock.
Proof.
  split; [by intros d|]. intros d1 d2 d3 [H1 E1] [H2 E2]. split; [by etransitivity|congruence].
Qed.

Lemma log_same_clock d e : is_apic_write e = false -> same_clock d (log_event d e).
Proof. split; [by apply log_same_apic|done]. Qed.

Lemma rtc_wait_update_spec n : forall fuel d,
  Z.land (rtc_value (polls (hist d) RTC_REGISTER_A n) RTC_REGISTER_A) 0x80 = 0 -> (n < fuel)%nat ->
  exists d', rtc_wait_update fuel d = Some (d', tt) /\ same_clock d d'.
Proof.
  induction n as [|n IH]; intros [|fuel] d Hn Hf; try lia; cbn [rtc_wait_update]; rewrite read_rtc_bind by done.
  - cbn [polls] in Hn. rewrite Hn. cbn [Z.eqb negb]. eexists. split; [reflexivity|apply poll_same_apic].
  - destruct (Z.land (rtc_value (hist d) RTC_REGISTER_A) 0x80 =? 0); cbn [negb].
    + eexists. split; [reflexivity|apply poll_same_apic].
    + destruct (IH fuel (log_poll d RTC_REGISTER_A)) as (d' & E & Hs); [by rewrite hist_poll|lia|].
      exists d'. split; [done|]. etransitivity; [apply poll_same_apic|done].
Qed.

Lemma rtc_wait_second_spec n s : forall fuel d,
  rtc_value (polls (hist d) RTC_SECONDS n) RTC_SECONDS <> s -> (S n < fuel)%nat ->
  exists d' c, rtc_wait_second fuel s s d = Some (d', c) /\ same_clock d d'.
Proof.
  induction n as [|n IH]; intros [|fuel] d Hn Hf; try lia; cbn [rtc_wait_second]; rewrite Z.eqb_refl, read_rtc_bind by done.
  - destruct fuel as [|fuel]; [lia|]. cbn [rtc_wait_second polls] in *. rewrite (proj2 (Z.eqb_neq _ _)) by done.
    eexists _, _. split; [reflexivity|apply poll_same_apic].
  - destruct (Z.eqb_spec (rtc_value (hist d) RTC_SECONDS) s) as [->|Hne].
    + destruct (IH fuel (log_poll d RTC_SECONDS)) as (d' & c & E & Hs); [by rewrite hist_poll|lia|].
      exists d', c. split; [done|]. etransitivity; [apply poll_same_apic|done].
    + destruct fuel as [|fuel]; [lia|]. cbn [rtc_wait_second]. rewrite (proj2 (Z.eqb_neq _ _)) by done.
      eexists _, _. split; [reflexivity|apply poll_same_apic].
Qed.
(** The frequency CPUID gives, in MHz. *)
Definition cpuid_mhz : Z :=
  let r := cpuid_leaf 0x15 in
  if negb (eax r =? 0) && negb (ebx r =? 0) && negb (ecx r =? 0)
  then ecx r * ebx r / eax r / 1000000 else eax (cpuid_leaf 0x16).

Lemma mhz_spec d :
  exists d', get_cpu_frequency_mhz d = Some (d', cpuid_mhz) /\ same_clock d d'.
Proof.
  unfold get_cpu_frequency_mhz, cpuid, cpuid_mhz. run_io.
  pose proof (cpuid_range 0x15) as (He & Hb & Hc & _).
  set (d1 := log_event d _). assert (forall B (k : unit -> io B), exists d2,
    ((if Z.land (edx (cpuid_leaf 0x80000007)) (Z.shiftl 1 8) =? 0
      then emit_event (Log Klog.Warning "TSC may still work but it isn't reliable\n" []) else mret tt) ≫= k) d1 = k tt d2 /\
    same_clock d1 d2) as Hw.
  { intros B k. destruct (_ =? 0); run_io; eexists; (split; [reflexivity|]); [by apply log_same_clock|done]. }
  edestruct Hw as (d2 & -> & Hs). run_io.
  assert (same_clock d (log_event d2 (Cpuid 0x15))) as Hs2.
  { etransitivity; [|by apply log_same_clock]. etransitivity; [by apply (log_same_clock d (Cpuid 0x80000007))|done]. }
  rewrite (wrap_small 64) by nia.
  destruct (negb (eax (cpuid_leaf 0x15) =? 0) && negb (ebx (cpuid_leaf 0x15) =? 0) && negb (ecx (cpuid_leaf 0x15) =? 0)).
  - by eexists.
  - run_io. assert (same_clock d (log_event (log_event d2 (Cpuid 0x15)) (Cpuid 0x16))) as Hs3
      by (etransitivity; [exact Hs2|by apply log_same_clock]).
    destruct (Z.eqb_spec (eax (cpuid_leaf 0x16)) 0) as [->|]; cbn [negb]; by eexists.
Qed.

Lemma mhz_range : 0 <= cpuid_mhz < 2 ^ 50.
Proof.
  unfold cpuid_mhz. pose proof (cpuid_range 0x15) as (He & Hb & Hc & _). pose proof (cpuid_range 0x16) as (He' & _).
  destruct (Z.eqb_spec (eax (cpuid_leaf 0x15)) 0); cbn [negb andb]; [lia|].
  destruct (negb _ && negb _); [|lia].
  assert (0 <= ecx (cpuid_leaf 0x15) * ebx (cpuid_leaf 0x15) < 2 ^ 64) as Hm by nia.
  assert (0 <= ecx (cpuid_leaf 0x15) * ebx (cpuid_leaf 0x15) / eax (cpuid_leaf 0x15) < 2 ^ 64) as Hd.
  { split; [apply Z.div_pos; lia|]. apply Z.div_lt_upper_bound; nia. }
  split; [apply Z.div_pos; lia|]. apply Z.div_lt_upper_bound; lia.
Qed.

Lemma print_freqs_spec l : forall i d, exists d', print_freqs i l d = Some (d', tt) /\ same_clock d d'.
Proof.
  induction l as [|[s c] l IH]; intros i d; cbn [print_freqs]; [by eexists|]. run_io.
  destruct (IH (i + 1) (log_event d (Kprintf "%d: %s - %lu cycles per 10ms\n" [Num i; Str s; Num c]))) as (d' & E & Hs).
  exists d'. split; [done|]. etransitivity; [|exact Hs]. by apply log_same_clock.
Qed.

Lemma known_spec d :
  exists d', calibrate_with_known_frequencies d = Some (d', tt) /\ same_apic d d' /\ cpu_cycles_per_10ms d' = 24000000.
Proof.
  unfold calibrate_with_known_frequencies. run_io. set (d1 := log_event d _).
  destruct (print_freqs_spec known_freqs 0 d1) as (d2 & E & Hs & _). rewrite (bind_eq _ _ _ _ _ E). run_io.
  eexists. split; [reflexivity|]. fields. split; [|done]. etransitivity; [|by apply log_same_apic].
  etransitivity; [|apply cycles_same_apic]. etransitivity; [|exact Hs]. by apply log_same_apic.
Qed.

Lemma rtc_spec K fuel d :
  rtc_alive K -> (S K < fuel)%nat ->
  exists d', calibrate_with_rtc fuel d = Some (d', tt) /\ same_apic d d' /\ 0 <= cpu_cycles_per_10ms d'.
Proof.
  intros Ha Hf. unfold calibrate_with_rtc. run_io. set (d1 := log_event d _).
  destruct (Ha (hist d1)) as [(n & Hn & Hz) _].
  destruct (rtc_wait_update_spec n fuel d1 Hz ltac:(lia)) as (d2 & E2 & Hs2). rewrite (bind_eq _ _ _ _ _ E2).
  rewrite read_rtc_bind by done. set (d3 := log_poll d2 _). set (s := rtc_value _ _).
  destruct (proj2 (Ha (hist d3)) s) as (n3 & Hn3 & Hd3).
  destruct (rtc_wait_second_spec n3 s fuel d3 Hd3 ltac:(lia)) as (d4 & c4 & E4 & Hs4). rewrite (bind_eq _ _ _ _ _ E4).
  rewrite get_cpu_cycles_bind. set (d5 := log_event d4 _).
  destruct (proj2 (Ha (hist d5)) c4) as (n5 & Hn5 & Hd5).
  destruct (rtc_wait_second_spec n5 c4 fuel d5 Hd5 ltac:(lia)) as (d6 & c6 & E6 & Hs6). rewrite (bind_eq _ _ _ _ _ E6).
  rewrite get_cpu_cycles_bind. run_io. eexists. split; [reflexivity|]. fields. split.
  - etransitivity; [|by apply log_same_apic]. etransitivity; [|apply cycles_same_apic].
    etransitivity; [|by apply log_same_apic]. etransitivity; [|apply Hs6].
    etransitivity; [|by apply log_same_apic]. etransitivity; [|apply Hs4].
    etransitivity; [|apply poll_same_apic]. etransitivity; [|apply Hs2]. by apply log_same_apic.
  - apply Z.div_pos; [|lia]. apply (wrap_range 64). lia.
Qed.
End Clocks.


(** ** Properties *)

Lemma calibrate_cpu_timing_spec `{Platform} K fuel d :
  rtc_alive K -> (S K < fuel)%nat -> cpu_cycles_per_10ms d = 0 ->
  exists d', calibrate_cpu_timing fuel d = Some (d', tt) /\ same_apic d d' /\
    if 0 <? cpuid_mhz then cpu_cycles_per_10ms d' = cpuid_mhz * 10000
    else 1000000 <= cpu_cycles_per_10ms d' <= 100000000.
Proof.
  intros Ha Hf Hc. unfold calibrate_cpu_timing. rewrite get_bind, Hc. cbn [Z.eqb negb]. run_io. set (d1 := log_event d _).
  assert (same_apic d d1) as Hs1 by (by apply log_same_apic).
  destruct (mhz_spec d1) as (d2 & E2 & Hs2 & _). rewrite (bind_eq _ _ _ _ _ E2). pose proof mhz_range as Hm.
  assert (same_apic d d2) as Hs by (etransitivity; done).
  destruct (Z.ltb_spec 0 cpuid_mhz) as [Hpos|Hz].
  - run_io. eexists. split; [reflexivity|]. fields. split.
    + etransitivity; [|by apply log_same_apic]. etransitivity; [exact Hs|apply cycles_same_apic].
    + by rewrite wrap_small by lia.
  - run_io. set (d3 := log_event d2 _). destruct (rtc_spec K fuel d3 Ha Hf) as (d4 & E4 & Hs4 & Hc4).
    rewrite (bind_eq _ _ _ _ _ E4). rewrite get_bind.
    assert (same_apic d d4) as Hs5 by (etransitivity; [exact Hs|]; etransitivity; [by apply (log_same_apic d2 (Log Klog.Warning "CPUID frequency detection failed, trying RTC...\n" []))|done]).
    assert (forall d5, same_apic d d5 -> exists d', calibrate_with_known_frequencies d5 = Some (d', tt) /\
      same_apic d d' /\ 1000000 <= cpu_cycles_per_10ms d' <= 100000000) as Hknown.
    { intros d5 H5. destruct (known_spec d5) as (d' & E & Hs' & Hc'). rewrite E. exists d'.
      split_and!; [done| |lia|lia]. by etransitivity. }
    destruct (Z.ltb_spec 0 (cpu_cycles_per_10ms d4)) as [Hp4|Hz4].
    + destruct (Z.ltb_spec (cpu_cycles_per_10ms d4) 1000000) as [Hlo|Hlo]; cbn [orb].
      * rewrite !bind_assoc. run_io. apply Hknown. etransitivity; [|by apply log_same_apic].
        etransitivity; [|apply cycles_same_apic]. etransitivity; [exact Hs5|by apply log_same_apic].
      * destruct (Z.ltb_spec 100000000 (cpu_cycles_per_10ms d4)) as [Hhi|Hhi].
        -- rewrite !bind_assoc. run_io. apply Hknown. etransitivity; [|by apply log_same_apic].
           etransitivity; [|apply cycles_same_apic]. etransitivity; [exact Hs5|by apply log_same_apic].
        -- run_io. eexists. split; [reflexivity|]. fields. split; [|lia].
           etransitivity; [exact Hs5|by apply log_same_apic].
    + run_io. apply Hknown. etransitivity; [exact Hs5|by apply log_same_apic].
Qed.

(** C38. Calibrating the CPU clock always ends, on a machine whose real-time
    clock runs, and never leaves the setting at 0: with a frequency from CPUID
    it is that many MHz times ten thousand, without overflow, otherwise it is
    between one and a hundred million cycles, measured or estimated.  The local
    APIC is not touched. *)
Theorem calibrate_cpu_timing_correct `{Platform} K fuel d :
  rtc_alive K -> (S K < fuel)%nat -> cpu_cycles_per_10ms d = 0 ->
  exists d', calibrate_cpu_timing fuel d = Some (d', tt) /\ same_apic d d' /\
    if 0 <? cpuid_mhz then cpu_cycles_per_10ms d' = cpuid_mhz * 10000
    else 1000000 <= cpu_cycles_per_10ms d' <= 100000000.
Proof. apply calibrate_cpu_timing_spec. Qed.

(** [cpu_wait_10ms] with a calibrated clock ends at the first read of the
    time stamp counter that has advanced by the calibrated number of cycles,
    never earlier. *)
Lemma cpu_wait_10ms_correct `{Platform} rate limit n d :
  tsc_advances rate limit -> 0 < cpu_cycles_per_10ms d <= rate * Z.of_nat n ->
  tsc (hist d) + cpu_cycles_per_10ms d <= limit ->
  let h := hist d ++ [Rdtsc] in
  let target := tsc (hist d) + cpu_cycles_per_10ms d in
  exists d' j, cpu_wait_10ms (S n) d = Some (d', tt) /\
    hist d' = h ++ replicate (S j) Rdtsc /\ target <= tsc (h ++ replicate j Rdtsc) /\
    (forall i, (i < j)%nat -> tsc (h ++ replicate i Rdtsc) < target) /\
    same_apic d d' /\ cpu_cycles_per_10ms d' = cpu_cycles_per_10ms d.
Proof.
  intros Hadv Hn Hlim h target. pose proof Hadv as (Hr & Hl64 & Hst). unfold cpu_wait_10ms. rewrite get_bind.
  rewrite (proj2 (Z.eqb_neq _ _)) by lia. run_io. rewrite get_cpu_cycles_bind, get_bind. fields.
  pose proof (tsc_range (hist d)) as Ht. rewrite wrap_small by lia. fold target.
  destruct (wait_until_spec rate limit target n (log_event d Rdtsc)) as (d' & j & E & Eh & Hj & Hi & Hs & Hc'); [done..| |].
  - fields. specialize (Hst (hist d) ltac:(lia)). unfold target. lia.
  - fields. exists d', j. split_and!; try done. etransitivity; [|exact Hs]. by apply log_same_apic.
Qed.

(** The registers of a timer that is set up but masked, and of one that runs. *)
Definition timer_set (count : Z) (h : history) : Prop :=
  last_write APIC_TIMER_DIVIDE h = Some 3 /\ last_write APIC_TIMER_INITIAL h = Some count /\
  last_write APIC_TIMER_LVT h = Some 0x30040.

(** C39. [apic_timer_calibrate] lets the timer count down from its maximum for
    one wait and takes a hundred times the difference as ticks per second
    (exactly, up to 2^32); it leaves the timer masked and stopped. *)
Theorem apic_timer_calibrate_correct `{Platform} rate limit n d :
  let d1 := log_event (log_event (log_event (log_event d (Log Klog.Success "Calibrating APIC timer using PIT...\n" []))
              (ApicWrite APIC_TIMER_LVT 0x10000)) (ApicWrite APIC_TIMER_DIVIDE 3))
              (ApicWrite APIC_TIMER_INITIAL 0xFFFFFFFF) in
  apic_base d <> 0 -> tsc_advances rate limit -> 0 < cpu_cycles_per_10ms d <= rate * Z.of_nat n ->
  tsc (hist d1) + cpu_cycles_per_10ms d <= limit ->
  exists d' h, apic_timer_calibrate (S n) d = Some (d', tt) /\
    (let ticks := 0xFFFFFFFF - apic_reg (hist d1 ++ h) APIC_TIMER_CURRENT in
     apic_timer_frequency d' = w32 (ticks * 100) /\
     (ticks <= 42949672 -> apic_timer_frequency d' = ticks * 100)) /\
    tsc (hist d1) + cpu_cycles_per_10ms d <= tsc (hist d1 ++ removelast h) /\
    last_write APIC_TIMER_LVT (hist d') = Some 0x10000 /\ last_write APIC_TIMER_INITIAL (hist d') = Some 0 /\
    last_write APIC_TIMER_DIVIDE (hist d') = Some 3 /\ apic_base d' = apic_base d.
Proof.
  intros d1 Hb Hadv Hn Hlim. unfold apic_timer_calibrate. run_apic.
  change (w32 0x10000) with 0x10000. change (w32 3) with 3. change (w32 0xFFFFFFFF) with 0xFFFFFFFF. fold d1.
  destruct (cpu_wait_10ms_correct rate limit n d1) as (d2 & j & E & Eh & Hj & _ & (Hb2 & _ & h2 & Eh2 & Hw2) & _);
    [done|unfold d1; by fields|unfold d1 in *; by fields|].
  rewrite (bind_eq _ _ _ _ _ E). assert (apic_base d2 <> 0) as Hb2' by (rewrite Hb2; unfold d1; by fields). run_apic.
  eexists _, h2. split; [reflexivity|]. fields. pose proof (apic_range (hist d1 ++ h2) APIC_TIMER_CURRENT) as Hr.
  rewrite <- Eh2 in *. rewrite (wrap_small 32 (0xFFFFFFFF - _)) by lia. apic_regs. split_and!; try done.
  - intros Ht. apply wrap_small. lia.
  - rewrite Eh2 in Eh. rewrite <- (app_assoc _ [Rdtsc]) in Eh. apply app_inv_head in Eh as ->.
    change ([Rdtsc] ++ replicate (S j) Rdtsc) with (replicate (S (S j)) Rdtsc).
    replace (S (S j)) with (S j + 1)%nat by lia. rewrite replicate_add. change (replicate 1 Rdtsc) with [Rdtsc].
    rewrite removelast_last. change (replicate (S j) Rdtsc) with ([Rdtsc] ++ replicate j Rdtsc).
    rewrite app_assoc. unfold d1 in *. by fields.
  - rewrite Eh2, Hw2. unfold d1. fields. apic_regs. done.
Qed.

(** [apic_timer_set_frequency] programs the timer for the requested rate:
    the count is the number of timer ticks per period, rounded down and at
    least 1, periodic on vector 64 and still masked.  An uncalibrated timer
    or a rate of 0 only gives an error message. *)
Lemma apic_timer_set_frequency_correct `{Platform} f d :
  apic_base d <> 0 -> 0 <= f < 2 ^ 32 -> 0 <= apic_timer_frequency d < 2 ^ 32 ->
  exists d', apic_timer_set_frequency f d = Some (d', tt) /\ apic_base d' = apic_base d /\
    apic_timer_frequency d' = apic_timer_frequency d /\
    if decide (apic_timer_frequency d = 0 \/ f = 0)
    then forall reg, last_write reg (hist d') = last_write reg (hist d)
    else exists count, timer_set count (hist d') /\ 1 <= count < 2 ^ 32 /\
      (f <= apic_timer_frequency d -> count * f <= apic_timer_frequency d < (count + 1) * f) /\
      (apic_timer_frequency d < f -> count = 1) /\
      forall reg, reg <> APIC_TIMER_DIVIDE -> reg <> APIC_TIMER_LVT -> reg <> APIC_TIMER_INITIAL ->
        last_write reg (hist d') = last_write reg (hist d).
Proof.
  intros Hb Hf Ha. unfold apic_timer_set_frequency. rewrite get_bind.
  destruct (decide (apic_timer_frequency d = 0 \/ f = 0)) as [Hd|Hd].
  { destruct (Z.eqb_spec (apic_timer_frequency d) 0); [|rewrite (proj2 (Z.eqb_eq f 0)) by naive_solver]; run_io;
      eexists; (split; [reflexivity|]); fields; (split_and!; [done|done|]); intros reg; by rewrite last_write_snoc. }
  assert (f <> 0) as Hf0 by naive_solver. assert (apic_timer_frequency d <> 0) by naive_solver.
  rewrite !(proj2 (Z.eqb_neq _ _)) by done. set (q := apic_timer_frequency d / f).
  pose proof (Z.div_mod (apic_timer_frequency d) f Hf0). pose proof (Z.mod_pos_bound (apic_timer_frequency d) f ltac:(lia)).
  assert (0 <= q) by (apply Z.div_pos; lia).
  destruct (Z.eqb_spec q 0) as [Hq|Hq]; run_apic; eexists; (split; [reflexivity|]); fields; (split; [done|]); (split; [done|]).
  - exists 1. unfold timer_set. apic_regs. split_and!; try done; [|intros reg ? ? ?; rewrite !last_write_snoc;
      by rewrite !(proj2 (Z.eqb_neq _ _)) by done]. unfold q in Hq.
    intros Hle. assert (1 <= apic_timer_frequency d / f) by (apply Z.div_le_lower_bound; lia). lia.
  - exists q. unfold timer_set. apic_regs. assert (q < 2 ^ 32) by (apply Z.div_lt_upper_bound; nia).
    rewrite (wrap_small 32 q) by lia. split_and!; try done; try lia.
    + intros Hlt. unfold q in Hq. rewrite Z.div_small in Hq; lia.
    + intros reg ? ? ?. rewrite !last_write_snoc. by rewrite !(proj2 (Z.eqb_neq _ _)) by done.
Qed.

Lemma lvt_mask_w32 z : Z.land (w32 z) 0x700FF = Z.land z 0x700FF.
Proof. unfold wrap. by rewrite <- Z.land_ones, <- Z.land_assoc by lia. Qed.

(** Rewriting the timer entry from its own contents. *)
Lemma rewrite_lvt `{ApicReadback} (g : Z -> Z) v d :
  apic_base d <> 0 -> last_write APIC_TIMER_LVT (hist d) = Some v ->
  (forall x, Z.land (g x) 0x700FF = Z.land (g (Z.land x 0x700FF)) 0x700FF) ->
  exists d' lvt, (x ← apic_read APIC_TIMER_LVT; apic_write APIC_TIMER_LVT (g x)) d = Some (d', tt) /\
    apic_base d' = apic_base d /\ last_write APIC_TIMER_LVT (hist d') = Some lvt /\
    Z.land lvt 0x700FF = Z.land (g (Z.land v 0x700FF)) 0x700FF /\
    forall reg, reg <> APIC_TIMER_LVT -> last_write reg (hist d') = last_write reg (hist d).
Proof.
  intros Hb Hl Hg. rewrite apic_read_bind by done. rewrite apic_write_end by (by fields).
  eexists _, _. split; [reflexivity|]. fields. rewrite !last_write_snoc, Z.eqb_refl. split_and!; [done|done| |].
  - rewrite lvt_mask_w32, Hg. by rewrite (lvt_readback _ _ Hl).
  - intros reg Hr. rewrite !last_write_snoc. by rewrite (proj2 (Z.eqb_neq _ _)).
Qed.

(** Enabling a timer that was set up unmasks it; disabling masks it again. *)
Lemma apic_timer_enable_spec `{ApicReadback} count d :
  apic_base d <> 0 -> timer_set count (hist d) ->
  exists d' lvt, apic_timer_enable d = Some (d', tt) /\ apic_base d' = apic_base d /\
    last_write APIC_TIMER_LVT (hist d') = Some lvt /\ Z.land lvt 0x700FF = 0x20040 /\
    forall reg, reg <> APIC_TIMER_LVT -> last_write reg (hist d') = last_write reg (hist d).
Proof.
  intros Hb (_ & _ & Hl). apply (rewrite_lvt (fun x => Z.land x (Z.lnot 0x10000)) _ d Hb Hl).
  intros x. rewrite <- !Z.land_assoc. f_equal.
Qed.

Lemma apic_timer_disable_spec `{ApicReadback} v d :
  apic_base d <> 0 -> last_write APIC_TIMER_LVT (hist d) = Some v ->
  exists d' lvt, apic_timer_disable d = Some (d', tt) /\ apic_base d' = apic_base d /\
    last_write APIC_TIMER_LVT (hist d') = Some lvt /\
    Z.land lvt 0x700FF = Z.land (Z.lor (Z.land v 0x700FF) 0x10000) 0x700FF /\
    forall reg, reg <> APIC_TIMER_LVT -> last_write reg (hist d') = last_write reg (hist d).
Proof.
  intros Hb Hl. apply (rewrite_lvt (fun x => Z.lor x 0x10000) _ d Hb Hl).
  intros x. rewrite !Z.land_lor_distr_l, <- Z.land_assoc. done.
Qed.

(** C40. Starting the timer on a CPU: initialising its local APIC, setting the
    rate and enabling gives a software-enabled APIC with spurious vector 255
    whose timer fires periodically on vector 64, unmasked, with the number of
    timer ticks per period that fits the requested rate; LINT pins and error
    entry are masked. *)
Theorem apic_timer_start_correct `{ApicReadback} cpu_id f d :
  apic_base d <> 0 -> 0 < f <= apic_timer_frequency d -> apic_timer_frequency d < 2 ^ 32 ->
  exists d' svr lvt count,
    (r ← apic_timer_init_cpu cpu_id; apic_timer_set_frequency f;; apic_timer_enable;; mret r) d = Some (d', 0) /\
    last_write APIC_SPURIOUS_VECTOR (hist d') = Some svr /\ Z.testbit svr 8 = true /\ svr mod 256 = 255 /\
    last_write APIC_TIMER_LVT (hist d') = Some lvt /\ Z.land lvt 0x700FF = 0x20040 /\
    last_write APIC_TIMER_DIVIDE (hist d') = Some 3 /\ last_write APIC_TIMER_INITIAL (hist d') = Some count /\
    count * f <= apic_timer_frequency d < (count + 1) * f /\
    last_write APIC_LINT0 (hist d') = Some 0x10000 /\ last_write APIC_LINT1 (hist d') = Some 0x10000 /\
    last_write APIC_ERROR (hist d') = Some 0x10000.
Proof.
  intros Hb Hf Ha. destruct (apic_timer_init_cpu_correct cpu_id d) as (d1 & r & E1 & Hb1 & Hf1 & H1).
  rewrite decide_False in H1 by done. destruct H1 as (-> & ((svr & Hsvr & Hs8 & Hsv) & _ & HL0 & HL1 & HLe & _) & _).
  rewrite (bind_eq _ _ _ _ _ E1). destruct (apic_timer_set_frequency_correct f d1) as (d2 & E2 & Hb2 & _ & H2);
    [congruence|lia|lia|]. rewrite decide_False in H2 by lia. destruct H2 as (count & Ht & _ & Hq & _ & Hkeep).
  rewrite (bind_eq _ _ _ _ _ E2).
  destruct (apic_timer_enable_spec count d2) as (d3 & lvt & E3 & _ & Hl3 & Hm & Hkeep3); [congruence|done|].
  rewrite (bind_eq _ _ _ _ _ E3). exists d3, svr, lvt, count. rewrite Hf1 in Hq. specialize (Hq (proj2 Hf)) as [? ?]. destruct Ht as (Hd & Hi & _).
  split_and!; try done;
    rewrite Hkeep3 by done; try done; by rewrite Hkeep by done.
Qed.

(** ** A machine *)

(** The counter advances by ten million between two events, the seconds change
    from poll to poll, CPUID knows no frequency, and the APIC returns what was
    written. *)
Definition demo_apic (h : history) (r : Z) : Z :=
  if r =? APIC_TIMER_CURRENT then 0xFFFFFFFF - 1000000
  else match last_write r h with Some v => w32 v | None => 0 end.

#[local] Instance demo_platform : Platform.
Proof.
  refine {| tsc h := Z.min (10000000 * Z.of_nat (length h)) (2 ^ 64 - 1);
            port_in h p := Z.of_nat (length h) mod 100;
            cpuid_leaf l := mk_regs 0 0 0 0;
            apic_reg := demo_apic |}.
  - intros h. lia.
  - intros h p. pose proof (Z.mod_pos_bound (Z.of_nat (length h)) 100). lia.
  - intros h r. unfold demo_apic. destruct (_ =? _); [lia|]. destruct (last_write r h); [apply (wrap_range 32); lia|lia].
  - intros l. cbn. lia.
Defined.

#[local] Instance demo_readback : ApicReadback.
Proof.
  split; intros h v E; cbn [apic_reg demo_platform]; unfold demo_apic; cbn [Z.eqb Pos.eqb]; apic_regs; rewrite E.
  - unfold wrap. by rewrite Z.mod_pow2_bits_low by lia.
  - apply lvt_mask_w32.
Qed.

Lemma demo_tsc : tsc_advances 10000000 (2 ^ 63).
Proof. split_and!; [lia|lia|]. intros h. cbn [tsc demo_platform]. rewrite length_app. cbn [length]. lia. Qed.

Lemma polls_length h reg n : length (polls h reg n) = (length h + 3 * n)%nat.
Proof. revert h. induction n as [|n IH]; intros h; cbn [polls]; [lia|]. rewrite IH, length_app. cbn. lia. Qed.

Lemma demo_rtc : rtc_alive 2.
Proof.
  intros h. split.
  - exists O. split; [lia|]. unfold rtc_value. cbn [port_in demo_platform polls].
    set (x := Z.of_nat _ mod 100). assert (0 <= x < 2 ^ 7) as Hx.
    { unfold x. pose proof (Z.mod_pos_bound (Z.of_nat (length (h ++ [Outb CMOS_ADDRESS RTC_REGISTER_A; Outb 0x80 0]))) 100). lia. }
    change 0x80 with (2 ^ 7). apply Z.eqb_eq. rewrite land_bit by lia. apply negb_true_iff.
    rewrite Z.testbit_false by lia. by rewrite Z.div_small.
  - intros s. unfold rtc_value. cbn [port_in demo_platform].
    destruct (decide (Z.of_nat (length (polls h RTC_SECONDS 0 ++ [Outb CMOS_ADDRESS RTC_SECONDS; Outb 0x80 0])) mod 100 = s)) as [E|E];
      [|by exists O; split; [lia|]].
    exists 1%nat. split; [lia|]. rewrite <- E, !length_app, !polls_length. cbn [length]. intros E'.
    assert ((Z.of_nat (length h + 3 * 1 + 2) - Z.of_nat (length h + 3 * 0 + 2)) mod 100 = 0) as E0
      by (rewrite Zminus_mod, E', Z.sub_diag; done).
    replace (Z.of_nat (length h + 3 * 1 + 2) - Z.of_nat (length h + 3 * 0 + 2)) with 3 in E0 by lia. done.
Qed.

Lemma calibrate_cpu_timing_witness :
  exists d', calibrate_cpu_timing 4 (mk_dev [] 0 0 0) = Some (d', tt) /\
    1000000 <= cpu_cycles_per_10ms d' <= 100000000.
Proof.
  destruct (calibrate_cpu_timing_correct 2 4 (mk_dev [] 0 0 0) demo_rtc) as (d' & E & _ & Hc); [lia|reflexivity|].
  exists d'. split; [exact E|exact Hc].
Defined.

Lemma apic_timer_calibrate_witness :
  exists d', apic_timer_calibrate 4 (mk_dev [] apic_vaddr 0 24000000) = Some (d', tt) /\
    apic_timer_frequency d' = 100000000.
Proof.
  destruct (apic_timer_calibrate_correct 10000000 (2 ^ 63) 3 (mk_dev [] apic_vaddr 0 24000000))
    as (d' & h & E & (_ & Hf) & _); [discriminate|exact demo_tsc|cbn; lia|vm_compute; discriminate|].
  exists d'. split; [exact E|]. rewrite Hf; [reflexivity|]. vm_compute. discriminate.
Defined.

Lemma apic_timer_start_witness :
  exists d' lvt, (r ← apic_timer_init_cpu 1; apic_timer_set_frequency 100;; apic_timer_enable;; mret r)
      (mk_dev [] apic_vaddr 100000000 24000000) = Some (d', 0) /\
    last_write APIC_TIMER_LVT (hist d') = Some lvt /\ Z.land lvt 0x700FF = 0x20040 /\
    last_write APIC_TIMER_INITIAL (hist d') = Some 1000000.
Proof.
  destruct (apic_timer_start_correct 1 100 (mk_dev [] apic_vaddr 100000000 24000000))
    as (d' & svr & lvt & count & E & _ & _ & _ & Hl & Hm & _ & Hi & Hc & _); [discriminate|cbn; lia|cbn; lia|].
  cbn in Hc. replace count with 1000000 in Hi by lia. exists d', lvt. split; [exact E|]. split; [exact Hl|]. by split.
Defined.
