(* ===== verification/Descr.v ===== *)
(** * Descriptor tables: operations

    Models src/kernel/arch/x86_64/gdt (gdt_init.c, gdt.S), idt (idt_init.c,
    idt.S) and their headers: the tables are packed structures in the byte
    memory, the privileged instructions are events of the machine. *)
From Stdlib Require Import String.
From S2P Require Import Prelude Memory PageAlloc Slab Pmm Klib Locks Console Klog Vmm Devices.
Import Klib Devices.

(** Where the linker puts the tables and the entry points [isr0], [isr1], ... *)
Class DescrLinker := {
  idt_addr : Z;
  gdt_addr : Z;
  tss_addr : Z;
  isr : nat -> Z;
  idt_addr_fit : 0 < idt_addr /\ idt_addr + 4096 <= 2 ^ 64;
  gdt_addr_fit : 0 < gdt_addr /\ gdt_addr + 56 <= 2 ^ 64;
  tss_addr_fit : 0 < tss_addr /\ tss_addr + 104 <= 2 ^ 64;
  tables_apart : (gdt_addr + 56 <= tss_addr \/ tss_addr + 104 <= gdt_addr) /\
    (idt_addr + 4096 <= gdt_addr \/ gdt_addr + 56 <= idt_addr) /\
    (idt_addr + 4096 <= tss_addr \/ tss_addr + 104 <= idt_addr);
  isr_range : forall n, 0 <= isr n < 2 ^ 64;
}.

Module Descr.

Definition IDT_SIZE : Z := 256.
Definition sizeof_idt_entry : Z := 16.
Definition sizeof_task_state_seg : Z := 104.
Definition sizeof_global_descr_table : Z := 56.

Record idt_ptr := mk_idtr { limit : Z; base : Z }.

Section Tables.
Context `{DescrLinker}.

Definition gate_addr (i : Z) : Z := idt_addr + sizeof_idt_entry * i.

Definition create_gate_entry (entry_index handler seg_selector attributes : Z) (m : mem) : mem :=
  let handler_addr := handler in
  let e := gate_addr (w8 entry_index) in
  let m := store 2 m e (Z.land handler_addr 0xFFFF) in
  let m := store 2 m (e + 6) (Z.land (Z.shiftr handler_addr 16) 0xFFFF) in
  let m := store 4 m (e + 8) (Z.land (Z.shiftr handler_addr 32) 0xFFFFFFFF) in
  let m := store 2 m (e + 2) seg_selector in
  let m := store 1 m (e + 4) 0 in
  let m := store 1 m (e + 5) attributes in
  store 4 m (e + 12) 0.

(** idt.S *)
Definition setIdt (limit base : Z) : io unit := emit_event (Lidt (w16 limit) base);; emit_event Sti.

(** [create_gate_entry(i, isr<i>, 0x08, 0x8E)] for each exception. *)
Definition exception_gates (m : mem) : mem :=
  fold_left (fun m i => create_gate_entry (Z.of_nat i) (isr i) 0x08 0x8E m) (seq 0 32) m.

Definition init_idt (m : mem) (d : dev) : option (mem * idt_ptr * dev) :=
  '(d, _) ← kprintf "Initializing Interrupt table...\n" [] d;
  let idtr := mk_idtr (sizeof_idt_entry * IDT_SIZE - 1) idt_addr in
  let m := memset m idt_addr 0 (sizeof_idt_entry * 256) in
  '(d, _) ← (pic_remap 0x20 0x28;; disable_pic) d;
  let m := exception_gates m in
  '(d, _) ← (setIdt (limit idtr) (base idtr);;
             klog Klog.Success "Interrupt setup was successfull\n" []) d;
  Some (m, idtr, d).

Definition reload_idt (idtr : idt_ptr) : io unit := setIdt (limit idtr) (base idtr).

(** apic.c *)
Definition apic_timer_register_handler (m : mem) : mem :=
  create_gate_entry APIC_TIMER_VECTOR (isr 64) 0x08 0x8E m.

(** ** gdt_init.c *)

Definition set_gdt_entry (index : nat) (access granularity : Z) (m : mem) : mem :=
  let e := gdt_addr + 8 * Z.of_nat index in
  let m := store 2 m e 0 in
  let m := store 2 m (e + 2) 0 in
  let m := store 1 m (e + 4) 0 in
  let m := store 1 m (e + 5) access in
  let m := store 1 m (e + 6) granularity in
  store 1 m (e + 7) 0.

Definition load_tss (m : mem) (d : dev) : option (mem * dev) :=
  let addr := tss_addr in
  let e := gdt_addr + 40 in
  let m := store 2 m e (sizeof_task_state_seg - 1) in
  let m := store 2 m (e + 2) (w16 (Z.land addr 0xFFFF)) in
  let m := store 1 m (e + 4) (w8 (Z.land (Z.shiftr addr 16) 0xFF)) in
  let m := store 1 m (e + 5) 0x89 in
  let m := store 1 m (e + 6) 0 in
  let m := store 1 m (e + 7) (w8 (Z.land (Z.shiftr addr 24) 0xFF)) in
  let m := store 4 m (e + 8) (w32 (Z.shiftr addr 32)) in
  let m := store 4 m (e + 12) 0 in
  '(d, _) ← emit_event (Ltr (5 * 8)) d;
  Some (m, d).

(** gdt.S: the table, then CS by a far return and the data segments. *)
Definition reload_gdt (limit base : Z) : io unit :=
  emit_event (Lgdt limit base);; emit_event (LoadSegments 0x08 0x10).

Definition init_gdt (m : mem) (d : dev) : option (mem * dev) :=
  let m := memset m gdt_addr 0 sizeof_global_descr_table in
  let m := set_gdt_entry 0 0 0 m in
  let m := set_gdt_entry 1 0x9A 0x20 m in
  let m := set_gdt_entry 2 0x92 0 m in
  let m := set_gdt_entry 3 0xFA 0x20 m in
  let m := set_gdt_entry 4 0xF2 0 m in
  '(d, _) ← reload_gdt (sizeof_global_descr_table - 1) gdt_addr d;
  let m := memset m tss_addr 0 sizeof_task_state_seg in
  load_tss m d.

End Tables.

End Descr.
