(* ===== verification/DescrSpec.v ===== *)
(** * Descriptor tables: correctness

    The tables are read back the way the CPU reads them: a gate as handler,
    selector and attributes, a segment descriptor as base, limit, access byte
    and flags. *)
From Stdlib Require Import String.
From S2P Require Import Prelude Memory PageAlloc Slab Pmm Klib KlibSpec Locks Console Klog Vmm Devices DevicesSpec Descr.
Import Klib Devices Descr.

(** Reads a field through the stores to other fields. *)
Ltac field_load :=
  repeat first [rewrite load_store_ne by lia | rewrite load_store_eq].

(** ** Gates *)

Record gate := mk_gate { handler : Z; selector : Z; ist : Z; attributes : Z }.

Section Gates.
Context `{DescrLinker}.

(** The gate of vector [i] as the CPU decodes it. *)
Definition gate_at (m : mem) (i : Z) : gate :=
  let e := gate_addr i in
  mk_gate (load 2 m e + 2 ^ 16 * load 2 m (e + 6) + 2 ^ 32 * load 4 m (e + 8))
    (load 2 m (e + 2)) (load 1 m (e + 4)) (load 1 m (e + 5)).

(** Bit 7 of the attributes: the gate is present. *)
Definition present (g : gate) : bool := Z.testbit (attributes g) 7.

Definition idt_byte (x : Z) : Prop := in_range idt_addr 4096 x.

Lemma split_handler h : 0 <= h < 2 ^ 64 ->
  Z.land h 0xFFFF mod 2 ^ 16 + 2 ^ 16 * (Z.land (Z.shiftr h 16) 0xFFFF mod 2 ^ 16) +
  2 ^ 32 * (Z.land (Z.shiftr h 32) 0xFFFFFFFF mod 2 ^ 32) = h.
Proof.
  intros Hh. change 0xFFFF with (2 ^ 16 - 1). change 0xFFFFFFFF with (2 ^ 32 - 1).
  rewrite !land_pow2_pred, !Z.shiftr_div_pow2, !Z.mod_mod by lia.
  pose proof (Z.div_mod h (2 ^ 16) ltac:(lia)). pose proof (Z.div_mod (h / 2 ^ 16) (2 ^ 16) ltac:(lia)) as H2.
  rewrite Z.div_div in H2 by lia. change (2 ^ 16 * 2 ^ 16) with (2 ^ 32) in H2.
  rewrite (Z.mod_small (h / 2 ^ 32)); [lia|]. split; [apply Z.div_pos; lia|]. apply Z.div_lt_upper_bound; lia.
Qed.

Lemma gate_addr_eq i : gate_addr i = idt_addr + 16 * i.
Proof. done. Qed.

Lemma create_gate_spec i h s a m :
  0 <= i < 256 -> 0 <= h < 2 ^ 64 -> 0 <= s < 2 ^ 16 -> 0 <= a < 256 ->
  (forall j, 0 <= j < 256 -> gate_at (create_gate_entry i h s a m) j = if decide (j = i) then mk_gate h s 0 a else gate_at m j) /\
  agree (fun x => ~ idt_byte x) m (create_gate_entry i h s a m).
Proof.
  intros Hi Hh Hs Ha. unfold create_gate_entry. rewrite (wrap_small 8 i) by lia. split.
  - intros j Hj. unfold gate_at. rewrite !gate_addr_eq. case_decide as E.
    + subst j. field_load. change (256 ^ Z.of_nat 2) with (2 ^ 16). change (256 ^ Z.of_nat 4) with (2 ^ 32).
      rewrite split_handler by lia. change (256 ^ Z.of_nat 1) with 256.
      rewrite (Z.mod_small s), (Z.mod_small a), (Z.mod_small 0) by lia. done.
    + f_equal; [f_equal; [f_equal; [|f_equal]|f_equal]| | |]; field_load; done.
  - rewrite gate_addr_eq. repeat (etransitivity; [|apply agree_store; intros x Hx Hr; apply Hx; unfold idt_byte, in_range in *; lia]).
    reflexivity.
Qed.

Lemma exception_gates_spec n m :
  (n <= 256)%nat ->
  let m' := fold_left (fun m i => create_gate_entry (Z.of_nat i) (isr i) 0x08 0x8E m) (seq 0 n) m in
  (forall j, 0 <= j < 256 -> gate_at m' j = if decide (j < Z.of_nat n) then mk_gate (isr (Z.to_nat j)) 8 0 0x8E else gate_at m j) /\
  agree (fun x => ~ idt_byte x) m m'.
Proof.
  induction n as [|n IH]; intros Hn; cbv zeta.
  - split; [|reflexivity]. intros j Hj. rewrite decide_False by lia. done.
  - rewrite seq_S, fold_left_app. cbn [fold_left Nat.add]. destruct IH as [IHg IHa]; [lia|].
    set (m1 := fold_left _ (seq 0 n) m) in *.
    destruct (create_gate_spec (Z.of_nat n) (isr n) 8 0x8E m1) as [Hg Ha]; [lia|apply isr_range|lia|lia|].
    split; [|by etransitivity]. intros j Hj. rewrite Hg, IHg by done.
    repeat case_decide; try lia; subst; by rewrite ?Nat2Z.id.
Qed.

Lemma exception_gates_all m :
  (forall j, 0 <= j < 256 -> gate_at (exception_gates m) j = if decide (j < 32) then mk_gate (isr (Z.to_nat j)) 8 0 0x8E else gate_at m j) /\
  agree (fun x => ~ idt_byte x) m (exception_gates m).
Proof. apply (exception_gates_spec 32). lia. Qed.

Lemma gate_zero m i : (forall x, in_range (gate_addr i) 16 x -> read8 m x = 0) -> gate_at m i = mk_gate 0 0 0 0.
Proof.
  intros Hz. unfold gate_at. rewrite !load_zero; [done|..]; intros x Hx; apply Hz; unfold in_range in *; lia.
Qed.
End Gates.

(** A gate is what its sixteen bytes say. *)
Lemma gate_agree `{DescrLinker} m m' i :
  agree (in_range (gate_addr i) 16) m m' -> gate_at m' i = gate_at m i.
Proof.
  intros Ha. unfold gate_at.
  assert (forall n k, 0 <= k -> k + Z.of_nat n <= 16 -> load n m' (gate_addr i + k) = load n m (gate_addr i + k)) as Hl.
  { intros n k Hk Hn. symmetry. apply load_agree. eapply agree_sub; [exact Ha|]. unfold in_range. lia. }
  pose proof (Hl 2%nat 0) as H0. rewrite Z.add_0_r in H0. rewrite H0, !Hl by lia. done.
Qed.

(** [init_idt]: the exceptions, and the interrupt controllers. *)
Lemma init_idt_spec `{DescrLinker} m d s :
  exists m' idtr d', init_idt m d = Some (m', idtr, d') /\
    (forall i, 0 <= i < 256 -> gate_at m' i =
       if decide (i < 32) then mk_gate (isr (Z.to_nat i)) 0x08 0 0x8E else mk_gate 0 0 0 0) /\
    agree (fun x => ~ in_range idt_addr 4096 x) m m' /\ limit idtr = 4095 /\ base idtr = idt_addr /\
    pic_state s (hist d') = (mk_pic 0 0x20 4 ICW4_8086 0xFF, mk_pic 0 0x28 2 ICW4_8086 0xFF) /\
    (exists h, hist d' = h ++ [Lidt 4095 idt_addr; Sti; Log Klog.Success "Interrupt setup was successfull\n" []]) /\
    cpu_cycles_per_10ms d' = cpu_cycles_per_10ms d /\ (length (hist d') = length (hist d) + 22)%nat.
Proof.
  unfold init_idt, kprintf. rewrite emit_end. cbn [mbind option_bind]. set (d1 := log_event d _).
  destruct (pic_setup_correct d1 0x20 0x28 s) as (d2 & E2 & Hp & _ & _ & Hc & Hl); [lia|lia|].
  rewrite E2. cbn [mbind option_bind]. set (m0 := memset m idt_addr 0 _).
  unfold setIdt, klog. rewrite bind_assoc, !emit_bind, emit_end. cbn [mbind option_bind].
  eexists _, _, _. split; [reflexivity|]. cbn [limit base].
  destruct (exception_gates_all m0) as [Hg Ha].
  change (w16 (limit _)) with 4095. fields. split_and!.
  - intros i Hi. rewrite Hg by done. case_decide; [done|]. apply gate_zero. intros x Hx.
    unfold m0. rewrite memset_read by done. rewrite decide_True; [done|]. rewrite gate_addr_eq in Hx. unfold in_range, sizeof_idt_entry in *. lia.
  - etransitivity; [|exact Ha]. unfold m0. by apply memset_outside.
  - done.
  - done.
  - unfold pic_state in *. rewrite !fold_left_app, Hp. done.
  - exists (hist d2). by rewrite <- !app_assoc.
  - by rewrite Hc.
  - rewrite !length_app, Hl. unfold d1. fields. rewrite length_app. cbn [length]. lia.
Qed.

(** [apic_timer_register_handler] adds the gate of the timer. *)
Lemma register_handler_spec `{DescrLinker} m :
  (forall i, 0 <= i < 256 -> gate_at m i =
     if decide (i < 32) then mk_gate (isr (Z.to_nat i)) 0x08 0 0x8E else mk_gate 0 0 0 0) ->
  (forall i, 0 <= i < 256 -> gate_at (apic_timer_register_handler m) i =
     if decide (i < 32 \/ i = 64) then mk_gate (isr (Z.to_nat i)) 0x08 0 0x8E else mk_gate 0 0 0 0) /\
  agree (fun x => ~ in_range idt_addr 4096 x) m (apic_timer_register_handler m).
Proof.
  intros Hg. destruct (create_gate_spec 64 (isr 64) 8 0x8E m) as [Hg64 Ha64]; [lia|apply isr_range|lia|lia|].
  split; [|exact Ha64]. intros i Hi. unfold apic_timer_register_handler, APIC_TIMER_VECTOR. rewrite Hg64, Hg by done.
  repeat case_decide; try lia; subst; done.
Qed.

(** C32. [init_idt] followed by [apic_timer_register_handler] gives a table in
    which exactly the vectors 0 to 31 and 64 are present, each an interrupt
    gate in the kernel code segment to its own entry stub; the table is loaded
    with its full limit, interrupts are enabled after that, the interrupt
    controllers sit at vectors 32 and 40 with every line masked, and nothing
    outside the table is written. *)
Theorem init_idt_correct `{DescrLinker} m d s :
  exists m1 m2 idtr d', init_idt m d = Some (m1, idtr, d') /\ apic_timer_register_handler m1 = m2 /\
    (forall i, 0 <= i < 256 -> gate_at m2 i =
       if decide (i < 32 \/ i = 64) then mk_gate (isr (Z.to_nat i)) 0x08 0 0x8E else mk_gate 0 0 0 0) /\
    agree (fun x => ~ in_range idt_addr 4096 x) m m2 /\
    limit idtr = 4095 /\ base idtr = idt_addr /\
    pic_state s (hist d') = (mk_pic 0 0x20 4 ICW4_8086 0xFF, mk_pic 0 0x28 2 ICW4_8086 0xFF) /\
    exists h, hist d' = h ++ [Lidt 4095 idt_addr; Sti; Log Klog.Success "Interrupt setup was successfull\n" []].
Proof.
  destruct (init_idt_spec m d s) as (m1 & idtr & d' & E & Hg & Ha & Hl & Hb & Hp & Hh & _).
  destruct (register_handler_spec m1 Hg) as [Hg2 Ha2].
  exists m1, (apic_timer_register_handler m1), idtr, d'. split; [exact E|]. split; [reflexivity|]. split; [exact Hg2|].
  split; [by etransitivity|]. split; [exact Hl|]. split; [exact Hb|]. split; [exact Hp|exact Hh].
Qed.

(** ** Segments *)

Record segment := mk_segment { seg_base : Z; seg_limit : Z; access : Z; seg_flags : Z }.

(** The legacy eight bytes at [e] as the CPU decodes them. *)
Definition segment_at (m : mem) (e : Z) : segment :=
  mk_segment (load 2 m (e + 2) + 2 ^ 16 * load 1 m (e + 4) + 2 ^ 24 * load 1 m (e + 7))
    (load 2 m e + 2 ^ 16 * (load 1 m (e + 6) mod 16)) (load 1 m (e + 5)) (load 1 m (e + 6) / 16).

(** The base of a system descriptor continues in the next eight bytes. *)
Definition system_base (m : mem) (e : Z) : Z := seg_base (segment_at m e) + 2 ^ 32 * load 4 m (e + 8).

Section Segments.
Context `{DescrLinker}.

Definition entry_addr (i : nat) : Z := gdt_addr + 8 * Z.of_nat i.

Lemma segment_agree (P : Z -> Prop) m m' e :
  agree P m m' -> (forall x, in_range e 8 x -> P x) -> segment_at m e = segment_at m' e.
Proof.
  intros Ha HP. unfold segment_at.
  assert (forall n k, 0 <= k -> k + Z.of_nat n <= 8 -> load n m (e + k) = load n m' (e + k)) as Hl.
  { intros n k Hk Hn. apply load_agree. intros x Hx. apply Ha, HP. unfold in_range in *. lia. }
  pose proof (Hl 2%nat 0) as H0. rewrite Z.add_0_r in H0. rewrite H0, !Hl by lia. done.
Qed.

Lemma set_gdt_entry_spec i a g m :
  0 <= a < 256 -> 0 <= g < 256 ->
  segment_at (set_gdt_entry i a g m) (entry_addr i) = mk_segment 0 (2 ^ 16 * (g mod 16)) a (g / 16) /\
  agree (fun x => ~ in_range (entry_addr i) 8 x) m (set_gdt_entry i a g m).
Proof.
  intros Ha Hg. unfold set_gdt_entry. fold (entry_addr i). set (e := entry_addr i). split.
  - unfold segment_at. field_load. change (256 ^ Z.of_nat 1) with 256. change (256 ^ Z.of_nat 2) with (2 ^ 16).
    rewrite !(Z.mod_small 0), (Z.mod_small a), (Z.mod_small g) by lia. done.
  - repeat (etransitivity; [|apply agree_store; intros x Hx Hr; apply Hx; unfold in_range in *; lia]). reflexivity.
Qed.

Lemma set_gdt_entry_same i a g m :
  0 <= a < 256 -> 0 <= g < 256 ->
  segment_at (set_gdt_entry i a g m) (entry_addr i) = mk_segment 0 (2 ^ 16 * (g mod 16)) a (g / 16).
Proof. apply set_gdt_entry_spec. Qed.

(** An entry that was written before others. *)
Lemma set_gdt_entry_other i j a g m :
  0 <= a < 256 -> 0 <= g < 256 -> i <> j ->
  segment_at (set_gdt_entry i a g m) (entry_addr j) = segment_at m (entry_addr j).
Proof.
  intros Ha Hg Hne. symmetry. eapply segment_agree; [by apply set_gdt_entry_spec|].
  intros x. unfold in_range, entry_addr. lia.
Qed.

Lemma split_base a : 0 <= a < 2 ^ 64 ->
  w16 (Z.land a 0xFFFF) mod 2 ^ 16 + 2 ^ 16 * (w8 (Z.land (Z.shiftr a 16) 0xFF) mod 256) +
  2 ^ 24 * (w8 (Z.land (Z.shiftr a 24) 0xFF) mod 256) + 2 ^ 32 * (w32 (Z.shiftr a 32) mod 2 ^ 32) = a.
Proof.
  intros Ha. change 0xFFFF with (2 ^ 16 - 1). change 0xFF with (2 ^ 8 - 1). unfold wrap. change 256 with (2 ^ 8).
  rewrite !land_pow2_pred, !Z.shiftr_div_pow2, !Z.mod_mod by lia.
  pose proof (Z.div_mod a (2 ^ 16) ltac:(lia)). pose proof (Z.div_mod (a / 2 ^ 16) (2 ^ 8) ltac:(lia)) as H2.
  pose proof (Z.div_mod (a / 2 ^ 24) (2 ^ 8) ltac:(lia)) as H3. rewrite Z.div_div in H2, H3 by lia.
  change (2 ^ 16 * 2 ^ 8) with (2 ^ 24) in H2. change (2 ^ 24 * 2 ^ 8) with (2 ^ 32) in H3.
  rewrite (Z.mod_small (a / 2 ^ 32)); [lia|]. split; [apply Z.div_pos; lia|]. apply Z.div_lt_upper_bound; lia.
Qed.

Lemma load_tss_spec m d :
  exists m', load_tss m d = Some (m', log_event d (Ltr 40)) /\
    segment_at m' (gdt_addr + 40) = mk_segment (seg_base (segment_at m' (gdt_addr + 40))) 103 0x89 0 /\
    system_base m' (gdt_addr + 40) = tss_addr /\ load 4 m' (gdt_addr + 52) = 0 /\
    agree (fun x => ~ in_range (gdt_addr + 40) 16 x) m m'.
Proof.
  unfold load_tss. rewrite emit_end. cbn [mbind option_bind]. eexists. split; [reflexivity|].
  set (e := gdt_addr + 40). replace (gdt_addr + 52) with (e + 12) by lia. pose proof tss_addr_fit as Ht. split_and!.
  - unfold segment_at. cbn [seg_base]. f_equal; field_load; reflexivity.
  - unfold system_base, segment_at. cbn [seg_base]. field_load. change (256 ^ Z.of_nat 1) with 256.
    change (256 ^ Z.of_nat 2) with (2 ^ 16). change (256 ^ Z.of_nat 4) with (2 ^ 32).
    etransitivity; [|apply (split_base tss_addr); lia]. lia.
  - field_load. done.
  - repeat (etransitivity; [|apply agree_store; intros x Hx Hr; apply Hx; unfold in_range in *; lia]). reflexivity.
Qed.
End Segments.

(** Everything [init_gdt] does, memory and instructions. *)
Lemma init_gdt_spec `{DescrLinker} m d :
  exists m' d', init_gdt m d = Some (m', d') /\
    map (fun i => segment_at m' (entry_addr i)) (seq 0 5) =
      [mk_segment 0 0 0 0; mk_segment 0 0 0x9A 2; mk_segment 0 0 0x92 0;
       mk_segment 0 0 0xFA 2; mk_segment 0 0 0xF2 0] /\
    system_base m' (entry_addr 5) = tss_addr /\ seg_limit (segment_at m' (entry_addr 5)) = sizeof_task_state_seg - 1 /\
    access (segment_at m' (entry_addr 5)) = 0x89 /\
    (forall x, in_range tss_addr 104 x -> read8 m' x = 0) /\
    hist d' = hist d ++ [Lgdt 55 gdt_addr; LoadSegments 0x08 0x10; Ltr 0x28] /\
    agree (fun x => ~ in_range gdt_addr 56 x /\ ~ in_range tss_addr 104 x) m m'.
Proof.
  unfold init_gdt, reload_gdt. set (m1 := set_gdt_entry 4 _ _ _). run_io. cbn [mbind option_bind].
  set (m2 := memset m1 tss_addr 0 _). destruct (load_tss_spec m2 (log_event (log_event d (Lgdt (sizeof_global_descr_table - 1) gdt_addr)) (LoadSegments 8 16)))
    as (m' & E & Hseg & Hbase & _ & Ha). rewrite E. pose proof tables_apart as (Hap & _).
  assert (agree (fun x => ~ in_range tss_addr 104 x) m1 m2) as Ha2 by (by apply memset_outside).
  assert (forall i, (i < 5)%nat -> segment_at m' (entry_addr i) = segment_at m1 (entry_addr i)) as Hlow.
  { intros i Hi. symmetry. etransitivity; [eapply segment_agree; [exact Ha2|]|eapply segment_agree; [exact Ha|]];
      intros x; unfold in_range, entry_addr; lia. }
  assert (agree (fun x => ~ in_range gdt_addr 56 x) m m1) as Ha1.
  { unfold m1. do 5 (etransitivity; [|eapply agree_sub; [apply set_gdt_entry_spec; lia|intros x; unfold in_range, entry_addr; lia]]).
    by apply memset_outside. }
  exists m', (log_event (log_event (log_event d (Lgdt 55 gdt_addr)) (LoadSegments 8 16)) (Ltr 40)).
  change (entry_addr 5) with (gdt_addr + 40). rewrite Hseg. cbn [seg_limit access]. split_and!; try done.
  - cbn [map seq]. rewrite !Hlow by lia. unfold m1.
    repeat (apply (f_equal2 cons); [repeat (rewrite set_gdt_entry_other by lia); by rewrite set_gdt_entry_same by lia|]).
    reflexivity.
  - intros x Hx. rewrite <- Ha by (unfold in_range in *; lia). unfold m2. rewrite memset_read by done.
    by rewrite decide_True by (unfold in_range, sizeof_task_state_seg in *; lia).
  - fields. by rewrite <- !app_assoc.
  - etransitivity; [eapply agree_sub; [exact Ha1|by intros x []]|].
    etransitivity; [eapply agree_sub; [exact Ha2|by intros x []]|].
    eapply agree_sub; [exact Ha|]. intros x []. unfold in_range in *. lia.
Qed.

Lemma init_gdt_cycles `{DescrLinker} m d m' d' :
  init_gdt m d = Some (m', d') -> cpu_cycles_per_10ms d' = cpu_cycles_per_10ms d.
Proof.
  unfold init_gdt, reload_gdt. generalize (set_gdt_entry 4 0xF2 0 (set_gdt_entry 3 0xFA 0x20 (set_gdt_entry 2 0x92 0
    (set_gdt_entry 1 0x9A 0x20 (set_gdt_entry 0 0 0 (memset m gdt_addr 0 sizeof_global_descr_table)))))). intros m1. run_io.
  cbn [mbind option_bind]. generalize (memset m1 tss_addr 0 sizeof_task_state_seg). intros m2.
  destruct (load_tss_spec m2 (log_event (log_event d (Lgdt (sizeof_global_descr_table - 1) gdt_addr)) (LoadSegments 8 16)))
    as (m3 & E & _). rewrite E. by intros [= _ <-].
Qed.

(** C33. [init_gdt] builds the flat long-mode segments (a null entry, kernel and
    user code with the 64-bit flag, kernel and user data, user ones with
    privilege 3) and a TSS descriptor for the cleared TSS, loads the table with
    its exact limit before it reloads the segments, and the task register last;
    only the table and the TSS are written. *)
Theorem init_gdt_correct `{DescrLinker} m d :
  exists m' d', init_gdt m d = Some (m', d') /\
    map (fun i => segment_at m' (entry_addr i)) (seq 0 5) =
      [mk_segment 0 0 0 0; mk_segment 0 0 0x9A 2; mk_segment 0 0 0x92 0;
       mk_segment 0 0 0xFA 2; mk_segment 0 0 0xF2 0] /\
    system_base m' (entry_addr 5) = tss_addr /\ seg_limit (segment_at m' (entry_addr 5)) = sizeof_task_state_seg - 1 /\
    access (segment_at m' (entry_addr 5)) = 0x89 /\
    (forall x, in_range tss_addr 104 x -> read8 m' x = 0) /\
    hist d' = hist d ++ [Lgdt 55 gdt_addr; LoadSegments 0x08 0x10; Ltr 0x28] /\
    agree (fun x => ~ in_range gdt_addr 56 x /\ ~ in_range tss_addr 104 x) m m'.
Proof. apply init_gdt_spec. Qed.

(** ** Concrete tables *)

#[local] Instance demo_descr : DescrLinker.
Proof.
  refine {| idt_addr := 0x10000; gdt_addr := 0x20000; tss_addr := 0x21000;
            isr n := 0xFFFFFFFF80000000 + (16 * Z.of_nat n) mod 4096 |}; try lia.
  intros n. pose proof (Z.mod_pos_bound (16 * Z.of_nat n) 4096). lia.
Defined.

Lemma init_idt_witness :
  exists m1 idtr d', init_idt ∅ (mk_dev [] 0 0 0) = Some (m1, idtr, d') /\
    gate_at (apic_timer_register_handler m1) 14 = mk_gate 0xFFFFFFFF800000E0 0x08 0 0x8E.
Proof.
  destruct (init_idt_correct ∅ (mk_dev [] 0 0 0) (mk_pic 0 0 0 0 0, mk_pic 0 0 0 0 0))
    as (m1 & m2 & idtr & d' & E & <- & Hg & _).
  exists m1, idtr, d'. split; [exact E|]. rewrite Hg by lia. reflexivity.
Defined.

Lemma init_gdt_witness :
  exists m' d', init_gdt ∅ (mk_dev [] 0 0 0) = Some (m', d') /\ system_base m' 0x20028 = 0x21000.
Proof.
  destruct (init_gdt_correct ∅ (mk_dev [] 0 0 0)) as (m' & d' & E & _ & Hb & _).
  exists m', d'. split; [exact E|exact Hb].
Defined.
