(* ===== verification/Interrupts.v ===== *)
(** * Interrupts: operations

    Models src/kernel/arch/x86_64/interrupts (isr_stubs.S, isr_handler.c) with
    isr_handler.h and regs.h, [build_iretq_frame] of context_switch.S and
    [apic_timer_handler].  The stubs work on the registers and the stack in the
    byte memory; what the CPU has pushed before the stub starts is part of the
    memory.  The stack that compiled C code uses below the frame is not
    modelled. *)
From Stdlib Require Import String.
From S2P Require Import Prelude Memory PageAlloc Slab Pmm Klib Locks Console Klog Vmm Memmgr Lists Tasks Devices.
Import Tasks Devices.

Module Interrupts.

Definition KERNEL_SPACE_START : Z := 0xFFFF800000000000.

(** The registers at the entry of a stub: the fifteen general ones in the order
    of struct task_context (r15 .. r8, rbp, rdi, rsi, rdx, rcx, rbx, rax), the
    stack pointer and CR2. *)
Record regs := mk_regs { gpr : list Z; sp : Z; cr2 : Z }.

Definition reg (r : regs) (i : nat) : Z := nth i (gpr r) 0.

Definition push (v : Z) (m : mem) (rsp : Z) : mem * Z := (store 8 m (w64 (rsp - 8)) v, w64 (rsp - 8)).

(** The vectors declared with ISR_ERR. *)
Definition isr_err (n : nat) : bool := bool_decide (n ∈ [8; 10; 11; 12; 13; 14]%nat).

(** The stub [isr<n>]: its pushes. *)
Definition isr_stub (n : nat) (m : mem) (rsp : Z) : mem * Z :=
  let '(m, rsp) := if isr_err n then (m, rsp) else push 0 m rsp in
  push (Z.of_nat n) m rsp.

(** What becomes of the CPU. *)
Inductive outcome :=
  | Loaded (s : cpu_state)                    (** [load_next_task]: all registers of a context *)
  | Iret (rip cs rflags rsp ss : Z)           (** [build_iretq_frame]: the frame only *)
  | Halted                                    (** [hcf] *)
  | Spinning                                  (** [print_check] *)
  | Returned.

(** struct interrupt_frame *)
Record interrupt_frame := mk_frame { f_cr2 : Z; f_int_no : Z; f_err_code : Z }.

Section Handlers.
Context `{Platform} `{Hhdm} `{Linker} `{TaskLinker} {P : Type} `{!PageAllocator P}.

Implicit Types (k : kernel (P := P)) (d : dev).

(** ** isr_handler.c *)

Definition decode_page_fault_error (err_code : Z) : io unit :=
  kprintf "Error code: 0x%lx\n" [Num err_code];;
  (if negb (Z.land err_code 0x1 =? 0) then kprintf " - Protection Violation (page present) -\n" []
   else kprintf " - Page Not Present -\n" []);;
  (if negb (Z.land err_code 0x2 =? 0) then kprintf " - Fault caused by Write -\n" []
   else kprintf " - Fault caused by Read -\n" []);;
  (if negb (Z.land err_code 0x4 =? 0) then kprintf " - Fault in User Mode -\n" []
   else kprintf " - Fault in Supervisor Mode -\n" []);;
  (if negb (Z.land err_code 0x8 =? 0) then kprintf " - Reserved Bit Violation -\n" [] else mret tt);;
  (if negb (Z.land err_code 0x10 =? 0) then kprintf " - Instruction Fetch Fault -\n" [] else mret tt).

(** context_switch.S *)
Definition build_iretq_frame (m : mem) (cont : Z) : outcome :=
  Iret (load 8 m (cont + ctx_rip)) (load 8 m (cont + ctx_cs)) (load 8 m (cont + ctx_rflags))
    (load 8 m (cont + ctx_stack_ptr)) (load 8 m (cont + ctx_ss)).

Definition isr0_divide_by_zero (core : nat) k : io outcome :=
  kprintf "EXCEPTION: Divide by zero\n" [];;
  mret (build_iretq_frame (k_mem k) (get_current_task core k)).

Definition isr14_page_fault (cr2 err_code : Z) : io outcome :=
  if KERNEL_SPACE_START <=? cr2 then
    klog Klog.Error "Page fault occurred at address: %lx\n" [Num cr2];;
    decode_page_fault_error err_code;;
    kprintf "This page fault occured in kernel space.. Time to panic :d\n" [];;
    mret Halted
  else
    klog Klog.Error "Page fault occurred at address: %lx\n" [Num cr2];;
    decode_page_fault_error err_code;;
    mret Halted.

Definition isr_reserved : io outcome :=
  kprintf "ISR is reserved by INTEL!? How are we even here\n" [];; mret Returned.

Definition print_check : io outcome :=
  kprintf "THEORY CONFIRMED BOYS!\n" [];; mret Spinning.

(** apic.c *)
Definition apic_timer_handler (core : nat) k d : option (kernel * dev * outcome) :=
  '(d, _) ← apic_timer_ack d;
  let '(k, cont) := schedule core k in
  Some (k, d, Loaded (load_next_task (k_mem k) cont)).

(** The cases whose handler is [isr_reserved], and those with their own handler. *)
Definition reserved_vectors : list Z := [15; 22; 23; 24; 25; 26; 27; 31].

Definition isr_dispatch (core : nat) (fr : interrupt_frame) k d : option (kernel * dev * outcome) :=
  let n := f_int_no fr in
  let run (c : io outcome) := '(d, o) ← c d; Some (k, d, o) in
  if n =? 0 then run (isr0_divide_by_zero core k)
  else if n =? 14 then run (isr14_page_fault (f_cr2 fr) (f_err_code fr))
  else if bool_decide (n ∈ reserved_vectors) then run isr_reserved
  else if n =? 13 then run (klog Klog.Error "GPF, Error Code: 0x%lx\n" [Num (f_err_code fr)];; mret Returned)
  else if n =? 33 then run (mret Returned)
  else if n =? 64 then apic_timer_handler core k d
  else run (kprintf "isr%lu" [Num n];; mret Halted).

(** ** isr_stubs.S *)

(** The registers saved before RAX, at their offsets in the context. *)
Definition save_registers (r : regs) (cont : Z) (m : mem) : mem :=
  fold_left (fun m i => store 8 m (cont + 8 * Z.of_nat i) (reg r i)) (seq 0 14) m.

(** [isr_common_stub] from its first instruction; [rsp] is the stack pointer
    after the pushes of [isr<n>]. *)
Definition isr_common_stub (core : nat) (r : regs) (rsp : Z) k d : option (kernel * dev * outcome) :=
  let '(m, rsp) := push (reg r 14) (k_mem k) rsp in
  let rax := get_current_task core k in
  let m := save_registers r rax m in
  let rcx := load 8 m rsp in
  let rsp := w64 (rsp + 8) in
  let m := store 8 m (rax + 112) rcx in
  let m := store 8 m (rax + 120) (load 8 m (rsp + 16)) in
  let m := store 8 m (rax + 136) (load 8 m (rsp + 32)) in
  let rcx := load 8 m (rsp + 24) in
  let m := store 8 m (rax + 128) rcx in
  if negb (Z.land rcx 3 =? 0) then
    '(d, o) ← print_check d; Some (set_kmem k m, d, o)
  else
    let rax := load 8 m rsp in
    let rbx := load 8 m (rsp + 8) in
    let rsp := w64 (rsp + 40) in
    let rsp := if Z.land rsp 15 =? 0 then w64 (rsp - 8) else rsp in
    let '(m, rsp) := push rbx m rsp in
    let '(m, rsp) := push rax m rsp in
    let '(m, rsp) := push (cr2 r) m rsp in
    let fr := mk_frame (load 8 m rsp) (load 8 m (rsp + 8)) (load 8 m (rsp + 16)) in
    '(k, d, o) ← isr_dispatch core fr (set_kmem k m) d;
    match o with
    | Returned => '(d, o) ← print_check d; Some (k, d, o)
    | _ => Some (k, d, o)
    end.

(** An interrupt on vector [n]. *)
Definition interrupt (core : nat) (n : nat) (r : regs) k d : option (kernel * dev * outcome) :=
  let '(m, rsp) := isr_stub n (k_mem k) (sp r) in
  isr_common_stub core r rsp (set_kmem k m) d.

End Handlers.

End Interrupts.
