(* ===== verification/InterruptsSpec.v ===== *)
(** * Interrupts: correctness

    The path of an interrupt from its stub to the context that is loaded next,
    on top of the scheduler's invariant. *)
From S2P Require Import Prelude Memory PageAlloc Slab Pmm Klib Locks Console Klog Vmm Memmgr Lists Tasks TasksSpec TasksClaims.
From S2P Require Import Devices DevicesSpec Interrupts.
Import Tasks Devices Interrupts.

(** ** Saving registers *)

Lemma save_registers_spec r cont m n :
  Forall (fun v => 0 <= v < 2 ^ 64) (gpr r) ->
  let m' := fold_left (fun m i => store 8 m (cont + 8 * Z.of_nat i) (reg r i)) (seq 0 n) m in
  (forall i, (i < n)%nat -> load 8 m' (cont + 8 * Z.of_nat i) = reg r i) /\
  agree (fun x => ~ in_range cont (8 * Z.of_nat n) x) m m'.
Proof.
  intros Hr. induction n as [|n IH]; cbv zeta; [by split; [lia|]|].
  rewrite seq_S, fold_left_app. cbn [fold_left Nat.add]. destruct IH as [IHl IHa]. set (m1 := fold_left _ (seq 0 n) m) in *.
  split.
  - intros i Hi. destruct (decide (i = n)) as [->|Hne].
    + rewrite load8_store8; [done|]. unfold reg. rewrite nth_lookup. destruct (gpr r !! n) eqn:E; [|cbn; lia].
      by apply (Forall_lookup_1 _ _ _ _ Hr E).
    + rewrite load_store_ne by lia. apply IHl. lia.
  - etransitivity; [eapply agree_sub; [exact IHa|]; unfold in_range; lia|].
    apply agree_store. intros x Hx Hin. apply Hx. unfold in_range in *. lia.
Qed.

Lemma reg_range r i : Forall (fun v => 0 <= v < 2 ^ 64) (gpr r) -> 0 <= reg r i < 2 ^ 64.
Proof.
  intros Hw. unfold reg. rewrite nth_lookup. destruct (gpr r !! i) eqn:E; [|cbn; lia].
  by apply (Forall_lookup_1 _ _ _ _ Hw E).
Qed.

(** ** Entering the kernel *)

(** An interrupt that arrives on vector [n] in kernel mode while task [t] runs:
    the stack holds the return address, code segment and flags (behind the
    error code, if the CPU pushed one), and the part of the stack that the stub
    uses is outside the task's structure. *)
Record arrives (n : nat) (r : regs) (t : Z) (m : mem) (rip cs rflags : Z) : Prop := {
  ar_gpr : length (gpr r) = 15%nat;
  ar_words : Forall (fun v => 0 <= v < 2 ^ 64) (gpr r);
  ar_cr2 : 0 <= cr2 r < 2 ^ 64;
  ar_vector : (n < 256)%nat;
  ar_sp : 24 <= sp r /\ sp r + 32 < 2 ^ 64;
  ar_rip : load 8 m (sp r + (if isr_err n then 8 else 0)) = rip;
  ar_cs : load 8 m (sp r + (if isr_err n then 16 else 8)) = cs;
  ar_rflags : load 8 m (sp r + (if isr_err n then 24 else 16)) = rflags;
  ar_kernel : Z.land cs 3 = 0;
  ar_apart : t + sizeof_task <= sp r - 24 \/ sp r + 32 <= t;
}.

(** The error code the handler sees. *)
Definition pushed_error (n : nat) (r : regs) (m : mem) : Z := if isr_err n then load 8 m (sp r) else 0.

(** The bytes an interrupt of task [t] writes: the registers in its context
    but for the stack pointer and segment, and the stack around [sp]. *)
Definition saved_byte (r : regs) (t x : Z) : Prop := in_range t 144 x \/ in_range (sp r - 24) 56 x.

(** The context of [t] holds the interrupted state. *)
Definition context_saved (r : regs) (t rip cs rflags : Z) (m m' : mem) : Prop :=
  load_next_task m' t = mk_cpu (gpr r) rip cs rflags (load 8 m (t + ctx_stack_ptr)) (load 8 m (t + ctx_ss)).

Section Entry.
Context `{Platform} `{Hhdm} `{Linker} `{TaskLinker} {P : Type} `{!PageAllocator P}.
Implicit Types (k : kernel (P := P)) (d : dev).

Lemma gpr_loads r m t :
  length (gpr r) = 15%nat -> (forall i, (i < 15)%nat -> load 8 m (t + 8 * Z.of_nat i) = reg r i) ->
  map (fun i => load 8 m (t + 8 * Z.of_nat i)) (seq 0 15) = gpr r.
Proof.
  intros Hl Hi. apply list_eq. intros i. change (map ?f (seq 0 15)) with (f <$> seq 0 15). rewrite list_lookup_fmap.
  destruct (decide (i < 15)%nat) as [Hlt|Hge].
  - rewrite lookup_seq_lt by done. cbn [fmap option_fmap option_map Nat.add]. rewrite Hi by done. unfold reg.
    destruct (lookup_lt_is_Some_2 (gpr r) i) as [v E]; [lia|]. by rewrite nth_lookup, E.
  - rewrite lookup_seq_ge, lookup_ge_None_2 by lia. done.
Qed.

Lemma k_mem_set k m : k_mem (set_kmem k m) = m.
Proof. done. Qed.

(** The context after its registers have been stored one by one. *)
Lemma context_stores r t rip cs rflags m m1 :
  length (gpr r) = 15%nat -> Forall (fun v => 0 <= v < 2 ^ 64) (gpr r) ->
  0 <= rip < 2 ^ 64 -> 0 <= cs < 2 ^ 64 -> 0 <= rflags < 2 ^ 64 ->
  (forall i, (i < 14)%nat -> load 8 m1 (t + 8 * Z.of_nat i) = reg r i) ->
  load 8 m1 (t + ctx_stack_ptr) = load 8 m (t + ctx_stack_ptr) -> load 8 m1 (t + ctx_ss) = load 8 m (t + ctx_ss) ->
  context_saved r t rip cs rflags m
    (store 8 (store 8 (store 8 (store 8 m1 (t + 112) (reg r 14)) (t + 120) rip) (t + 136) rflags) (t + 128) cs).
Proof.
  intros Hl Hw Hrip Hcs Hrf Hi Hsp Hss. unfold context_saved, load_next_task, ctx_rip, ctx_cs, ctx_rflags, ctx_stack_ptr, ctx_ss in *.
  f_equal.
  - apply gpr_loads; [done|]. intros i Hlt. destruct (decide (i = 14%nat)) as [->|].
    + rewrite !(load_store_ne 8 8) by lia. replace (t + 8 * Z.of_nat 14) with (t + 112) by lia. apply load8_store8.
      by apply reg_range.
    + rewrite !(load_store_ne 8 8) by lia. apply Hi. lia.
  - rewrite !(load_store_ne 8 8 _ (t + 120) (t + 128)), !(load_store_ne 8 8 _ (t + 120) (t + 136)) by lia. by apply load8_store8.
  - by apply load8_store8.
  - rewrite (load_store_ne 8 8) by lia. by apply load8_store8.
  - by rewrite !(load_store_ne 8 8) by lia.
  - by rewrite !(load_store_ne 8 8) by lia.
Qed.

(** A context is not affected by stores elsewhere. *)
Lemma context_agree m m' t :
  agree (in_range t sizeof_task_context) m m' -> load_next_task m t = load_next_task m' t.
Proof.
  intros Ha. unfold load_next_task, ctx_rip, ctx_cs, ctx_rflags, ctx_stack_ptr, ctx_ss.
  assert (forall o : Z, 0 <= o -> o + 8 <= 160 -> load 8 m (t + o) = load 8 m' (t + o)) as Hl.
  { intros o Ho Ho'. apply load_agree. eapply agree_sub; [exact Ha|]. unfold in_range, sizeof_task_context. lia. }
  f_equal; try (apply Hl; lia). apply map_ext_in. intros i Hi%in_seq. apply Hl; lia.
Qed.

(** [isr_common_stub] with the vector, error code and return frame at [b]. *)
Lemma common_stub_entry core r b k d t n e rip cs rflags :
  get_current_task core k = t -> length (gpr r) = 15%nat -> Forall (fun v => 0 <= v < 2 ^ 64) (gpr r) ->
  0 <= cr2 r < 2 ^ 64 -> 8 <= b -> b + 40 < 2 ^ 64 -> t + 160 <= b - 8 \/ b + 40 <= t ->
  load 8 (k_mem k) b = n -> load 8 (k_mem k) (b + 8) = e -> load 8 (k_mem k) (b + 16) = rip ->
  load 8 (k_mem k) (b + 24) = cs -> load 8 (k_mem k) (b + 32) = rflags -> Z.land cs 3 = 0 ->
  exists m', context_saved r t rip cs rflags (k_mem k) m' /\
    agree (fun x => ~ (in_range t 144 x \/ in_range (b - 8) 48 x)) (k_mem k) m' /\
    isr_common_stub core r b k d =
      ('(k, d, o) ← isr_dispatch core (mk_frame (cr2 r) n e) (set_kmem k m') d;
       match o with
       | Returned => '(d, o) ← print_check d; Some (k, d, o)
       | _ => Some (k, d, o)
       end).
Proof.
  intros Ht Hlen Hw Hcr Hb Hb' Hap Hn He Hrip Hcs Hrf Hk0. unfold isr_common_stub, push. rewrite Ht.
  rewrite (wrap_small 64 (b - 8)) by lia. set (m0 := store 8 (k_mem k) (b - 8) (reg r 14)).
  pose proof (reg_range r 14 Hw) as H14.
  destruct (save_registers_spec r t m0 14 Hw) as [Hs Hsa]. fold (save_registers r t m0) in Hs, Hsa.
  set (m1 := save_registers r t m0) in *. change (8 * Z.of_nat 14) with 112 in Hsa.
  replace (b - 8 + 8) with b by lia. rewrite (wrap_small 64 b) by lia.
  assert (forall a, a + 8 <= t \/ t + 112 <= a -> load 8 m1 a = load 8 m0 a) as Hout.
  { intros a Ha. symmetry. apply load_agree. eapply agree_sub; [exact Hsa|]. intros x Hx. unfold in_range in *. lia. }
  assert (load 8 m1 (b - 8) = reg r 14) as Hrax by (rewrite Hout by lia; apply load8_store8; lia).
  assert (forall a, b <= a -> a + 8 <= b + 40 -> load 8 m1 a = load 8 (k_mem k) a) as Hst
    by (intros a ? ?; rewrite Hout by lia; apply load_store_ne; lia).
  rewrite Hrax. rewrite !(load_store_ne 8 8 _ (b + 16)), !(load_store_ne 8 8 _ (b + 32)), !(load_store_ne 8 8 _ (b + 24)) by lia.
  rewrite !Hst, Hrip, Hcs, Hrf by lia. rewrite Hk0. cbn [Z.eqb negb].
  set (m2 := store 8 (store 8 (store 8 (store 8 m1 (t + 112) _) (t + 120) _) (t + 136) _) (t + 128) _).
  assert (load 8 m2 b = n /\ load 8 m2 (b + 8) = e) as [Hn2 He2].
  { unfold m2. rewrite !load_store_ne by lia. rewrite !Hst by lia. done. }
  rewrite Hn2, He2. rewrite (wrap_small 64 (b + 40)) by lia.
  set (r0 := if _ =? 0 then w64 (b + 40 - 8) else b + 40). assert (b + 32 <= r0 <= b + 40) as Hr0.
  { unfold r0. destruct (_ =? 0); [rewrite wrap_small by lia|]; lia. }
  rewrite !(wrap_small 64 (r0 - 8)), !(wrap_small 64 (r0 - 8 - 8)), !(wrap_small 64 (r0 - 8 - 8 - 8)) by lia.
  set (m3 := store 8 (store 8 (store 8 m2 (r0 - 8) e) (r0 - 8 - 8) n) (r0 - 8 - 8 - 8) (cr2 r)).
  pose proof (load8_range (k_mem k) b) as Rn. pose proof (load8_range (k_mem k) (b + 8)) as Re. rewrite Hn in Rn. rewrite He in Re.
  assert (load 8 m3 (r0 - 8 - 8 - 8) = cr2 r) as -> by (apply load8_store8; lia).
  assert (load 8 m3 (r0 - 8 - 8 - 8 + 8) = n) as ->.
  { unfold m3. rewrite load_store_ne by lia. replace (r0 - 8 - 8 - 8 + 8) with (r0 - 8 - 8) by lia. by apply load8_store8. }
  assert (load 8 m3 (r0 - 8 - 8 - 8 + 16) = e) as ->.
  { unfold m3. rewrite !load_store_ne by lia. replace (r0 - 8 - 8 - 8 + 16) with (r0 - 8) by lia. by apply load8_store8. }
  assert (agree (in_range t sizeof_task_context) m2 m3) as Ha3.
  { unfold m3. repeat (etransitivity; [|apply agree_store; intros x Hx Hr; unfold in_range, sizeof_task_context in *; lia]). reflexivity. }
  exists m3. split_and!; [| |done].
  - unfold context_saved. rewrite <- (context_agree _ _ _ Ha3). apply context_stores; try done; try (subst; apply load8_range);
      unfold ctx_stack_ptr, ctx_ss; rewrite Hout by lia; apply load_store_ne; lia.
  - transitivity m0; [by apply agree_store; intros x Hx Hr; unfold in_range in *; lia|].
    transitivity m1; [eapply agree_sub; [exact Hsa|]; unfold in_range; lia|].
    unfold m3, m2. do 7 (etransitivity; [|apply agree_store; intros x Hx Hr; unfold in_range in *; lia]). reflexivity.
Qed.

(** The stub saves the context, builds the frame and calls the dispatcher. *)
Lemma interrupt_entry core n r k d t rip cs rflags :
  arrives n r t (k_mem k) rip cs rflags -> get_current_task core k = t ->
  exists m', context_saved r t rip cs rflags (k_mem k) m' /\
    agree (fun x => ~ saved_byte r t x) (k_mem k) m' /\
    interrupt core n r k d =
      ('(k, d, o) ← isr_dispatch core (mk_frame (cr2 r) (Z.of_nat n) (pushed_error n r (k_mem k))) (set_kmem k m') d;
       match o with
       | Returned => '(d, o) ← print_check d; Some (k, d, o)
       | _ => Some (k, d, o)
       end).
Proof.
  intros [Hg Hw Hc Hv [Hs1 Hs2] Hrip Hcs Hrf Hk0 Hap] Ht. unfold interrupt, isr_stub, pushed_error, push, saved_byte.
  unfold sizeof_task in Hap. set (b := if isr_err n then sp r - 8 else sp r - 16).
  set (m0 := if isr_err n then k_mem k else store 8 (k_mem k) (sp r - 8) 0). set (m1 := store 8 m0 b (Z.of_nat n)).
  assert ((let '(m, rsp) := if isr_err n then (k_mem k, sp r) else (store 8 (k_mem k) (w64 (sp r - 8)) 0, w64 (sp r - 8)) in
           (store 8 m (w64 (rsp - 8)) (Z.of_nat n), w64 (rsp - 8))) = (m1, b)) as ->.
  { unfold m1, m0, b. destruct (isr_err n); rewrite !(wrap_small 64 (sp r - 8)) by lia;
      rewrite ?(wrap_small 64 (sp r - 8 - 8)) by lia; [done|]. by replace (sp r - 8 - 8) with (sp r - 16) by lia. }
  assert (agree (fun x => ~ in_range (sp r - 16) 16 x) (k_mem k) m1) as Ha1.
  { unfold m1, m0, b. destruct (isr_err n); repeat (etransitivity; [|apply agree_store; intros x Hx Hr; unfold in_range in *; lia]); reflexivity. }
  assert (forall a, sp r <= a \/ a + 8 <= sp r - 16 -> load 8 m1 a = load 8 (k_mem k) a) as Hl1.
  { intros a Ha. symmetry. apply load_agree. eapply agree_sub; [exact Ha1|]. unfold in_range. lia. }
  destruct (common_stub_entry core r b (set_kmem k m1) d t (Z.of_nat n) (if isr_err n then load 8 (k_mem k) (sp r) else 0) rip cs rflags)
    as (m' & Hsv & Ha & E); try done; rewrite ?k_mem_set; try (unfold b; destruct (isr_err n); lia).
  - apply load8_store8. lia.
  - unfold b in *. destruct (isr_err n) eqn:Ee.
    + replace (sp r - 8 + 8) with (sp r) by lia. apply Hl1. lia.
    + unfold m1, m0. rewrite load_store_ne by (unfold b; lia). replace (sp r - 16 + 8) with (sp r - 8) by lia. by apply load8_store8.
  - rewrite Hl1 by (unfold b; destruct (isr_err n); lia). rewrite <- Hrip. f_equal. unfold b. destruct (isr_err n); lia.
  - rewrite Hl1 by (unfold b; destruct (isr_err n); lia). rewrite <- Hcs. f_equal. unfold b. destruct (isr_err n); lia.
  - rewrite Hl1 by (unfold b; destruct (isr_err n); lia). rewrite <- Hrf. f_equal. unfold b. destruct (isr_err n); lia.
  - exists m'. rewrite k_mem_set in *. split_and!.
    + unfold context_saved in *. rewrite Hsv. unfold ctx_stack_ptr, ctx_ss. by rewrite !Hl1 by lia.
    + etransitivity; [eapply agree_sub; [exact Ha1|]; unfold in_range; lia|].
      eapply agree_sub; [exact Ha|]. unfold b, in_range. destruct (isr_err n); lia.
    + exact E.
Qed.

(** ** The timer *)

(** The bytes no task may touch: the structures of the tasks and the list nodes. *)
Definition protected (q : nat -> list Z) (x : Z) : Prop :=
  (exists c u, (c < MAX_CORES)%nat /\ u ∈ q c /\ in_range u sizeof_task x) \/
  (exists a, is_node q a /\ in_range a 16 x).

(** The structures of different tasks do not overlap, and contain no list node
    of a run queue but their own. *)
Record tasks_apart (q : nat -> list Z) : Prop := {
  ta_apart c e u v : (c < MAX_CORES)%nat -> (e < MAX_CORES)%nat -> u ∈ q c -> v ∈ q e -> u <> v ->
    u + sizeof_task <= v \/ v + sizeof_task <= u;
  ta_owns c u : (c < MAX_CORES)%nat -> u ∈ q c -> owns q u;
}.

(** The part of the stack the stub uses is the task's own. *)
Definition own_stack (q : nat -> list Z) (r : regs) : Prop :=
  forall x, protected q x -> ~ in_range (sp r - 24) 56 x.

Lemma saved_not_node q r c t x :
  tasks_apart q -> own_stack q r -> (c < MAX_CORES)%nat -> t ∈ q c ->
  (exists a, is_node q a /\ in_range a 16 x) -> ~ saved_byte r t x.
Proof.
  intros Hap Hst Hc Ht Hx [Hin|Hin]; [|by apply (Hst x); [right|]].
  destruct Hx as (a & Ha & Hxa). destruct (ta_owns _ Hap c t Hc Ht a Ha) as [->|Ho];
    unfold in_range, node, t_tasks_runnable, sizeof_task in *; lia.
Qed.

Lemma ack_run d :
  exists d', apic_timer_ack d = Some (d', tt) /\
    hist d' = hist d ++ (if apic_base d =? 0 then [] else [ApicWrite APIC_EOI 0]) /\ apic_base d' = apic_base d.
Proof.
  unfold apic_timer_ack, apic_write. run_io. destruct (apic_base d =? 0); cbn [negb].
  - eexists. split; [reflexivity|]. by rewrite app_nil_r.
  - run_io. eexists. split; [reflexivity|]. by fields.
Qed.

(** One timer interrupt. *)
Lemma timer_step core q i t r k d rip cs rflags :
  (core < MAX_CORES)%nat -> length (percpu_current_task k) = MAX_CORES ->
  sched_ok (k_mem k) q -> tasks_apart q -> own_stack q r ->
  q core !! i = Some t -> get_current_task core k = t -> arrives 64 r t (k_mem k) rip cs rflags ->
  exists k' d' t', interrupt core 64 r k d = Some (k', d', Loaded (load_next_task (k_mem k') t')) /\
    q core !! (S i mod length (q core))%nat = Some t' /\ get_current_task core k' = t' /\
    sched_ok (k_mem k') q /\ length (percpu_current_task k') = MAX_CORES /\
    context_saved r t rip cs rflags (k_mem k) (k_mem k') /\
    agree (fun x => ~ saved_byte r t x) (k_mem k) (k_mem k') /\
    hist d' = hist d ++ (if apic_base d =? 0 then [] else [ApicWrite APIC_EOI 0]).
Proof.
  intros Hc Hl Hs Hap Hst Hi Ht Har.
  destruct (interrupt_entry core 64 r k d t rip cs rflags Har Ht) as (m' & Hsv & Ha & ->).
  assert (t ∈ q core) as Hin by (by eapply list_elem_of_lookup_2).
  assert (sched_ok (k_mem (set_kmem k m')) q) as Hs'.
  { eapply sched_ok_agree; [|exact Hs]. rewrite k_mem_set. eapply agree_sub; [exact Ha|].
    intros x Hx. by eapply saved_not_node. }
  destruct (schedule_next core q i t (set_kmem k m')) as (k' & t' & E & Hn & Hcur & Hsk & Hlk); try done;
    [change (core < length (percpu_current_task k))%nat; by rewrite Hl|].
  destruct (ack_run d) as (d' & Ed & Hh & _). exists k', d', t'.
  unfold isr_dispatch, apic_timer_handler. cbn [f_int_no Z.of_nat Pos.of_succ_nat Pos.succ Z.eqb Pos.eqb].
  rewrite bool_decide_false by (unfold reserved_vectors; set_solver). rewrite Ed. cbn [mbind option_bind]. rewrite E.
  cbn [mbind option_bind]. assert (k_mem k' = m') as Em.
  { pose proof (schedule_mem core (set_kmem k m')) as Em. by rewrite E in Em. }
  split_and!; try done; [by rewrite Hlk|by rewrite Em|by rewrite Em].
Qed.
End Entry.
