(* ===== verification/InterruptsClaims.v ===== *)
(** * Interrupts: theorems

    Preemption over whole rounds of the run queue, and the fate of a CPU that
    takes an exception. *)
From Stdlib Require Import String.
From S2P Require Import Prelude Memory PageAlloc Slab Pmm Klib Locks Console Klog Vmm Memmgr Lists Tasks TasksSpec TasksClaims.
From S2P Require Import Buddy BuddyProofs BuddySpec HeapClaims Devices DevicesSpec TimerSpec Interrupts InterruptsSpec.
Import Tasks Devices Interrupts.

Section Preemption.
Context `{Platform} `{Hhdm} `{Linker} `{TaskLinker} {P : Type} `{!PageAllocator P}.
Implicit Types (k : kernel (P := P)) (d : dev) (q : nat -> list Z).

Variables (core : nat) (q : nat -> list Z).
Hypothesis Hcore : (core < MAX_CORES)%nat.
Hypothesis Hap : tasks_apart q.

(** A time slice: the current task runs, changing any memory but the task
    structures and the list nodes, until the timer interrupts it with registers
    [r] at [(rip, cs, rflags)]; [s] is the state the CPU goes on with. *)
Inductive slice : kernel (P := P) -> regs -> Z * Z * Z -> kernel (P := P) -> cpu_state -> Prop :=
  | slice_intro k m r rip cs rflags d k' d' s :
      agree (protected q) (k_mem k) m -> own_stack q r ->
      arrives 64 r (get_current_task core k) m rip cs rflags ->
      interrupt core 64 r (set_kmem k m) d = Some (k', d', Loaded s) ->
      slice k r (rip, cs, rflags) k' s.

Inductive slices : nat -> kernel (P := P) -> kernel (P := P) -> Prop :=
  | slices_O k : slices 0 k k
  | slices_S n k r f k1 s k2 : slice k r f k1 s -> slices n k1 k2 -> slices (S n) k k2.

(** The CPU runs the task at position [i] of its queue. *)
Record runs (i : nat) k : Prop := {
  ru_len : length (percpu_current_task k) = MAX_CORES;
  ru_sched : sched_ok (k_mem k) q;
  ru_cur : q core !! i = Some (get_current_task core k);
}.

Lemma protected_sched m m' : agree (protected q) m m' -> sched_ok m q -> sched_ok m' q.
Proof. intros Ha. apply sched_ok_agree. eapply agree_sub; [exact Ha|]. intros x Hx. by right. Qed.

(** The context of a task is protected. *)
Lemma protected_context m m' u :
  agree (protected q) m m' -> u ∈ q core -> load_next_task m u = load_next_task m' u.
Proof.
  intros Ha Hu. apply context_agree. eapply agree_sub; [exact Ha|]. intros x Hx. left. exists core, u.
  split_and!; [done|done|]. unfold in_range, sizeof_task_context, sizeof_task in *. lia.
Qed.

Lemma slice_spec i k r rip cs rflags k' s :
  runs i k -> slice k r (rip, cs, rflags) k' s ->
  let t := get_current_task core k in
  runs (S i mod length (q core)) k' /\ s = load_next_task (k_mem k') (get_current_task core k') /\
  context_saved r t rip cs rflags (k_mem k) (k_mem k') /\
  forall u, u ∈ q core -> u <> t -> load_next_task (k_mem k') u = load_next_task (k_mem k) u.
Proof.
  intros [Hl Hs Hc] Hsl t. inversion Hsl as [k0 m r0 rip0 cs0 rf0 d k1 d' s0 Hm Hst Har E]; subst.
  destruct (timer_step core q i t r (set_kmem k m) d rip cs rflags) as (k2 & d2 & t' & E2 & Hn & Hcur & Hs' & Hl' & Hsv & Ha & _);
    try done; [by eapply protected_sched|].
  rewrite E2 in E. injection E as <- <- <-. rewrite k_mem_set in *.
  assert (t ∈ q core) as Hin by (by eapply list_elem_of_lookup_2).
  split_and!.
  - split; [done|done|]. by rewrite Hcur.
  - by rewrite Hcur.
  - unfold context_saved in *. rewrite Hsv. pose proof (protected_context _ _ t Hm Hin) as Ectx.
    pose proof (f_equal Tasks.rsp Ectx) as Esp. pose proof (f_equal Tasks.ss Ectx) as Ess.
    cbn [load_next_task Tasks.rsp Tasks.ss] in Esp, Ess. by rewrite Esp, Ess.
  - intros u Hu Hne. rewrite (protected_context _ _ u Hm Hu). symmetry. apply context_agree. eapply agree_sub; [exact Ha|].
    intros x Hx [Hxt|Hxs].
    + destruct (ta_apart _ Hap core core u t Hcore Hcore Hu Hin Hne); unfold in_range, sizeof_task, sizeof_task_context in *; lia.
    + apply (Hst x); [|done]. left. exists core, u. split_and!; [done|done|].
      unfold in_range, sizeof_task, sizeof_task_context in *. lia.
Qed.

(** Slices of other tasks leave a context alone. *)
Lemma slices_spec n : forall i k k' u,
  runs i k -> slices n k k' -> u ∈ q core ->
  (forall j, (j < n)%nat -> q core !! ((i + j) mod length (q core))%nat <> Some u) ->
  runs ((i + n) mod length (q core)) k' /\ load_next_task (k_mem k') u = load_next_task (k_mem k) u.
Proof.
  induction n as [|n IH]; intros i k k' u Hr Hsl Hu Hj; inversion Hsl as [|n0 k0 r [[rip cs] rf] k1 s k2 Hs1 Hs2]; subst.
  - rewrite Nat.add_0_r, Nat.mod_small; [done|]. by eapply lookup_lt_Some, (ru_cur _ _ Hr).
  - destruct (slice_spec i k r rip cs rf k1 s Hr Hs1) as (Hr1 & _ & _ & Hk).
    assert (i < length (q core))%nat as Hi by (by eapply lookup_lt_Some, (ru_cur _ _ Hr)).
    destruct (IH _ k1 k' u Hr1 Hs2 Hu) as [Hr' E'].
    + intros j Hlt. rewrite Nat.Div0.add_mod_idemp_l. replace (S i + j)%nat with (i + S j)%nat by lia. apply Hj. lia.
    + rewrite Nat.Div0.add_mod_idemp_l in Hr'. replace (S i + n)%nat with (i + S n)%nat in Hr' by lia.
      split; [done|]. rewrite E'. apply Hk; [done|]. intros ->. apply (Hj 0%nat); [lia|].
      rewrite Nat.add_0_r, Nat.mod_small by done. apply Hr.
Qed.
End Preemption.


(** C29. A whole round of preemption: a task that is interrupted with registers
    [r] at [rip] is resumed, after every other task of its CPU had a slice,
    with the same general registers, return address, code segment and flags,
    whatever the tasks did to memory in between.  Its stack pointer and stack
    segment are those its context held before: the stub does not save them, so
    a task that had pushed anything resumes on a stale stack. *)
Theorem preemption_round_trip `{Platform} `{Hhdm} `{Linker} `{TaskLinker} {P : Type} `{!PageAllocator P}
    core q i r rip cs rflags (k k1 kn : kernel (P := P)) s :
  (core < MAX_CORES)%nat -> tasks_apart q -> runs core q i k ->
  slice core q k r (rip, cs, rflags) k1 s -> slices core q (length (q core) - 1) k1 kn ->
  let t := get_current_task core k in
  get_current_task core kn = t /\
  load_next_task (k_mem kn) t =
    mk_cpu (gpr r) rip cs rflags (load 8 (k_mem k) (t + ctx_stack_ptr)) (load 8 (k_mem k) (t + ctx_ss)).
Proof.
  intros Hc Hap Hr Hs Hsl t. pose proof (ru_cur _ _ _ _ Hr) as Hi. fold t in Hi. pose proof (lookup_lt_Some _ _ _ Hi) as Hlt.
  destruct (slice_spec core q Hc Hap i k r rip cs rflags k1 s Hr Hs) as (Hr1 & _ & Hsv & _). fold t in Hsv.
  assert (t ∈ q core) as Hin by (by eapply list_elem_of_lookup_2).
  pose proof (queue_NoDup _ _ core (ru_sched _ _ _ _ Hr) Hc) as Hnd. set (L := length (q core)) in *.
  destruct (slices_spec core q Hc Hap (L - 1) (S i mod L) k1 kn t Hr1 Hsl Hin) as [Hrn En].
  - intros j Hj E. pose proof (NoDup_lookup _ _ _ _ Hnd E Hi) as Em. rewrite Nat.Div0.add_mod_idemp_l in Em. fold L in Em.
    pose proof (Nat.div_mod_eq (S i + j) L) as Hd. rewrite Em in Hd.
    assert ((S i + j) / L = 0 \/ 1 <= (S i + j) / L)%nat as [Hz|Hp] by lia; nia.
  - fold L in Hrn. rewrite Nat.Div0.add_mod_idemp_l in Hrn. replace (S i + (L - 1))%nat with (i + 1 * L)%nat in Hrn by lia.
    rewrite Nat.Div0.mod_add, Nat.mod_small in Hrn by done. pose proof (ru_cur _ _ _ _ Hrn) as Hcn.
    split; [congruence|]. by rewrite En.
Qed.

(** ** Exceptions *)

(** What the handler of a page fault prints, from the bits of the error code. *)
Definition decode_report (err : Z) : history :=
  [Kprintf "Error code: 0x%lx\n" [Num err];
   Kprintf (if Z.testbit err 0 then " - Protection Violation (page present) -\n" else " - Page Not Present -\n") [];
   Kprintf (if Z.testbit err 1 then " - Fault caused by Write -\n" else " - Fault caused by Read -\n") [];
   Kprintf (if Z.testbit err 2 then " - Fault in User Mode -\n" else " - Fault in Supervisor Mode -\n") []] ++
  (if Z.testbit err 3 then [Kprintf " - Reserved Bit Violation -\n" []] else []) ++
  (if Z.testbit err 4 then [Kprintf " - Instruction Fetch Fault -\n" []] else []).

Definition fault_report (cr2 err : Z) : history :=
  Log Klog.Error "Page fault occurred at address: %lx\n" [Num cr2] :: decode_report err ++
  (if KERNEL_SPACE_START <=? cr2
   then [Kprintf "This page fault occured in kernel space.. Time to panic :d\n" []] else []).

Lemma print_bind {B} f a (k : unit -> io B) d : (kprintf f a ≫= k) d = k tt (log_event d (Kprintf f a)).
Proof. done. Qed.

Lemma decode_run err d :
  exists d', decode_page_fault_error err d = Some (d', tt) /\ hist d' = hist d ++ decode_report err.
Proof.
  unfold decode_page_fault_error, decode_report. rewrite print_bind.
  rewrite (land_bit err 0 ltac:(lia) : (Z.land err 1 =? 0) = _), (land_bit err 1 ltac:(lia) : (Z.land err 2 =? 0) = _),
    (land_bit err 2 ltac:(lia) : (Z.land err 4 =? 0) = _), (land_bit err 3 ltac:(lia) : (Z.land err 8 =? 0) = _),
    (land_bit err 4 ltac:(lia) : (Z.land err 16 =? 0) = _), !negb_involutive.
  destruct (Z.testbit err 0), (Z.testbit err 1), (Z.testbit err 2), (Z.testbit err 3), (Z.testbit err 4);
    run_io; eexists; (split; [reflexivity|]); fields; by rewrite <- !app_assoc.
Qed.

Lemma page_fault_run cr2 err d :
  exists d', isr14_page_fault cr2 err d = Some (d', Halted) /\ hist d' = hist d ++ fault_report cr2 err.
Proof.
  unfold isr14_page_fault, fault_report. destruct (KERNEL_SPACE_START <=? cr2); unfold klog; rewrite emit_bind;
    edestruct decode_run as (d' & E & Hh); rewrite (bind_eq _ _ _ _ _ E); run_io; eexists; (split; [reflexivity|]); fields; rewrite Hh;
    by rewrite ?app_nil_r, <- !app_assoc.
Qed.

(** What follows the dispatcher in the stub. *)
Definition settle (d : dev) (o : outcome) : dev * outcome :=
  match o with Returned => (log_event d (Kprintf "THEORY CONFIRMED BOYS!\n" []), Spinning) | _ => (d, o) end.

Lemma settle_run {K} (k : K) (c : io outcome) d d1 o :
  c d = Some (d1, o) ->
  ('(k, d, o) ← ('(d, o) ← c d; Some (k, d, o));
     match o with Returned => '(d, o) ← print_check d; Some (k, d, o) | _ => Some (k, d, o) end) =
  Some (k, (settle d1 o).1, (settle d1 o).2).
Proof. intros ->. by destruct o. Qed.

(** The vectors after whose handler the stub runs on into [print_check]. *)
Definition spinning_vectors : list nat := [13; 15; 22; 23; 24; 25; 26; 27; 31]%nat.

(** The frame that is built from a saved context. *)
Lemma frame_saved r t rip cs rflags m m' :
  context_saved r t rip cs rflags m m' ->
  build_iretq_frame m' t = Iret rip cs rflags (load 8 m (t + ctx_stack_ptr)) (load 8 m (t + ctx_ss)).
Proof.
  unfold context_saved. intros Hsv. set (s := load_next_task m' t) in Hsv.
  change (build_iretq_frame m' t) with (Iret (Tasks.rip s) (Tasks.cs s) (Tasks.rflags s) (Tasks.rsp s) (Tasks.ss s)).
  by rewrite Hsv.
Qed.

(** Where the CPU goes after exception [n] of task [t]. *)
Definition exception_exit (n : nat) (t : Z) (m : mem) (rip cs rflags : Z) : outcome :=
  if decide (n = 0%nat) then Iret rip cs rflags (load 8 m (t + ctx_stack_ptr)) (load 8 m (t + ctx_ss))
  else if decide (n ∈ spinning_vectors) then Spinning else Halted.


(** ** Two tasks on CPU 1 *)

#[local] Existing Instance qemu_hhdm.
#[local] Existing Instance demo_linker.
#[local] Existing Instance demo_task_linker.
#[local] Existing Instance TimerSpec.demo_platform.

Definition demo_sp : Z := 0xffff800000300000.
Definition demo_regs : regs := mk_regs (replicate 15 7) demo_sp 0.

(** The frame of an interrupt at 0x1000. *)
Definition put_frame (m : mem) : mem := store 8 (store 8 (store 8 m demo_sp 0x1000) (demo_sp + 8) 8) (demo_sp + 16) 0x202.

Lemma demo_tasks c u : u ∈ demo_queues c -> c = 1%nat /\ (u = task_a \/ u = task_b).
Proof. intros [[Hn|[-> ->]]%elem_enqueue|[-> ->]]%elem_enqueue; [by apply elem_of_nil in Hn|auto|auto]. Qed.

Lemma demo_nodes a :
  is_node demo_queues a -> a = node task_a \/ a = node task_b \/ exists c, (c < MAX_CORES)%nat /\ a = runqueue c.
Proof.
  intros (c & Hc & [->|(t & [_ [->| ->]]%demo_tasks & ->)]); [|by left|by right; left].
  right. right. by exists c.
Qed.

Lemma demo_apart : tasks_apart demo_queues.
Proof.
  split.
  - intros c e u v _ _ [_ Hu]%demo_tasks [_ Hv]%demo_tasks Hne. unfold task_a, task_b, sizeof_task in *.
    destruct Hu as [->| ->], Hv as [->| ->]; lia.
  - intros c u _ [_ Hu]%demo_tasks a Ha%demo_nodes. unfold node, runqueue, t_tasks_runnable, sizeof_task, task_a, task_b, MAX_CORES in *.
    cbn [percpu_cpu_runqueue demo_task_linker] in Ha.
    destruct Ha as [->|[->|(c' & Hc' & ->)]], Hu as [->| ->]; lia.
Qed.

Lemma demo_own : own_stack demo_queues demo_regs.
Proof.
  intros x [(c & u & _ & [_ Hu]%demo_tasks & Hx)|(a & Ha%demo_nodes & Hx)]; cbn [sp demo_regs];
    unfold in_range, node, runqueue, t_tasks_runnable, sizeof_task, task_a, task_b, demo_sp, MAX_CORES in *.
  - destruct Hu as [->| ->]; lia.
  - cbn [percpu_cpu_runqueue demo_task_linker] in Ha. destruct Ha as [->|[->|(c' & Hc' & ->)]]; lia.
Qed.

Lemma demo_frame m : agree (protected demo_queues) m (put_frame m).
Proof.
  assert (forall x, protected demo_queues x -> ~ in_range demo_sp 24 x) as Hx.
  { intros x Hp Hin. apply (demo_own x Hp). unfold in_range in *. cbn [sp demo_regs]. lia. }
  unfold put_frame. do 3 (etransitivity; [|apply agree_store; intros x Hp Hin; apply (Hx x Hp); unfold in_range in *; lia]).
  reflexivity.
Qed.

Lemma demo_arrives n t m :
  (n < 32)%nat \/ n = 64%nat -> isr_err n = false -> t = task_a \/ t = task_b ->
  arrives n demo_regs t (put_frame m) 0x1000 8 0x202.
Proof.
  intros Hn He Ht. split; cbn [gpr sp cr2 demo_regs]; rewrite ?He; unfold put_frame, demo_sp, task_a, task_b, sizeof_task in *.
  - reflexivity.
  - repeat constructor; lia.
  - lia.
  - lia.
  - lia.
  - rewrite Z.add_0_r. rewrite !load_store_ne by lia. by apply load8_store8.
  - rewrite load_store_ne by lia. by apply load8_store8.
  - by apply load8_store8.
  - reflexivity.
  - destruct Ht as [->| ->]; lia.
Qed.

Lemma demo_runs : runs 1 demo_queues 0 demo_running.
Proof. split; [reflexivity|exact demo_running_ok|reflexivity]. Qed.

Lemma demo_slice i (k : kernel (P := Buddy.buddy_state)) :
  runs 1 demo_queues i k -> exists k' s, slice 1 demo_queues k demo_regs (0x1000, 8, 0x202) k' s.
Proof.
  intros Hr. pose proof Hr as [Hl Hs Hi].
  assert (arrives 64 demo_regs (get_current_task 1 k) (put_frame (k_mem k)) 0x1000 8 0x202) as Har.
  { apply demo_arrives; [by right|reflexivity|]. by apply (demo_tasks 1), list_elem_of_lookup_2 with i. }
  destruct (timer_step 1 demo_queues i (get_current_task 1 k) demo_regs (set_kmem k (put_frame (k_mem k))) (mk_dev [] 0 0 0)
    0x1000 8 0x202) as (k' & d' & t' & E & _); try done.
  - unfold MAX_CORES. lia.
  - eapply protected_sched; [apply demo_frame|exact Hs].
  - exact demo_apart.
  - exact demo_own.
  - exists k', (load_next_task (k_mem k') t'). eapply slice_intro; [apply demo_frame|exact demo_own|exact Har|exact E].
Qed.


Lemma preemption_witness :
  exists k1 kn s, slice 1 demo_queues demo_running demo_regs (0x1000, 8, 0x202) k1 s /\
    slices 1 demo_queues 1 k1 kn /\ gpr demo_regs = general (load_next_task (k_mem kn) task_a).
Proof.
  destruct (demo_slice 0 demo_running demo_runs) as (k1 & s & Hs).
  assert ((1 < MAX_CORES)%nat) as Hc by (unfold MAX_CORES; lia).
  destruct (slice_spec 1 demo_queues Hc demo_apart 0 demo_running demo_regs 0x1000 8 0x202 k1 s demo_runs Hs) as (Hr1 & _).
  destruct (demo_slice _ k1 Hr1) as (k2 & s2 & Hs2).
  assert (slices 1 demo_queues 1 k1 k2) as Hsl by (eapply slices_S; [exact Hs2|apply slices_O]).
  destruct (preemption_round_trip 1 demo_queues 0 demo_regs 0x1000 8 0x202 demo_running k1 k2 s Hc demo_apart demo_runs Hs Hsl)
    as [_ E].
  exists k1, k2, s. split; [exact Hs|]. split; [exact Hsl|].
  change (get_current_task 1 demo_running) with task_a in E. rewrite E. reflexivity.
Defined.

