(* ===== verification/HeapFrame.v ===== *)
(** * The heap as its clients see it

    [heap_at n h B]: the heap is in order, the bytes [B] belong to it, and it
    has room for [n] requests of up to a block of [room_order].  A client may
    write every other byte; [kmalloc] and [pmm_alloc_page] hand over a range of
    [B] without touching any byte outside it, and succeed while there is room.
    Clients that keep objects of their own are proved against these rules,
    whatever path [kmalloc] took. *)
From S2P Require Import Prelude Memory PageAlloc Chain Slab SlabProofs SlabHeap SlabSpec.
From S2P Require Import Pmm KmallocSpec.
Import Slab Pmm.

(** Ranges without a common byte. *)
Lemma ranges_apart a n b k :
  0 < n -> 0 < k -> (forall x, in_range a n x -> ~ in_range b k x) -> a + n <= b \/ b + k <= a.
Proof.
  intros Hn Hk Hd. destruct (Z.le_gt_cases a b).
  - destruct (Z.le_gt_cases (a + n) b); [by left|]. destruct (Hd b); unfold in_range; lia.
  - destruct (Z.le_gt_cases (b + k) a); [by right|]. destruct (Hd a); unfold in_range; lia.
Qed.

Section HeapFrame.
Context `{Hhdm} `{Linker} {P : Type} `{!PageAllocator P}.

Implicit Types h : heap P.

(** The bytes of the objects in use. *)
Definition in_object Ls fl (v : Z) : Prop :=
  exists i x, (i < NUM_SLAB_SIZES)%nat /\ live Ls fl i x /\ in_range x (nth i slab_sizes 0) v.

(** The free pages, and the slab pages but for the objects in use. *)
Definition zone (F : Z -> Prop) Ls fl (v : Z) : Prop :=
  image F v \/ (slab_pages Ls v /\ ~ in_object Ls fl v).

(** A request of up to a block of this order uses up one unit of room. *)
Definition room_order : nat := 3.

Definition heap_at (n : nat) h (B : Z -> Prop) : Prop :=
  exists F Ls fl, heap_ok h F Ls fl /\ pa_room (h_pages h) F room_order n /\ B ≡ zone F Ls fl.

#[export] Instance heap_at_proper n h : Proper ((≡) ==> iff) (heap_at n h).
Proof.
  intros B B' E. unfold heap_at. split; intros (F & Ls & fl & Hh & Hr & EB); exists F, Ls, fl; (split_and!; [done..|]).
  - by rewrite <- E.
  - by rewrite E.
Qed.

Lemma heap_at_weaken n k h B : (n <= k)%nat -> heap_at k h B -> heap_at n h B.
Proof.
  intros Hle (F & Ls & fl & Hh & Hr & EB). exists F, Ls, fl. split_and!; [done| |done].
  induction Hle as [|k Hle IH]; [done|]. by apply IH, pa_room_weaken.
Qed.
Lemma meta_zone h F Ls fl v : heap_ok h F Ls fl -> heap_meta Ls fl v -> zone F Ls fl v.
Proof.
  intros Hh Hm. right. split.
  - by eapply meta_slab_page.
  - intros (i & x & Hi & Hl & Hv). by apply (live_private h F Ls fl i x v Hh Hi Hl Hv).
Qed.

(** The frame rule: writes outside the heap's bytes. *)
Lemma heap_at_write n h B m' : heap_at n h B -> agree B (h_mem h) m' -> heap_at n (set_mem h m') B.
Proof.
  intros (F & Ls & fl & Hh & Hr & EB) Ha. exists F, Ls, fl. split; [|done]. apply heap_ok_agree; [|done].
  eapply agree_sub; [exact Ha|]. intros x Hx. apply EB. destruct Hx as [Hx|Hx]; [by left|].
  by eapply meta_zone.
Qed.

Lemma slab_pages_image h F Ls fl v : heap_ok h F Ls fl -> slab_pages Ls v -> ~ image F v.
Proof. apply slab_pages_not_free. Qed.

(** ** Allocation *)

(** What a client gets from [kmalloc]. *)
Record handed_over (B : Z -> Prop) (m : mem) (p size : Z) (B' : Z -> Prop) (m' : mem) : Prop := {
  ho_pos : 0 < p /\ p + size <= 2 ^ 64;
  ho_from x : in_range p size x -> B x;
  ho_left x : B' x -> B x;
  ho_apart x : B' x -> ~ in_range p size x;
  ho_rest : agree (fun x => ~ B x) m m';
}.

Lemma live_pages Ls fl i x v :
  (i < NUM_SLAB_SIZES)%nat -> live Ls fl i x -> in_range x (nth i slab_sizes 0) v -> slab_pages Ls v.
Proof.
  intros Hi (s & Hs & Hx & _) Hv. exists i, s. split_and!; try done.
  pose proof (is_obj_range _ s x (slab_sizes_ok i Hi) Hx). cbn [object_size slab_cache_init] in *.
  unfold in_range in *. lia.
Qed.

(** A byte of a new object was in no object before. *)
Lemma fresh_object i h F Ls fl h' p F' Ls' fl' v :
  (i < NUM_SLAB_SIZES)%nat -> alloc_post i h F Ls fl h' p F' Ls' fl' ->
  in_range p (nth i slab_sizes 0) v -> ~ in_object Ls fl v.
Proof.
  intros Hi Hp Hv (j & x & Hj & Hl & Hx).
  assert (live Ls' fl' j x) as Hx' by (apply (ap_live _ _ _ _ _ _ _ _ _ _ Hp); auto).
  assert (live Ls' fl' i p) as Hp' by (apply (ap_live _ _ _ _ _ _ _ _ _ _ Hp); auto).
  destruct (decide (x = p)) as [->|Hne].
  - assert (i = j) as -> by (eapply (live_cache h' F' Ls' fl'); eauto; apply Hp).
    by apply (ap_fresh _ _ _ _ _ _ _ _ _ _ Hp).
  - destruct (live_disjoint h' F' Ls' fl' j i x p) as [?|?]; try done; [apply Hp|..]; unfold in_range in *; lia.
Qed.

Lemma slab_hands_over i h F Ls fl h' p F' Ls' fl' size :
  heap_ok h F Ls fl -> (i < NUM_SLAB_SIZES)%nat -> size <= nth i slab_sizes 0 ->
  alloc_post i h F Ls fl h' p F' Ls' fl' ->
  handed_over (zone F Ls fl) (h_mem h) p size (fun x => zone F' Ls' fl' x) (h_mem h').
Proof.
  intros Hh Hi Hs Hp.
  assert (live Ls' fl' i p) as Hp' by (apply (ap_live _ _ _ _ _ _ _ _ _ _ Hp); auto).
  assert (forall x, in_range p size x -> in_range p (nth i slab_sizes 0) x) as Hsz by (unfold in_range; lia).
  assert (forall x, slab_pages Ls' x -> slab_pages Ls x \/ image F x) as Hpages.
  { intros x (j & s & Hj & Hin & Hx). destruct (ap_pages _ _ _ _ _ _ _ _ _ _ Hp j s Hj Hin) as [?|Hi'].
    - left. by exists j, s.
    - right. by apply Hi'. }
  split.
  - pose proof Hp' as (s & Hin & Hx & _). pose proof (is_obj_range _ s p (slab_sizes_ok i Hi) Hx) as Hr.
    destruct (heap_addr h' F' Ls' fl' i s (ap_ok _ _ _ _ _ _ _ _ _ _ Hp) Hi Hin) as (? & ?).
    cbn [object_size slab_cache_init] in Hr. lia.
  - intros x Hx%Hsz. destruct (Hpages x) as [Hold|HF]; [by eapply live_pages| |by left].
    right. split; [done|]. by eapply fresh_object.
  - intros x [HF|[Hpg Hno]].
    + left. by apply (ap_free _ _ _ _ _ _ _ _ _ _ Hp).
    + destruct (Hpages x Hpg) as [Hold|HF]; [|by left]. right. split; [done|].
      intros (j & y & Hj & Hl & Hy). apply Hno. exists j, y. split_and!; try done.
      apply (ap_live _ _ _ _ _ _ _ _ _ _ Hp); auto.
  - intros x Hz Hx%Hsz. destruct Hz as [HF|[_ Hno]].
    + destruct (live_private h' F' Ls' fl' i p x (ap_ok _ _ _ _ _ _ _ _ _ _ Hp) Hi Hp' Hx). done.
    + apply Hno. by exists i, p.
  - eapply agree_sub; [apply (ap_frame _ _ _ _ _ _ _ _ _ _ Hp)|]. intros x Hx. split.
    + intros HF. apply Hx. by left.
    + intros Hm. apply Hx. by eapply meta_zone.
Qed.

Lemma pages_hand_over h F Ls fl h' p o F' size :
  heap_ok h F Ls fl -> 0 < size -> size + 24 <= block_bytes o ->
  pa_block (h_pages h') p o -> (forall x, in_range p (block_bytes o) x -> F x) ->
  F' ≡ fminus F (in_range p (block_bytes o)) -> heap_ok h' F' Ls fl ->
  agree (fun x => ~ image F x) (h_mem h) (h_mem h') ->
  handed_over (zone F Ls fl) (h_mem h) (p + hhdm_offset + 16) size (zone F' Ls fl) (h_mem h').
Proof.
  intros Hh Hs Hsz Hb HF EF Hh' Ha. destruct (pa_block_bounds _ _ _ Hb) as (_ & Hp & _ & Hl).
  pose proof hhdm_positive. pose proof hhdm_no_wrap.
  assert (forall x, in_range (p + hhdm_offset + 16) size x -> in_range p (block_bytes o) (x - hhdm_offset)) as Hin
    by (unfold in_range; lia).
  split.
  - lia.
  - intros x Hx. left. by apply HF, Hin.
  - intros x [Hx|Hx]; [left; by apply (EF _) in Hx as [? _]|by right].
  - intros x [Hx|[Hx _]] Hr.
    + apply (EF _) in Hx as [_ Hn]. by apply Hn, Hin.
    + apply (slab_pages_not_free h F Ls fl x Hh Hx). by apply HF, Hin.
  - eapply agree_sub; [exact Ha|]. intros x Hx HFx. apply Hx. by left.
Qed.

(** The order [kmalloc] takes for a request that fits [room_order]. *)
Lemma order_in_room o size :
  (o = 0%nat \/ block_bytes o < 2 * (size + 20)) -> size + 20 <= block_bytes room_order -> (o <= room_order)%nat.
Proof.
  intros Hmin Hsz. destruct (decide (o <= room_order)%nat) as [|Hgt]; [done|]. destruct Hmin as [->|Hmin]; [lia|].
  assert (2 * block_bytes room_order <= block_bytes o); [|lia].
  unfold block_bytes, room_order in *. change (2 * 2 ^ (12 + Z.of_nat 3)) with (2 ^ 16). apply Z.pow_le_mono_r; lia.
Qed.

(** The room a request leaves. *)
Definition room_left (n : nat) (size : Z) : nat := if decide (size + 20 <= block_bytes room_order) then pred n else 0.

Lemma room_left_pages n size o s F s' F' :
  (o = 0%nat \/ block_bytes o < 2 * (size + 20)) ->
  (forall k n, (o <= k)%nat -> pa_room s F k (S n) -> pa_room s' F' k n) ->
  pa_room s F room_order n -> pa_room s' F' room_order (room_left n size).
Proof.
  intros Hmin Hroom Hr. unfold room_left. case_decide as Hsz; [|apply pa_room_zero]. destruct n as [|n]; [apply pa_room_zero|].
  apply Hroom; [by eapply order_in_room|done].
Qed.

Lemma kmalloc_pages_client n size h F Ls fl :
  heap_ok h F Ls fl -> pa_room (h_pages h) F room_order n ->
  0 < size -> size + 20 <= 2 ^ 31 -> 1 <= (size + 20) mod 4096 <= 4092 ->
  exists h' p, kmalloc_pages 64 size h = Some (h', p) /\
    ((p = 0 /\ h' = h /\ (n = 0%nat \/ block_bytes room_order < size + 20)) \/
     exists F', heap_ok h' F' Ls fl /\ pa_room (h_pages h') F' room_order (room_left n size) /\
       handed_over (zone F Ls fl) (h_mem h) p size (zone F' Ls fl) (h_mem h')).
Proof.
  intros Hh Hr Hs Hb Hm. destruct (kmalloc_pages_spec size h F Ls fl Hh Hs Hb) as (o & _ & _ & Hfit & Hmin & Hspec).
  assert (size + 24 <= block_bytes o) as Hsz.
  { assert (block_bytes o mod 4096 = 0) as Hal.
    { unfold block_bytes. rewrite Z.pow_add_r by lia. change 4096 with (2 ^ 12). rewrite Z.mul_comm. apply Z.mod_mul. lia. }
    pose proof (Z.div_mod (size + 20) 4096 ltac:(lia)). pose proof (Z.div_mod (block_bytes o) 4096 ltac:(lia)). nia. }
  destruct (Hspec Hsz) as (h' & v & E & [(-> & -> & Hn)|(p & F' & -> & Hbl & HF & EF & Hh' & _ & _ & Hroom & Ha)]).
  - exists h, 0. split; [done|left]. split_and!; [done..|]. destruct n as [|n]; [by left|right].
    destruct (Z.lt_ge_cases (block_bytes room_order) (size + 20)) as [|Hle]; [done|exfalso].
    refine (Hn room_order n _ Hr). split; [by eapply order_in_room|unfold room_order; lia].
  - exists h', (p + hhdm_offset + 16). split; [done|right]. exists F'. split_and!; [done|by eapply room_left_pages|].
    by apply (pages_hand_over h F Ls fl h' p o F' size).
Qed.

(** A request that cannot run over its block: [kmalloc] returns, and either
    finds no memory and changes nothing or hands over a range of the heap. *)
Lemma heap_at_kmalloc n size h B :
  heap_at n h B -> 0 < size -> size + 20 <= 2 ^ 31 -> 1 <= (size + 20) mod 4096 <= 4092 ->
  exists h' p, kmalloc 64 size h = Some (h', p) /\
    ((p = 0 /\ h' = h /\ (n = 0%nat \/ block_bytes room_order < size + 20)) \/
     exists B', heap_at (room_left n size) h' B' /\ handed_over B (h_mem h) p size B' (h_mem h')).
Proof.
  intros (F & Ls & fl & Hh & Hr & EB) Hs Hb Hm.
  assert (forall p m' B', handed_over (zone F Ls fl) (h_mem h) p size B' m' -> handed_over B (h_mem h) p size B' m') as Hov.
  { intros p m' B' Ho. split; try apply Ho.
    - intros x Hx. apply EB. by apply (ho_from _ _ _ _ _ _ Ho).
    - intros x Hx. apply EB. by apply (ho_left _ _ _ _ _ _ Ho).
    - eapply agree_sub; [apply (ho_rest _ _ _ _ _ _ Ho)|]. intros x Hx Hz. by apply Hx, EB. }
  assert (exists h' p, kmalloc_pages 64 size h = Some (h', p) /\
    ((p = 0 /\ h' = h /\ (n = 0%nat \/ block_bytes room_order < size + 20)) \/
     exists B', heap_at (room_left n size) h' B' /\ handed_over B (h_mem h) p size B' (h_mem h'))) as Hpages.
  { destruct (kmalloc_pages_client n size h F Ls fl Hh Hr Hs Hb Hm) as (h' & p & E & [?|(F' & Hh' & Hr' & Ho)]); [eauto|].
    exists h', p. split; [done|right]. eexists. split; [by exists F', Ls, fl|by apply Hov]. }
  destruct (Z.le_gt_cases size 2048) as [Hle|Hgt].
  - destruct (kmalloc_slab_spec 64 size h F Ls fl Hh ltac:(lia)) as (i & Hi & Hsz & _ & [(_ & _ & _ & ->)|Hslab]); [done|].
    destruct Hslab as (h' & p & F' & Ls' & fl' & E & Hp). exists h', p. split; [done|right].
    exists (zone F' Ls' fl'). split.
    + exists F', Ls', fl'. split_and!; [apply Hp| |done].
      unfold room_left. case_decide; [|apply pa_room_zero]. destruct n as [|n]; [apply pa_room_zero|].
      apply (ap_room _ _ _ _ _ _ _ _ _ _ Hp); [unfold room_order; lia|done].
    + apply Hov. by apply (slab_hands_over i h F Ls fl h' p F' Ls' fl' size).
  - unfold kmalloc, SLAB_THRESHOLD. rewrite (proj2 (Z.eqb_neq size 0)), (proj2 (Z.leb_gt size 2048)) by lia. done.
Qed.

(** While there is room [kmalloc] does not fail. *)
Lemma heap_at_room n size h B :
  heap_at (S n) h B -> 0 < size -> size + 20 <= block_bytes room_order -> 1 <= (size + 20) mod 4096 <= 4092 ->
  exists h' p B', kmalloc 64 size h = Some (h', p) /\ p <> 0 /\ heap_at n h' B' /\
    handed_over B (h_mem h) p size B' (h_mem h').
Proof.
  intros HB Hs Hsz Hm. assert (block_bytes room_order <= 2 ^ 31) by (vm_compute; discriminate).
  destruct (heap_at_kmalloc (S n) size h B HB Hs ltac:(lia) Hm) as (h' & p & E & [(_ & _ & [?|?])|(B' & HB' & Ho)]); [done|lia|].
  exists h', p, B'. split_and!; [done| | |done].
  - pose proof (ho_pos _ _ _ _ _ _ Ho). lia.
  - unfold room_left in HB'. by rewrite decide_True in HB'.
Qed.

(** The same for a page of physical memory, seen through the direct map. *)
Lemma heap_at_page n h B :
  heap_at (S n) h B ->
  exists h' p B', pmm_alloc_page h = (h', p) /\ 0 < p /\ p mod 4096 = 0 /\ p + 4096 <= hhdm_phys_limit /\
    heap_at n h' B' /\ handed_over B (h_mem h) (p + hhdm_offset) 4096 B' (h_mem h').
Proof.
  intros (F & Ls & fl & Hh & Hr & EB). unfold pmm_alloc_page.
  destruct (alloc_pages 0 (h_mem h) (h_pages h)) as [[m pg] p] eqn:Ea.
  destruct (pa_room_alloc 0 room_order n _ _ F _ _ _ ltac:(unfold room_order; lia) (ho_pages _ _ _ _ Hh) Ea Hr) as [Hp Hr'].
  destruct (pa_alloc 0 _ _ F _ _ _ ltac:(lia) (ho_pages _ _ _ _ Hh) Ea) as [(? & _)|(Hbl & HF & Hinv & Hag & Hpb)]; [done|].
  change (block_bytes 0) with 4096 in *.
  destruct (pa_block_bounds _ _ _ Hbl) as (_ & Hpos & Hal & Hlim). change (block_bytes 0) with 4096 in *.
  set (F' := fminus F (in_range p 4096)) in *.
  assert (agree (fun x => ~ image F x) (h_mem h) m) as Ha.
  { eapply agree_sub; [exact Hag|]. intros x Hx [HF' _]. by apply Hx. }
  pose proof hhdm_positive. pose proof hhdm_no_wrap.
  assert (forall x, in_range (p + hhdm_offset) 4096 x -> image F x) as Hin by (intros x Hx; apply HF; unfold in_range in *; lia).
  exists (mk_heap m pg (h_caches h)), p, (zone F' Ls fl). split_and!; try done.
  - exists F', Ls, fl. split_and!; [|done|done]. apply (heap_repage h F); try done.
    + intros v Hv [HF' _]. by apply (slab_pages_not_free h F Ls fl v Hh Hv).
    + eapply agree_sub; [exact Ha|]. intros v Hv. by apply (slab_pages_not_free h F Ls fl v Hh Hv).
  - split.
    + lia.
    + intros x Hx. apply EB. left. auto.
    + intros x Hx. apply EB. destruct Hx as [[Hx _]|Hx]; [by left|by right].
    + intros x [[_ Hx]|[Hx _]] Hr''; [apply Hx; unfold in_range in *; lia|].
      by apply (slab_pages_not_free h F Ls fl x Hh Hx), Hin.
    + eapply agree_sub; [exact Ha|]. intros x Hx HF'. apply Hx, EB. by left.
Qed.

End HeapFrame.
