(* ===== verification/VmmRoute.v ===== *)
(** * The virtual memory manager: one path

    [route m indices table]: the entries a walk reads from [table] on, until one is
    absent.  The walk to one page needs nothing of the tables beside its route,
    so this holds for the page tables of the boot loader too, which map most
    memory with pages of other sizes.  With room in the heap the walk makes the
    tables that are missing, and mapping a page succeeds. *)
From S2P Require Import Prelude Memory PageAlloc Slab Pmm KmallocSpec HeapFrame.
From S2P Require Import Klib KlibSpec Vmm VmmProofs VmmRange.
Import Slab Pmm Klib Vmm.

(** The entry of index [i] in the table at [table], and on from there. *)
Fixpoint route `{Hhdm} (m : mem) (indices : list Z) (table : Z) : list Z :=
  match indices with
  | [] => []
  | i :: rest =>
    let e := entry_addr table i in
    e :: if present (load 8 m e) then route m rest (phys_to_virt (PTE_ADDR (load 8 m e))) else []
  end.

(** The entry at which a route ends. *)
Definition route_end (l : list Z) : Z := List.last l 0.

(** The bytes of the entries. *)
Definition entry_byte (l : list Z) (x : Z) : Prop := exists e, e ∈ l /\ in_range e 8 x.

(** The entries of a route are memory of the kernel, apart from each other and
    from the bytes [B]. *)
Record route_clear (B : Z -> Prop) (l : list Z) : Prop := {
  rc_range e : e ∈ l -> 0 < e /\ e + 8 <= 2 ^ 64;
  rc_foreign x : entry_byte l x -> ~ B x;
  rc_apart e f : e ∈ l -> f ∈ l -> e = f \/ e + 8 <= f \/ f + 8 <= e;
}.

Lemma route_end_cons e l : l <> [] -> route_end (e :: l) = route_end l.
Proof. by destruct l. Qed.

Lemma route_end_in l : l <> [] -> route_end l ∈ l.
Proof.
  intros Hl. destruct (exists_last Hl) as (l' & a & ->). unfold route_end. rewrite last_last. set_solver.
Qed.

Lemma entry_byte_in e l x : e ∈ l -> in_range e 8 x -> entry_byte l x.
Proof. intros. by exists e. Qed.

Lemma clear_weaken (B B' : Z -> Prop) l : (forall x, B' x -> B x) -> route_clear B l -> route_clear B' l.
Proof. intros HB Hc. split; [apply Hc| |apply Hc]. intros x Hx Hb. by apply (rc_foreign _ _ Hc x Hx), HB. Qed.

Lemma clear_tail B e l : route_clear B (e :: l) -> route_clear B l.
Proof.
  intros Hc. split.
  - intros f Hf. apply Hc. by right.
  - intros x (f & Hf & Hx). apply Hc. exists f. split; [by right|done].
  - intros f g Hf Hg. apply Hc; by right.
Qed.

Lemma clear_one (B : Z -> Prop) e : 0 < e /\ e + 8 <= 2 ^ 64 -> (forall x, in_range e 8 x -> ~ B x) -> route_clear B [e].
Proof.
  intros He HB. split.
  - by intros f ->%list_elem_of_singleton.
  - intros x (f & ->%list_elem_of_singleton & Hx). auto.
  - intros f g ->%list_elem_of_singleton ->%list_elem_of_singleton. by left.
Qed.

(** An entry outside [B] before others that were there or come from [B]. *)
Lemma clear_cons (B B' : Z -> Prop) e l l0 :
  route_clear B (e :: l0) -> route_clear B' l -> (forall x, B' x -> B x) ->
  (forall f, f ∈ l -> f ∈ l0 \/ forall x, in_range f 8 x -> B x) -> route_clear B' (e :: l).
Proof.
  intros Hc Hl HB Hf.
  assert (forall f, f ∈ l -> e = f \/ e + 8 <= f \/ f + 8 <= e) as Hef.
  { intros f [Hin|Hin]%Hf; [apply Hc; [by left|by right]|]. right. apply ranges_apart; [lia|lia|].
    intros x Hx Hxf. apply (rc_foreign _ _ Hc x); [exists e; split; [by left|done]|auto]. }
  split.
  - intros f [->|Hin]%elem_of_cons; [apply Hc; by left|by apply Hl].
  - intros x (f & [->|Hin]%elem_of_cons & Hx).
    + intros Hb%HB. apply (rc_foreign _ _ Hc x); [exists e; split; [by left|done]|done].
    + apply Hl. by exists f.
  - intros f g [->|Hin]%elem_of_cons [->|Hin']%elem_of_cons; [by left|by apply Hef| |by apply Hl].
    destruct (Hef f Hin) as [->|[?|?]]; auto.
Qed.

Section Route.
Context `{Hhdm} `{Linker} {P : Type} `{!PageAllocator P}.

Implicit Types v : vmm P.

Lemma route_agree m m' ids table :
  agree (entry_byte (route m ids table)) m m' -> route m' ids table = route m ids table.
Proof.
  revert table. induction ids as [|i ids IH]; intros table Ha; [done|]. cbn [route] in *.
  set (e := entry_addr table i) in *.
  assert (load 8 m' e = load 8 m e) as ->.
  { symmetry. apply load_agree. eapply agree_sub; [exact Ha|]. intros x Hx. exists e. split; [by left|done]. }
  f_equal. destruct (present (load 8 m e)); [|done]. apply IH. eapply agree_sub; [exact Ha|].
  intros x (f & Hf & Hx). exists f. split; [by right|done].
Qed.

Lemma walk_next i j ids table create v :
  walk (i :: j :: ids) table create v =
  if present (load 8 (v_mem v) (entry_addr table i))
  then walk (j :: ids) (phys_to_virt (PTE_ADDR (load 8 (v_mem v) (entry_addr table i)))) create v
  else if negb create then (v, 0) else
    let '(v, new_pt) := vmm_alloc_page_table v in
    if new_pt =? 0 then (v, 0) else
    let pte := Z.lor (Z.lor (Z.lor (virt_to_phys new_pt) PTE_PRESENT) PTE_WRITABLE) PTE_USER in
    let v := set_vmem v (store 8 (v_mem v) (entry_addr table i) pte) in
    walk (j :: ids) (phys_to_virt (PTE_ADDR (load 8 (v_mem v) (entry_addr table i)))) create v.
Proof. done. Qed.

Lemma route_cons m i ids table :
  route m (i :: ids) table = entry_addr table i ::
    if present (load 8 m (entry_addr table i))
    then route m ids (phys_to_virt (PTE_ADDR (load 8 m (entry_addr table i)))) else [].
Proof. done. Qed.

(** Without creating tables the walk goes to the end of a full route. *)
Lemma walk_route ids table create v :
  ids <> [] -> length (route (v_mem v) ids table) = length ids ->
  walk ids table create v = (v, route_end (route (v_mem v) ids table)).
Proof.
  revert table. induction ids as [|i ids IH]; intros table Hne Hlen; [done|]. destruct ids as [|j ids].
  { cbn [walk route]. by destruct (present _). }
  rewrite walk_next. rewrite route_cons in Hlen |- *.
  destruct (present _); [|done]. apply Nat.succ_inj in Hlen. rewrite IH by done.
  by rewrite route_end_cons by (rewrite route_cons; done).
Qed.

(** What a walk that may create tables leads to. *)
Record walk_made (n : nat) v (B : Z -> Prop) (ids : list Z) (table : Z) h' (B' : Z -> Prop) : Prop := {
  wm_heap : heap_at n h' B';
  wm_less x : B' x -> B x;
  wm_full : length (route (h_mem h') ids table) = length ids;
  wm_clear : route_clear B' (route (h_mem h') ids table);
  wm_new f : f ∈ route (h_mem h') ids table -> f ∈ route (v_mem v) ids table \/ forall x, in_range f 8 x -> B x;
  wm_absent : present (load 8 (h_mem h') (route_end (route (h_mem h') ids table))) = false;
  wm_frame : agree (fun x => ~ B x /\ ~ in_range (route_end (route (v_mem v) ids table)) 8 x) (v_mem v) (h_mem h');
}.

(** A new table, with all entries zero. *)
Lemma page_table_room n v B :
  heap_at (S n) (v_heap v) B ->
  exists h B' p, vmm_alloc_page_table v = (set_heap v h, p + hhdm_offset) /\ 0 < p /\ p mod 4096 = 0 /\
    p + 4096 <= hhdm_phys_limit /\ heap_at n h B' /\ handed_over B (v_mem v) (p + hhdm_offset) 4096 B' (h_mem h) /\
    forall i, 0 <= i < 512 -> load 8 (h_mem h) (entry_addr (p + hhdm_offset) i) = 0.
Proof.
  intros HB. destruct (heap_at_page n (v_heap v) B HB) as (h & p & B' & E & Hp & Hal & Hlim & HB' & Ho).
  pose proof hhdm_positive. set (hz := memset (h_mem h) (p + hhdm_offset) 0 PAGE_SIZE).
  assert (agree (fun x => ~ in_range (p + hhdm_offset) 4096 x) (h_mem h) hz) as Hz by (by apply memset_outside).
  exists (set_mem h hz), B', p. unfold vmm_alloc_page_table. rewrite E. rewrite (proj2 (Z.eqb_neq p 0)) by lia.
  rewrite phys_to_virt_in by lia. split_and!; try done.
  - apply heap_at_write; [done|]. eapply agree_sub; [exact Hz|]. intros x Hx. by apply (ho_apart _ _ _ _ _ _ Ho).
  - split; try apply Ho. transitivity (h_mem h); [apply Ho|]. eapply agree_sub; [exact Hz|].
    intros x Hx Hr. by apply Hx, (ho_from _ _ _ _ _ _ Ho).
  - intros i Hi. apply memset0_load; unfold entry_addr, PAGE_SIZE; lia.
Qed.

(** A new table, linked at the entry [e]. *)
Lemma new_table n v B e :
  heap_at (S n) (v_heap v) B -> 0 < e /\ e + 8 <= 2 ^ 64 -> (forall x, in_range e 8 x -> ~ B x) ->
  exists h B' p, vmm_alloc_page_table v = (set_heap v h, p + hhdm_offset) /\ 0 < p /\ p + 4096 <= hhdm_phys_limit /\
    let pte := Z.lor (Z.lor (Z.lor p PTE_PRESENT) PTE_WRITABLE) PTE_USER in
    let m := store 8 (h_mem h) e pte in
    heap_at n (set_mem h m) B' /\ (forall x, B' x -> B x) /\ load 8 m e = pte /\ present pte = true /\ PTE_ADDR pte = p /\
    (forall i, 0 <= i < 512 -> load 8 m (entry_addr (p + hhdm_offset) i) = 0 /\
       forall x, in_range (entry_addr (p + hhdm_offset) i) 8 x -> B x /\ ~ B' x) /\
    agree (fun x => ~ B x /\ ~ in_range e 8 x) (v_mem v) m.
Proof.
  intros HB He HeB. destruct (page_table_room n v B HB) as (h & B' & p & E & Hp & Hal & Hlim & HB' & Ho & Hz).
  pose proof hhdm_phys_bits. destruct (table_pte_addr p ltac:(lia) Hal) as (Eaddr & Epres & Erange).
  exists h, B', p. split; [exact E|]. split; [done|]. split; [done|]. cbv zeta.
  set (pte := Z.lor _ _) in *. set (m := store 8 (h_mem h) e pte).
  assert (agree (fun x => ~ in_range e 8 x) (h_mem h) m) as Hst by (by apply agree_store).
  split_and!; try done.
  - apply heap_at_write; [done|]. eapply agree_sub; [exact Hst|].
    intros x Hx Hxe. by apply (HeB x Hxe), (ho_left _ _ _ _ _ _ Ho).
  - apply Ho.
  - by apply load8_store8.
  - intros i Hi. assert (forall x, in_range (entry_addr (p + hhdm_offset) i) 8 x -> in_range (p + hhdm_offset) 4096 x) as Hin
      by (unfold entry_addr, in_range; lia). split.
    + rewrite <- (Hz i Hi). symmetry. apply load_agree. eapply agree_sub; [exact Hst|].
      intros x Hx%Hin Hxe. by apply (HeB x Hxe), (ho_from _ _ _ _ _ _ Ho).
    + intros x Hx%Hin. split; [by apply (ho_from _ _ _ _ _ _ Ho)|]. intros Hb. by apply (ho_apart _ _ _ _ _ _ Ho x Hb).
  - transitivity (h_mem h); [eapply agree_sub; [apply (ho_rest _ _ _ _ _ _ Ho)|by intros x []]|].
    eapply agree_sub; [exact Hst|by intros x []].
Qed.

Lemma route_first m i ids table : entry_addr table i ∈ route m (i :: ids) table.
Proof. rewrite route_cons. by left. Qed.

(** The walk past an entry that is there. *)
Lemma made_past n v B i j ids table h' B' :
  let e := entry_addr table i in
  let next := phys_to_virt (PTE_ADDR (load 8 (v_mem v) e)) in
  present (load 8 (v_mem v) e) = true -> route_clear B (route (v_mem v) (i :: j :: ids) table) ->
  present (load 8 (v_mem v) (route_end (route (v_mem v) (j :: ids) next))) = false ->
  walk_made n v B (j :: ids) next h' B' ->
  walk_made n v B (i :: j :: ids) table h' B' /\
  route_end (route (h_mem h') (i :: j :: ids) table) = route_end (route (h_mem h') (j :: ids) next).
Proof.
  intros e next Hp Hc Habs Hm. rewrite (route_cons (v_mem v)) in Hc. fold e in Hc. rewrite Hp in Hc. fold next in Hc.
  assert (forall m, route m (j :: ids) next <> []) as Hne by (intros m; by rewrite route_cons).
  assert (load 8 (h_mem h') e = load 8 (v_mem v) e) as El.
  { symmetry. apply load_agree. eapply agree_sub; [apply (wm_frame _ _ _ _ _ _ _ Hm)|]. intros x Hx. split.
    - apply Hc. exists e. split; [by left|done].
    - destruct (rc_apart _ _ Hc e (route_end (route (v_mem v) (j :: ids) next))) as [E|Hap]; [by left|right; by apply route_end_in| |].
      + rewrite <- E, Hp in Habs. done.
      + unfold in_range in *. lia. }
  assert (route (h_mem h') (i :: j :: ids) table = e :: route (h_mem h') (j :: ids) next) as Er.
  { rewrite route_cons. fold e. by rewrite El, Hp. }
  split; [|by rewrite Er, route_end_cons]. split.
  - apply Hm.
  - apply Hm.
  - rewrite Er. cbn [length]. f_equal. apply Hm.
  - rewrite Er. eapply clear_cons; [exact Hc|apply Hm|apply Hm|apply Hm].
  - rewrite Er, (route_cons (v_mem v)). fold e. rewrite Hp. fold next.
    intros f [->|Hf]%elem_of_cons; [left; by left|]. destruct (wm_new _ _ _ _ _ _ _ Hm f Hf); [left; by right|by right].
  - rewrite Er, route_end_cons by done. apply Hm.
  - rewrite (route_cons (v_mem v)). fold e. rewrite Hp. fold next. rewrite route_end_cons by done. apply Hm.
Qed.

(** The walk through a table it has just made. *)
Lemma made_new n v B v2 B1 i j ids table next h' B' :
  let e := entry_addr table i in let f := entry_addr next j in
  route_clear B [e] -> present (load 8 (v_mem v) e) = false -> (forall x, B1 x -> B x) ->
  present (load 8 (v_mem v2) e) = true -> phys_to_virt (PTE_ADDR (load 8 (v_mem v2) e)) = next ->
  (forall x, in_range f 8 x -> B x) -> present (load 8 (v_mem v2) f) = false ->
  agree (fun x => ~ B x /\ ~ in_range e 8 x) (v_mem v) (v_mem v2) ->
  walk_made n v2 B1 (j :: ids) next h' B' ->
  walk_made n v B (i :: j :: ids) table h' B' /\
  route_end (route (h_mem h') (i :: j :: ids) table) = route_end (route (h_mem h') (j :: ids) next).
Proof.
  intros e f Hc Habs HB1 Hp Hnext Hf Hf0 Ha Hm.
  assert (route (v_mem v) (i :: j :: ids) table = [e]) as Er0 by (rewrite route_cons; fold e; by rewrite Habs).
  assert (route (v_mem v2) (j :: ids) next = [f]) as Er2 by (rewrite route_cons; fold f; by rewrite Hf0).
  assert (forall m, route m (j :: ids) next <> []) as Hne by (intros m; by rewrite route_cons).
  assert (forall x, in_range e 8 x -> ~ B x) as HeB by (intros x Hx; apply Hc; exists e; split; [by left|done]).
  pose proof (wm_frame _ _ _ _ _ _ _ Hm) as Hfr. rewrite Er2 in Hfr. change (route_end [f]) with f in Hfr.
  assert (load 8 (h_mem h') e = load 8 (v_mem v2) e) as El.
  { symmetry. apply load_agree. eapply agree_sub; [exact Hfr|]. intros x Hx%HeB. split; auto. }
  assert (route (h_mem h') (i :: j :: ids) table = e :: route (h_mem h') (j :: ids) next) as Er.
  { rewrite route_cons. fold e. by rewrite El, Hp, Hnext. }
  assert (forall g, g ∈ route (h_mem h') (j :: ids) next -> forall x, in_range g 8 x -> B x) as Hnew.
  { intros g [Hg|Hg]%(wm_new _ _ _ _ _ _ _ Hm) x Hx; [|auto]. rewrite Er2 in Hg. apply list_elem_of_singleton in Hg as ->. auto. }
  split; [|by rewrite Er, route_end_cons]. split.
  - apply Hm.
  - intros x Hx. by apply HB1, (wm_less _ _ _ _ _ _ _ Hm).
  - rewrite Er. cbn [length]. f_equal. apply Hm.
  - rewrite Er. eapply clear_cons; [exact Hc|apply Hm| |].
    + intros x Hx. by apply HB1, (wm_less _ _ _ _ _ _ _ Hm).
    + intros g Hg. right. by apply Hnew.
  - rewrite Er, Er0. intros g [->|Hg]%elem_of_cons; [left; by left|right; by apply Hnew].
  - rewrite Er, route_end_cons by done. apply Hm.
  - rewrite Er0. change (route_end [e]) with e. transitivity (v_mem v2); [exact Ha|].
    eapply agree_sub; [exact Hfr|]. intros x [Hx _]. split; auto.
Qed.

(** With room for the tables that can be missing the walk gets to the entry. *)
Lemma walk_room ids : forall n table v B,
  ids <> [] -> Forall (fun i => 0 <= i < 512) ids ->
  heap_at (length ids - 1 + n) (v_heap v) B -> route_clear B (route (v_mem v) ids table) ->
  present (load 8 (v_mem v) (route_end (route (v_mem v) ids table))) = false ->
  exists h' B', walk ids table true v = (set_heap v h', route_end (route (h_mem h') ids table)) /\
    walk_made n v B ids table h' B'.
Proof.
  induction ids as [|i ids IH]; intros n table v B Hne Hi HB Hc Habs; [done|].
  apply Forall_cons in Hi as [Hi Hids]. destruct ids as [|j ids].
  { exists (v_heap v), B.
    assert (forall m, route m [i] table = [entry_addr table i]) as Er by (intros m; cbn [route]; destruct (present (load 8 m (entry_addr table i))); done).
    rewrite !Er in *. split; [by destruct v|]. split; rewrite ?Er; try done. auto. }
  set (e := entry_addr table i). rewrite walk_next. fold e. destruct (present (load 8 (v_mem v) e)) eqn:Hp.
  - set (next := phys_to_virt _).
    assert (route (v_mem v) (i :: j :: ids) table = e :: route (v_mem v) (j :: ids) next) as Er
      by (rewrite route_cons; fold e; by rewrite Hp).
    assert (route (v_mem v) (j :: ids) next <> []) as Hr by (by rewrite route_cons).
    rewrite Er, route_end_cons in Habs by done. pose proof Hc as Hc'. rewrite Er in Hc'.
    destruct (IH n next v B) as (h' & B' & E & Hm); [done|done| |by eapply clear_tail|done|].
    { eapply heap_at_weaken; [|exact HB]. simpl. lia. }
    destruct (made_past n v B i j ids table h' B' Hp Hc Habs Hm) as [Hm' Ee].
    exists h', B'. split; [|done]. by rewrite Ee.
  - assert (route (v_mem v) (i :: j :: ids) table = [e]) as Er by (rewrite route_cons; fold e; by rewrite Hp).
    rewrite Er in Hc. cbn [negb].
    destruct (new_table (length (j :: ids) - 1 + n) v B e) as (h & B1 & p & E & Hp0 & Hlim & HB1 & Hsub & El & Epres & Eaddr & Hz & Ha).
    { eapply heap_at_weaken; [|exact HB]. simpl. lia. }
    { apply Hc. by left. }
    { intros x Hx. apply Hc. exists e. split; [by left|done]. }
    pose proof hhdm_positive. pose proof hhdm_no_wrap. rewrite E, (proj2 (Z.eqb_neq _ _)) by lia. cbv zeta.
    replace (virt_to_phys (p + hhdm_offset)) with p
      by (rewrite <- phys_to_virt_in, virt_to_phys_to_virt by lia; done).
    change (v_mem (set_heap v h)) with (h_mem h). set (v2 := set_vmem _ _).
    change (store 8 (h_mem h) e _) with (v_mem v2) in HB1, El, Hz, Ha. rewrite El, Eaddr.
    rewrite phys_to_virt_in by lia. pose proof Hids as [Hj _]%Forall_cons.
    destruct (Hz j Hj) as [Hz0 HzB]. set (f := entry_addr (p + hhdm_offset) j) in *.
    assert (route (v_mem v2) (j :: ids) (p + hhdm_offset) = [f]) as Er2 by (rewrite route_cons; fold f; by rewrite Hz0).
    destruct (IH n (p + hhdm_offset) v2 B1) as (h' & B' & Ew & Hm); [done..| | |].
    { rewrite Er2. eapply clear_one; [unfold f, entry_addr; lia|]. intros x Hx. by apply HzB. }
    { rewrite Er2. change (route_end [f]) with f. by rewrite Hz0. }
    destruct (made_new n v B v2 B1 i j ids table (p + hhdm_offset) h' B' Hc Hp Hsub) as [Hm' Ee];
      [fold e; by rewrite El|fold e; rewrite El, Eaddr; by rewrite phys_to_virt_in by lia|..]; try done.
    { intros x Hx. by apply HzB. }
    { fold f. by rewrite Hz0. }
    exists h', B'. split; [|done]. rewrite Ew, Ee. done.
Qed.

(** Writing the absent entry at the end of a full route. *)
Lemma route_set_end m m' ids table :
  length (route m ids table) = length ids -> present (load 8 m (route_end (route m ids table))) = false ->
  (forall f, f ∈ route m ids table -> f <> route_end (route m ids table) -> load 8 m' f = load 8 m f) ->
  route m' ids table = route m ids table.
Proof.
  revert table. induction ids as [|i ids IH]; intros table Hlen Habs Hf; [done|].
  destruct ids as [|j ids].
  { cbn [route]. set (e := entry_addr table i). by destruct (present (load 8 m e)), (present (load 8 m' e)). }
  rewrite (route_cons m) in Hlen, Habs, Hf |- *. rewrite (route_cons m'). set (e := entry_addr table i) in *.
  destruct (present (load 8 m e)) eqn:Hp; [|done]. apply Nat.succ_inj in Hlen. set (next := phys_to_virt _) in *.
  assert (route m (j :: ids) next <> []) as Hr by (by rewrite route_cons). rewrite route_end_cons in Habs, Hf by done.
  rewrite Hf; [|by left|intros E; congruence]. rewrite Hp. fold next. f_equal. apply IH; [done..|].
  intros f Hin Hne. apply Hf; [by right|done].
Qed.

(** ** Mapping one page *)

(** In the address space at [a] the walk to [va] goes to an entry [pte]; its
    route and the structure share no byte with [B]. *)
Record page_mapped (m : mem) (B : Z -> Prop) (a va pte : Z) : Prop := {
  pm_space : a <> 0 /\ as_pml4 m a <> 0;
  pm_full : length (route m (indices va) (as_pml4 m a)) = 4%nat;
  pm_clear : route_clear B (route m (indices va) (as_pml4 m a));
  pm_struct x : in_range a sizeof_addr_space x -> ~ B x /\ ~ entry_byte (route m (indices va) (as_pml4 m a)) x;
  pm_entry : load 8 m (route_end (route m (indices va) (as_pml4 m a))) = pte;
}.

(** The bytes this depends on. *)
Definition mapping_byte (m : mem) (a va x : Z) : Prop :=
  in_range a sizeof_addr_space x \/ entry_byte (route m (indices va) (as_pml4 m a)) x.

Lemma mapped_heapless m B a va pte x : page_mapped m B a va pte -> mapping_byte m a va x -> ~ B x.
Proof. intros Hm [Hx|Hx]; [by destruct (pm_struct _ _ _ _ _ Hm x Hx)|by apply (rc_foreign _ _ (pm_clear _ _ _ _ _ Hm))]. Qed.

Lemma as_pml4_agree m m' a : agree (in_range a sizeof_addr_space) m m' -> as_pml4 m' a = as_pml4 m a.
Proof.
  intros Ha. unfold as_pml4. symmetry. apply load_agree. eapply agree_sub; [exact Ha|]. unfold in_range, sizeof_addr_space. lia.
Qed.

Lemma page_mapped_agree m m' (B B' : Z -> Prop) a va pte :
  page_mapped m B a va pte -> agree (mapping_byte m a va) m m' -> (forall x, B' x -> B x) ->
  page_mapped m' B' a va pte /\ forall x, mapping_byte m' a va x <-> mapping_byte m a va x.
Proof.
  intros Hm Ha HB. assert (as_pml4 m' a = as_pml4 m a) as Ep by (apply as_pml4_agree; eapply agree_sub; [exact Ha|by left]).
  assert (route m' (indices va) (as_pml4 m a) = route m (indices va) (as_pml4 m a)) as Er
    by (apply route_agree; eapply agree_sub; [exact Ha|by right]).
  split; [|intros x; unfold mapping_byte; by rewrite Ep, Er]. split; rewrite ?Ep, ?Er; try apply Hm.
  - eapply clear_weaken; [exact HB|apply Hm].
  - intros x Hx. destruct (pm_struct _ _ _ _ _ Hm x Hx). auto.
  - rewrite <- (pm_entry _ _ _ _ _ Hm). symmetry. apply load_agree. eapply agree_sub; [exact Ha|]. intros x Hx. right.
    exists (route_end (route m (indices va) (as_pml4 m a))). split; [|done]. apply route_end_in.
    intros E. pose proof (pm_full _ _ _ _ _ Hm) as Hl. by rewrite E in Hl.
Qed.

(** Reading the mapping back. *)
Lemma mapped_translate v B a va pte :
  page_mapped (v_mem v) B a va pte -> present pte = true ->
  vmm_virt_to_phys a va v = Z.lor (PTE_ADDR pte) (PAGE_OFFSET va).
Proof.
  intros Hm Hp. destruct (pm_space _ _ _ _ _ Hm) as [Ha Hpml]. unfold vmm_virt_to_phys, vmm_walk_page_table.
  rewrite (proj2 (Z.eqb_neq a 0)), (proj2 (Z.eqb_neq _ _)) by done. cbn [orb].
  rewrite walk_route by (done || exact (pm_full _ _ _ _ _ Hm)). rewrite (pm_entry _ _ _ _ _ Hm), Hp.
  assert (route_end (route (v_mem v) (indices va) (as_pml4 (v_mem v) a)) <> 0) as Hne.
  { assert (route (v_mem v) (indices va) (as_pml4 (v_mem v) a) <> []) as Hr by done.
    destruct (rc_range _ _ (pm_clear _ _ _ _ _ Hm) _ (route_end_in _ Hr)). lia. }
  by rewrite (proj2 (Z.eqb_neq _ _)).
Qed.

(** The structure of the address space and the route to [va] before mapping. *)
Record mappable (m : mem) (B : Z -> Prop) (a va : Z) : Prop := {
  mp_struct : 0 < a /\ a + sizeof_addr_space <= 2 ^ 64;
  mp_pml4 : as_pml4 m a <> 0;
  mp_clear : route_clear B (route m (indices va) (as_pml4 m a));
  mp_apart x : in_range a sizeof_addr_space x -> ~ B x /\ ~ entry_byte (route m (indices va) (as_pml4 m a)) x;
  mp_absent : present (load 8 m (route_end (route m (indices va) (as_pml4 m a)))) = false;
}.

(** The stores that fill in the entry and count the page. *)
Lemma write_entry m B a va pte n :
  0 < a /\ a + sizeof_addr_space <= 2 ^ 64 -> as_pml4 m a <> 0 -> 0 <= pte < 2 ^ 64 ->
  let r := route m (indices va) (as_pml4 m a) in
  length r = 4%nat -> route_clear B r -> present (load 8 m (route_end r)) = false ->
  (forall x, in_range a sizeof_addr_space x -> ~ B x /\ ~ entry_byte r x) ->
  let m' := set_as_total_pages (store 8 m (route_end r) pte) a n in
  page_mapped m' B a va pte /\ (forall x, mapping_byte m' a va x -> mapping_byte m a va x) /\
  agree (fun x => ~ mapping_byte m a va x) m m' /\ as_pml4 m' a = as_pml4 m a.
Proof.
  intros Ha Hpml Hpte r Hlen Hc Habs Hap m'. set (e := route_end r) in *. unfold sizeof_addr_space in *.
  assert (r <> []) as Hr by (by intros E; rewrite E in Hlen). assert (e ∈ r) as He by (by apply route_end_in).
  set (m1 := store 8 m e pte) in *.
  assert (agree (fun x => ~ in_range e 8 x) m m1) as Ha1 by (by apply agree_store).
  assert (agree (fun x => ~ in_range a 24 x) m1 m') as Ha2 by (apply agree_store; unfold in_range; intros; lia).
  assert (forall x, in_range a 24 x -> ~ in_range e 8 x) as Hae.
  { intros x Hx Hxe. destruct (Hap x Hx) as [_ Hn]. apply Hn. by exists e. }
  assert (as_pml4 m' a = as_pml4 m a) as Ep.
  { unfold as_pml4, m'. rewrite <- (load_agree 8 m1).
    - symmetry. apply load_agree. eapply agree_sub; [exact Ha1|]. intros x Hx. apply Hae. unfold in_range in *. lia.
    - apply agree_store. unfold in_range. intros; lia. }
  assert (forall f, f ∈ r -> load 8 m' f = load 8 m1 f) as Hl2.
  { intros f Hf. symmetry. apply load_agree. eapply agree_sub; [exact Ha2|]. intros x Hx Hxa.
    destruct (Hap x Hxa) as [_ Hn]. apply Hn. by exists f. }
  assert (route m' (indices va) (as_pml4 m a) = r) as Er.
  { apply route_set_end; [exact Hlen|exact Habs|]. intros f Hf Hne. rewrite Hl2 by done. symmetry. apply load_agree.
    eapply agree_sub; [exact Ha1|]. intros x Hx. destruct (rc_apart _ _ Hc f e Hf He) as [|?]; [done|]. unfold in_range in *. lia. }
  split_and!.
  - split; rewrite ?Ep, ?Er; try done.
    + split; [lia|done].
    + rewrite Hl2 by done. by apply load8_store8.
  - intros x. unfold mapping_byte. by rewrite Ep, Er.
  - transitivity m1; [eapply agree_sub; [exact Ha1|]|eapply agree_sub; [exact Ha2|]]; intros x Hx Hr'; apply Hx;
      [right; by exists e|by left].
  - done.
Qed.

Lemma map_page_room n a va pa flags v B :
  mappable (v_mem v) B a va -> heap_at (3 + n) (v_heap v) B -> 0 <= va -> va mod 4096 = 0 ->
  0 <= pa < 2 ^ 64 -> pa mod 4096 = 0 -> 0 <= flags < 2 ^ 64 ->
  exists h' B', vmm_map_page_no_flush a va pa flags v = (set_heap v h', 0) /\ heap_at n h' B' /\
    (forall x, B' x -> B x) /\ page_mapped (h_mem h') B' a va (Z.lor (Z.lor pa flags) PTE_PRESENT) /\
    (forall x, mapping_byte (h_mem h') a va x -> mapping_byte (v_mem v) a va x \/ B x) /\
    agree (fun x => ~ B x /\ ~ mapping_byte (v_mem v) a va x) (v_mem v) (h_mem h') /\
    as_pml4 (h_mem h') a = as_pml4 (v_mem v) a.
Proof.
  intros Hm HB Hva Hva' Hpa Hpa' Hfl. destruct Hm as [[Ha Ha'] Hpml Hc Hap Habs].
  unfold vmm_map_page_no_flush, vmm_walk_page_table. rewrite !align_down_spec, Hva', Hpa', !Z.sub_0_r.
  rewrite (proj2 (Z.eqb_neq a 0)) by lia. rewrite (proj2 (Z.eqb_neq (as_pml4 _ _) 0)) by done. cbn [orb].
  set (t := as_pml4 (v_mem v) a) in *.
  destruct (walk_room (indices va) n t v B) as (h1 & B1 & E & Hm); [done|apply indices_range|exact HB|done|done|].
  rewrite E. change (v_mem (set_heap v h1)) with (h_mem h1). set (r := route (h_mem h1) (indices va) t) in *.
  set (e := route_end r) in *. assert (r <> []) as Hr by done.
  assert (e ∈ r) as He by (by apply route_end_in). destruct (rc_range _ _ (wm_clear _ _ _ _ _ _ _ Hm) e He) as [He0 He1].
  rewrite (proj2 (Z.eqb_neq e 0)) by lia. pose proof (wm_absent _ _ _ _ _ _ _ Hm) as Habs1.
  fold r in Habs1. fold e in Habs1. rewrite Habs1.
  set (pte := Z.lor (Z.lor pa flags) PTE_PRESENT).
  assert (0 <= pte < 2 ^ 64) as Hpte.
  { apply lor_range; [lia| |by vm_compute]. by apply lor_range. }
  assert (agree (in_range a sizeof_addr_space) (v_mem v) (h_mem h1)) as Hold.
  { eapply agree_sub; [apply (wm_frame _ _ _ _ _ _ _ Hm)|]. intros x [HxB Hxr]%Hap. split; [done|].
    intros Hx. apply Hxr. exists (route_end (route (v_mem v) (indices va) t)). split; [by apply route_end_in|done]. }
  assert (forall x, in_range a sizeof_addr_space x -> ~ entry_byte r x) as Har.
  { intros x [HxB Hxr]%Hap (f & [Hf|Hf]%(wm_new _ _ _ _ _ _ _ Hm) & Hx); [apply Hxr; by exists f|auto]. }
  assert (as_pml4 (h_mem h1) a = t) as Et by (by apply as_pml4_agree).
  destruct (write_entry (h_mem h1) B1 a va pte (w64 (as_total_pages (store 8 (h_mem h1) e pte) a + 1)))
    as (Hmap & Hbytes & Hw & Hep); rewrite ?Et; try done; [apply (wm_full _ _ _ _ _ _ _ Hm)|apply Hm| |].
  { intros x Hx. split; [|by apply Har]. intros Hb%(wm_less _ _ _ _ _ _ _ Hm). by destruct (Hap x Hx). }
  rewrite Et in Hmap, Hw, Hep. fold r e in Hmap, Hw, Hbytes, Hep. rewrite Et in Hbytes. fold r e in Hbytes.
  set (m2 := set_as_total_pages _ _ _) in Hmap, Hbytes, Hw, Hep. exists (set_mem h1 m2), B1. split; [done|]. split_and!.
  - apply heap_at_write; [apply Hm|]. eapply agree_sub; [exact Hw|]. intros x Hx [Hxa|Hxr].
    + by destruct (Hap x Hxa) as [Hn _]; apply Hn, (wm_less _ _ _ _ _ _ _ Hm).
    + rewrite Et in Hxr. by apply (rc_foreign _ _ (wm_clear _ _ _ _ _ _ _ Hm) x).
  - apply Hm.
  - done.
  - intros x [Hx|(f & Hf & Hx)]%Hbytes; [left; by left|]. rewrite Et in Hf.
    destruct (wm_new _ _ _ _ _ _ _ Hm f Hf); [left; right; by exists f|right; auto].
  - transitivity (h_mem h1); [eapply agree_sub; [apply (wm_frame _ _ _ _ _ _ _ Hm)|]|eapply agree_sub; [exact Hw|]]; intros x [HxB Hx].
    + split; [done|]. intros Hxe. apply Hx. right. exists (route_end (route (v_mem v) (indices va) t)).
      split; [by apply route_end_in|done].
    + intros [Hxa|(f & Hf & Hxf)]; [apply Hx; by left|]. rewrite Et in Hf.
      destruct (wm_new _ _ _ _ _ _ _ Hm f Hf); [apply Hx; right; by exists f|auto].
  - change (h_mem (set_mem h1 m2)) with m2. exact Hep.
Qed.

End Route.
