(* ===== verification/MemmgrHeap.v ===== *)
(** * The task memory manager on the heap

    The address space and the region list of a task, with the bytes they
    occupy: created on a heap that has room ([heap_at]), they share no byte
    with each other, with the heap that remains or with anything older. *)
From S2P Require Import Prelude Memory PageAlloc Chain Slab Pmm KmallocSpec HeapFrame.
From S2P Require Import Klib KlibSpec Vmm VmmProofs VmmRange VmmRoute VmmClaims Memmgr MemmgrSpec.
Import Slab Pmm Klib Vmm Memmgr.

(** ** Address spaces *)

Section Space.
Context `{Hhdm} `{Linker} {P : Type} `{!PageAllocator P}.

Implicit Types v : vmm P.

Lemma copy_entries_spec n : forall i m dst src,
  0 <= i -> i + Z.of_nat n <= 512 -> dst + 4096 <= src \/ src + 4096 <= dst ->
  let m' := copy_entries n i m dst src in
  (forall j, 0 <= j < 512 -> load 8 m' (entry_addr dst j) =
     if decide (i <= j < i + Z.of_nat n) then load 8 m (entry_addr src j) else load 8 m (entry_addr dst j)) /\
  agree (fun x => ~ in_range dst 4096 x) m m'.
Proof.
  unfold entry_addr. induction n as [|n IH]; intros i m dst src Hi Hn Hap; cbn [copy_entries].
  { split; [|done]. intros j Hj. by rewrite decide_False by lia. }
  unfold entry_addr. destruct (IH (i + 1) (store 8 m (dst + 8 * i) (load 8 m (src + 8 * i))) dst src) as [Hl Ha]; [lia..|].
  split.
  - intros j Hj. rewrite Hl by done. destruct (decide (j = i)) as [->|Hne].
    + rewrite decide_False, decide_True by lia. apply load8_store8, load8_range.
    + rewrite !load_store_ne by lia. do 2 case_decide; done || lia.
  - etransitivity; [|exact Ha]. apply agree_store. unfold in_range. intros; lia.
Qed.

(** The tables of the kernel, if it has its own, are not the heap's. *)
Definition kernel_clear (m : mem) (kas : Z) (B : Z -> Prop) : Prop :=
  kas = 0 \/ forall x, in_range kas sizeof_addr_space x \/ in_range (as_pml4 m kas) 4096 x -> ~ B x.

(** The bytes of an address space: its structure and its first table. *)
Definition space_byte (m : mem) (a x : Z) : Prop := in_range a sizeof_addr_space x \/ in_range (as_pml4 m a) 4096 x.

(** A new address space at [a] in memory [m]. *)
Record new_space (B : Z -> Prop) (m : mem) (a : Z) (B' : Z -> Prop) : Prop := {
  ns_space : 0 < a /\ a + sizeof_addr_space <= 2 ^ 64;
  ns_pml4 : 0 < as_pml4 m a /\ as_pml4 m a + 4096 <= 2 ^ 64;
  ns_own x : space_byte m a x -> B x /\ ~ B' x;
  ns_apart x : in_range a sizeof_addr_space x -> ~ in_range (as_pml4 m a) 4096 x;
}.

(** Before the entries of the kernel are copied. *)
Lemma bare_space n v B :
  heap_at (2 + n) (v_heap v) B ->
  exists h a B', heap_at n h B' /\ (forall x, B' x -> B x) /\ new_space B (h_mem h) a B' /\
    (forall i, 0 <= i < 512 -> load 8 (h_mem h) (entry_addr (as_pml4 (h_mem h) a) i) = 0) /\
    agree (fun x => ~ B x) (v_mem v) (h_mem h) /\
    vmm_create_address_space 64 v =
      Some (if kernel_as v =? 0 then set_heap v h
            else set_heap v (set_mem h (copy_entries 256 256 (h_mem h) (as_pml4 (h_mem h) a) (as_pml4 (h_mem h) (kernel_as v)))), a).
Proof.
  intros HB. unfold vmm_create_address_space.
  destruct (heap_at_room (1 + n) sizeof_addr_space (v_heap v) B HB) as (h1 & a & B1 & E1 & Hne & HB1 & Ho1); [done..|].
  rewrite E1. cbn [mbind option_bind]. destruct (ho_pos _ _ _ _ _ _ Ho1) as [Ha0 Ha1].
  rewrite (proj2 (Z.eqb_neq a 0)) by done. set (m1 := memset _ a 0 sizeof_addr_space).
  assert (agree (fun x => ~ in_range a sizeof_addr_space x) (h_mem h1) m1) as Hm1 by (by apply memset_outside).
  destruct (page_table_room n (set_vmem (set_heap v h1) m1) B1) as (h2 & B2 & p & E2 & Hp & _ & Hlim & HB2 & Ho2 & Hz).
  { apply heap_at_write; [done|]. eapply agree_sub; [exact Hm1|]. intros x Hx. by apply (ho_apart _ _ _ _ _ _ Ho1). }
  change (v_mem (set_heap v h1)) with (h_mem h1) in *. fold m1. rewrite E2. set (t := p + hhdm_offset) in *.
  destruct (ho_pos _ _ _ _ _ _ Ho2) as [Ht0 Ht1]. rewrite (proj2 (Z.eqb_neq t 0)) by lia.
  change (v_mem (set_vmem _ m1)) with m1 in Ho2. set (m2 := set_as_pml4 (h_mem h2) a t).
  assert (agree (fun x => ~ in_range a 8 x) (h_mem h2) m2) as Hm2 by (by apply agree_store).
  assert (forall x, in_range a sizeof_addr_space x -> B x /\ ~ B1 x) as Hown1.
  { intros x Hx. split; [by apply (ho_from _ _ _ _ _ _ Ho1)|]. intros Hb. by apply (ho_apart _ _ _ _ _ _ Ho1 x Hb). }
  assert (forall x, in_range a 8 x -> in_range a sizeof_addr_space x) as Ha8 by (unfold in_range, sizeof_addr_space; lia).
  assert (forall x, in_range t 4096 x -> B1 x /\ ~ B2 x) as Hown2.
  { intros x Hx. split; [by apply (ho_from _ _ _ _ _ _ Ho2)|]. intros Hb. by apply (ho_apart _ _ _ _ _ _ Ho2 x Hb). }
  assert (forall x, in_range a sizeof_addr_space x -> ~ in_range t 4096 x) as Hat.
  { intros x [_ Hx]%Hown1 Hxt. by apply Hx, Hown2. }
  assert (as_pml4 m2 a = t) as Et by (apply load8_store8; lia).
  exists (set_mem h2 m2), a, B2. change (h_mem (set_mem h2 m2)) with m2. split; [|split; [|split; [|split; [|split]]]].
  - apply heap_at_write; [done|]. eapply agree_sub; [exact Hm2|]. intros x Hx [_ Hr]%Ha8%Hown1.
    by apply Hr, (ho_left _ _ _ _ _ _ Ho2).
  - intros x Hx. by apply (ho_left _ _ _ _ _ _ Ho1), (ho_left _ _ _ _ _ _ Ho2).
  - split; unfold space_byte; rewrite ?Et; try done. intros x [Hx|Hx]; [destruct (Hown1 x Hx)|destruct (Hown2 x Hx)]; split; try done.
    + intros Hb. by apply (ho_left _ _ _ _ _ _ Ho2) in Hb.
    + by apply (ho_left _ _ _ _ _ _ Ho1).
  - intros i Hi. rewrite Et, <- (Hz i Hi). symmetry. apply load_agree. eapply agree_sub; [exact Hm2|].
    intros x Hx Hxa%Ha8%Hat. apply Hxa. unfold in_range, entry_addr in *. lia.
  - transitivity (h_mem h1); [apply Ho1|]. transitivity m1; [eapply agree_sub; [exact Hm1|]|].
    + intros x Hx Hr. by apply Hx, Hown1.
    + transitivity (h_mem h2); [eapply agree_sub; [apply Ho2|]|eapply agree_sub; [exact Hm2|]].
      * intros x Hx Hb. by apply Hx, (ho_left _ _ _ _ _ _ Ho1).
      * intros x Hx Hr%Ha8. by apply Hx, Hown1.
  - rewrite Et. change (kernel_as (set_vmem _ _)) with (kernel_as v). by destruct (kernel_as v =? 0).
Qed.

(** The entry [i] of a new address space: the upper half of the kernel. *)
Definition shared_entry v (i : Z) : Z :=
  if decide (256 <= i /\ kernel_as v <> 0) then load 8 (v_mem v) (entry_addr (as_pml4 (v_mem v) (kernel_as v)) i) else 0.

Lemma create_space_room n v B :
  heap_at (2 + n) (v_heap v) B -> kernel_clear (v_mem v) (kernel_as v) B ->
  exists h a B', vmm_create_address_space 64 v = Some (set_heap v h, a) /\ heap_at n h B' /\
    (forall x, B' x -> B x) /\ new_space B (h_mem h) a B' /\
    (forall i, 0 <= i < 512 -> load 8 (h_mem h) (entry_addr (as_pml4 (h_mem h) a) i) = shared_entry v i) /\
    agree (fun x => ~ B x) (v_mem v) (h_mem h).
Proof.
  intros HB Hk. destruct (bare_space n v B HB) as (h & a & B' & HB' & Hsub & Hn & Hz & Ha & E). rewrite E. clear E.
  unfold shared_entry. destruct (Z.eqb_spec (kernel_as v) 0) as [Ek|Ek].
  { exists h, a, B'. split_and!; try done. intros i Hi. rewrite decide_False by tauto. by apply Hz. }
  destruct Hk as [?|Hk]; [done|]. set (kas := kernel_as v) in *. set (src := as_pml4 (v_mem v) kas) in *. set (t := as_pml4 (h_mem h) a) in *.
  assert (as_pml4 (h_mem h) kas = src) as Es by (apply as_pml4_agree; eapply agree_sub; [exact Ha|intros x Hx; apply Hk; by left]).
  destruct (ns_pml4 _ _ _ _ Hn) as [Ht0 Ht1]. fold t in Ht0, Ht1. rewrite Es.
  assert (t + 4096 <= src \/ src + 4096 <= t) as Hap.
  { apply ranges_apart; [lia|lia|]. intros x Hx Hx'. apply (Hk x); [by right|]. apply (ns_own _ _ _ _ Hn). by right. }
  destruct (copy_entries_spec 256 256 (h_mem h) t src) as [Hl Hc]; [lia..|]. set (m := copy_entries _ _ _ _ _) in *.
  assert (as_pml4 m a = t) as Et.
  { apply as_pml4_agree. eapply agree_sub; [exact Hc|]. apply (ns_apart _ _ _ _ Hn). }
  exists (set_mem h m), a, B'. change (h_mem (set_mem h m)) with m. split; [done|]. split; [|split; [done|split; [|split]]].
  - apply heap_at_write; [done|]. eapply agree_sub; [exact Hc|]. intros x Hx Hr. apply (ns_own _ _ _ _ Hn x); [by right|done].
  - destruct Hn as [Hn1 Hn2 Hn3 Hn4]. split; unfold space_byte; rewrite ?Et; done.
  - intros i Hi. rewrite Et, Hl by done. change (256 + Z.of_nat 256) with 512.
    destruct (decide (256 <= i)) as [Hle|Hgt].
    + rewrite decide_True by lia. rewrite decide_True by (split; assumption). symmetry. apply load_agree. eapply agree_sub; [exact Ha|].
      intros x Hx. apply Hk. right. unfold in_range, entry_addr in *. lia.
    + rewrite decide_False by lia. rewrite decide_False by (intros [? _]; lia). exact (Hz i Hi).
  - transitivity (h_mem h); [exact Ha|]. eapply agree_sub; [exact Hc|]. intros x Hx Hr. apply Hx.
    apply (ns_own _ _ _ _ Hn). by right.
Qed.

End Space.

(** ** Descriptors *)

Section Descriptor.
Context `{Hhdm} `{Linker} {P : Type} `{!PageAllocator P}.

Implicit Types v : vmm P.

(** The bytes of the descriptor [d] and of its region nodes [l]. *)
Definition mm_byte (d : Z) (l : list Z) (x : Z) : Prop :=
  in_range d sizeof_mem_descriptor x \/ exists a, a ∈ l /\ in_range a sizeof_mem_region x.

(** A descriptor with the regions [rs], none of its bytes in [B]. *)
Record mm_at (m : mem) (B : Z -> Prop) (d : Z) (l : list Z) (rs : list (Z * Z * Z)) : Prop := {
  ma_range : 0 < d /\ d + sizeof_mem_descriptor <= 2 ^ 64;
  ma_own x : mm_byte d l x -> ~ B x;
  ma_node a : a ∈ l -> 0 < a /\ a + sizeof_mem_region <= 2 ^ 64 /\
    (a + sizeof_mem_region <= d \/ d + sizeof_mem_descriptor <= a);
  ma_regions : regions_at m d l rs;
}.

(** The bytes the region list of [d] is read from. *)
Definition list_byte (d : Z) (l : list Z) (x : Z) : Prop :=
  in_range (d + 8) 8 x \/ exists a, a ∈ l /\ in_range a sizeof_mem_region x.

Lemma regions_at_agree m m' d l rs :
  agree (list_byte d l) m m' -> regions_at m d l rs -> regions_at m' d l rs.
Proof.
  intros Ha [Hc Hf]. assert (forall a k, a ∈ l -> 0 <= k <= 24 -> load 8 m' (a + k) = load 8 m (a + k)) as Hl.
  { intros a k Hin Hk. symmetry. apply load_agree. eapply agree_sub; [exact Ha|]. intros x Hx. right. exists a.
    split; [done|]. unfold in_range, sizeof_mem_region in *. lia. }
  split.
  - unfold Memmgr.mm_regions. rewrite <- (load_agree 8 m m').
    + eapply lchain_agree; [|exact Hc]. intros a Hin. eapply agree_sub; [exact Ha|]. intros x Hx. right. exists a.
      split; [done|]. unfold in_range, sizeof_mem_region in *. lia.
    + eapply agree_sub; [exact Ha|]. intros x Hx. by left.
  - apply Forall2_same_length_lookup. split; [by eapply Forall2_length|]. intros i a r Hia Hir.
    pose proof (Forall2_lookup_lr _ _ _ _ _ _ Hf Hia Hir) as (E1 & E2 & E3).
    assert (a ∈ l) as Hin by (by eapply list_elem_of_lookup_2).
    unfold region_node, r_start, r_end, r_flags in *. rewrite !Hl by (done || lia).
    split; [|done]. rewrite <- (Z.add_0_r a), Hl by (done || lia). by rewrite Z.add_0_r.
Qed.

Lemma list_mm_byte d l x : list_byte d l x -> mm_byte d l x.
Proof. intros [Hx|Hx]; [left|by right]. unfold in_range, sizeof_mem_descriptor in *. lia. Qed.

Lemma mm_at_agree m m' (B B' : Z -> Prop) d l rs :
  mm_at m B d l rs -> agree (list_byte d l) m m' -> (forall x, B' x -> B x) -> mm_at m' B' d l rs.
Proof.
  intros Hm Ha HB. split; try apply Hm.
  - intros x Hx Hb. by apply (ma_own _ _ _ _ _ Hm x Hx), HB.
  - eapply regions_at_agree; [exact Ha|apply Hm].
Qed.

(** [mm_add_region] with room for a node. *)
Lemma add_region_room n d start stop flags v B l rs :
  heap_at (S n) (v_heap v) B -> mm_at (v_mem v) B d l rs ->
  0 <= start < stop -> stop < 2 ^ 64 -> 0 <= flags < 2 ^ 64 ->
  exists h p B', mm_add_region 64 d start stop flags v = Some (set_heap v h, 0) /\ heap_at n h B' /\
    (forall x, B' x -> B x) /\ mm_at (h_mem h) B' d (p :: l) ((start, stop, flags) :: rs) /\
    (forall x, in_range p sizeof_mem_region x -> B x) /\
    agree (fun x => ~ B x /\ ~ in_range (d + 8) 8 x) (v_mem v) (h_mem h).
Proof.
  intros HB Hm Hs Hst Hfl. destruct (heap_at_room n sizeof_mem_region (v_heap v) B HB) as (h & p & B' & E & Hp & HB' & Ho); [done..|].
  destruct (ma_range _ _ _ _ _ Hm) as [Hd0 Hd1]. destruct (ho_pos _ _ _ _ _ _ Ho) as [Hp0 Hp1].
  assert (forall a k, 0 < k -> (forall x, in_range a k x -> mm_byte d l x) -> a + k <= p \/ p + sizeof_mem_region <= a) as Hap.
  { intros a k Hk Hx. apply ranges_apart; [done|done|]. intros x Hxa Hxp.
    apply (ma_own _ _ _ _ _ Hm x); [auto|by apply (ho_from _ _ _ _ _ _ Ho)]. }
  assert (agree (mm_byte d l) (v_mem v) (h_mem h)) as Hold.
  { eapply agree_sub; [apply Ho|]. intros x Hx. by apply (ma_own _ _ _ _ _ Hm). }
  destruct (region_stores_spec (v_mem v) (h_mem h) d p start stop flags l rs) as [Hr Ha]; try lia.
  - apply Hm.
  - intros a k Ha Hk. symmetry. apply load_agree. eapply agree_sub; [exact Hold|]. intros x Hx. right. exists a.
    split; [done|]. unfold in_range, sizeof_mem_region in *. lia.
  - symmetry. apply load_agree. eapply agree_sub; [exact Hold|]. intros x Hx. left. unfold in_range, sizeof_mem_descriptor in *. lia.
  - intros a Ha. destruct (ma_node _ _ _ _ _ Hm a Ha) as (_ & _ & Had). split; [|exact Had].
    apply (Hap a 32); [done|]. intros x Hx. right. by exists a.
  - apply (Hap d 48); [done|]. intros x Hx. by left.
  - unfold sizeof_mem_region in *. lia.
  - set (m2 := region_stores _ _ _ _ _ _) in *. exists (set_mem h m2), p, B'. split; [|split; [|split; [|split; [|split]]]].
    + unfold mm_add_region. rewrite (proj2 (Z.eqb_neq d 0)), (proj2 (Z.leb_gt _ _)) by lia. cbn [orb].
      rewrite E. reflexivity.
    + apply heap_at_write; [done|]. eapply agree_sub; [exact Ha|]. intros x Hx. split.
      * by apply (ho_apart _ _ _ _ _ _ Ho).
      * intros Hxd. apply (ma_own _ _ _ _ _ Hm x); [|by apply (ho_left _ _ _ _ _ _ Ho)]. left.
        unfold in_range, sizeof_mem_descriptor in *. lia.
    + apply Ho.
    + split; [apply Hm| | |exact Hr].
      * intros x [Hx|(a & [->|Hin]%elem_of_cons & Hx)] Hb.
        -- apply (ma_own _ _ _ _ _ Hm x); [by left|by apply (ho_left _ _ _ _ _ _ Ho)].
        -- by apply (ho_apart _ _ _ _ _ _ Ho x Hb).
        -- apply (ma_own _ _ _ _ _ Hm x); [right; eauto|by apply (ho_left _ _ _ _ _ _ Ho)].
      * intros a [->|Hin]%elem_of_cons; [|by apply Hm]. split_and!; [done|done|].
        destruct (Hap d 48); [done|by left|right|left]; unfold sizeof_mem_descriptor; lia.
    + apply Ho.
    + transitivity (h_mem h); [eapply agree_sub; [apply Ho|by intros x []]|]. eapply agree_sub; [exact Ha|].
      intros x [Hx Hxd]. split; [|done]. intros Hr'. by apply Hx, (ho_from _ _ _ _ _ _ Ho).
Qed.

(** An interval [mm_add_region] accepts. *)
Definition region_proper (r : Z * Z * Z) : Prop := 0 <= r.1.1 < r.1.2 /\ r.1.2 < 2 ^ 64 /\ 0 <= r.2 < 2 ^ 64.

Lemma add_regions_room new : forall n d v B l rs,
  heap_at (length new + n) (v_heap v) B -> mm_at (v_mem v) B d l rs -> Forall region_proper new ->
  exists h l' B', add_regions 64 d new v = Some (set_heap v h) /\ heap_at n h B' /\
    (forall x, B' x -> B x) /\ mm_at (h_mem h) B' d (l' ++ l) (rev new ++ rs) /\
    (forall p x, p ∈ l' -> in_range p sizeof_mem_region x -> B x) /\
    agree (fun x => ~ B x /\ ~ in_range (d + 8) 8 x) (v_mem v) (h_mem h).
Proof.
  induction new as [|[[s e] f] new IH]; intros n d v B l rs HB Hm Hok.
  { exists (v_heap v), [], B. split; [by destruct v|]. split_and!; try done. set_solver. }
  apply Forall_cons in Hok as [(Hs & He & Hf) Hok].
  destruct (add_region_room (length new + n) d s e f v B l rs HB Hm Hs He Hf) as (h & p & B1 & E & HB1 & Hsub1 & Hm1 & Hp & Ha1).
  destruct (IH n d (set_heap v h) B1 (p :: l) ((s, e, f) :: rs) HB1 Hm1 Hok) as (h' & l' & B' & E' & HB' & Hsub' & Hm' & Hl' & Ha').
  exists h', (l' ++ [p]), B'. split; [cbn [add_regions]; rewrite E; exact E'|]. split; [done|]. split; [auto|]. split; [|split].
  - cbn [rev]. rewrite <- !app_assoc. exact Hm'.
  - intros q x [Hq| ->%list_elem_of_singleton]%elem_of_app Hx; [|by apply Hp]. apply Hsub1. by eapply Hl'.
  - transitivity (h_mem h); [exact Ha1|]. eapply agree_sub; [exact Ha'|]. intros x [Hx Hxd]. split; auto.
Qed.

End Descriptor.

(** ** Executables *)

(** The code and data segments of an executable that fits below the stack. *)
Definition exec_ok (code_start code_end data_end : Z) : Prop :=
  0 <= code_start < code_end /\ code_end < data_end /\ code_end mod 4096 <> 0 /\ data_end mod 4096 <> 0 /\
  vmm_page_align_up code_end < data_end /\ data_end < 0x7FFF00000000.

Lemma exec_layout_proper code_start code_end data_end :
  exec_ok code_start code_end data_end -> Forall region_proper (exec_layout code_start code_end data_end).
Proof.
  intros (H1 & H2 & _ & _ & H5 & H6). unfold exec_layout. rewrite !round_up_lnot.
  destruct (align_up_range code_end) as [Hc _]; [lia..|]. destruct (align_up_range data_end) as [Hd _]; [lia..|].
  unfold HEAP_SIZE, GUARD_SIZE, PAGE_SIZE, STACK_TOP, STACK_SIZE.
  rewrite !(wrap_small 64) by (repeat rewrite (wrap_small 64) by lia; lia).
  rewrite !Forall_cons. unfold region_proper. cbn [fst snd]. change (2 ^ 64) with 0x10000000000000000.
  change (Z.lor RP_READ RP_EXEC) with 5. change (Z.lor RP_READ RP_WRITE) with 3.
  change (Z.lor 3 RP_HEAP) with 11. change (Z.lor 3 RP_STACK) with 19.
  repeat first [apply Forall_nil_2 | lia | split].
Qed.

(** An access the regions [rs] allow. *)
Definition allows (rs : list (Z * Z * Z)) (addr access : Z) : Prop :=
  exists r, r ∈ rs /\ covers addr r = true /\ r.2 <> 0 /\ Z.land r.2 access = access.

Lemma ordered_above r rs : ordered (r :: rs) -> Forall (fun r' => r.1.2 < r'.1.1) rs.
Proof.
  revert r. induction rs as [|r' rs IH]; intros r Ho; [done|]. destruct Ho as (_ & Hlt & Ho). constructor; [done|].
  pose proof (IH r' Ho) as Hf. destruct Ho as (Hle & _). eapply Forall_impl; [exact Hf|]. cbn. intros; lia.
Qed.

Lemma ordered_unique rs r r' addr :
  ordered rs -> r ∈ rs -> r' ∈ rs -> covers addr r = true -> covers addr r' = true -> r = r'.
Proof.
  unfold covers. intros Ho Hr Hr' [Hc1 Hc2]%andb_prop [Hc1' Hc2']%andb_prop.
  apply Z.leb_le in Hc1, Hc2, Hc1', Hc2'. revert Ho Hr Hr'. induction rs as [|a rs IH]; [set_solver|].
  intros Ho. pose proof (ordered_above a rs Ho) as Hab. rewrite Forall_forall in Hab. destruct Ho as (_ & _ & Ho).
  intros [->|Hr]%elem_of_cons [->|Hr']%elem_of_cons; [done| | |by apply IH].
  - specialize (Hab r' Hr'). lia.
  - specialize (Hab r Hr). lia.
Qed.

(** Among disjoint regions the first that holds an address decides. *)
Lemma first_region_allows rs addr access :
  ordered rs ->
  match find (covers addr) (rev rs) with
  | Some r => negb (r.2 =? 0) && (Z.land r.2 access =? access)
  | None => false
  end = true <-> allows rs addr access.
Proof.
  intros Ho. assert (forall r, In r (rev rs) <-> r ∈ rs) as Hin by (intros r; by rewrite <- in_rev, list_elem_of_In).
  destruct (find (covers addr) (rev rs)) as [r|] eqn:E.
  - apply find_some in E as [Hr Hc]. apply Hin in Hr. rewrite andb_true_iff, negb_true_iff, Z.eqb_neq, Z.eqb_eq. split.
    + intros [? ?]. by exists r.
    + intros (r' & Hr' & Hc' & ? & ?). by rewrite (ordered_unique rs r r' addr).
  - split; [done|]. intros (r & Hr & Hc & _). apply Hin in Hr. by rewrite (find_none _ _ E r Hr) in Hc.
Qed.

Section Executable.
Context `{Hhdm} `{Linker} {P : Type} `{!PageAllocator P}.

Implicit Types v : vmm P.

(** The address space of a task's descriptor, none of its bytes in [B]. *)
Record task_space (m : mem) (B : Z -> Prop) (d : Z) : Prop := {
  ts_space : 0 < mm_as m d /\ mm_as m d + sizeof_addr_space <= 2 ^ 64;
  ts_pml4 : 0 < as_pml4 m (mm_as m d) /\ as_pml4 m (mm_as m d) + 4096 <= 2 ^ 64;
  ts_own x : space_byte m (mm_as m d) x -> ~ B x;
  ts_apart x : in_range (mm_as m d) sizeof_addr_space x -> ~ in_range (as_pml4 m (mm_as m d)) 4096 x;
}.

(** A task's memory: the descriptor [d] with the regions [rs] and its address
    space, apart from each other and from the heap. *)
Definition task_memory (m : mem) (B : Z -> Prop) (d : Z) (rs : list (Z * Z * Z)) : Prop :=
  task_space m B d /\ exists l, mm_at m B d l rs /\ forall x, space_byte m (mm_as m d) x -> ~ mm_byte d l x.

Lemma task_space_agree m m' (B B' : Z -> Prop) d :
  task_space m B d -> agree (fun x => in_range d 8 x \/ space_byte m (mm_as m d) x) m m' -> (forall x, B' x -> B x) ->
  task_space m' B' d /\ mm_as m' d = mm_as m d /\ forall x, space_byte m' (mm_as m d) x <-> space_byte m (mm_as m d) x.
Proof.
  intros Hs Ha HB.
  assert (mm_as m' d = mm_as m d) as Ed by (symmetry; apply load_agree; eapply agree_sub; [exact Ha|by left]).
  assert (as_pml4 m' (mm_as m d) = as_pml4 m (mm_as m d)) as Ep.
  { apply as_pml4_agree. eapply agree_sub; [exact Ha|]. intros x Hx. right. by left. }
  split; [|split; [done|intros x; unfold space_byte; by rewrite Ep]].
  split; unfold space_byte; rewrite Ed, ?Ep; try apply Hs. intros x Hx Hb. by apply (ts_own _ _ _ Hs x Hx), HB.
Qed.

(** Writing the heap and the counters of the descriptor. *)
Lemma task_memory_agree m m' (B B' : Z -> Prop) d rs :
  task_memory m B d rs -> agree (fun x => ~ B x /\ ~ in_range (d + 16) 32 x) m m' -> (forall x, B' x -> B x) ->
  task_memory m' B' d rs.
Proof.
  intros [Hs (l & Hm & Hap)] Ha HB. assert (forall x, in_range (d + 16) 32 x -> mm_byte d l x) as Hd.
  { intros x Hx. left. unfold in_range, sizeof_mem_descriptor in *. lia. }
  destruct (task_space_agree m m' B B' d Hs) as (Hs' & Ed & Hb); [|done|].
  { eapply agree_sub; [exact Ha|]. intros x [Hx|Hx]; split.
    - apply (ma_own _ _ _ _ _ Hm). left. unfold in_range, sizeof_mem_descriptor in *. lia.
    - unfold in_range in *. lia.
    - by apply (ts_own _ _ _ Hs).
    - intros Hx'%Hd. by apply (Hap x). }
  split; [done|]. exists l. split; [|intros x; rewrite Ed, Hb; apply Hap]. apply (mm_at_agree m m' B); [done| |done].
  eapply agree_sub; [exact Ha|]. intros x Hx. split; [by apply (ma_own _ _ _ _ _ Hm), list_mm_byte|].
  destruct Hx as [Hx|(a & Hin & Hx)]; [unfold in_range in *; lia|]. destruct (ma_node _ _ _ _ _ Hm a Hin) as (_ & _ & Hd').
  unfold in_range, sizeof_mem_descriptor, sizeof_mem_region in *. lia.
Qed.

Lemma task_add_regions new n d v B rs :
  heap_at (length new + n) (v_heap v) B -> task_memory (v_mem v) B d rs -> Forall region_proper new ->
  exists h B', add_regions 64 d new v = Some (set_heap v h) /\ heap_at n h B' /\ (forall x, B' x -> B x) /\
    task_memory (h_mem h) B' d (rev new ++ rs) /\ agree (fun x => ~ B x /\ ~ in_range (d + 8) 8 x) (v_mem v) (h_mem h).
Proof.
  intros HB [Hs (l & Hm & Hap)] Hok.
  destruct (add_regions_room new n d v B l rs HB Hm Hok) as (h & l' & B' & E & HB' & Hsub & Hm' & Hl' & Ha).
  destruct (task_space_agree (v_mem v) (h_mem h) B B' d Hs) as (Hs' & Ed & Hb); [|done|].
  { eapply agree_sub; [exact Ha|]. intros x [Hx|Hx]; split.
    - apply (ma_own _ _ _ _ _ Hm). left. unfold in_range, sizeof_mem_descriptor in *. lia.
    - unfold in_range in *. lia.
    - by apply (ts_own _ _ _ Hs).
    - intros Hx'. apply (Hap x Hx). left. unfold in_range, sizeof_mem_descriptor in *. lia. }
  exists h, B'. split; [done|]. split; [done|]. split; [done|]. split; [|done]. split; [done|].
  exists (l' ++ l). split; [done|]. intros x. rewrite Ed, Hb.
  intros Hx [Hd|(a & [Hin|Hin]%elem_of_app & Hxa)].
  - apply (Hap x Hx). by left.
  - apply (ts_own _ _ _ Hs x Hx). by eapply Hl'.
  - apply (Hap x Hx). right. by exists a.
Qed.

(** The access check decides by the regions. *)
Lemma task_access v B d rs addr access :
  task_memory (v_mem v) B d (rev rs) -> ordered rs -> (length rs < 64)%nat ->
  exists b, mm_check_access 64 d addr access v = Some b /\ (b = true <-> allows rs addr access).
Proof.
  intros [_ (l & Hm & _)] Ho Hl. pose proof (ma_range _ _ _ _ _ Hm).
  rewrite (mm_check_access_correct d addr access v l (rev rs) 64); [|lia|apply Hm|].
  - eexists. split; [done|]. by apply first_region_allows.
  - destruct (ma_regions _ _ _ _ _ Hm) as [_ Hf]. rewrite (Forall2_length _ _ _ Hf), length_rev. done.
Qed.

(** The words of the descriptor [mm_alloc] fills in. *)
Definition descriptor_stores (m : mem) (d a : Z) : mem :=
  store 8 (store 8 (store 8 (store 8 (store 8 (store 8 m d a) (d + 8) 0) (d + 16) 0) (d + 24) 0) (d + 32) 0) (d + 40) 0.

Lemma descriptor_stores_spec m d a :
  0 <= a < 2 ^ 64 ->
  let m' := descriptor_stores m d a in
  mm_as m' d = a /\ Memmgr.mm_regions m' d = 0 /\ agree (fun x => ~ in_range d sizeof_mem_descriptor x) m m'.
Proof.
  intros Ha. unfold descriptor_stores, mm_as, Memmgr.mm_regions. cbv zeta. split; [|split].
  - rewrite !load_store_ne by lia. by apply load8_store8.
  - do 4 rewrite load_store_ne by lia. by apply load8_store8.
  - repeat (etransitivity; [|apply agree_store; unfold in_range, sizeof_mem_descriptor; intros; lia]). done.
Qed.

(** [mm_alloc] with room in the heap. *)
Lemma mm_alloc_room n v B :
  heap_at (3 + n) (v_heap v) B -> kernel_clear (v_mem v) (kernel_as v) B ->
  exists h d B', mm_alloc 64 v = Some (set_heap v h, d) /\ d <> 0 /\ heap_at n h B' /\ (forall x, B' x -> B x) /\
    task_memory (h_mem h) B' d [] /\
    (forall x, in_range d sizeof_mem_descriptor x \/ space_byte (h_mem h) (mm_as (h_mem h) d) x -> B x) /\
    (forall i, 0 <= i < 512 -> load 8 (h_mem h) (entry_addr (as_pml4 (h_mem h) (mm_as (h_mem h) d)) i) = shared_entry v i) /\
    agree (fun x => ~ B x) (v_mem v) (h_mem h).
Proof.
  intros HB Hk. destruct (heap_at_room (2 + n) sizeof_mem_descriptor (v_heap v) B HB) as (h1 & d & B1 & E1 & Hd & HB1 & Ho); [done..|].
  unfold mm_alloc. rewrite E1. cbn [mbind option_bind]. destruct (ho_pos _ _ _ _ _ _ Ho) as [Hd0 Hd1].
  pose proof (ho_rest _ _ _ _ _ _ Ho) as Ha1.
  assert (kernel_clear (h_mem h1) (kernel_as v) B1) as Hk1.
  { destruct Hk as [Hk|Hk]; [by left|right]. rewrite (as_pml4_agree (v_mem v)) by (eapply agree_sub; [exact Ha1|intros x Hx; apply Hk; by left]).
    intros x Hx Hb. by apply (Hk x Hx), (ho_left _ _ _ _ _ _ Ho). }
  destruct (create_space_room n (set_heap v h1) B1 HB1 Hk1) as (h2 & a & B2 & E2 & HB2 & Hsub2 & Hn & Hz & Ha2).
  rewrite E2. cbn [mbind option_bind]. destruct (ns_space _ _ _ _ Hn) as [Has0 Has1]. rewrite (proj2 (Z.eqb_neq a 0)) by lia.
  set (m2 := h_mem h2) in *. set (t := as_pml4 m2 a) in *. destruct (descriptor_stores_spec m2 d a) as (Ed & Er & Ha3); [unfold sizeof_addr_space in *; lia|].
  set (m3 := descriptor_stores m2 d a) in *.
  assert (forall x, in_range d sizeof_mem_descriptor x -> B x /\ ~ B1 x) as Hdown.
  { intros x Hx. split; [by apply (ho_from _ _ _ _ _ _ Ho)|]. intros Hb. by apply (ho_apart _ _ _ _ _ _ Ho x Hb). }
  assert (forall x, space_byte m2 a x -> ~ in_range d sizeof_mem_descriptor x) as Hsd.
  { intros x Hx%(ns_own _ _ _ _ Hn) Hd'%Hdown. tauto. }
  assert (as_pml4 m3 a = t) as Et.
  { apply as_pml4_agree. eapply agree_sub; [exact Ha3|]. intros x Hx. apply Hsd. by left. }
  exists (set_mem h2 m3), d, B2. split; [reflexivity|]. split; [done|]. split; [|split; [|split; [|split; [|split]]]].
  - apply heap_at_write; [done|]. eapply agree_sub; [exact Ha3|]. intros x Hx Hd'%Hdown. by apply Hd', Hsub2.
  - intros x Hx. by apply (ho_left _ _ _ _ _ _ Ho), Hsub2.
  - change (h_mem (set_mem h2 m3)) with m3. split.
    + split; rewrite ?Ed; unfold space_byte; rewrite ?Et; try apply Hn.
    + exists []. split.
      * split; [done| |set_solver|split; [exact Er|constructor]].
        intros x [Hx|(? & ?%not_elem_of_nil & _)]; [|done]. intros Hb. apply (Hdown x Hx). by apply Hsub2.
      * intros x. rewrite Ed. unfold space_byte. rewrite Et. intros Hx [Hd'|(? & ?%not_elem_of_nil & _)]; [|done].
        by apply (Hsd x Hx).
  - change (h_mem (set_mem h2 m3)) with m3. rewrite Ed. unfold space_byte. rewrite Et. intros x [Hx|Hx]; [by apply Hdown|].
    apply (ho_left _ _ _ _ _ _ Ho), (ns_own _ _ _ _ Hn). exact Hx.
  - intros i Hi. change (h_mem (set_mem h2 m3)) with m3. rewrite Ed, Et.
    assert (shared_entry v i = shared_entry (set_heap v h1) i) as ->; [|rewrite <- (Hz i Hi)].
    + unfold shared_entry. change (kernel_as (set_heap v h1)) with (kernel_as v). change (v_mem (set_heap v h1)) with (h_mem h1).
      case_decide as Hdec; [|done]. destruct Hk as [Hk|Hk]; [by destruct Hdec|].
      assert (as_pml4 (h_mem h1) (kernel_as v) = as_pml4 (v_mem v) (kernel_as v)) as ->.
      { apply as_pml4_agree. eapply agree_sub; [exact Ha1|]. intros x Hx. apply Hk. by left. }
      apply load_agree. eapply agree_sub; [exact Ha1|]. intros x Hx. apply Hk. right. unfold in_range, entry_addr in *. lia.
    + symmetry. apply load_agree. eapply agree_sub; [exact Ha3|]. intros x Hx. apply Hsd. right.
      unfold in_range, entry_addr in *. fold t. lia.
  - transitivity (h_mem h1); [exact Ha1|]. transitivity m2; [eapply agree_sub; [exact Ha2|]|eapply agree_sub; [exact Ha3|]].
    + intros x Hx Hb. by apply Hx, (ho_left _ _ _ _ _ _ Ho).
    + intros x Hx Hd'. by apply Hx, Hdown.
Qed.

(** The bytes of the descriptor itself are the task's. *)
Lemma descriptor_own m B d rs x : task_memory m B d rs -> in_range d sizeof_mem_descriptor x -> ~ B x.
Proof. intros [_ (l & Hm & _)] Hx. apply (ma_own _ _ _ _ _ Hm). by left. Qed.

Lemma task_not_null m B d rs : task_memory m B d rs -> 0 < d /\ d + sizeof_mem_descriptor <= 2 ^ 64.
Proof. intros [_ (l & Hm & _)]. apply Hm. Qed.

(** [mm_setup_executable] with room for its six regions. *)
Lemma mm_setup_room n d code_start code_end data_end v B :
  heap_at (6 + n) (v_heap v) B -> task_memory (v_mem v) B d [] -> exec_ok code_start code_end data_end ->
  exists h B', mm_setup_executable 64 d code_start code_end data_end v = Some (set_heap v h, 0) /\
    heap_at n h B' /\ (forall x, B' x -> B x) /\
    task_memory (h_mem h) B' d (rev (exec_layout code_start code_end data_end)) /\
    mm_brk (h_mem h) d = vmm_page_align_up data_end /\
    agree (fun x => ~ B x /\ ~ in_range (d + 8) 16 x) (v_mem v) (h_mem h).
Proof.
  intros HB Hm Hok. pose proof (exec_layout_proper _ _ _ Hok) as Hp. set (rs := exec_layout _ _ _) in *.
  assert (Forall region_proper (take 2 rs) /\ Forall region_proper (drop 2 rs)) as [Hp1 Hp2].
  { apply Forall_app. by rewrite take_drop. }
  unfold mm_setup_executable. fold rs. rewrite round_up_lnot. set (brk := vmm_page_align_up data_end).
  destruct (task_add_regions (take 2 rs) (4 + n) d v B [] HB Hm Hp1) as (h1 & B1 & E1 & HB1 & Hsub1 & Hm1 & Ha1).
  rewrite E1. cbn [mbind option_bind]. set (m2 := set_mm_brk (v_mem (set_heap v h1)) d brk).
  change (v_mem (set_heap v h1)) with (h_mem h1) in m2.
  assert (agree (fun x => ~ in_range (d + 16) 8 x) (h_mem h1) m2) as Ha2 by (by apply agree_store).
  assert (forall x, in_range (d + 8) 16 x -> ~ B1 x) as Hd.
  { intros x Hx. apply (descriptor_own _ _ _ _ x Hm1). unfold in_range, sizeof_mem_descriptor in *. lia. }
  destruct (task_add_regions (drop 2 rs) n d (set_vmem (set_heap v h1) m2) B1 (rev (take 2 rs) ++ []))
    as (h3 & B3 & E3 & HB3 & Hsub3 & Hm3 & Ha3); [| |done|].
  - apply heap_at_write; [done|]. eapply agree_sub; [exact Ha2|]. intros x Hx Hr. apply (Hd x); [unfold in_range in *; lia|done].
  - apply (task_memory_agree (h_mem h1) m2 B1 B1); [done| |done]. eapply agree_sub; [exact Ha2|].
    intros x [_ Hx] Hr. apply Hx. unfold in_range in *. lia.
  - change (v_mem (set_vmem _ m2)) with m2 in Ha3. rewrite E3. cbn [mbind option_bind].
    exists h3, B3. split; [done|]. split; [done|]. split; [auto|]. split; [exact Hm3|]. split.
    + unfold mm_brk. rewrite <- (load_agree 8 m2).
      * apply load8_store8. destruct Hok as (? & ? & _ & _ & _ & ?). destruct (align_up_range data_end); [lia..|]. unfold brk. lia.
      * eapply agree_sub; [exact Ha3|]. intros x Hx. split; [apply Hd|]; unfold in_range in *; lia.
    + transitivity (h_mem h1); [eapply agree_sub; [exact Ha1|]|transitivity m2; [eapply agree_sub; [exact Ha2|]|eapply agree_sub; [exact Ha3|]]];
        intros x [Hx Hxd]; [split; [done|]|..|split; [auto|]]; intros Hr; apply Hxd; unfold in_range in *; lia.
Qed.

(** *** Growing the stack *)

(** With no entry in the first table for [addr] nothing of the route exists. *)
Lemma task_mappable m B d rs addr :
  task_memory m B d rs -> present (load 8 m (entry_addr (as_pml4 m (mm_as m d)) (PML4_INDEX addr))) = false ->
  mappable m B (mm_as m d) addr /\
  forall x, mapping_byte m (mm_as m d) addr x -> space_byte m (mm_as m d) x.
Proof.
  intros [Hs _] Hp. set (a := mm_as m d) in *. set (e := entry_addr (as_pml4 m a) (PML4_INDEX addr)) in *.
  assert (route m (indices addr) (as_pml4 m a) = [e]) as Er.
  { unfold indices. rewrite route_cons. fold e. by rewrite Hp. }
  assert (0 <= PML4_INDEX addr < 512) as Hi by (pose proof (indices_range addr) as Hf; by inversion Hf).
  destruct (ts_pml4 _ _ _ Hs) as [Hp0 Hp1]. fold a in Hp0, Hp1.
  assert (forall x, in_range e 8 x -> in_range (as_pml4 m a) 4096 x) as He by (unfold e, entry_addr, in_range; lia).
  assert (forall x, entry_byte [e] x -> in_range e 8 x) as Hb by (intros x (f & ->%list_elem_of_singleton & Hx); done).
  split.
  - split; rewrite ?Er; try done; [apply Hs|lia| |].
    + apply clear_one; [unfold e, entry_addr; lia|]. intros x Hx%He. apply (ts_own _ _ _ Hs). by right.
    + intros x Hx. split; [apply (ts_own _ _ _ Hs); by left|]. intros Hx'%Hb%He. by apply (ts_apart _ _ _ Hs x Hx).
  - unfold mapping_byte. rewrite Er. intros x [Hx|Hx%Hb%He]; [by left|by right].
Qed.

Lemma indices_page addr : indices (vmm_page_align_down addr) = indices addr.
Proof. apply indices_vpn, vpn_align_down. Qed.

Lemma align_down_twice addr : vmm_page_align_down (vmm_page_align_down addr) = vmm_page_align_down addr.
Proof.
  rewrite !align_down_spec. replace (addr - addr mod 4096) with (addr / 4096 * 4096) by (pose proof (Z.div_mod addr 4096); lia).
  rewrite Z.mod_mul by done. lia.
Qed.

Lemma map_page_align a addr pa flags v :
  vmm_map_page_no_flush a (vmm_page_align_down addr) pa flags v = vmm_map_page_no_flush a addr pa flags v.
Proof. unfold vmm_map_page_no_flush. by rewrite align_down_twice. Qed.

(** The translation of all addresses of a mapped page. *)
Lemma page_translate v B a va pa flags vb :
  page_mapped (v_mem v) B a va (Z.lor (Z.lor pa flags) PTE_PRESENT) ->
  0 <= pa < 2 ^ 52 -> pa mod 4096 = 0 -> PTE_ADDR flags = 0 -> vpn vb = vpn va ->
  vmm_virt_to_phys a vb v = pa + vb mod 4096.
Proof.
  intros Hm Hpa Hal Hf Hv%indices_vpn.
  assert (page_mapped (v_mem v) B a vb (Z.lor (Z.lor pa flags) PTE_PRESENT)) as Hm'.
  { destruct Hm. split; rewrite ?Hv; done. }
  rewrite (mapped_translate v B a vb _ Hm') by apply present_lor. by apply pte_translate.
Qed.

(** The descriptor is not part of its address space. *)
Lemma descriptor_kept m m' B d rs :
  task_memory m B d rs -> agree (fun x => ~ B x /\ ~ space_byte m (mm_as m d) x) m m' ->
  agree (in_range d sizeof_mem_descriptor) m m'.
Proof.
  intros [_ (l & Hm & Hap)] Ha. eapply agree_sub; [exact Ha|]. intros x Hx.
  split; [apply (ma_own _ _ _ _ _ Hm); by left|]. intros Hx'. apply (Hap x Hx'). by left.
Qed.

(** Its regions and its break may change without the tables. *)
Lemma tables_kept m m' B d rs :
  task_memory m B d rs -> agree (fun x => ~ B x /\ ~ in_range (d + 8) 40 x) m m' ->
  agree (fun x => in_range d 8 x \/ space_byte m (mm_as m d) x) m m'.
Proof.
  intros [Hs (l & Hm & Hap)] Ha. eapply agree_sub; [exact Ha|]. intros x [Hx|Hx]; split.
  - apply (ma_own _ _ _ _ _ Hm). left. unfold in_range, sizeof_mem_descriptor in *. lia.
  - unfold in_range in *. lia.
  - by apply (ts_own _ _ _ Hs).
  - intros Hx'. apply (Hap x Hx). left. unfold in_range, sizeof_mem_descriptor in *. lia.
Qed.

Lemma space_kept m m' B d rs :
  task_memory m B d rs -> agree (fun x => ~ B x /\ ~ in_range (d + 8) 40 x) m m' ->
  forall x, space_byte m' (mm_as m' d) x -> space_byte m (mm_as m d) x.
Proof.
  intros Hm Ha x. destruct (task_space_agree m m' B B d (proj1 Hm) (tables_kept _ _ _ _ _ Hm Ha)) as (_ & -> & Hb); [done|].
  apply Hb.
Qed.

Lemma entries_kept m m' B d rs i :
  task_memory m B d rs -> agree (fun x => ~ B x /\ ~ in_range (d + 8) 40 x) m m' -> 0 <= i < 512 ->
  load 8 m' (entry_addr (as_pml4 m' (mm_as m' d)) i) = load 8 m (entry_addr (as_pml4 m (mm_as m d)) i).
Proof.
  intros Hm Ha Hi. pose proof (tables_kept _ _ _ _ _ Hm Ha) as Ha'.
  destruct (task_space_agree m m' B B d (proj1 Hm) Ha') as (_ & -> & _); [done|].
  assert (as_pml4 m' (mm_as m d) = as_pml4 m (mm_as m d)) as ->.
  { apply as_pml4_agree. eapply agree_sub; [exact Ha'|]. intros x Hx. right. by left. }
  symmetry. apply load_agree. eapply agree_sub; [exact Ha'|]. intros x Hx. right. right.
  unfold in_range, entry_addr in *. lia.
Qed.

(** Writing the page tables of the task. *)
Lemma task_memory_space m m' (B B' : Z -> Prop) d rs :
  task_memory m B d rs -> agree (fun x => ~ B x /\ ~ space_byte m (mm_as m d) x) m m' ->
  as_pml4 m' (mm_as m d) = as_pml4 m (mm_as m d) -> (forall x, B' x -> B x) ->
  task_memory m' B' d rs /\ mm_as m' d = mm_as m d.
Proof.
  intros [Hs (l & Hm & Hap)] Ha Ep HB. assert (agree (mm_byte d l) m m') as Hmm.
  { eapply agree_sub; [exact Ha|]. intros x Hx. split; [by apply (ma_own _ _ _ _ _ Hm)|]. intros Hx'. by apply (Hap x). }
  assert (mm_as m' d = mm_as m d) as Ed.
  { symmetry. apply load_agree. eapply agree_sub; [exact Hmm|]. intros x Hx. left.
    unfold in_range, sizeof_mem_descriptor in *. lia. }
  split; [|done]. split.
  - split; unfold space_byte; rewrite Ed, ?Ep; try apply Hs. intros x Hx Hb. by apply (ts_own _ _ _ Hs x Hx), HB.
  - exists l. split.
    + apply (mm_at_agree m m' B); [done| |done]. eapply agree_sub; [exact Hmm|]. intros x. apply list_mm_byte.
    + intros x. unfold space_byte. rewrite Ed, Ep. apply Hap.
Qed.

(** [mm_expand_stack] at an address with nothing mapped around it. *)
Lemma expand_stack_room n d addr v B rs :
  heap_at (4 + n) (v_heap v) B -> task_memory (v_mem v) B d rs -> 0 <= addr ->
  let a := mm_as (v_mem v) d in
  present (load 8 (v_mem v) (entry_addr (as_pml4 (v_mem v) a) (PML4_INDEX addr))) = false ->
  exists h p B', mm_expand_stack d addr v = (event (FlushPage (vmm_page_align_down addr)) (set_heap v h), 0) /\
    heap_at n h B' /\ (forall x, B' x -> B x) /\ task_memory (h_mem h) B' d rs /\ mm_as (h_mem h) d = a /\
    (forall x, in_range (p + hhdm_offset) 4096 x -> B x /\ ~ B' x) /\ p <> 0 /\
    (forall va, vpn va = vpn addr -> vmm_virt_to_phys a va (set_heap v h) = p + va mod 4096) /\
    agree (fun x => ~ B x /\ ~ space_byte (v_mem v) a x) (v_mem v) (h_mem h).
Proof.
  intros HB Hm Haddr a Hp. destruct (heap_at_page (3 + n) (v_heap v) B HB) as (h1 & p & B1 & E1 & Hp0 & Hal & Hlim & HB1 & Ho).
  pose proof (ho_rest _ _ _ _ _ _ Ho) as Ha1. pose proof hhdm_phys_bits. pose proof (proj1 Hm) as Hs.
  assert (task_memory (h_mem h1) B1 d rs) as Hm1.
  { eapply task_memory_agree; [exact Hm| |apply Ho]. eapply agree_sub; [exact Ha1|]. by intros x []. }
  assert (agree (space_byte (v_mem v) a) (v_mem v) (h_mem h1)) as Hsp.
  { eapply agree_sub; [exact Ha1|]. intros x. apply (ts_own _ _ _ Hs). }
  assert (as_pml4 (h_mem h1) a = as_pml4 (v_mem v) a) as Ep1 by (apply as_pml4_agree; eapply agree_sub; [exact Hsp|by left]).
  destruct (task_memory_space (v_mem v) (h_mem h1) B B1 d rs Hm) as [_ Ed1]; [|exact Ep1|apply Ho|].
  { eapply agree_sub; [exact Ha1|]. by intros x []. }
  fold a in Ed1. set (page := vmm_page_align_down addr).
  assert (PML4_INDEX page = PML4_INDEX addr) as Ei by (pose proof (indices_page addr) as Ei; by injection Ei).
  assert (0 <= PML4_INDEX addr < 512) as Hi by (pose proof (indices_range addr) as Hf; by inversion Hf).
  destruct (task_mappable (h_mem h1) B1 d rs page Hm1) as [Hmap Hmb].
  { rewrite Ed1, Ep1, Ei. rewrite <- Hp. f_equal. symmetry. apply load_agree. eapply agree_sub; [exact Hsp|].
    intros x Hx. right. unfold in_range, entry_addr in *. lia. }
  rewrite Ed1 in Hmap, Hmb. pose proof (align_down_spec addr) as Espec.
  destruct (map_page_room n a page p user_page_flags (set_heap v h1) B1 Hmap HB1)
    as (h2 & B2 & E2 & HB2 & Hsub2 & Hpm & _ & Ha2 & Ep2).
  { unfold page. rewrite Espec. pose proof (Z.mod_le addr 4096). lia. }
  { unfold page. rewrite Espec. replace (addr - addr mod 4096) with (addr / 4096 * 4096) by (pose proof (Z.div_mod addr 4096); lia).
    by apply Z.mod_mul. }
  { lia. }
  { exact Hal. }
  { by vm_compute. }
  change (v_mem (set_heap v h1)) with (h_mem h1) in *.
  destruct (task_memory_space (h_mem h1) (h_mem h2) B1 B2 d rs Hm1) as [Hm2 Ed2]; [|by rewrite Ed1|done|].
  { rewrite Ed1. eapply agree_sub; [exact Ha2|]. intros x [Hx Hx']. split; [done|]. intros Hr%Hmb. by apply Hx'. }
  exists h2, p, B2. split; [|split; [done|split; [|split; [done|split; [|split; [|split; [|split]]]]]]].
  - unfold mm_expand_stack. rewrite E1. rewrite (proj2 (Z.eqb_neq p 0)) by lia. change (v_mem (set_heap v h1)) with (h_mem h1).
    rewrite Ed1, map_page_flush, <- map_page_align. fold page. rewrite E2. reflexivity.
  - intros x Hx. by apply (ho_left _ _ _ _ _ _ Ho), Hsub2.
  - rewrite Ed2. exact Ed1.
  - intros x Hx. split; [by apply (ho_from _ _ _ _ _ _ Ho)|]. intros Hb%Hsub2. by apply (ho_apart _ _ _ _ _ _ Ho x Hb).
  - lia.
  - intros va Hva. eapply page_translate; [exact Hpm|lia|exact Hal|done|]. rewrite Hva. symmetry. apply vpn_align_down.
  - transitivity (h_mem h1); [eapply agree_sub; [exact Ha1|by intros x []]|]. eapply agree_sub; [exact Ha2|].
    intros x [Hx Hx']. split; [intros Hb; by apply Hx, (ho_left _ _ _ _ _ _ Ho)|]. intros Hr%Hmb. apply Hx'.
    unfold space_byte in Hr |- *. by rewrite Ep1 in Hr.
Qed.

End Executable.
