(* ===== verification/TaskHeap.v ===== *)
(** * Kernel tasks on the heap

    [create_kernel_task] proved against the client rules of HeapFrame: the
    fields of the new task and its first context, and the invariant
    [task_world] of the tasks, their stacks, the list of all tasks and the run
    queues, whose bytes share nothing with each other or with the heap. *)
From S2P Require Import Prelude Memory PageAlloc Slab Pmm KmallocSpec HeapFrame.
From S2P Require Import Klib KlibSpec Vmm Memmgr Lists Tasks TasksSpec TasksClaims.
Import Slab Pmm Klib Vmm Memmgr Lists Tasks.

(** ** The fields of a new kernel task *)

(** A list node that is alone. *)
Definition self_linked (m : mem) (n : Z) : Prop := next m n = n /\ prev m n = n.

(** The task [t] with kernel stack [s] is about to run [func] for the first
    time. *)
Record ready (func : Z) (m : mem) (t s : Z) : Prop := {
  rd_general i : (i < 15)%nat -> load 8 m (t + 8 * Z.of_nat i) = 0;
  rd_rip : load 8 m (t + ctx_rip) = func;
  rd_cs : load 8 m (t + ctx_cs) = 0x08;
  rd_rflags : load 8 m (t + ctx_rflags) = 0x202;
  rd_stack_ptr : load 8 m (t + ctx_stack_ptr) = w64 (s + KERNEL_STACK_SIZE);
  rd_ss : load 8 m (t + ctx_ss) = 0x10;
  rd_pid : task_pid m t = 0 /\ load 4 m (t + t_tgid) = 0;
  rd_priority : load 4 m (t + t_priority) = 99;
  rd_state : task_state m t = TASK_RUNNING;
  rd_md : task_md m t = 0;
  rd_stack : task_kernel_stack_base m t = s;
  rd_parent : task_parent m t = 0;
  rd_family : self_linked m (t + t_children) /\ self_linked m (t + t_siblings) /\
    self_linked m (t + t_zombie_children) /\ self_linked m (t + t_zombie_siblings);
}.

(** The bytes these fields occupy: all but the CPU number and the two nodes. *)
Definition own_fields (t x : Z) : Prop :=
  in_range t 168 x \/ in_range (t + t_priority) 100 x.

Lemma ready_agree func m m' t s : agree (own_fields t) m m' -> ready func m t s -> ready func m' t s.
Proof.
  intros Ha Hr.
  assert (forall n o, 0 <= o -> o + Z.of_nat n <= 168 \/ t_priority <= o /\ o + Z.of_nat n <= 272 ->
    load n m' (t + o) = load n m (t + o)) as E.
  { intros n o Ho Hn. symmetry. apply load_agree. eapply agree_sub; [exact Ha|].
    unfold own_fields, in_range, t_priority in *. lia. }
  assert (forall o, t_priority <= o /\ o + 16 <= 272 -> self_linked m (t + o) -> self_linked m' (t + o)) as Es.
  { intros o Ho [H1 H2]. unfold self_linked, next, prev in *. rewrite <- !Z.add_assoc, !E in * by (unfold t_priority in *; lia). done. }
  split; unfold task_pid, task_state, task_md, task_kernel_stack_base, task_parent;
    rewrite ?E by (unfold t_priority, ctx_rip, ctx_cs, ctx_rflags, ctx_stack_ptr, ctx_ss, t_pid, t_tgid, t_state, t_md,
      t_kernel_stack_base, t_parent; lia); try apply Hr.
  - intros i Hi. rewrite E by lia. by apply (rd_general _ _ _ _ Hr).
  - split_and!; (apply Es; [unfold t_priority, t_children, t_siblings, t_zombie_children, t_zombie_siblings; lia|apply Hr]).
Qed.

(** The stores of [create_task] and of [create_kernel_task] before it links the
    task. *)
Definition init_fields (m : mem) (task : Z) : mem :=
  let m := store 4 m (task + t_pid) 0 in
  let m := store 4 m (task + t_tgid) (load 4 m (task + t_pid)) in
  let m := store 4 m (task + t_priority) 99 in
  let m := store 1 m (task + t_state) TASK_RUNNING in
  let m := store 8 m (task + t_md) 0 in
  let m := memset m task 0 sizeof_task_context in
  let m := store 8 m (task + t_parent) 0 in
  let m := list_init m (task + t_siblings) in
  let m := list_init m (task + t_children) in
  let m := list_init m (task + t_zombie_siblings) in
  let m := list_init m (task + t_zombie_children) in
  let m := store 4 m (task + t_exit_code) 0 in
  store 4 m (task + t_exit_signal) 0.

Definition init_context (func : Z) (m : mem) (ktask stack : Z) : mem :=
  let m := store 8 m (ktask + t_kernel_stack_base) stack in
  let m := store 8 m (ktask + ctx_stack_ptr) (w64 (stack + KERNEL_STACK_SIZE)) in
  let m := store 8 m (ktask + ctx_rip) func in
  let m := store 8 m (ktask + ctx_rflags) 0x202 in
  let m := store 8 m (ktask + ctx_cs) 0x08 in
  store 8 m (ktask + ctx_ss) 0x10.

Ltac task_fields :=
  unfold task_pid, task_state, task_md, task_kernel_stack_base, task_parent, self_linked, next, prev,
    init_fields, init_context, list_init, set_next, set_prev,
    t_priority, ctx_rip, ctx_cs, ctx_rflags, ctx_stack_ptr, ctx_ss, t_pid, t_tgid, t_state, t_md,
    t_kernel_stack_base, t_parent, t_children, t_siblings, t_zombie_children, t_zombie_siblings,
    t_exit_code, t_exit_signal, sizeof_task_context, KERNEL_STACK_SIZE, PAGE_SIZE, TASK_RUNNING in *.

Lemma load_memset_ne n m buf v size a :
  0 <= size -> a + Z.of_nat n <= buf \/ buf + size <= a -> load n (memset m buf v size) a = load n m a.
Proof.
  intros Hs Hd. symmetry. apply load_agree. eapply agree_sub; [by apply memset_outside|]. unfold in_range. lia.
Qed.

Lemma init_fields_agree m t : agree (fun x => ~ in_range t sizeof_task x) m (init_fields m t).
Proof.
  unfold init_fields, list_init, set_next, set_prev.
  repeat (etransitivity; [|apply agree_store; task_fields; unfold in_range, sizeof_task; intros; lia]).
  etransitivity; [|eapply agree_sub; [by apply memset_outside|]; unfold in_range, sizeof_task, sizeof_task_context; lia].
  repeat (etransitivity; [|apply agree_store; task_fields; unfold in_range, sizeof_task; intros; lia]).
  reflexivity.
Qed.

Lemma init_context_agree func m t s : agree (fun x => ~ in_range t sizeof_task x) m (init_context func m t s).
Proof.
  unfold init_context.
  repeat (etransitivity; [|apply agree_store; task_fields; unfold in_range, sizeof_task; intros; lia]).
  reflexivity.
Qed.

Ltac task_load :=
  repeat first [rewrite load_store_ne by lia | rewrite load_memset_ne by lia | rewrite memset0_load by lia
    | rewrite load_store_same by (simpl; lia)].

(** What [create_task] sets up survives until the context is filled in, when
    the bytes of the task stay put in between. *)
Lemma init_ready func m m' t s :
  0 <= t -> t + sizeof_task <= 2 ^ 64 -> 0 <= func < 2 ^ 64 -> 0 <= s < 2 ^ 64 ->
  agree (in_range t sizeof_task) (init_fields m t) m' -> ready func (init_context func m' t s) t s.
Proof.
  intros Ht Ht2 Hf Hs Ha. unfold sizeof_task in *. pose proof (wrap_range 64 (s + KERNEL_STACK_SIZE) ltac:(lia)) as Hsp.
  assert (forall n o, 0 <= o -> o + Z.of_nat n <= 312 -> load n m' (t + o) = load n (init_fields m t) (t + o)) as E.
  { intros n o Ho Hn. symmetry. apply load_agree. eapply agree_sub; [exact Ha|]. unfold in_range. lia. }
  assert (forall o, 0 <= o <= 296 -> load 8 m' (t + o + 8) = load 8 (init_fields m t) (t + o + 8)) as E8.
  { intros o Ho. rewrite <- Z.add_assoc. apply E; lia. }
  split; task_fields.
  - intros i Hi. task_load. rewrite E by lia. task_load. done.
  - by task_load.
  - by task_load.
  - by task_load.
  - by task_load.
  - by task_load.
  - split; task_load; rewrite E by lia; rewrite ?(load_store_same 4 _ (t + 160) 0) by (simpl; lia); by task_load.
  - task_load. rewrite E by lia. by task_load.
  - task_load. rewrite E by lia. by task_load.
  - task_load. rewrite E by lia. by task_load.
  - by task_load.
  - task_load. rewrite E by lia. by task_load.
  - split_and!; task_load; rewrite ?E8, ?E by lia; by task_load.
Qed.

(** ** The world of kernel tasks *)

(** Who owns memory: the linker's list heads, and each task its struct and its
    stack; [L] holds the tasks with their stacks in the order of creation. *)
Inductive owner := AllTasks | RunQueues | TaskOf (i : nat) | StackOf (i : nat).

Section World.
Context `{Hhdm} `{Linker} `{TaskLinker} {P : Type} `{!PageAllocator P}.

Implicit Types (h : heap P) (k : kernel (P := P)) (q : nat -> list Z) (L : list (Z * Z)).

Definition region L (o : owner) : option (Z * Z) :=
  match o with
  | AllTasks => Some (all_tasks, 16)
  | RunQueues => Some (percpu_cpu_runqueue, 64)
  | TaskOf i => (fun ts => (ts.1, sizeof_task)) <$> L !! i
  | StackOf i => (fun ts => (ts.2, KERNEL_STACK_SIZE)) <$> L !! i
  end.

Definition owned L (x : Z) : Prop := exists o r, region L o = Some r /\ in_range r.1 r.2 x.

Definition all_node (ts : Z * Z) : Z := ts.1 + t_tasks.

Record task_world (n : nat) (func : Z) h (B : Z -> Prop) L q : Prop := {
  tw_heap : heap_at n h B;
  tw_all : ring (view (h_mem h)) all_tasks (map all_node L);
  tw_sched : sched_ok (h_mem h) q;
  tw_queued c t : (c < MAX_CORES)%nat -> t ∈ q c -> exists s, (t, s) ∈ L;
  tw_range o r : region L o = Some r -> 0 < r.1 /\ r.1 + r.2 <= 2 ^ 64;
  tw_apart o o' r r' : region L o = Some r -> region L o' = Some r' -> o <> o' ->
    r.1 + r.2 <= r'.1 \/ r'.1 + r'.2 <= r.1;
  tw_heapless x : owned L x -> ~ B x;
  tw_ready t s : (t, s) ∈ L -> ready func (h_mem h) t s;
}.

Lemma region_snoc L t s o r :
  region (L ++ [(t, s)]) o = Some r ->
  region L o = Some r \/ (o = TaskOf (length L) /\ r = (t, sizeof_task)) \/
  (o = StackOf (length L) /\ r = (s, KERNEL_STACK_SIZE)).
Proof.
  destruct o as [| |i|i]; simpl; [by left|by left|..]; intros (ts & E & ->)%fmap_Some;
    (apply lookup_snoc_Some in E as [[_ E]|[-> <-]]; [left; by rewrite E|right; auto]).
Qed.

Lemma region_pos L o r : region L o = Some r -> 0 < r.2.
Proof.
  destruct o as [| |i|i]; simpl; [by intros [= <-]|by intros [= <-]|..]; by intros (ts & _ & ->)%fmap_Some.
Qed.

(** Taking a task and its stack from the heap. *)
Record extended (B : Z -> Prop) (t s : Z) (B' : Z -> Prop) : Prop := {
  ex_range : 0 < t /\ t + sizeof_task <= 2 ^ 64 /\ 0 < s /\ s + KERNEL_STACK_SIZE <= 2 ^ 64;
  ex_task x : in_range t sizeof_task x -> B x;
  ex_stack x : in_range s KERNEL_STACK_SIZE x -> B x /\ ~ in_range t sizeof_task x;
  ex_left x : B' x -> B x /\ ~ in_range t sizeof_task x /\ ~ in_range s KERNEL_STACK_SIZE x;
}.

Lemma extend_regions B B' L t s :
  (forall o r, region L o = Some r -> 0 < r.1 /\ r.1 + r.2 <= 2 ^ 64) ->
  (forall o o' r r', region L o = Some r -> region L o' = Some r' -> o <> o' ->
    r.1 + r.2 <= r'.1 \/ r'.1 + r'.2 <= r.1) ->
  (forall x, owned L x -> ~ B x) -> extended B t s B' ->
  (forall o r, region (L ++ [(t, s)]) o = Some r -> 0 < r.1 /\ r.1 + r.2 <= 2 ^ 64) /\
  (forall o o' r r', region (L ++ [(t, s)]) o = Some r -> region (L ++ [(t, s)]) o' = Some r' -> o <> o' ->
    r.1 + r.2 <= r'.1 \/ r'.1 + r'.2 <= r.1) /\
  (forall x, owned (L ++ [(t, s)]) x -> ~ B' x).
Proof.
  intros Hr Ha Hh [(Ht & Ht' & Hs & Hs') HtB HsB HB'].
  assert (forall o r, region L o = Some r -> r.1 + r.2 <= t \/ t + sizeof_task <= r.1) as Hold_t.
  { intros o r E. apply ranges_apart; [by eapply region_pos|done|]. intros x Hx Hxt. apply (Hh x); [by exists o, r|auto]. }
  assert (forall o r, region L o = Some r -> r.1 + r.2 <= s \/ s + KERNEL_STACK_SIZE <= r.1) as Hold_s.
  { intros o r E. apply ranges_apart; [by eapply region_pos|done|]. intros x Hx Hxs. apply (Hh x); [by exists o, r|by apply HsB]. }
  assert (t + sizeof_task <= s \/ s + KERNEL_STACK_SIZE <= t) as Hts.
  { apply ranges_apart; [done|done|]. intros x Hx Hxs. by destruct (HsB x Hxs). }
  split_and!.
  - intros o r [E|[[-> ->]|[-> ->]]]%region_snoc; [by eapply Hr|simpl; lia..].
  - intros o o' r r' [E|[[-> ->]|[-> ->]]]%region_snoc [E'|[[-> ->]|[-> ->]]]%region_snoc Hne; simpl; try done.
    + by eapply (Ha o o').
    + apply (Hold_t o r E).
    + apply (Hold_s o r E).
    + destruct (Hold_t o' r' E'); auto.
    + destruct (Hold_s o' r' E'); auto.
    + destruct Hts; auto.
  - intros x (o & r & [E|[[-> ->]|[-> ->]]]%region_snoc & Hx) (HB & Hnt & Hns)%HB'; [|done|done].
    apply (Hh x); [by exists o, r|done].
Qed.

(** ** Nodes *)

Section Nodes.
Context {n : nat} (func : Z) (h : heap P) (B : Z -> Prop) (L : list (Z * Z)) (q : nat -> list Z).
Hypothesis W : task_world n func h B L q.

Lemma task_owned t s x : (t, s) ∈ L -> in_range t sizeof_task x -> owned L x.
Proof.
  intros [i Hi]%list_elem_of_lookup_1 Hx. exists (TaskOf i), (t, sizeof_task). simpl. by rewrite Hi.
Qed.

Lemma tasks_disjoint t s u v :
  (t, s) ∈ L -> (u, v) ∈ L -> t = u \/ t + sizeof_task <= u \/ u + sizeof_task <= t.
Proof.
  intros [i Hi]%list_elem_of_lookup_1 [j Hj]%list_elem_of_lookup_1.
  destruct (decide (i = j)) as [->|Hne]; [left; congruence|right].
  apply (tw_apart _ _ _ _ _ _ W (TaskOf i) (TaskOf j) (t, sizeof_task) (u, sizeof_task)); simpl;
    [by rewrite Hi|by rewrite Hj|congruence].
Qed.

Lemma task_linker t s :
  (t, s) ∈ L ->
  (0 < t /\ t + sizeof_task <= 2 ^ 64) /\
  (t + sizeof_task <= all_tasks \/ all_tasks + 16 <= t) /\
  (t + sizeof_task <= percpu_cpu_runqueue \/ percpu_cpu_runqueue + 64 <= t).
Proof.
  intros [i Hi]%list_elem_of_lookup_1. assert (region L (TaskOf i) = Some (t, sizeof_task)) as E by (simpl; by rewrite Hi).
  split; [|split].
  - apply (tw_range _ _ _ _ _ _ W _ _ E).
  - apply (tw_apart _ _ _ _ _ _ W (TaskOf i) AllTasks _ (all_tasks, 16) E); done.
  - apply (tw_apart _ _ _ _ _ _ W (TaskOf i) RunQueues _ (percpu_cpu_runqueue, 64) E); done.
Qed.

Lemma all_separated : separated (all_tasks :: map all_node L).
Proof.
  pose proof all_tasks_fit. split.
  - intros a [->|((t & s) & -> & Hts)%list_elem_of_fmap]%elem_of_cons; [lia|].
    destruct (task_linker t s Hts) as [? _]. unfold all_node, sizeof_task, t_tasks in *. simpl. lia.
  - intros a b [->|((t & s) & -> & Hts)%list_elem_of_fmap]%elem_of_cons
      [->|((u & v) & -> & Huv)%list_elem_of_fmap]%elem_of_cons; [by left|..]; unfold all_node; simpl.
    + destruct (task_linker u v Huv) as (_ & ? & _). unfold sizeof_task, t_tasks in *. lia.
    + destruct (task_linker t s Hts) as (_ & ? & _). unfold sizeof_task, t_tasks in *. lia.
    + destruct (tasks_disjoint t s u v Hts Huv) as [->|?]; [by left|]. unfold sizeof_task, t_tasks in *. lia.
Qed.

(** The bytes of a run-queue node, and those of a node of the list of all tasks. *)
Lemma queue_node_bytes a :
  is_node q a -> (percpu_cpu_runqueue <= a /\ a + 16 <= percpu_cpu_runqueue + 64) \/
    exists t s, (t, s) ∈ L /\ a = node t.
Proof.
  intros (c & Hc & [->|(t & Ht & ->)]).
  - left. unfold runqueue, MAX_CORES in *. lia.
  - right. destruct (tw_queued _ _ _ _ _ _ W c t Hc Ht) as [s Hs]. eauto.
Qed.

Lemma queue_all_apart a b x :
  is_node q a -> b ∈ all_tasks :: map all_node L -> in_range a 16 x -> in_range b 16 x -> False.
Proof.
  intros Ha Hb. pose proof list_heads_apart.
  apply queue_node_bytes in Ha as [Ha|(t & s & Hts & ->)];
    apply elem_of_cons in Hb as [->|((u & v) & -> & Huv)%list_elem_of_fmap];
    unfold all_node, node, in_range; simpl.
  - lia.
  - destruct (task_linker u v Huv) as (_ & _ & ?). unfold sizeof_task, t_tasks in *. lia.
  - destruct (task_linker t s Hts) as (_ & ? & _). unfold sizeof_task, t_tasks_runnable in *. lia.
  - destruct (tasks_disjoint t s u v Hts Huv) as [->|?]; unfold sizeof_task, t_tasks, t_tasks_runnable in *; lia.
Qed.

Lemma node_owned a : is_node q a \/ a ∈ all_tasks :: map all_node L -> forall x, in_range a 16 x -> owned L x.
Proof.
  intros [Ha|Ha] x Hx.
  - apply queue_node_bytes in Ha as [Ha|(t & s & Hts & ->)].
    + exists RunQueues, (percpu_cpu_runqueue, 64). split; [done|]. unfold in_range in *. simpl. lia.
    + apply (task_owned t s x Hts). unfold in_range, node, sizeof_task, t_tasks_runnable in *. lia.
  - apply elem_of_cons in Ha as [->|((t & s) & -> & Hts)%list_elem_of_fmap].
    + by exists AllTasks, (all_tasks, 16).
    + apply (task_owned t s x Hts). unfold all_node, in_range, sizeof_task, t_tasks in *. simpl in *. lia.
Qed.

(** The nodes of the list of all tasks are not among the fields of [ready]. *)
Lemma own_fields_unlinked u v b x :
  (u, v) ∈ L -> own_fields u x -> b ∈ all_tasks :: map all_node L -> ~ in_range b 16 x.
Proof.
  intros Huv Hx [->|((t & s) & -> & Hts)%list_elem_of_fmap]%elem_of_cons Hb.
  { destruct (task_linker u v Huv) as (_ & ? & _). unfold own_fields, in_range, t_priority, sizeof_task in *. lia. }
  destruct (tasks_disjoint u v t s Huv Hts) as [->|?];
    unfold own_fields, all_node, in_range, t_priority, t_tasks, sizeof_task in *; simpl in *; lia.
Qed.

(** A byte of a task that is in a node of the list of all tasks is in its own. *)
Lemma all_node_within t s b x :
  (t, s) ∈ L -> b ∈ all_tasks :: map all_node L -> in_range b 16 x -> in_range t sizeof_task x ->
  in_range (t + t_tasks) 16 x.
Proof.
  intros Hts [->|((u & v) & -> & Huv)%list_elem_of_fmap]%elem_of_cons Hb Hx.
  - destruct (task_linker t s Hts) as (_ & ? & _). unfold in_range in *. lia.
  - destruct (tasks_disjoint t s u v Hts Huv) as [->|?]; [done|].
    unfold all_node, in_range, t_tasks, sizeof_task in *. simpl in *. lia.
Qed.

(** The same for the nodes of the run queues. *)
Lemma queue_node_within t s a x :
  (t, s) ∈ L -> is_node q a -> in_range a 16 x -> in_range t sizeof_task x -> in_range (node t) 16 x.
Proof.
  intros Hts Ha Hx Hxt. apply queue_node_bytes in Ha as [Ha|(u & v & Huv & ->)].
  - destruct (task_linker t s Hts) as (_ & _ & ?). unfold in_range in *. lia.
  - destruct (tasks_disjoint t s u v Hts Huv) as [->|?]; [done|].
    unfold node, in_range, t_tasks_runnable, sizeof_task in *. lia.
Qed.

(** A field of [u] that is a byte of [t]. *)
Lemma own_fields_same t s u v x :
  (t, s) ∈ L -> (u, v) ∈ L -> own_fields u x -> in_range t sizeof_task x -> u = t.
Proof.
  intros Hts Huv Hx Hxt. destruct (tasks_disjoint t s u v Hts Huv) as [->|?]; [done|].
  unfold own_fields, in_range, t_priority, sizeof_task in *. lia.
Qed.
End Nodes.

(** ** Creating a task *)

(** The memory after the task is linked. *)
Definition task_mem (func : Z) (m : mem) (t s : Z) : mem :=
  list_add_tail (list_init (init_context func m t s) (t + t_tasks_runnable)) (t + t_tasks) all_tasks.

Lemma create_kernel_task_eval fuel func k h1 t h2 s :
  kmalloc fuel sizeof_task (v_heap (k_vmm k)) = Some (h1, t) -> t <> 0 ->
  kmalloc fuel KERNEL_STACK_SIZE (set_mem h1 (init_fields (h_mem h1) t)) = Some (h2, s) -> s <> 0 ->
  create_kernel_task fuel func k = Some (set_kheap k (set_mem h2 (task_mem func (h_mem h2) t s)), t).
Proof.
  intros E1 Ht E2 Hs. unfold create_kernel_task, create_task, kmalloc_k. rewrite E1. cbn [mbind option_bind].
  rewrite (proj2 (Z.eqb_neq t 0)) by done. cbn [mbind option_bind]. rewrite (proj2 (Z.eqb_neq t 0)) by done.
  match goal with |- context [kmalloc _ KERNEL_STACK_SIZE ?h] =>
    change h with (set_mem h1 (init_fields (h_mem h1) t)) end.
  rewrite E2. cbn [mbind option_bind]. by rewrite (proj2 (Z.eqb_neq s 0)).
Qed.

Lemma node_bytes_owned n func h B L q x :
  task_world n func h B L q -> node_bytes (all_tasks :: map all_node L) x -> owned L x.
Proof. intros W (a & Ha & Hx). eapply (node_owned func h B L q W a); eauto. Qed.

Lemma link_world n n' func h B L q m1 h2 B' t s :
  task_world n func h B L q -> 0 <= func < 2 ^ 64 -> extended B t s B' -> heap_at n' h2 B' ->
  agree (owned L) (h_mem h) (h_mem h2) -> agree (in_range t sizeof_task) (init_fields m1 t) (h_mem h2) ->
  task_world n' func (set_mem h2 (task_mem func (h_mem h2) t s)) B' (L ++ [(t, s)]) q /\
  agree (fun x => ~ in_range t sizeof_task x /\ ~ node_bytes (all_tasks :: map all_node L) x)
    (h_mem h2) (task_mem func (h_mem h2) t s).
Proof.
  intros W Hf Hex HB Hold Hnew. pose proof Hex as [(Ht & Ht' & Hs & Hs') HtB HsB HB'].
  destruct (extend_regions B B' L t s) as (Hr & Ha & Hh); [apply W|apply W|apply W|done|].
  assert (forall x, owned L x -> ~ in_range t sizeof_task x) as Htn.
  { intros x Hx Hxt. by apply (tw_heapless _ _ _ _ _ _ W x Hx), HtB. }
  unfold task_mem. set (m3 := init_context func (h_mem h2) t s).
  set (m4 := list_init m3 (t + t_tasks_runnable)).
  assert (agree (fun x => ~ in_range t sizeof_task x) (h_mem h2) m4) as Ha4.
  { etransitivity; [apply init_context_agree|]. fold m3. eapply agree_sub; [apply list_init_spec|];
      unfold t_tasks_runnable, in_range, sizeof_task in *; lia. }
  assert (agree (owned L) (h_mem h) m4) as Ho4.
  { etransitivity; [exact Hold|]. eapply agree_sub; [exact Ha4|exact Htn]. }
  assert (ring (view m4) all_tasks (map all_node L)) as Hring.
  { eapply ring_agree; [|apply W]. eapply agree_sub; [exact Ho4|]. intros x Hx. by eapply node_bytes_owned. }
  assert (forall a, a ∈ all_tasks :: map all_node L -> a + 16 <= t \/ t + sizeof_task <= a) as Hnodes.
  { intros a Hin. apply ranges_apart; [done|done|]. intros x Hx. apply Htn.
    eapply (node_owned func h B L q W a); eauto. }
  assert (separated ((t + t_tasks) :: all_tasks :: map all_node L)) as Hsep.
  { destruct (all_separated func h B L q W) as [S1 S2]. split.
    - intros a [->|Ha']%elem_of_cons; [unfold t_tasks, sizeof_task in *; lia|by apply S1].
    - intros a b [->|Ha']%elem_of_cons [->|Hb']%elem_of_cons; [by left|..|by apply S2].
      + destruct (Hnodes b Hb'); unfold t_tasks, sizeof_task in *; lia.
      + destruct (Hnodes a Ha'); unfold t_tasks, sizeof_task in *; lia. }
  destruct (list_add_tail_spec m4 (t + t_tasks) all_tasks (map all_node L) Hsep) as [Hring5 Ha5]; [|done|].
  { intros Hin. destruct (Hnodes _ Hin); unfold t_tasks, sizeof_task in *; lia. }
  set (m5 := list_add_tail m4 (t + t_tasks) all_tasks) in *.
  assert (agree (fun x => ~ in_range t sizeof_task x /\ ~ node_bytes (all_tasks :: map all_node L) x) (h_mem h2) m5) as Ha25.
  { etransitivity; [eapply agree_sub; [exact Ha4|by intros x []]|]. eapply agree_sub; [exact Ha5|].
    intros x [Hx1 Hx2] (a & [->|Hin]%elem_of_cons & Hx); [|by apply Hx2; exists a].
    apply Hx1. unfold in_range, t_tasks, sizeof_task in *. lia. }
  split; [|done]. split; try done.
  - apply heap_at_write; [done|]. eapply agree_sub; [exact Ha25|]. intros x (HxB & Hxt & _)%HB'.
    split; [done|]. intros Hx. apply (tw_heapless _ _ _ _ _ _ W x); [by eapply node_bytes_owned|done].
  - by rewrite map_app.
  - eapply sched_ok_agree; [|apply W]. etransitivity; [eapply agree_sub; [exact Ho4|]|eapply agree_sub; [exact Ha5|]].
    + intros x (a & Hn & Hx). eapply (node_owned func h B L q W a); eauto.
    + intros x (a & Hn & Hx) (b & [->|Hb]%elem_of_cons & Hxb).
      * apply (Htn x); [eapply (node_owned func h B L q W a); eauto|].
        unfold in_range, t_tasks, sizeof_task in *. lia.
      * by eapply (queue_all_apart func h B L q W a b x).
  - intros c u Hc Hu. destruct (tw_queued _ _ _ _ _ _ W c u Hc Hu) as [v Hv]. exists v. set_solver.
  - intros u v [Huv|[= -> ->]%list_elem_of_singleton]%elem_of_app.
    + eapply ready_agree; [|by apply (tw_ready _ _ _ _ _ _ W)].
      assert (forall x, own_fields u x -> in_range u sizeof_task x) as Hfld.
      { unfold own_fields, in_range, t_priority, sizeof_task. lia. }
      etransitivity; [eapply agree_sub; [exact Ho4|]|eapply agree_sub; [exact Ha5|]].
      * intros x Hx%Hfld. by eapply task_owned.
      * intros x Hx (b & [->|Hb]%elem_of_cons & Hxb).
        -- apply (Htn x); [eapply task_owned; eauto|]. unfold in_range, t_tasks, sizeof_task in *. lia.
        -- by eapply (own_fields_unlinked func h B L q W u v b x).
    + eapply ready_agree; [|apply (init_ready func m1 (h_mem h2) t s); [lia|done|done|split;[lia|]|done]].
      2:{ assert (0 < KERNEL_STACK_SIZE) by done. lia. }
      fold m3. etransitivity; [eapply agree_sub; [apply (list_init_spec m3 (t + t_tasks_runnable));
          unfold t_tasks_runnable, sizeof_task in *; lia|]|eapply agree_sub; [exact Ha5|]].
      * intros x Hx. unfold own_fields, in_range, t_priority, t_tasks_runnable in *. lia.
      * intros x Hx (b & [->|Hb]%elem_of_cons & Hxb).
        -- unfold own_fields, in_range, t_priority, t_tasks in *. lia.
        -- destruct (Hnodes b Hb); unfold own_fields, in_range, t_priority, sizeof_task in *; lia.
Qed.

Lemma world_new_fresh n func h B L q t s : task_world n func h B (L ++ [(t, s)]) q -> forall v, (t, v) ∉ L.
Proof.
  intros W v [i Hi]%list_elem_of_lookup_1. pose proof (lookup_lt_Some _ _ _ Hi).
  assert (sizeof_task = 312) by done.
  destruct (tw_apart _ _ _ _ _ _ W (TaskOf i) (TaskOf (length L)) (t, sizeof_task) (t, sizeof_task)); simpl in *; try lia.
  - rewrite lookup_app_l by done. by rewrite Hi.
  - by rewrite lookup_app_r, Nat.sub_diag by lia.
  - intros [= ->]. lia.
Qed.

(** ** With room in the heap *)

(** [create_kernel_task] takes the struct and the stack from the heap and adds
    the task to the world, and touches nothing else but the list of all tasks. *)
Lemma create_kernel_task_spec n func k B L q :
  task_world (2 + n) func (v_heap (k_vmm k)) B L q -> 0 <= func < 2 ^ 64 ->
  exists h' B' t s, create_kernel_task 64 func k = Some (set_kheap k h', t) /\ 0 < t /\
    task_world n func h' B' (L ++ [(t, s)]) q /\ extended B t s B' /\
    agree (fun x => ~ B x /\ ~ node_bytes (all_tasks :: map all_node L) x) (k_mem k) (h_mem h').
Proof.
  intros W Hf. set (h := v_heap (k_vmm k)) in *.
  destruct (heap_at_room (S n) sizeof_task h B (tw_heap _ _ _ _ _ _ W)) as (h1 & t & B1 & E1 & Ht & HB1 & Ho1); [done..|].
  set (m1 := init_fields (h_mem h1) t).
  assert (heap_at (S n) (set_mem h1 m1) B1) as HB1'.
  { apply heap_at_write; [done|]. eapply agree_sub; [apply init_fields_agree|]. intros x Hx. by apply (ho_apart _ _ _ _ _ _ Ho1). }
  destruct (heap_at_room n KERNEL_STACK_SIZE (set_mem h1 m1) B1 HB1') as (h2 & s & B2 & E2 & Hs & HB2 & Ho2); [done..|].
  destruct (ho_pos _ _ _ _ _ _ Ho1) as [Ht1 Ht2]. destruct (ho_pos _ _ _ _ _ _ Ho2) as [Hs1 Hs2].
  assert (extended B t s B2) as Hex.
  { split; [lia|apply (ho_from _ _ _ _ _ _ Ho1)|..].
    - intros x Hx%(ho_from _ _ _ _ _ _ Ho2). split; [by apply (ho_left _ _ _ _ _ _ Ho1)|by apply (ho_apart _ _ _ _ _ _ Ho1)].
    - intros x Hx. pose proof (ho_left _ _ _ _ _ _ Ho2 x Hx) as Hx1. split_and!;
        [by apply (ho_left _ _ _ _ _ _ Ho1)|by apply (ho_apart _ _ _ _ _ _ Ho1)|by apply (ho_apart _ _ _ _ _ _ Ho2)]. }
  assert (agree (fun x => ~ B x) (h_mem h) (h_mem h2)) as Hframe.
  { etransitivity; [apply (ho_rest _ _ _ _ _ _ Ho1)|]. etransitivity.
    - eapply agree_sub; [apply init_fields_agree|]. intros x Hx Hxt. by apply Hx, (ho_from _ _ _ _ _ _ Ho1).
    - eapply agree_sub; [apply (ho_rest _ _ _ _ _ _ Ho2)|]. intros x Hx Hx1. by apply Hx, (ho_left _ _ _ _ _ _ Ho1). }
  destruct (link_world _ n func h B L q (h_mem h1) h2 B2 t s W Hf Hex HB2) as [W' Ha].
  { eapply agree_sub; [exact Hframe|]. apply (tw_heapless _ _ _ _ _ _ W). }
  { eapply agree_sub; [apply (ho_rest _ _ _ _ _ _ Ho2)|]. intros x Hx Hx1. by apply (ho_apart _ _ _ _ _ _ Ho1 x Hx1). }
  exists (set_mem h2 (task_mem func (h_mem h2) t s)), B2, t, s. split_and!; try done.
  - by apply create_kernel_task_eval with h1.
  - etransitivity; [eapply agree_sub; [exact Hframe|by intros x []]|]. eapply agree_sub; [exact Ha|].
    intros x [Hx Hn]. split; [|done]. intros Hxt. by apply Hx, (ho_from _ _ _ _ _ _ Ho1).
Qed.
End World.
