(* ===== verification/Boot.v ===== *)
(** * Boot: operations

    Models src/kernel/kernel/kernel.c ([_start]) and
    src/kernel/arch/x86_64/smp/smp.c ([smp_init], [ap_entry_point],
    [boot_idle_task]).  The boot processor prepares the tasks alone; from the
    loop of [smp_init] on it runs together with the processors it starts, so
    that part is a step relation: [bsp_step] is one turn of the loop or the
    final [schedule], [ap_step] the work of [ap_entry_point] up to its next
    access to shared data. *)
From Stdlib Require Import String.
From S2P Require Import Prelude Memory PageAlloc Slab Pmm Klib Vmm Memmgr Locks Lists Tasks Console Klog Devices.
From S2P Require Import Descr Buddy BuddyProofs BuddySpec Interrupts.
Import Slab Pmm Klib Vmm Memmgr Lists Tasks Devices Descr Interrupts.

(** The address of [boot_idle_task]. *)
Class BootLinker := {
  boot_idle_task_addr : Z;
  boot_idle_task_range : 0 <= boot_idle_task_addr < 2 ^ 64;
}.

Module Boot.

(** struct limine_smp_response: the LAPIC numbers of the boot processor and of
    all processors. *)
Record limine_smp_response := mk_smp_response { bsp_lapic_id : Z; lapic_ids : list Z }.

Definition cpu_count (r : limine_smp_response) : Z := Z.of_nat (length (lapic_ids r)).

(** Where a processor is.  A processor whose GS base was never set has no
    number ([None]): reading it accesses address 0. *)
Inductive ap_phase :=
  | Parked                            (** waiting in the boot loader *)
  | Entered                           (** [goto_address] is set *)
  | Tables                            (** after [init_gdt] and [reload_idt] *)
  | Numbered (core : option Z)        (** after [init_percpu_data] *)
  | TimerSet (core : option Z)        (** before [schedule] *)
  | Runs (core : nat) (task : Z)      (** [load_next_task] *)
  | Stopped                           (** [hcf] *)
  | Faulted.

Inductive bsp_phase :=
  | BspLoop (i : nat) (core : option Z)   (** before turn [i] *)
  | BspRuns (core : nat) (task : Z)
  | BspFaulted.

Section Smp.
Context `{Platform} `{Hhdm} `{Linker} `{TaskLinker} `{DescrLinker} `{BootLinker} {P : Type} `{!PageAllocator P}.

Implicit Types (k : kernel (P := P)) (d : dev).

(** The state all processors share; the local APIC of the boot processor is
    [m_dev]. *)
Record machine := mk_machine {
  m_kernel : kernel (P := P);
  m_idtr : idt_ptr;
  percpu_processor_ids : list Z;
  cpu_id_ctr : Z;
  total_cpus : Z;
  m_dev : dev;
}.

Implicit Types s : machine.

Definition set_kernel s k : machine :=
  mk_machine k (m_idtr s) (percpu_processor_ids s) (cpu_id_ctr s) (total_cpus s) (m_dev s).
Definition set_mdev s d : machine :=
  mk_machine (m_kernel s) (m_idtr s) (percpu_processor_ids s) (cpu_id_ctr s) (total_cpus s) d.
Definition set_total s (n : Z) : machine :=
  mk_machine (m_kernel s) (m_idtr s) (percpu_processor_ids s) (cpu_id_ctr s) n (m_dev s).

(** [init_percpu_data(cpu_id_ctr++)] under its lock. *)
Definition take_number s : machine * option Z :=
  let '(ids, ctr, core) := register_cpu (percpu_processor_ids s) (cpu_id_ctr s) in
  (mk_machine (m_kernel s) (m_idtr s) ids ctr (total_cpus s) (m_dev s), core).

(** Device accesses of the boot processor. *)
Definition on_dev {A} (c : io A) s : option (machine * A) :=
  '(d, a) ← c (m_dev s); Some (set_mdev s d, a).

Definition create_idle fuel s : option (machine * Z) :=
  '(k, t) ← create_and_schedule_kernel_task fuel boot_idle_task_addr (m_kernel s);
  Some (set_kernel s k, t).

(** [smp_init] up to its loop. *)
Definition smp_prepare (fuel : nat) (r : limine_smp_response) s : option machine :=
  '(s, _) ← on_dev (klog Klog.Success "Found %lu CPUs\n" [Num (cpu_count r)];;
                    apic_timer_init_cpu (bsp_lapic_id r);;
                    apic_timer_set_frequency 100) s;
  let s := set_total s (s32 (cpu_count r)) in
  k ← init_task_ctr (Z.to_nat (total_cpus s)) (m_kernel s);
  let s := set_kernel s k in
  '(s, task1) ← create_idle fuel s;
  '(s, task2) ← create_idle fuel s;
  '(s, task3) ← create_idle fuel s;
  '(s, task4) ← create_idle fuel s;
  '(s, task5) ← create_idle fuel s;
  let cpu t := Num (task_cpu_id (k_mem (m_kernel s)) t) in
  '(s, _) ← on_dev (klog Klog.Success "Successfully created tasks for CPU IDs: %d %d %d %d\n"
                      [cpu task1; cpu task2; cpu task3; cpu task4]) s;
  Some s.

(** A processor of the boot loader's list, with its own local APIC. *)
Record cpu := mk_cpu_slot { lapic_id : Z; phase : ap_phase; cpu_dev : dev }.

Record config := mk_config { shared : machine; bsp : bsp_phase; cpus : list cpu }.

(** [schedule] on the processor with number [core]. *)
Definition schedule_on (core : option Z) s : machine * option (nat * Z) :=
  match core with
  | None => (s, None)
  | Some c => let '(k, t) := schedule (Z.to_nat c) (m_kernel s) in (set_kernel s k, Some (Z.to_nat c, t))
  end.

(** One turn of the loop, then [schedule]. *)
Definition bsp_step (bsp_lapic_id : Z) (c : config) : option config :=
  match bsp c with
  | BspLoop i core =>
    match cpus c !! i with
    | Some p =>
      if lapic_id p =? bsp_lapic_id then
        let '(s, core) := take_number (shared c) in Some (mk_config s (BspLoop (S i) core) (cpus c))
      else
        '(s, _) ← on_dev (kprintf "Starting CPU %lu (LAPIC ID: %u)\n" [Num (Z.of_nat i); Num (lapic_id p)]) (shared c);
        Some (mk_config s (BspLoop (S i) core) (<[i := mk_cpu_slot (lapic_id p) Entered (cpu_dev p)]> (cpus c)))
    | None =>
      let '(s, r) := schedule_on core (shared c) in
      Some (mk_config s (match r with Some (n, t) => BspRuns n t | None => BspFaulted end) (cpus c))
    end
  | _ => None
  end.

(** The processor at index [i] runs on with the globals of the machine. *)
Definition local_dev (p : cpu) s : dev :=
  mk_dev (hist (cpu_dev p)) (apic_base (m_dev s)) (apic_timer_frequency (m_dev s)) (cpu_cycles_per_10ms (m_dev s)).

Definition ap_entry (p : cpu) s : option (machine * dev * ap_phase) :=
  let d := local_dev p s in
  match phase p with
  | Entered =>
    '(m, d) ← init_gdt (k_mem (m_kernel s)) d;
    '(d, _) ← reload_idt (m_idtr s) d;
    Some (set_kernel s (set_kmem (m_kernel s) m), d, Tables)
  | Tables => let '(s, core) := take_number s in Some (s, d, Numbered core)
  | Numbered core =>
    '(d, r) ← apic_timer_init_cpu (lapic_id p) d;
    if negb (r =? 0) then
      '(d, _) ← klog Klog.Error "Failed to initialize APIC timer on CPU %u\n" [Num (lapic_id p)] d;
      Some (s, d, Stopped)
    else
      '(d, _) ← apic_timer_set_frequency 100 d;
      Some (s, d, TimerSet core)
  | TimerSet core =>
    let '(s, r) := schedule_on core s in
    Some (s, d, match r with Some (n, t) => Runs n t | None => Faulted end)
  | _ => None
  end.

Definition ap_step (i : nat) (c : config) : option config :=
  p ← cpus c !! i;
  '(s, d, ph) ← ap_entry p (shared c);
  Some (mk_config s (bsp c) (<[i := mk_cpu_slot (lapic_id p) ph d]> (cpus c))).

(** One step of some processor. *)
Inductive boot_step (r : limine_smp_response) : config -> config -> Prop :=
  | bsp_moves c c' : bsp_step (bsp_lapic_id r) c = Some c' -> boot_step r c c'
  | ap_moves i c c' : ap_step i c = Some c' -> boot_step r c c'.

(** What [smp_init] leads to: it returns at once without a response. *)
Inductive smp_outcome := SingleCore (s : machine) | Booting (c : config).

Definition smp_init (fuel : nat) (response : option limine_smp_response) s : option smp_outcome :=
  match response with
  | None => '(s, _) ← on_dev (kprintf "MP not available, running single-core\n" []) s; Some (SingleCore s)
  | Some r =>
    s ← smp_prepare fuel r s;
    Some (Booting (mk_config s (BspLoop 0 None)
      (map (fun id => mk_cpu_slot id Parked (mk_dev [] 0 0 0)) (lapic_ids r))))
  end.

(** The first and only action of a boot task before it spins. *)
Definition boot_idle_task (core : nat) k : io unit :=
  apic_timer_enable;;
  kprintf "Core: %d, TASK PID: %d\n" [Num (Z.of_nat core); Num (task_pid (k_mem k) (get_current_task core k))].

End Smp.

(** ** kernel.c *)

Section Start.
Context `{Platform} `{Hhdm} `{Linker} `{TaskLinker} `{DescrLinker} `{BootLinker}.

(** What the boot loader hands over: whether it supports the base revision, its
    framebuffers, the memory map, the processors and the loaded page table. *)
Record boot_info := mk_boot_info {
  revision_supported : bool;
  framebuffers : option (list Framebuffer.framebuffer);
  memmap : list Buddy.memmap_entry;
  smp_response : option limine_smp_response;
  boot_cr3 : Z;
}.

Inductive start_outcome := StartHalted | Started (tty : Tty.terminal) (o : smp_outcome (P := Buddy.buddy_state)).

(** The kernel's static data before [_start]. *)
Definition bss_terminal (fb : option Framebuffer.framebuffer) (m : mem) : Tty.terminal :=
  Tty.mk_term fb 0 0 0 0 0 0 (replicate Tty.TERM_CELLS (Tty.mk_cell 0 0 0)) m.

Definition _start (fuel wait : nat) (b : boot_info) (m : mem) : option start_outcome :=
  if negb (revision_supported b) then Some StartHalted else
  let '(fb, r) := Framebuffer.fb_init (framebuffers b) in
  if negb (r =? 0) then Some StartHalted else
  let m := Framebuffer.fb_clear fb 0x000000 m in
  tty ← Tty.terminal_initialize 0xFFFFFF 0x000035 (bss_terminal fb m);
  let m := Tty.t_mem tty in
  '(d, _) ← klog Klog.Success "Terminal initialized properly\n" [] (mk_dev [] 0 0 0);
  '(m, d) ← init_gdt m d;
  '(m, idtr, d) ← init_idt m d;
  '(m, pages) ← Buddy.buddy_allocator_init (memmap b) m Buddy.buddy_boot;
  let h := mk_heap m pages slab_allocator_init in
  '(v, r) ← vmm_init fuel (mk_vmm h 0 0 (boot_cr3 b) []);
  '(d, _) ← (if negb (r =? 0) then klog Klog.Error "Failed to initialize virtual memory manager\n" []
             else klog Klog.Success "Virtual memory manager initialized properly\n" []) d;
  '(v, d, _) ← apic_global_init wait v d;
  let v := set_vmem v (apic_timer_register_handler (v_mem v)) in
  '(d, _) ← reload_idt idtr d;
  let k := scheduler_init (mk_kernel v 1 (replicate MAX_CORES 0) (replicate MAX_CORES 0)) in
  o ← smp_init fuel (smp_response b) (mk_machine k idtr (replicate MAX_CORES 0) 0 0 d);
  Some (Started tty o).

End Start.

End Boot.
