(* ===== verification/BootSpec.v ===== *)
(** * Boot: the tasks the boot processor prepares *)
From Stdlib Require Import String.
From S2P Require Import Prelude Memory PageAlloc Slab Pmm KmallocSpec HeapFrame.
From S2P Require Import Klib KlibSpec Vmm Memmgr Lists Tasks TasksSpec TasksClaims TaskHeap.
From S2P Require Import Console Klog Devices DevicesSpec TimerSpec Descr DescrSpec Interrupts Boot.
Import Slab Pmm Klib Vmm Memmgr Lists Tasks Devices Descr Boot.

Section Queueing.
Context `{Hhdm} `{Linker} `{TaskLinker} {P : Type} `{!PageAllocator P}.

Implicit Types (h : heap P) (k : kernel (P := P)) (q : nat -> list Z) (L : list (Z * Z)).

(** Queueing a task of the world that is in no run queue. *)
Lemma schedule_world n func h B L q t s c :
  task_world n func h B L q -> (t, s) ∈ L -> (forall d, (d < MAX_CORES)%nat -> t ∉ q d) -> (c < MAX_CORES)%nat ->
  let m := sched_task t c (store 4 (h_mem h) (t + t_cpu_id) (Z.of_nat c)) in
  task_world n func (set_mem h m) B L (enqueue q c t) /\ task_cpu_id m t = Z.of_nat c /\
  agree (fun x => ~ in_range t sizeof_task x /\ ~ (exists a, is_node q a /\ in_range a 16 x)) (h_mem h) m.
Proof.
  intros W Hts Hn Hc m. set (m1 := store 4 (h_mem h) (t + t_cpu_id) (Z.of_nat c)).
  destruct (task_linker func h B L q W t s Hts) as ([Ht Ht'] & _ & Hrq).
  assert (agree (fun x => ~ in_range (t + t_cpu_id) 4 x) (h_mem h) m1) as Ha1 by (by apply agree_store).
  assert (forall a, is_node q a -> a + 16 <= t \/ t + sizeof_task <= a) as Hnodes.
  { intros a Ha. pose proof Ha as (d & Hd & [->|(u & Hu & ->)]).
    - unfold runqueue, MAX_CORES in *. lia.
    - destruct (tw_queued _ _ _ _ _ _ W d u Hd Hu) as [v Hv].
      destruct (tasks_disjoint func h B L q W t s u v Hts Hv) as [->|?]; [by destruct (Hn d Hd)|].
      unfold node, t_tasks_runnable, sizeof_task in *. lia. }
  assert (sched_ok m1 q) as Hs1.
  { eapply sched_ok_agree; [|apply W]. eapply agree_sub; [exact Ha1|]. intros x (a & Ha & Hx).
    destruct (Hnodes a Ha); unfold in_range, t_cpu_id, sizeof_task in *; lia. }
  assert (enqueueable q t) as Hen.
  { split_and!; [done|unfold node, t_tasks_runnable, sizeof_task in *; lia|]. intros a Ha.
    destruct (Hnodes a Ha); unfold node, t_tasks_runnable, sizeof_task in *; lia. }
  destruct (sched_task_ok m1 q c t Hs1 Hc Hen) as [Hs2 Ha2]. fold m1 in m. fold m in Hs2, Ha2.
  assert (forall x, owned L x -> ~ B x) as Hless by apply W.
  assert (forall x, in_range (t + t_cpu_id) 4 x -> in_range t sizeof_task x) as Hcpu
    by (unfold in_range, t_cpu_id, sizeof_task; lia).
  assert (forall x, in_range (node t) 16 x -> in_range t sizeof_task x) as Hnode
    by (unfold in_range, node, t_tasks_runnable, sizeof_task; lia).
  assert (agree (fun x => ~ in_range (t + t_cpu_id) 4 x /\ ~ in_range (node t) 16 x /\
      ~ exists a, is_node q a /\ in_range a 16 x) (h_mem h) m) as Ha.
  { etransitivity; [eapply agree_sub; [exact Ha1|by intros x []]|eapply agree_sub; [exact Ha2|]]. naive_solver. }
  split_and!.
  - split; try apply W.
    + apply heap_at_write; [apply W|]. eapply agree_sub; [exact Ha|]. intros x Hx.
      split_and!; [intros Hr%Hcpu|intros Hr%Hnode|intros (a & Hn' & Hr)]; (apply (Hless x); [|done]).
      * by apply (task_owned L t s).
      * by apply (task_owned L t s).
      * eapply (node_owned func h B L q W a); eauto.
    + eapply ring_agree; [|apply W]. eapply agree_sub; [exact Ha|]. intros x (b & Hb & Hx). split_and!.
      * intros Hr. pose proof (all_node_within func h B L q W t s b x Hts Hb Hx (Hcpu x Hr)).
        unfold in_range, t_cpu_id, t_tasks in *. lia.
      * intros Hr. pose proof (all_node_within func h B L q W t s b x Hts Hb Hx (Hnode x Hr)).
        unfold in_range, node, t_tasks_runnable, t_tasks in *. lia.
      * intros (a & Hn' & Hr). by eapply (queue_all_apart func h B L q W a b x).
    + done.
    + intros d u Hd [Hu|[-> ->]]%elem_enqueue; [by apply (tw_queued _ _ _ _ _ _ W d)|eauto].
    + intros u v Huv. eapply ready_agree; [|by apply (tw_ready _ _ _ _ _ _ W)].
      eapply agree_sub; [exact Ha|]. intros x Hx. split_and!.
      * intros Hr. rewrite (own_fields_same func h B L q W t s u v x Hts Huv Hx (Hcpu x Hr)) in Hx.
        unfold own_fields, in_range, t_cpu_id, t_priority in *. lia.
      * intros Hr. rewrite (own_fields_same func h B L q W t s u v x Hts Huv Hx (Hnode x Hr)) in Hx.
        unfold own_fields, in_range, node, t_tasks_runnable, t_priority in *. lia.
      * intros (a & Hn' & Hr). assert (in_range (node u) 16 x) as Hu.
        { apply (queue_node_within func h B L q W u v a x); try done.
          unfold own_fields, in_range, t_priority, sizeof_task in *. lia. }
        unfold own_fields, in_range, node, t_tasks_runnable, t_priority in *. lia.
  - unfold task_cpu_id. rewrite <- (load_agree 4 m1 m).
    + unfold m1. rewrite load_store_same by (simpl; unfold MAX_CORES in Hc; lia). apply swrap_small; unfold MAX_CORES in Hc; lia.
    + eapply agree_sub; [exact Ha2|]. intros x Hx [Hr|(a & Hn' & Hr)].
      * unfold in_range, node, t_tasks_runnable, t_cpu_id in *. lia.
      * destruct (Hnodes a Hn'); unfold in_range, t_cpu_id, sizeof_task in *; lia.
  - eapply agree_sub; [exact Ha|]. intros x [Hx Hq]. split_and!; auto.
Qed.
End Queueing.

(** ** Creating and queueing *)

Section Creating.
Context `{Hhdm} `{Linker} `{TaskLinker} {P : Type} `{!PageAllocator P}.

Implicit Types (h : heap P) (k : kernel (P := P)) (q : nat -> list Z) (L : list (Z * Z)).

(** The counters after [find_least_busy_cpu] and the CPU it chose. *)
Definition next_cpu (c : list Z) : list Z * nat :=
  let id := least_loop (MAX_CORES - 1) 1 c 0 (nth 0 c 0) in (<[id := s32 (nth id c 0 + 1)]> c, id).

(** The world of a kernel, with its counters. *)
Definition kernel_world (n : nat) (func : Z) k (B : Z -> Prop) L q (c : list Z) : Prop :=
  task_world n func (v_heap (k_vmm k)) B L q /\ percpu_task_counter k = c.

Lemma create_and_schedule_spec n func k B L q c :
  kernel_world (2 + n) func k B L q c -> 0 <= func < 2 ^ 64 -> ((next_cpu c).2 < MAX_CORES)%nat ->
  exists k' B' t s, create_and_schedule_kernel_task 64 func k = Some (k', t) /\
    kernel_world n func k' B' (L ++ [(t, s)]) (enqueue q (next_cpu c).2 t) (next_cpu c).1 /\
    percpu_current_task k' = percpu_current_task k /\ kernel_as (k_vmm k') = kernel_as (k_vmm k) /\
    (forall x, B' x -> B x) /\ (forall x, owned (L ++ [(t, s)]) x -> B x \/ owned L x) /\
    agree (fun x => ~ B x /\ ~ owned L x) (k_mem k) (k_mem k').
Proof.
  intros [W Hc] Hf Hid.
  destruct (create_kernel_task_spec n func k B L q W Hf) as (h' & B' & t & s & E & Ht & W' & Hex & Ha).
  assert (forall d, (d < MAX_CORES)%nat -> t ∉ q d) as Hn.
  { intros d Hd Hin. destruct (tw_queued _ _ _ _ _ _ W d t Hd Hin) as [v Hv].
    by apply (world_new_fresh n func h' B' L q t s W' v). }
  destruct (schedule_world n func h' B' (L ++ [(t, s)]) q t s (next_cpu c).2 W') as (W2 & _ & Ha2); [set_solver|done|done|].
  unfold create_and_schedule_kernel_task. rewrite E. cbn [mbind option_bind]. unfold find_least_busy_cpu.
  change (percpu_task_counter (set_kheap k h')) with (percpu_task_counter k). rewrite Hc.
  eexists _, B', t, s. split; [reflexivity|]. split_and!.
  - split; [exact W2|done].
  - done.
  - done.
  - intros x Hx. by apply (ex_left _ _ _ _ Hex).
  - intros x (o & r & [Eo|[[-> ->]|[-> ->]]]%region_snoc & Hx).
    + right. by exists o, r.
    + left. by apply (ex_task _ _ _ _ Hex).
    + left. by apply (ex_stack _ _ _ _ Hex).
  - etransitivity; [eapply agree_sub; [exact Ha|]|eapply agree_sub; [exact Ha2|]].
    + intros x [Hx Ho]. split; [done|]. intros Hb. apply Ho. by eapply node_bytes_owned.
    + intros x [Hx Ho]. split.
      * intros Hxt. by apply Hx, (ex_task _ _ _ _ Hex).
      * intros (a & Hn' & Hr'). apply Ho. eapply (node_owned func (v_heap (k_vmm k)) B L q W a); eauto.
Qed.

(** [scheduler_init] starts the world without tasks. *)
Lemma start_world n func k B :
  heap_at n (v_heap (k_vmm k)) B ->
  (forall x, in_range all_tasks 16 x \/ in_range percpu_cpu_runqueue 64 x -> ~ B x) ->
  task_world n func (v_heap (k_vmm (scheduler_init k))) B [] (fun _ => []) /\
  agree (fun x => ~ in_range all_tasks 16 x /\ ~ in_range percpu_cpu_runqueue 64 x)
    (k_mem k) (k_mem (scheduler_init k)).
Proof.
  intros HB Hl. destruct (scheduler_init_spec k) as (Hs & Hr & _).
  pose proof all_tasks_fit as [? ?]. pose proof percpu_cpu_runqueue_fit as [? ?].
  assert (agree (fun x => ~ in_range all_tasks 16 x /\ ~ in_range percpu_cpu_runqueue 64 x)
    (k_mem k) (k_mem (scheduler_init k))) as Ha.
  { change (k_mem (scheduler_init k)) with
      (fold_left (fun m i => list_init m (runqueue i)) (seq 0 MAX_CORES) (list_init (k_mem k) all_tasks)).
    etransitivity; [eapply agree_sub; [apply (list_init_spec _ all_tasks); lia|by intros x []]|].
    eapply agree_sub; [apply init_queues_spec; [apply NoDup_seq|intros c Hc%elem_of_seq; lia]|].
    intros x [_ Hx] c Hc%elem_of_seq Hr'. apply Hx. unfold runqueue, in_range, MAX_CORES in *. lia. }
  split; [|done]. change (v_heap (k_vmm (scheduler_init k))) with (set_mem (v_heap (k_vmm k)) (k_mem (scheduler_init k))).
  split; try done.
  - apply heap_at_write; [done|]. eapply agree_sub; [exact Ha|]. intros x Hx. split; intros Hr'; apply (Hl x); auto.
  - intros c t _ Ht. by apply elem_of_nil in Ht.
  - intros o r Ho. destruct o; simpl in Ho; try done; injection Ho as <-; simpl; lia.
  - pose proof list_heads_apart. intros o o' r r' Ho Ho' Hne. destruct o, o'; simpl in *; try done;
      injection Ho as <-; injection Ho' as <-; simpl; lia.
  - intros x (o & r & Ho & Hx). destruct o; simpl in Ho; try done; injection Ho as <-; apply Hl; auto.
  - intros t s Hts. by apply elem_of_nil in Hts.
Qed.

(** *** The five boot tasks *)

(** The queues after [smp_prepare]. *)
Definition boot_queues (q : nat -> list Z) (ts : list Z) : Prop :=
  exists t1 t2 t3 t4 t5, ts = [t1; t2; t3; t4; t5] /\
    q 0%nat = [t1; t5] /\ q 1%nat = [t2] /\ q 2%nat = [t3] /\ q 3%nat = [t4].
End Creating.

Section Prepare.
Context `{Hhdm} `{Linker} `{TaskLinker} `{BootLinker} {P : Type} `{!PageAllocator P}.

Implicit Types (s : machine (P := P)) (L : list (Z * Z)) (B : Z -> Prop).

(** The part of the machine the creation of tasks leaves alone. *)
Definition same_setup s s' : Prop :=
  m_idtr s' = m_idtr s /\ percpu_processor_ids s' = percpu_processor_ids s /\ cpu_id_ctr s' = cpu_id_ctr s /\
  percpu_current_task (m_kernel s') = percpu_current_task (m_kernel s) /\
  apic_base (m_dev s') = apic_base (m_dev s) /\ apic_timer_frequency (m_dev s') = apic_timer_frequency (m_dev s) /\
  kernel_as (k_vmm (m_kernel s')) = kernel_as (k_vmm (m_kernel s)).

(** From [s] with heap [B] and tasks [L] to [s']. *)
Record grown s B L s' B' L' : Prop := {
  gr_setup : same_setup s s';
  gr_total : total_cpus s' = total_cpus s;
  gr_heap x : B' x -> B x;
  gr_owned x : owned L' x -> B x \/ owned L x;
  gr_frame : agree (fun x => ~ B x /\ ~ owned L x) (k_mem (m_kernel s)) (k_mem (m_kernel s'));
}.

Lemma grown_trans s B L s1 B1 L1 s2 B2 L2 :
  grown s B L s1 B1 L1 -> grown s1 B1 L1 s2 B2 L2 -> grown s B L s2 B2 L2.
Proof.
  intros [(A1 & A2 & A3 & A4 & A5 & A6 & A7) T1 HB1 O1 F1] [(C1 & C2 & C3 & C4 & C5 & C6 & C7) T2 HB2 O2 F2]. split.
  - unfold same_setup. split_and!; congruence.
  - congruence.
  - auto.
  - intros x [Hx|Hx]%O2; [left; auto|auto].
  - etransitivity; [exact F1|]. eapply agree_sub; [exact F2|]. intros x [Hx Ho]. split; [auto|].
    intros [?|?]%O1; auto.
Qed.

Lemma create_idle_spec n s B L q c :
  kernel_world (2 + n) boot_idle_task_addr (m_kernel s) B L q c -> ((next_cpu c).2 < MAX_CORES)%nat ->
  exists s' B' t v, create_idle 64 s = Some (s', t) /\
    kernel_world n boot_idle_task_addr (m_kernel s') B' (L ++ [(t, v)]) (enqueue q (next_cpu c).2 t) (next_cpu c).1 /\
    grown s B L s' B' (L ++ [(t, v)]).
Proof.
  intros W Hid.
  destruct (create_and_schedule_spec _ _ _ _ _ _ _ W boot_idle_task_range Hid)
    as (k' & B' & t & v & E & W' & Hcur & Has & HB & Ho & Ha).
  unfold create_idle. rewrite E. exists (set_kernel s k'), B', t, v. split_and!; try done.
Qed.

Lemma init_counters n : (n <= 4)%nat -> init_ctr_loop n 0 (replicate MAX_CORES 0) = Some (replicate MAX_CORES 0).
Proof. intros Hn. do 5 (destruct n as [|n]; [reflexivity|]). lia. Qed.
End Prepare.

(** [smp_init] up to its loop: with room for five tasks and their
    stacks the tasks exist and are spread over the four queues. *)
Lemma smp_prepare_spec `{ApicReadback} `{Hhdm} `{Linker} `{TaskLinker} `{BootLinker}
    {P : Type} `{!PageAllocator P} n r (s : machine (P := P)) B :
  kernel_world (10 + n) boot_idle_task_addr (m_kernel s) B [] (fun _ => []) (replicate MAX_CORES 0) ->
  (length (lapic_ids r) <= MAX_CORES)%nat ->
  apic_base (m_dev s) <> 0 -> 0 <= apic_timer_frequency (m_dev s) < 2 ^ 32 ->
  exists s' B' L q, smp_prepare 64 r s = Some s' /\
    kernel_world n boot_idle_task_addr (m_kernel s') B' L q [2; 1; 1; 1] /\ boot_queues q (map fst L) /\
    total_cpus s' = cpu_count r /\ grown (set_total s (cpu_count r)) B [] s' B' L.
Proof.
  intros W Hlen Hb Hf. unfold smp_prepare, on_dev.
  set (d0 := log_event (m_dev s) (Log Klog.Success "Found %lu CPUs\n" [Num (cpu_count r)])).
  destruct (apic_timer_init_cpu_correct (bsp_lapic_id r) d0) as (d1 & x & E1 & Hb1 & Hf1 & _).
  destruct (apic_timer_set_frequency_correct 100 d1) as (d2 & E2 & Hb2 & Hf2 & _).
  { rewrite Hb1. done. }
  { lia. }
  { rewrite Hf1. done. }
  unfold klog. rewrite emit_bind. fold d0. rewrite (bind_eq _ _ _ _ _ E1), E2. cbn [mbind option_bind].
  assert (cpu_count r = s32 (cpu_count r)) as Ecount.
  { symmetry. apply swrap_small; unfold cpu_count, MAX_CORES in *; lia. }
  rewrite <- Ecount. cbn [set_total total_cpus].
  assert (Z.to_nat (cpu_count r) = length (lapic_ids r)) as -> by (unfold cpu_count; lia).
  destruct W as [W Hc]. change (m_kernel (set_total (set_mdev s d2) _)) with (m_kernel s).
  unfold init_task_ctr. rewrite Hc, init_counters by done. cbn [mbind option_bind].
  set (s0 := set_kernel _ _).
  assert (kernel_world (10 + n) boot_idle_task_addr (m_kernel s0) B [] (fun _ => []) (replicate MAX_CORES 0)) as W0 by done.
  assert (grown (set_total s (cpu_count r)) B [] s0 B []) as G0.
  { split; try done; [|auto]. unfold same_setup. split_and!; try done; cbn; [by rewrite Hb2, Hb1|by rewrite Hf2, Hf1]. }
  clearbody s0.
  destruct (create_idle_spec (8 + n) s0 B _ _ _ W0) as (s1 & B1 & t1 & v1 & C1 & W1 & G1); [vm_compute; lia|].
  pose proof (grown_trans _ _ _ _ _ _ _ _ _ G0 G1) as G01. clear G0 G1 W0.
  destruct (create_idle_spec (6 + n) s1 B1 _ _ _ W1) as (s2 & B2 & t2 & v2 & C2 & W2 & G2); [vm_compute; lia|].
  pose proof (grown_trans _ _ _ _ _ _ _ _ _ G01 G2) as G02. clear G01 G2 W1.
  destruct (create_idle_spec (4 + n) s2 B2 _ _ _ W2) as (s3 & B3 & t3 & v3 & C3 & W3 & G3); [vm_compute; lia|].
  pose proof (grown_trans _ _ _ _ _ _ _ _ _ G02 G3) as G03. clear G02 G3 W2.
  destruct (create_idle_spec (2 + n) s3 B3 _ _ _ W3) as (s4 & B4 & t4 & v4 & C4 & W4 & G4); [vm_compute; lia|].
  pose proof (grown_trans _ _ _ _ _ _ _ _ _ G03 G4) as G04. clear G03 G4 W3.
  destruct (create_idle_spec n s4 B4 _ _ _ W4) as (s5 & B5 & t5 & v5 & C5 & W5 & G5); [vm_compute; lia|].
  pose proof (grown_trans _ _ _ _ _ _ _ _ _ G04 G5) as G05. clear G04 G5 W4.
  rewrite C1. cbn [mbind option_bind]. rewrite C2. cbn [mbind option_bind]. rewrite C3. cbn [mbind option_bind].
  rewrite C4. cbn [mbind option_bind]. rewrite C5. cbn [mbind option_bind]. rewrite emit_end. cbn [mbind option_bind].
  eexists _, B5, _, _. split; [reflexivity|]. split_and!.
  - exact W5.
  - exists t1, t2, t3, t4, t5. split_and!; done.
  - exact (gr_total _ _ _ _ _ _ G05).
  - eapply grown_trans; [exact G05|]. split; try done; auto.
Qed.
