(* ===== verification/BootClock.v ===== *)
(** * The clock at boot

    The first wait of the kernel calibrates the clock it waits on.  The number
    of device accesses until then is bounded ([grows]), so the time stamp
    counter is early enough for the wait to end, whichever way the clock was
    calibrated. *)
From Stdlib Require Import String.
From S2P Require Import Prelude Memory PageAlloc Slab Pmm Klib Vmm Console Klog Devices DevicesSpec TimerSpec.
Import Vmm Devices.

(** ** Counting accesses *)

Section Counting.
Context `{Platform}.

(** [c] adds at most [n] events to the history. *)
Definition grows (n : nat) {A} (c : io A) : Prop :=
  forall d d' a, c d = Some (d', a) -> (length (hist d') <= length (hist d) + n)%nat.

Lemma grows_ret {A} (a : A) : grows 0 (mret a).
Proof. intros d d' b [= <- <-]. lia. Qed.

Lemma grows_get {A} (f : dev -> A) : grows 0 (get f).
Proof. intros d d' b [= <- <-]. lia. Qed.

Lemma grows_emit e : grows 1 (emit_event e).
Proof. intros d d' b [= <- <-]. cbn [hist]. rewrite length_app. cbn. lia. Qed.

Lemma grows_cycles c : grows 0 (set_cycles c).
Proof. intros d d' b [= <- <-]. cbn. lia. Qed.

Lemma grows_bind n k {A B} (c : io A) (f : A -> io B) :
  grows n c -> (forall a, grows k (f a)) -> grows (n + k) (c ≫= f).
Proof.
  intros Hc Hf d d' b. unfold mbind, io_bind. destruct (c d) as [[d1 a]|] eqn:E; [|done].
  intros E'. specialize (Hc d d1 a E). specialize (Hf a d1 d' b E'). lia.
Qed.

Lemma grows_le n k {A} (c : io A) : (n <= k)%nat -> grows n c -> grows k c.
Proof. intros Hle Hc d d' a E. specialize (Hc d d' a E). lia. Qed.

Lemma grows_if (b : bool) n k {A} (c1 c2 : io A) : grows n c1 -> grows k c2 -> grows (n + k) (if b then c1 else c2).
Proof. intros H1 H2. destruct b; [apply (grows_le n)|apply (grows_le k)]; done || lia. Qed.

Lemma grows_cpuid leaf : grows 1 (cpuid leaf).
Proof. apply (grows_bind 1 0); [apply grows_emit|intros; apply grows_ret]. Qed.

Lemma grows_tsc : grows 1 get_cpu_cycles.
Proof. apply (grows_bind 0 1); [apply grows_get|intros h]. apply (grows_bind 1 0); [apply grows_emit|intros; apply grows_ret]. Qed.

Lemma grows_rtc reg : grows 3 (read_rtc_register reg).
Proof.
  apply (grows_bind 1 2); [apply grows_emit|intros _]. apply (grows_bind 1 1); [apply grows_emit|intros _].
  apply (grows_bind 0 1); [apply grows_get|intros h]. apply (grows_bind 1 0); [apply grows_emit|intros; apply grows_ret].
Qed.

(** Adds up the accesses of a program without loops. *)
Ltac count :=
  unfold kprintf, klog;
  repeat first
    [ apply grows_ret | apply grows_get | apply grows_emit | apply grows_cycles | apply grows_cpuid | apply grows_tsc
    | apply grows_rtc | eapply grows_bind; [|intros ?] | apply grows_if | progress cbv beta zeta ].

Lemma grows_update fuel : grows (3 * fuel) (rtc_wait_update fuel).
Proof.
  induction fuel as [|fuel IH]; [done|]. cbn [rtc_wait_update]. eapply grows_le; [|count; exact IH]. lia.
Qed.

Lemma grows_second fuel s : forall c, grows (3 * fuel) (rtc_wait_second fuel s c).
Proof.
  induction fuel as [|fuel IH]; intros c; [done|]. cbn [rtc_wait_second]. eapply grows_le; [|count; apply IH]. lia.
Qed.

Lemma grows_freqs l : forall i, grows (length l) (print_freqs i l).
Proof.
  induction l as [|[s c] l IH]; intros i; cbn [print_freqs length]; [apply grows_ret|].
  eapply grows_le; [|count; apply IH]. lia.
Qed.

(** Every wait for the real-time clock polls it at most [fuel] times. *)
Lemma grows_calibrate fuel : grows (9 * fuel + 32) (calibrate_cpu_timing fuel).
Proof.
  unfold calibrate_cpu_timing, get_cpu_frequency_mhz, calibrate_with_rtc, calibrate_with_known_frequencies.
  eapply grows_le; [|count; first [apply grows_update|apply grows_second|apply grows_freqs]].
  cbn. lia.
Qed.
End Counting.

(** ** The first wait *)

(** The platform keeps time: the clocks advance, and until [n] events of the
    history the counter is [span] below its limit; [wait] bounds the loops. *)
Record keeps_time `{Platform} (wait n : nat) : Prop := {
  kt_rtc : exists K, rtc_alive K /\ (S K < wait)%nat;
  kt_tsc : exists rate limit, tsc_advances rate limit /\
    (forall c, 0 < c <= Z.max (cpuid_mhz * 10000) 100000000 ->
       c <= rate * Z.of_nat (pred wait) /\ forall h, (length h <= n + 9 * wait)%nat -> tsc h + c <= limit);
}.

Section FirstWait.
Context `{Platform}.

Lemma wait_calibrates fuel d d' :
  cpu_cycles_per_10ms d = 0 -> calibrate_cpu_timing fuel d = Some (d', tt) -> cpu_cycles_per_10ms d' <> 0 ->
  cpu_wait_10ms fuel d = cpu_wait_10ms fuel d'.
Proof.
  intros Hd E Hd'. unfold cpu_wait_10ms. rewrite !get_bind, Hd, (proj2 (Z.eqb_neq (cpu_cycles_per_10ms d') 0)) by done.
  cbn [Z.eqb]. by rewrite (bind_eq _ _ _ _ _ E).
Qed.

(** The first [cpu_wait_10ms] returns. *)
Lemma first_wait wait n d :
  keeps_time wait n -> cpu_cycles_per_10ms d = 0 -> (length (hist d) + 32 <= n)%nat ->
  exists d', cpu_wait_10ms wait d = Some (d', tt) /\ same_apic d d'.
Proof.
  intros [(K & HK & Hw) (rate & limit & Hadv & Hc)] Hd Hlen.
  destruct (calibrate_cpu_timing_spec K wait d HK Hw Hd) as (d1 & E1 & Hs1 & Hcyc).
  pose proof (grows_calibrate wait d d1 tt E1) as Hg.
  assert (0 < cpu_cycles_per_10ms d1 <= Z.max (cpuid_mhz * 10000) 100000000) as Hc1.
  { destruct (Z.ltb_spec 0 cpuid_mhz); lia. }
  rewrite (wait_calibrates wait d d1 Hd E1) by lia. destruct (Hc _ Hc1) as [Hrate Hlim].
  assert (wait = S (pred wait)) as Ew by lia. rewrite Ew.
  destruct (cpu_wait_10ms_correct rate limit (pred wait) d1 Hadv) as (d' & j & E & _ & _ & _ & Hs & _); [lia|apply Hlim; lia|].
  exists d'. split; [exact E|]. by etransitivity.
Qed.

(** Calibrating the APIC timer returns, with a count of ticks per second. *)
Lemma first_calibration wait n d :
  keeps_time wait n -> cpu_cycles_per_10ms d = 0 -> apic_base d <> 0 -> (length (hist d) + 36 <= n)%nat ->
  exists d', apic_timer_calibrate wait d = Some (d', tt) /\ apic_base d' = apic_base d /\
    0 <= apic_timer_frequency d' < 2 ^ 32.
Proof.
  intros Hk Hd Hb Hlen. unfold apic_timer_calibrate. run_apic. set (d1 := log_event _ (ApicWrite APIC_TIMER_INITIAL _)).
  destruct (first_wait wait n d1) as (d2 & E & (Hb2 & _)); [done|done|unfold d1; fields; rewrite !length_app; cbn; lia|].
  rewrite (bind_eq _ _ _ _ _ E). assert (apic_base d2 <> 0) as Hb2' by (rewrite Hb2; unfold d1; by fields). run_apic.
  eexists. split; [reflexivity|]. fields. split; [by rewrite Hb2; unfold d1; fields|]. apply (wrap_range 32). lia.
Qed.
End FirstWait.
