(* ===== verification/Startup.v ===== *)
(** * Start-up: the protocol of the processors

    What the interleaved start-up of Boot.v comes down to: [plan_step] lets a
    waiting processor take the next number and a processor that holds a number
    start the first task of its queue.  The invariant [plan_ok] of this machine
    says that the numbers in use are those below [taken], each used once. *)
From S2P Require Import Prelude Tasks.
Import Tasks.

(** ** Lists with optional marks *)

Section Marks.
Context {A B : Type} (f : A -> option B).

Implicit Types l : list A.

Lemma omap_head a l : omap f (a :: l) = match f a with Some b => b :: omap f l | None => omap f l end.
Proof. done. Qed.

Lemma omap_same l i x y : l !! i = Some x -> f x = f y -> omap f (<[i := y]> l) = omap f l.
Proof.
  revert i. induction l as [|a l IH]; intros [|i] Hi E; simplify_eq/=; [by rewrite <- E|by rewrite IH|..].
Qed.

Lemma omap_mark l i x y b :
  l !! i = Some x -> f x = None -> f y = Some b -> omap f (<[i := y]> l) ≡ₚ b :: omap f l.
Proof.
  revert i. induction l as [|a l IH]; intros [|i] Hi Ex Ey; simplify_eq/=; [by rewrite Ex, Ey|].
  destruct (f a); rewrite (IH i) by done; [apply Permutation_swap|done].
Qed.

Lemma omap_length l : (length (omap f l) <= length l)%nat.
Proof. induction l as [|a l IH]; [done|]. rewrite omap_head. destruct (f a); simpl; lia. Qed.

Lemma omap_short l i x : l !! i = Some x -> f x = None -> (length (omap f l) < length l)%nat.
Proof.
  revert i. induction l as [|a l IH]; intros [|i] Hi Ex; rewrite ?omap_head; simpl in Hi; simplify_eq.
  - rewrite Ex. pose proof (omap_length l). simpl. lia.
  - pose proof (IH i Hi Ex). destruct (f a); simpl; lia.
Qed.

Lemma omap_unmarked l i x : l !! i = Some x -> length (omap f l) = length l -> exists b, f x = Some b.
Proof.
  intros Hi Hl. destruct (f x) as [b|] eqn:E; [eauto|]. pose proof (omap_short l i x Hi E). lia.
Qed.

Lemma omap_unique l i j x y b :
  NoDup (omap f l) -> l !! i = Some x -> l !! j = Some y -> f x = Some b -> f y = Some b -> i = j.
Proof.
  revert i j. induction l as [|a l IH]; intros [|i] [|j] Hn Hi Hj Ex Ey; simplify_eq/=; [done|..].
  - rewrite Ex in Hn. apply NoDup_cons in Hn as [[] _]. apply list_elem_of_omap.
    exists y. split; [by eapply list_elem_of_lookup_2|done].
  - rewrite Ey in Hn. apply NoDup_cons in Hn as [[] _]. apply list_elem_of_omap.
    exists x. split; [by eapply list_elem_of_lookup_2|done].
  - f_equal. apply (IH i j); try done. destruct (f a); [by apply NoDup_cons in Hn as [_ ?]|done].
Qed.
End Marks.

(** ** The protocol *)

Inductive stage := Waiting | Holding (n : nat) | Running (n : nat) (t : Z).

(** The numbers given out, the current task of each number, and the stage of
    each processor of the boot loader's list. *)
Record plan := mk_plan { taken : nat; on_cpu : list Z; stages : list stage }.

Definition stage_number (s : stage) : option nat :=
  match s with Waiting => None | Holding n | Running n _ => Some n end.

Section Protocol.
Context (first : nat -> Z).

Inductive plan_step : plan -> plan -> Prop :=
  | takes i k cur l :
    l !! i = Some Waiting -> plan_step (mk_plan k cur l) (mk_plan (S k) cur (<[i := Holding k]> l))
  | starts i n k cur l :
    l !! i = Some (Holding n) ->
    plan_step (mk_plan k cur l) (mk_plan k (<[n := first n]> cur) (<[i := Running n (first n)]> l)).

Record plan_ok (p : plan) : Prop := {
  po_numbers : omap stage_number (stages p) ≡ₚ seq 0 (taken p);
  po_count : (length (stages p) <= MAX_CORES)%nat;
  po_cpus : length (on_cpu p) = MAX_CORES;
  po_fresh n : (taken p <= n < MAX_CORES)%nat -> on_cpu p !! n = Some 0;
  po_idle i n : stages p !! i = Some (Holding n) -> on_cpu p !! n = Some 0;
  po_running i n t : stages p !! i = Some (Running n t) -> t = first n /\ on_cpu p !! n = Some t;
}.

(** A number in use. *)
Lemma number_taken p i s n :
  plan_ok p -> stages p !! i = Some s -> stage_number s = Some n -> (n < taken p)%nat.
Proof.
  intros Hp Hi En. assert (n ∈ seq 0 (taken p)) as Hin%elem_of_seq; [|lia].
  rewrite <- (po_numbers p Hp). apply list_elem_of_omap. exists s. split; [by eapply list_elem_of_lookup_2|done].
Qed.

Lemma taken_stages p : plan_ok p -> length (omap stage_number (stages p)) = taken p.
Proof. intros Hp. by rewrite (po_numbers p Hp), length_seq. Qed.

Lemma taken_bound p : plan_ok p -> (taken p <= MAX_CORES)%nat.
Proof.
  intros Hp. rewrite <- (taken_stages p Hp). etransitivity; [apply omap_length|apply (po_count p Hp)].
Qed.

(** While somebody waits there is a number left. *)
Lemma taken_waiting p i : plan_ok p -> stages p !! i = Some Waiting -> (taken p < MAX_CORES)%nat.
Proof.
  intros Hp Hi. rewrite <- (taken_stages p Hp). pose proof (omap_short stage_number _ _ _ Hi eq_refl).
  pose proof (po_count p Hp). lia.
Qed.

Lemma number_bound p i s n :
  plan_ok p -> stages p !! i = Some s -> stage_number s = Some n -> (n < MAX_CORES)%nat.
Proof. intros Hp Hi En. pose proof (number_taken p i s n Hp Hi En). pose proof (taken_bound p Hp). lia. Qed.

Lemma number_unique p i j s s' n :
  plan_ok p -> stages p !! i = Some s -> stages p !! j = Some s' ->
  stage_number s = Some n -> stage_number s' = Some n -> i = j.
Proof.
  intros Hp. apply omap_unique. rewrite (po_numbers p Hp). apply NoDup_seq.
Qed.

Lemma plan_step_ok p p' : plan_ok p -> plan_step p p' -> plan_ok p'.
Proof.
  intros Hp Hstep. destruct Hstep as [i k cur l Hi|i n k cur l Hi].
  - pose proof (taken_waiting _ _ Hp Hi) as Hk. simpl in Hk. destruct Hp as [H1 H2 H3 H4 H5 H6]. cbn [stages taken on_cpu] in *.
    split; cbn [stages taken on_cpu]; [|by rewrite length_insert|done|..].
    + rewrite (omap_mark stage_number _ _ _ (Holding k) k Hi eq_refl eq_refl), H1.
      rewrite seq_S, Permutation_app_comm. done.
    + intros n Hn. apply H4. lia.
    + intros j n [(-> & [= <-] & _)|[_ Hj]]%list_lookup_insert_Some; [apply H4; lia|by eapply H5].
    + intros j n t [(_ & ? & _)|[_ Hj]]%list_lookup_insert_Some; [done|by eapply H6].
  - pose proof (number_taken _ _ _ _ Hp Hi eq_refl) as Hn. simpl in Hn.
    pose proof (number_bound _ _ _ _ Hp Hi eq_refl) as Hc.
    assert (forall j s, j <> i -> l !! j = Some s -> stage_number s <> Some n) as Hother.
    { intros j s Hji Hj Es. apply Hji. by apply (number_unique _ _ _ _ _ n Hp Hj Hi). }
    destruct Hp as [H1 H2 H3 H4 H5 H6]. cbn [stages taken on_cpu] in *.
    split; cbn [stages taken on_cpu]; [|by rewrite length_insert|by rewrite length_insert|..].
    + by rewrite (omap_same stage_number _ _ _ (Running n (first n)) Hi eq_refl).
    + intros j Hj. rewrite list_lookup_insert_ne by lia. apply H4. lia.
    + intros j m [(_ & ? & _)|[Hne Hj]]%list_lookup_insert_Some; [done|].
      assert (m <> n) as Hm by (intros ->; by eapply (Hother j)). rewrite list_lookup_insert_ne by done. by eapply H5.
    + intros j m t [(-> & [= <- <-] & _)|[Hne Hj]]%list_lookup_insert_Some.
      * split; [done|]. by rewrite list_lookup_insert_eq by lia.
      * assert (m <> n) as Hm by (intros ->; by eapply (Hother j)).
        rewrite list_lookup_insert_ne by done. by eapply H6.
Qed.

(** Before anybody has taken a number. *)
Lemma plan_start n :
  (n <= MAX_CORES)%nat -> plan_ok (mk_plan 0 (replicate MAX_CORES 0) (replicate n Waiting)).
Proof.
  intros Hn. split; cbn [stages taken on_cpu]; try done.
  - induction n as [|n IH]; [done|]. simpl. apply IH. lia.
  - by rewrite length_replicate.
  - intros i Hi. by rewrite lookup_replicate_2 by lia.
  - by intros i m [? _]%lookup_replicate.
  - by intros i m t [? _]%lookup_replicate.
Qed.
End Protocol.
