(* ===== verification/StartupSpec.v ===== *)
(** * Start-up: the processors follow the protocol

    A simulation between the configurations of Boot.v and the protocol of
    Startup.v: every step of a processor is a step of the protocol or changes
    only what the protocol does not see, whatever the interleaving. *)
From Stdlib Require Import String.
From S2P Require Import Prelude Memory PageAlloc Slab Pmm KmallocSpec HeapFrame.
From S2P Require Import Klib Vmm Memmgr Lists Tasks TasksSpec TasksClaims TaskHeap.
From S2P Require Import Console Klog Devices DevicesSpec TimerSpec Descr DescrSpec Interrupts Boot BootSpec Startup.
Import Slab Pmm Klib Vmm Memmgr Lists Tasks Devices Descr Boot.

(** ** Writes outside the world *)

Lemma world_write `{Hhdm} `{Linker} `{TaskLinker} {P : Type} `{!PageAllocator P}
    n func (h : heap P) B L q m :
  task_world n func h B L q -> agree (fun x => B x \/ owned L x) (h_mem h) m -> task_world n func (set_mem h m) B L q.
Proof.
  intros W Ha.
  assert (agree (owned L) (h_mem h) m) as Ho by (eapply agree_sub; [exact Ha|by right]).
  split; try apply W.
  - apply heap_at_write; [apply W|]. eapply agree_sub; [exact Ha|by left].
  - eapply ring_agree; [|apply W]. eapply agree_sub; [exact Ho|]. intros x Hx. by eapply node_bytes_owned.
  - eapply sched_ok_agree; [|apply W]. eapply agree_sub; [exact Ho|]. intros x (a & Hn & Hx).
    eapply (node_owned func h B L q W a); eauto.
  - intros t s Hts. eapply ready_agree; [|by apply (tw_ready _ _ _ _ _ _ W)]. eapply agree_sub; [exact Ho|].
    intros x Hx. eapply task_owned; [done..|].
    unfold own_fields, in_range, t_priority, sizeof_task in *. lia.
Qed.

Section Simulation.
Context `{ApicReadback} `{Hhdm} `{Linker} `{TaskLinker} `{DescrLinker} `{BootLinker} {P : Type} `{!PageAllocator P}.
Context (r : limine_smp_response) (B : Z -> Prop) (L : list (Z * Z)) (q : nat -> list Z).

Implicit Types (s : machine (P := P)) (c : config (P := P)) (p : plan).

Definition first_task (n : nat) : Z := default 0 (head (q n)).

(** The turn the boot processor has reached in its loop. *)
Definition turn c : nat := match bsp c with BspLoop i _ => i | _ => length (cpus c) end.

(** The boot processor at index [i] of the list, and the others. *)
Definition bsp_shows (b : bsp_phase) (i : nat) (st : stage) : Prop :=
  match b with
  | BspLoop j None => (j <= i)%nat /\ st = Waiting
  | BspLoop j (Some z) => (i < j)%nat /\ exists n, z = Z.of_nat n /\ st = Holding n
  | BspRuns n t => st = Running n t
  | BspFaulted => False
  end.

Definition ap_shows (turn i : nat) (ph : ap_phase) (st : stage) : Prop :=
  match ph with
  | Parked => (turn <= i)%nat /\ st = Waiting
  | Entered | Tables => (i < turn)%nat /\ st = Waiting
  | Numbered (Some z) | TimerSet (Some z) => (i < turn)%nat /\ exists n, z = Z.of_nat n /\ st = Holding n
  | Runs n t => (i < turn)%nat /\ st = Running n t
  | _ => False
  end.

Definition shows (turn : nat) (b : bsp_phase) (i : nat) (u : cpu) (st : stage) : Prop :=
  if lapic_id u =? bsp_lapic_id r then phase u = Parked /\ bsp_shows b i st else ap_shows turn i (phase u) st.

(** The state all processors share. *)
Record shared_ok s p : Prop := {
  sh_world : task_world 0 boot_idle_task_addr (v_heap (k_vmm (m_kernel s))) B L q;
  sh_taken : cpu_id_ctr s = Z.of_nat (taken p);
  sh_current : percpu_current_task (m_kernel s) = on_cpu p;
  sh_apic : apic_base (m_dev s) <> 0 /\ 0 <= apic_timer_frequency (m_dev s) < 2 ^ 32;
}.

Record boots c p : Prop := {
  bt_shared : shared_ok (shared c) p;
  bt_ids : map lapic_id (cpus c) = lapic_ids r;
  bt_turn : (turn c <= length (cpus c))%nat;
  bt_length : length (stages p) = length (cpus c);
  bt_shows i u st : cpus c !! i = Some u -> stages p !! i = Some st -> shows (turn c) (bsp c) i u st;
}.

Hypothesis Hids : NoDup (lapic_ids r).
Hypothesis Hbsp : bsp_lapic_id r ∈ lapic_ids r.
Hypothesis Hfirst : forall n, (n < MAX_CORES)%nat -> q n <> [].
Hypothesis Hapart : forall x, in_range gdt_addr 56 x \/ in_range tss_addr 104 x -> ~ B x /\ ~ owned L x.

Lemma bsp_slot c p i j u v :
  boots c p -> cpus c !! i = Some u -> cpus c !! j = Some v ->
  lapic_id u = bsp_lapic_id r -> lapic_id v = bsp_lapic_id r -> i = j.
Proof.
  intros Hb Hi Hj Eu Ev. apply (NoDup_lookup (lapic_ids r) i j (bsp_lapic_id r)); [done|..];
    rewrite <- (bt_ids _ _ Hb); change (map lapic_id (cpus c)) with (lapic_id <$> cpus c); rewrite list_lookup_fmap.
  - by rewrite Hi, <- Eu.
  - by rewrite Hj, <- Ev.
Qed.

Lemma bsp_listed c p : boots c p -> exists i u, cpus c !! i = Some u /\ lapic_id u = bsp_lapic_id r.
Proof.
  intros Hb. pose proof Hbsp as Hin. rewrite <- (bt_ids _ _ Hb) in Hin.
  apply list_elem_of_fmap in Hin as (u & Eu & [i Hi]%list_elem_of_lookup_1). eauto.
Qed.

Lemma stage_at c p i u : boots c p -> cpus c !! i = Some u -> exists st, stages p !! i = Some st.
Proof.
  intros Hb Hi. apply lookup_lt_is_Some. rewrite (bt_length _ _ Hb). by eapply lookup_lt_Some.
Qed.

(** The step of processor [i] only changes its own stage. *)
Lemma shows_update tn b (cs : list cpu) u' i (sts : list stage) st' :
  (forall j u st, j <> i -> cs !! j = Some u -> sts !! j = Some st -> shows tn b j u st) ->
  shows tn b i u' st' ->
  forall j u st, <[i := u']> cs !! j = Some u -> <[i := st']> sts !! j = Some st -> shows tn b j u st.
Proof.
  intros Hold Hnew j u st Hu Hs. destruct (decide (j = i)) as [->|Hne].
  - apply list_lookup_insert_Some in Hu as [(_ & <- & _)|[? _]]; [|done].
    apply list_lookup_insert_Some in Hs as [(_ & <- & _)|[? _]]; done.
  - rewrite list_lookup_insert_ne in Hu by done. rewrite list_lookup_insert_ne in Hs by done. by apply Hold.
Qed.

(** A step of another processor than the boot processor. *)
Lemma boots_ap c p i u s' d ph st' k cur :
  boots c p -> cpus c !! i = Some u -> lapic_id u <> bsp_lapic_id r ->
  shared_ok s' (mk_plan k cur (<[i := st']> (stages p))) -> ap_shows (turn c) i ph st' ->
  boots (mk_config s' (bsp c) (<[i := mk_cpu_slot (lapic_id u) ph d]> (cpus c))) (mk_plan k cur (<[i := st']> (stages p))).
Proof.
  intros Hb Hi Hu Hs Hph. set (c' := mk_config _ _ _).
  assert (turn c' = turn c) as Et by (unfold turn; simpl; by rewrite length_insert).
  split; [done|..]; rewrite ?Et; simpl; rewrite ?length_insert.
  - rewrite <- (bt_ids _ _ Hb). change (lapic_id <$> <[i := mk_cpu_slot (lapic_id u) ph d]> (cpus c) = lapic_id <$> cpus c).
    rewrite list_fmap_insert. apply list_insert_id. by rewrite list_lookup_fmap, Hi.
  - apply (bt_turn _ _ Hb).
  - apply (bt_length _ _ Hb).
  - apply shows_update; [intros j v st _; apply (bt_shows _ _ Hb)|].
    unfold shows. simpl. by rewrite (proj2 (Z.eqb_neq _ _)).
Qed.

(** [schedule] of a processor that holds a number and has no task. *)
Lemma schedule_first s p i n :
  shared_ok s p -> plan_ok first_task p -> stages p !! i = Some (Holding n) ->
  exists s', schedule_on (Some (Z.of_nat n)) s = (s', Some (n, first_task n)) /\
    shared_ok s' (mk_plan (taken p) (<[n := first_task n]> (on_cpu p)) (<[i := Running n (first_task n)]> (stages p))).
Proof.
  intros Hs Hp Hi. assert (n < MAX_CORES)%nat as Hn by (by apply (number_bound first_task p i _ n Hp Hi)).
  pose proof (tw_sched _ _ _ _ _ _ (sh_world _ _ Hs)) as Hq.
  unfold schedule_on. rewrite Nat2Z.id. unfold schedule, get_current_task.
  rewrite (sh_current _ _ Hs), nth_lookup, (po_idle _ _ Hp i n Hi). cbn [default id].
  change (k_mem (m_kernel s)) with (h_mem (v_heap (k_vmm (m_kernel s)))). rewrite (pick_next_idle n _ q Hq Hn).
  fold (first_task n). assert (0 < first_task n) as Hpos.
  { unfold first_task. pose proof (Hfirst n Hn) as Hne. destruct (q n) as [|t l] eqn:E; [done|].
    apply (so_pos _ _ Hq n); [done|]. rewrite E. by left. }
  rewrite (proj2 (Z.eqb_neq (first_task n) 0)) by lia. cbn [negb andb].
  eexists. split; [reflexivity|]. split; simpl; by try apply Hs.
Qed.

Lemma take_number_spec s p i :
  shared_ok s p -> plan_ok first_task p -> stages p !! i = Some Waiting ->
  exists s', take_number s = (s', Some (Z.of_nat (taken p))) /\
    shared_ok s' (mk_plan (S (taken p)) (on_cpu p) (<[i := Holding (taken p)]> (stages p))).
Proof.
  intros Hs Hp Hi. pose proof (taken_waiting first_task p i Hp Hi) as Hn.
  unfold take_number, register_cpu, init_percpu_data. rewrite (sh_taken _ _ Hs).
  rewrite (proj2 (Z.leb_gt _ _)) by lia. eexists. split; [reflexivity|].
  split; simpl; [apply Hs|lia|apply Hs|apply Hs].
Qed.

(** The protocol state changes only at [i], and nothing else changes there. *)
Lemma shared_stages s p k cur l l' : shared_ok s (mk_plan k cur l) -> shared_ok s (mk_plan k cur l').
Proof. by intros []; split. Qed.

Lemma shared_same s p i st : stages p !! i = Some st -> shared_ok s p -> shared_ok s (mk_plan (taken p) (on_cpu p) (<[i := st]> (stages p))).
Proof. intros Hi Hs. destruct p. simpl in *. by rewrite list_insert_id. Qed.

Lemma plan_same p i st : stages p !! i = Some st -> mk_plan (taken p) (on_cpu p) (<[i := st]> (stages p)) = p.
Proof. intros Hi. destruct p. simpl in *. by rewrite list_insert_id. Qed.

Lemma tables_world s p m :
  shared_ok s p -> agree (fun x => ~ in_range gdt_addr 56 x /\ ~ in_range tss_addr 104 x) (k_mem (m_kernel s)) m ->
  shared_ok (set_kernel s (set_kmem (m_kernel s) m)) p.
Proof.
  intros Hs Ha. split; simpl; try apply Hs.
  change (v_heap (k_vmm (set_kmem (m_kernel s) m))) with (set_mem (v_heap (k_vmm (m_kernel s))) m).
  apply world_write; [apply Hs|]. eapply agree_sub; [exact Ha|].
  intros x Hx. split; intros Hr; destruct (Hapart x) as [Hxb Hxo]; auto; destruct Hx; auto.
Qed.

(** ** The simulation *)

Definition follows p c' : Prop := exists p', (p' = p \/ plan_step first_task p p') /\ boots c' p'.

Lemma follows_same p c' i st : stages p !! i = Some st ->
  boots c' (mk_plan (taken p) (on_cpu p) (<[i := st]> (stages p))) -> follows p c'.
Proof. intros Hi Hb. rewrite plan_same in Hb by done. exists p. auto. Qed.

Lemma follows_takes p c' i : stages p !! i = Some Waiting ->
  boots c' (mk_plan (S (taken p)) (on_cpu p) (<[i := Holding (taken p)]> (stages p))) -> follows p c'.
Proof. intros Hi Hb. eexists. split; [right|exact Hb]. destruct p. by apply takes. Qed.

Lemma follows_starts p c' i n : stages p !! i = Some (Holding n) ->
  boots c' (mk_plan (taken p) (<[n := first_task n]> (on_cpu p)) (<[i := Running n (first_task n)]> (stages p))) ->
  follows p c'.
Proof. intros Hi Hb. eexists. split; [right|exact Hb]. destruct p. by apply starts. Qed.

(** The local APIC of another processor gets ready. *)
Lemma local_timer s p u :
  shared_ok s p ->
  exists d d', apic_timer_init_cpu (lapic_id u) (local_dev u s) = Some (d, 0) /\
    apic_timer_set_frequency 100 d = Some (d', tt).
Proof.
  intros Hs. destruct (sh_apic _ _ Hs) as [Hb Hf].
  destruct (apic_timer_init_cpu_correct (lapic_id u) (local_dev u s)) as (d & x & E & Hb1 & Hf1 & Hx).
  rewrite decide_False in Hx by done. destruct Hx as (-> & _).
  destruct (apic_timer_set_frequency_correct 100 d) as (d' & E' & _); [by rewrite Hb1|lia|by rewrite Hf1|]. eauto.
Qed.

Lemma ap_simulates c p i c' :
  boots c p -> plan_ok first_task p -> ap_step i c = Some c' -> follows p c'.
Proof.
  intros Hb Hp Estep. unfold ap_step in Estep. destruct (cpus c !! i) as [u|] eqn:Hi; [|done]. cbn [mbind option_bind] in Estep.
  destruct (stage_at c p i u Hb Hi) as [st Hst].
  pose proof (bt_shows _ _ Hb i u st Hi Hst) as Hsh. pose proof (bt_shared _ _ Hb) as Hs. unfold shows in Hsh.
  destruct (Z.eqb_spec (lapic_id u) (bsp_lapic_id r)) as [Eu|Hu].
  { destruct Hsh as [Eph _]. unfold ap_entry in Estep. by rewrite Eph in Estep. }
  unfold ap_entry in Estep. destruct (phase u) as [| | |core|core|n t| |] eqn:Eph; try done; simpl in Hsh.
  - destruct Hsh as [Ht ->]. destruct (init_gdt_spec (k_mem (m_kernel (shared c))) (local_dev u (shared c)))
      as (m & d & E & _ & _ & _ & _ & _ & _ & Ha).
    rewrite E in Estep. cbn [mbind option_bind] in Estep. unfold reload_idt, setIdt in Estep.
    rewrite emit_bind, emit_end in Estep. cbn [mbind option_bind] in Estep. injection Estep as <-.
    eapply follows_same; [exact Hst|]. apply boots_ap; try done.
    apply shared_same; [done|]. by apply tables_world.
  - destruct Hsh as [Ht ->]. destruct (take_number_spec _ p i Hs Hp Hst) as (s' & E & Hs').
    rewrite E in Estep. cbn [mbind option_bind] in Estep. injection Estep as <-.
    eapply follows_takes; [exact Hst|]. apply boots_ap; try done. simpl. eauto.
  - destruct core as [z|]; [|done]. destruct (local_timer _ p u Hs) as (d & d' & E & E').
    rewrite E in Estep. cbn [mbind option_bind negb Z.eqb] in Estep. rewrite E' in Estep.
    cbn [mbind option_bind] in Estep. injection Estep as <-.
    eapply follows_same; [exact Hst|]. apply boots_ap; try done. by apply shared_same.
  - destruct core as [z|]; [|done]. destruct Hsh as (Ht & n & -> & ->).
    destruct (schedule_first _ p i n Hs Hp Hst) as (s' & E & Hs').
    rewrite E in Estep. cbn [mbind option_bind] in Estep. injection Estep as <-.
    eapply follows_starts; [exact Hst|]. by apply boots_ap.
Qed.

(** The boot processor moves on to the next turn. *)
Lemma boots_turn c p i core core' s' u u' st' k cur :
  boots c p -> bsp c = BspLoop i core -> cpus c !! i = Some u -> lapic_id u' = lapic_id u ->
  (forall j st, j <> i -> (exists v, cpus c !! j = Some v /\ lapic_id v = bsp_lapic_id r) ->
     bsp_shows (BspLoop i core) j st -> bsp_shows (BspLoop (S i) core') j st) ->
  shared_ok s' (mk_plan k cur (<[i := st']> (stages p))) -> shows (S i) (BspLoop (S i) core') i u' st' ->
  boots (mk_config s' (BspLoop (S i) core') (<[i := u']> (cpus c))) (mk_plan k cur (<[i := st']> (stages p))).
Proof.
  intros Hb Eb Hi Eu Hbs Hs Hsh. split; [done|..]; unfold turn; simpl; rewrite ?length_insert.
  - rewrite <- (bt_ids _ _ Hb). change (lapic_id <$> <[i := u']> (cpus c) = lapic_id <$> cpus c).
    rewrite list_fmap_insert. apply list_insert_id. by rewrite list_lookup_fmap, Hi, Eu.
  - apply lookup_lt_Some in Hi. lia.
  - apply (bt_length _ _ Hb).
  - apply shows_update; [|done]. intros j v st Hne Hj Hst. pose proof (bt_shows _ _ Hb j v st Hj Hst) as Hold.
    unfold turn in Hold. rewrite Eb in Hold. unfold shows in *. destruct (Z.eqb_spec (lapic_id v) (bsp_lapic_id r)) as [Ev|Ev].
    + destruct Hold as [? ?]. split; [done|]. eapply Hbs; eauto.
    + destruct (phase v) as [| | |[z|]|[z|]|n t| |]; simpl in *; intuition lia.
Qed.

Lemma on_dev_kprintf f a s : on_dev (kprintf f a) s = Some (set_mdev s (log_event (m_dev s) (Kprintf f a)), tt).
Proof. unfold on_dev, kprintf. by rewrite emit_end. Qed.

Lemma shared_dev s p d :
  shared_ok s p -> apic_base d = apic_base (m_dev s) -> apic_timer_frequency d = apic_timer_frequency (m_dev s) ->
  shared_ok (set_mdev s d) p.
Proof. intros Hs E1 E2. split; simpl; try apply Hs. rewrite E1, E2. apply Hs. Qed.

(** At the end of its loop the boot processor holds a number. *)
Lemma bsp_holds c p i core :
  boots c p -> bsp c = BspLoop i core -> cpus c !! i = None ->
  exists j u n, cpus c !! j = Some u /\ lapic_id u = bsp_lapic_id r /\ phase u = Parked /\
    core = Some (Z.of_nat n) /\ stages p !! j = Some (Holding n).
Proof.
  intros Hb Eb Hi%lookup_ge_None. destruct (bsp_listed c p Hb) as (j & u & Hj & Eu).
  destruct (stage_at c p j u Hb Hj) as [st Hst]. pose proof (bt_shows _ _ Hb j u st Hj Hst) as Hsh.
  unfold shows in Hsh. rewrite (proj2 (Z.eqb_eq _ _)) in Hsh by done. destruct Hsh as [Eph Hsh].
  rewrite Eb in Hsh. pose proof (lookup_lt_Some _ _ _ Hj). destruct core as [z|]; simpl in Hsh; [|lia].
  destruct Hsh as (_ & n & -> & ->). exists j, u, n. done.
Qed.

Lemma bsp_simulates c p c' :
  boots c p -> plan_ok first_task p -> bsp_step (bsp_lapic_id r) c = Some c' -> follows p c'.
Proof.
  intros Hb Hp Estep. pose proof (bt_shared _ _ Hb) as Hs. unfold bsp_step in Estep.
  destruct (bsp c) as [i core|n t|] eqn:Eb; try done. destruct (cpus c !! i) as [u|] eqn:Hi.
  - destruct (stage_at c p i u Hb Hi) as [st Hst]. pose proof (bt_shows _ _ Hb i u st Hi Hst) as Hsh.
    unfold shows in Hsh. unfold turn in Hsh. rewrite Eb in Hsh.
    destruct (Z.eqb_spec (lapic_id u) (bsp_lapic_id r)) as [Eu|Hu].
    + destruct Hsh as [Eph Hsh]. destruct core as [z|]; simpl in Hsh; [lia|]. destruct Hsh as [_ ->].
      destruct (take_number_spec _ p i Hs Hp Hst) as (s' & E & Hs'). rewrite E in Estep. injection Estep as <-.
      eapply follows_takes; [exact Hst|]. rewrite <- (list_insert_id (cpus c) i u) by done.
      apply boots_turn with (core := None) (u := u); try done.
      * intros j st Hne (v & Hj & Ev). destruct Hne. by apply (bsp_slot c p j i v u Hb Hj Hi).
      * unfold shows. rewrite (proj2 (Z.eqb_eq _ _)) by done. split; [done|]. simpl. split; [lia|eauto].
    + rewrite on_dev_kprintf in Estep. cbn [mbind option_bind] in Estep. injection Estep as <-.
      eapply follows_same; [exact Hst|]. apply boots_turn with (core := core) (u := u); try done.
      * intros j st' Hne _. destruct core; simpl; [intuition lia|]. intuition lia.
      * apply shared_same; [done|]. by apply shared_dev.
      * unfold shows. simpl. rewrite (proj2 (Z.eqb_neq _ _)) by done.
        destruct (phase u) as [| | |[z|]|[z|]|n t| |]; simpl in Hsh |- *; try (intuition lia).
  - destruct (bsp_holds c p i core Hb Eb Hi) as (j & u & n & Hj & Eu & Eph & -> & Hst).
    destruct (schedule_first _ p j n Hs Hp Hst) as (s' & E & Hs'). rewrite E in Estep. injection Estep as <-.
    assert (turn c = length (cpus c)) as Et.
    { pose proof (bt_turn _ _ Hb) as Ht. apply lookup_ge_None in Hi. unfold turn in *. rewrite Eb in *. lia. }
    eapply follows_starts; [exact Hst|]. split; [done|apply (bt_ids _ _ Hb)|done|..].
    + simpl. rewrite length_insert. apply (bt_length _ _ Hb).
    + simpl. intros l v st Hl Hstl. unfold turn. simpl.
      destruct (decide (l = j)) as [->|Hne].
      * apply list_lookup_insert_Some in Hstl as [(_ & <- & _)|[? _]]; [|done]. simplify_eq.
        unfold shows. by rewrite (proj2 (Z.eqb_eq _ _)).
      * rewrite list_lookup_insert_ne in Hstl by done. pose proof (bt_shows _ _ Hb l v st Hl Hstl) as Hsh.
        rewrite Et in Hsh. unfold shows in *. destruct (Z.eqb_spec (lapic_id v) (bsp_lapic_id r)) as [Ev|Ev]; [|done].
        destruct Hne. by apply (bsp_slot c p l j v u Hb Hl Hj).
Qed.

Lemma step_simulates c p c' :
  boots c p -> plan_ok first_task p -> boot_step r c c' -> follows p c'.
Proof.
  intros Hb Hp Hstep. destruct Hstep as [c c' E|i c c' E].
  - exact (bsp_simulates c p c' Hb Hp E).
  - exact (ap_simulates c p i c' Hb Hp E).
Qed.

(** Along any execution. *)
Lemma steps_simulate c p c' :
  boots c p -> plan_ok first_task p -> rtc (boot_step r) c c' ->
  exists p', rtc (plan_step first_task) p p' /\ boots c' p' /\ plan_ok first_task p'.
Proof.
  intros Hb Hp Hr. revert p Hb Hp. induction Hr as [c|c1 c2 c3 Hstep _ IH]; intros p Hb Hp; [exists p; auto using rtc_refl|].
  destruct (step_simulates c1 p c2 Hb Hp Hstep) as (p2 & [->|Hp2] & Hb2); [by apply IH|].
  destruct (IH p2 Hb2) as (p3 & Hr3 & ?); [by eapply plan_step_ok|]. exists p3. split; [|done]. by eapply rtc_l.
Qed.

(** ** Progress *)

Lemma bsp_progress c p i core : boots c p -> bsp c = BspLoop i core -> exists c', boot_step r c c'.
Proof.
  intros Hb Eb. enough (exists c', bsp_step (bsp_lapic_id r) c = Some c') as [c' E] by (exists c'; by apply bsp_moves).
  unfold bsp_step. rewrite Eb. destruct (cpus c !! i) as [u|] eqn:Hi.
  - destruct (_ =? _); [|rewrite on_dev_kprintf; cbn [mbind option_bind]; eauto].
    destruct (take_number (shared c)) as [s z]. eauto.
  - destruct (schedule_on core (shared c)) as [s z]. eauto.
Qed.

Lemma ap_progress c p i u :
  boots c p -> cpus c !! i = Some u -> phase u ∈ [Entered; Tables] \/ (exists z, phase u = Numbered z \/ phase u = TimerSet z) ->
  exists c', boot_step r c c'.
Proof.
  intros Hb Hi Hph. pose proof (bt_shared _ _ Hb) as Hs.
  enough (exists c', ap_step i c = Some c') as [c' E] by (exists c'; by apply (ap_moves r i)).
  unfold ap_step. rewrite Hi. cbn [mbind option_bind]. unfold ap_entry.
  destruct Hph as [Hph|(z & [Eph|Eph])].
  - apply elem_of_cons in Hph as [Eph|Eph%list_elem_of_singleton]; rewrite Eph.
    + destruct (init_gdt_spec (k_mem (m_kernel (shared c))) (local_dev u (shared c))) as (m & d & E & _).
      rewrite E. cbn [mbind option_bind]. unfold reload_idt, setIdt. rewrite emit_bind, emit_end. cbn [mbind option_bind]. eauto.
    + destruct (take_number (shared c)) as [s z]. cbn [mbind option_bind]. eauto.
  - rewrite Eph. destruct (local_timer _ p u Hs) as (d & d' & E & E').
    rewrite E. cbn [mbind option_bind negb Z.eqb]. rewrite E'. cbn [mbind option_bind]. eauto.
  - rewrite Eph. destruct (schedule_on z (shared c)) as [s x]. cbn [mbind option_bind]. eauto.
Qed.

(** A configuration without a step: everybody runs a task. *)
Lemma stuck_runs c p :
  boots c p -> (forall c', ~ boot_step r c c') ->
  (exists n t, bsp c = BspRuns n t) /\
  (forall i u, cpus c !! i = Some u -> lapic_id u <> bsp_lapic_id r -> exists n t, phase u = Runs n t) /\
  forall i st, stages p !! i = Some st -> exists n t, st = Running n t.
Proof.
  intros Hb Hstuck. destruct (bsp c) as [i core|n t|] eqn:Eb.
  - destruct (bsp_progress c p i core Hb Eb) as [c' Hc]. by destruct (Hstuck c').
  - split; [eauto|].
    assert (forall i u, cpus c !! i = Some u -> lapic_id u <> bsp_lapic_id r -> exists n t, phase u = Runs n t) as Haps.
    { intros i u Hi Hu. destruct (stage_at c p i u Hb Hi) as [st Hst]. pose proof (bt_shows _ _ Hb i u st Hi Hst) as Hsh.
      unfold shows in Hsh. rewrite (proj2 (Z.eqb_neq _ _)) in Hsh by done. unfold turn in Hsh. rewrite Eb in Hsh.
      pose proof (lookup_lt_Some _ _ _ Hi). pose proof (ap_progress c p i u Hb Hi) as Hstep.
      destruct (phase u) as [| | |z|z|m t'| |] eqn:Eph; simpl in Hsh; try done; [lia|..|eauto];
        (destruct Hstep as [c' Hc]; [|by destruct (Hstuck c')]); [left; set_solver|left; set_solver|right; eauto|right; eauto]. }
    split; [done|]. intros i st Hst. assert (is_Some (cpus c !! i)) as [u Hi].
    { apply lookup_lt_is_Some. rewrite <- (bt_length _ _ Hb). by eapply lookup_lt_Some. }
    pose proof (bt_shows _ _ Hb i u st Hi Hst) as Hsh. unfold shows in Hsh.
    destruct (Z.eqb_spec (lapic_id u) (bsp_lapic_id r)) as [Eu|Hu].
    + rewrite Eb in Hsh. simpl in Hsh. destruct Hsh as [_ ->]. eauto.
    + destruct (Haps i u Hi Hu) as (m & t' & Eph). rewrite Eph in Hsh. simpl in Hsh. destruct Hsh as [_ ->]. eauto.
  - destruct (bsp_listed c p Hb) as (j & u & Hj & Eu). destruct (stage_at c p j u Hb Hj) as [st Hst].
    pose proof (bt_shows _ _ Hb j u st Hj Hst) as Hsh. unfold shows in Hsh.
    rewrite (proj2 (Z.eqb_eq _ _)), Eb in Hsh by done. by destruct Hsh.
Qed.
End Simulation.

(** ** Termination *)

(** The steps a processor has left once it has been started. *)
Definition ap_rank (u : cpu) : nat :=
  match phase u with Entered => 4 | Tables => 3 | Numbered _ => 2 | TimerSet _ => 1 | _ => 0 end.

Lemma sum_insert {A} (f : A -> nat) l i x y :
  l !! i = Some x -> (sum_list_with f (<[i := y]> l) + f x = sum_list_with f l + f y)%nat.
Proof. revert i. induction l as [|a l IH]; intros [|i] Hi; simplify_eq/=; [lia|]. pose proof (IH i Hi). lia. Qed.

Section Measure.
Context `{Platform} `{Hhdm} `{Linker} `{TaskLinker} `{DescrLinker} `{BootLinker} {P : Type} `{!PageAllocator P}.

Implicit Types c : config (P := P).

(** A bound on the steps of all processors. *)
Definition steps_left c : nat :=
  sum_list_with ap_rank (cpus c) + match bsp c with BspLoop i _ => 5 * (length (cpus c) - i) + 1 | _ => 0 end.

Lemma ap_entry_rank u (s : machine (P := P)) s' d ph :
  ap_entry u s = Some (s', d, ph) -> (ap_rank (mk_cpu_slot (lapic_id u) ph d) < ap_rank u)%nat.
Proof.
  unfold ap_entry, ap_rank. cbn [phase]. destruct (phase u) as [| | |z|z|n t| |]; try done.
  - destruct (init_gdt _ _) as [[m d1]|]; [|done]. cbn [mbind option_bind].
    destruct (reload_idt _ _) as [[d2 []]|]; [|done]. cbn [mbind option_bind]. intros [= _ _ <-]. lia.
  - destruct (take_number s) as [s1 z]. intros [= _ _ <-]. lia.
  - destruct (apic_timer_init_cpu _ _) as [[d1 x]|]; [|done]. cbn [mbind option_bind]. destruct (negb _).
    + destruct (klog _ _ _ _) as [[d2 []]|]; [|done]. cbn [mbind option_bind]. intros [= _ _ <-]. lia.
    + destruct (apic_timer_set_frequency _ _) as [[d2 []]|]; [|done]. cbn [mbind option_bind]. intros [= _ _ <-]. lia.
  - destruct (schedule_on z s) as [s1 [[n t]|]]; intros [= _ _ <-]; lia.
Qed.

Lemma step_decreases r c c' : boot_step r c c' -> (steps_left c' < steps_left c)%nat.
Proof.
  intros Hstep. destruct Hstep as [c c' E|i c c' E].
  - unfold bsp_step in E. destruct (bsp c) as [i core|n t|] eqn:Eb; try done. destruct (cpus c !! i) as [u|] eqn:Hi.
    + pose proof (lookup_lt_Some _ _ _ Hi). destruct (_ =? _).
      * destruct (take_number _) as [s z]. injection E as <-. unfold steps_left. rewrite Eb. simpl. lia.
      * rewrite on_dev_kprintf in E. cbn [mbind option_bind] in E. injection E as <-. unfold steps_left. rewrite Eb.
        cbn [cpus bsp]. rewrite length_insert.
        pose proof (sum_insert ap_rank _ _ _ (mk_cpu_slot (lapic_id u) Entered (cpu_dev u)) Hi) as Es.
        unfold ap_rank at 4 in Es. cbn [phase] in Es. lia.
    + destruct (schedule_on core _) as [s [[n t]|]]; injection E as <-; unfold steps_left; rewrite Eb; simpl; lia.
  - unfold ap_step in E. destruct (cpus c !! i) as [u|] eqn:Hi; [|done]. cbn [mbind option_bind] in E.
    destruct (ap_entry u (shared c)) as [[[s d] ph]|] eqn:Ea; [|done]. cbn [mbind option_bind] in E. injection E as <-.
    pose proof (ap_entry_rank _ _ _ _ _ Ea). unfold steps_left. cbn [cpus bsp]. rewrite length_insert.
    pose proof (sum_insert ap_rank _ _ _ (mk_cpu_slot (lapic_id u) ph d) Hi). lia.
Qed.

Lemma nsteps_bound r n c c' : nsteps (boot_step r) n c c' -> (n + steps_left c' <= steps_left c)%nat.
Proof.
  induction 1 as [c|n c1 c2 c3 Hstep _ IH]; [done|]. pose proof (step_decreases r c1 c2 Hstep). lia.
Qed.
End Measure.
