(* ===== verification/MemmgrFree.v ===== *)
(** * The task memory manager: freeing a task's memory

    [mm_free] gives back the tables, the region nodes and the descriptor of a
    task, and nothing else. *)
From S2P Require Import Prelude Memory PageAlloc Chain Slab SlabProofs SlabHeap SlabSpec.
From S2P Require Import Pmm KmallocSpec HeapClaims HeapPages Klib Vmm VmmProofs VmmDestroy VmmRange Memmgr MemmgrSpec MemmgrHeap.
From S2P Require Import Buddy BuddyProofs BuddySpec HeapFrame BootSpec BootClaims.
Import Slab Pmm Klib Vmm Memmgr Buddy.

Section Free.
Context `{Hhdm} `{Linker} {P : Type} `{!PageAllocator P}.

Implicit Types (h : heap P) (v : vmm P).

(** A region node that [kfree] accepts. *)
Definition region_out (m : mem) (A : nat -> Z -> Prop) (r : Z) : Prop :=
  exists j, A j r /\ sizeof_mem_region <= nth j slab_sizes 0 /\ obj_magic m r <> FREED_PATTERN.

Lemma region_out_kept m m' (A A' : nat -> Z -> Prop) r :
  region_out m A r -> (forall j, A j r -> A' j r /\ kept j r m m') -> region_out m' A' r.
Proof.
  intros (j & Hj & Hsz & Hne) HA. destruct (HA j Hj) as [Hj' Hk]. exists j. split; [done|]. split; [done|].
  unfold obj_magic in *. unfold sizeof_mem_region in Hsz. rewrite <- (load_agree 8 m m'); [done|].
  eapply agree_sub; [exact Hk|]. unfold in_range. intros; lia.
Qed.

Lemma region_next_kept m m' A r :
  region_out m A r -> (forall j, A j r -> kept j r m m') -> agree (in_range (r + 24) 8) m m'.
Proof.
  intros (j & Hj & Hsz & _) HA. eapply agree_sub; [exact (HA j Hj)|]. unfold in_range, sizeof_mem_region in *. intros; lia.
Qed.

Lemma free_regions_spec l : forall fuel hd v F A G,
  heap_world (v_heap v) F A G -> lchain 24 (v_mem v) hd l -> NoDup l -> Forall (region_out (v_mem v) A) l ->
  (length l < fuel)%nat ->
  exists h', free_regions fuel hd v = Some (set_heap v h') /\
    heap_world h' F (fun j y => A j y /\ y ∉ l) G /\ h_pages h' = h_pages (v_heap v) /\
    (forall j y, A j y -> y ∉ l -> kept j y (v_mem v) (h_mem h')) /\ agree (image G) (v_mem v) (h_mem h').
Proof.
  induction l as [|r l IH]; intros fuel hd v F A G Hw Hc Hnd Hout Hf;
    (destruct fuel as [|fuel]; [simpl in Hf; lia|]); cbn [free_regions].
  { simpl in Hc. subst hd. exists (v_heap v). split; [by destruct v|]. split; [|done].
    eapply world_objects; [|exact Hw]. set_solver. }
  destruct Hc as (-> & Hne & Hc). rewrite (proj2 (Z.eqb_neq r 0)) by done.
  apply NoDup_cons in Hnd as [Hn Hnd]. apply Forall_cons in Hout as [(i & Hi & Hsz & Hmg) Hout].
  destruct (world_kfree i r (v_heap v) F A G Hw Hi Hmg) as (h1 & E1 & Hw1 & Ep1 & Hk1 & Ha1). rewrite E1. cbn [mbind option_bind].
  rewrite Forall_forall in Hout.
  destruct (IH fuel (r_next (v_mem v) r) (set_heap v h1) F _ G Hw1) as (h2 & E2 & Hw2 & Ep2 & Hk2 & Ha2);
    [|done| |simpl in Hf; lia|].
  - eapply lchain_agree; [|exact Hc]. intros q Hq. apply (region_next_kept (v_mem v) _ A); [by apply Hout|].
    intros j Hj. apply Hk1; [done|]. by intros ->.
  - apply Forall_forall. intros q Hq. apply (region_out_kept (v_mem v) _ A); [by apply Hout|]. intros j Hj.
    assert (q <> r) as Hqr by (by intros ->). split; [done|by apply Hk1].
  - exists h2. split; [exact E2|]. split; [|split; [by rewrite Ep2|split; [|by transitivity (h_mem h1)]]].
    + eapply world_objects; [|exact Hw2]. set_solver.
    + intros j y Hy [Hyr Hyl]%not_elem_of_cons. transitivity (h_mem h1); [by apply Hk1|by apply Hk2].
Qed.

(** ** The descriptor *)

(** The descriptor [d] with the region nodes [l] and the address space [a]:
    objects of the heap, each by itself, and pages for the tables. *)
Record mm_out v (G : Z -> Prop) (A : nat -> Z -> Prop) (i j : nat) (d : Z) (l : list Z) (a root : Z) : Prop := {
  mo_descriptor : A j d /\ sizeof_mem_descriptor <= nth j slab_sizes 0;
  mo_as : mm_as (v_mem v) d = a;
  mo_space : space_out v G A i a root;
  mo_chain : lchain 24 (v_mem v) (Memmgr.mm_regions (v_mem v) d) l;
  mo_regions : Forall (region_out (v_mem v) A) l;
  mo_nodup : NoDup (d :: a :: l);
}.

(** Objects lie at even addresses. *)
Lemma object_even h F A G i x : heap_world h F A G -> A i x -> 0 < x /\ x mod 2 = 0.
Proof.
  intros (Ls & fl & Hh & HA & _) [Hi (s & Hs & Ho & _)]%HA. destruct (heap_addr h F Ls fl i s Hh Hi Hs) as (Hs0 & Hs1 & Hs2).
  assert (nth i slab_sizes 0 mod 2 = 0 /\ 0 < nth i slab_sizes 0) as [Hz Hp].
  { clear -Hi. unfold NUM_SLAB_SIZES, slab_sizes in *. simpl in Hi. do 8 (destruct i as [|i]; [vm_compute; done|]). lia. }
  change (nth i slab_sizes 0) with (object_size (slab_cache_init (nth i slab_sizes 0))) in Hz, Hp.
  destruct Ho as (k & Hk & ->). set (sz := object_size _) in *.
  pose proof (Z.div_mod s 8192). pose proof (Z.div_mod sz 2). split; [nia|].
  replace (s + 48 + k * sz) with ((4096 * (s / 8192) + 24 + k * (sz / 2)) * 2) by lia. by apply Z.mod_mul.
Qed.

Lemma object_word h F A G i x : heap_world h F A G -> A i x -> 0 <= x < 2 ^ 64.
Proof.
  intros Hw Hx. pose proof (object_even h F A G i x Hw Hx) as [Hx0 _]. destruct Hw as (Ls & fl & Hh & HA & _).
  apply HA in Hx as [Hi (s & Hs & Ho & _)]. destruct (heap_addr h F Ls fl i s Hh Hi Hs) as (Hs0 & Hs1 & Hs2).
  pose proof (is_obj_range _ s x (slab_sizes_ok i Hi) Ho) as Hr. pose proof (size_pos i Hi).
  cbn [object_size slab_cache_init] in Hr. lia.
Qed.

(** The freed pattern is odd. *)
Lemma even_not_pattern x : x mod 2 = 0 -> x <> FREED_PATTERN.
Proof. intros Hx ->. by vm_compute in Hx. Qed.

Lemma not_elem_of_two (x d a : Z) l : x ∉ d :: a :: l -> x <> d /\ x <> a /\ x ∉ l.
Proof. rewrite !not_elem_of_cons. tauto. Qed.

Lemma mm_free_spec fuel i j d l a root v F A G :
  heap_world (v_heap v) F A G -> mm_out v G A i j d l a root -> a <> kernel_as v -> (length l < fuel)%nat ->
  let L := space_pages (v_mem v) root ++ [root] in
  exists h', mm_free fuel d v = Some (set_heap v h') /\
    heap_world h' (fplus F (pages L)) (fun k y => A k y /\ y ∉ d :: a :: l) (fminus G (pages L)) /\
    (forall k y, A k y -> y ∉ d :: a :: l -> kept k y (v_mem v) (h_mem h')) /\
    agree (image (fminus G (pages L))) (v_mem v) (h_mem h').
Proof.
  intros Hw [[Hd Hsd] Has Hsp Hch Hout Hnd] Hak Hf L. set (G' := fminus G (pages L)).
  pose proof (object_even _ _ _ _ _ _ Hw Hd) as [Hd0 Hd2]. pose proof (object_even _ _ _ _ _ _ Hw (proj1 (sp_object _ _ _ _ _ _ Hsp))) as [Ha0 Hae].
  apply NoDup_cons in Hnd as [Hdn Hnd]. apply NoDup_cons in Hnd as [Han Hnd]. apply not_elem_of_cons in Hdn as [Hda Hdl].
  destruct (destroy_spec i a root v F A G Hw Hsp) as (h1 & E1 & Hw1 & Hb1 & Hk1 & Ha1); [lia|done|]. fold L G' in Hw1, Ha1.
  unfold mm_free. rewrite (proj2 (Z.eqb_neq d 0)), Has by lia. rewrite E1. cbn [mbind option_bind].
  change (v_mem (set_heap v h1)) with (h_mem h1). unfold sizeof_mem_descriptor in Hsd. rewrite Forall_forall in Hout.
  assert (kept j d (v_mem v) (h_mem h1)) as Hkd by (by apply Hk1).
  assert (Memmgr.mm_regions (h_mem h1) d = Memmgr.mm_regions (v_mem v) d) as Er by (apply (kept_load j d _ _ 8 8 Hkd); lia).
  assert (forall q, q ∈ l -> q <> a) as Hla by (intros q Hq ->; done). rewrite Er.
  destruct (free_regions_spec l fuel (Memmgr.mm_regions (v_mem v) d) (set_heap v h1) _ _ G' Hw1)
    as (h2 & E2 & Hw2 & Ep2 & Hk2 & Ha2); [|done| |done|].
  { eapply lchain_agree; [|exact Hch]. intros q Hq. apply (region_next_kept (v_mem v) _ A); [by apply Hout|].
    intros k Hk. apply Hk1; [done|by apply Hla]. }
  { apply Forall_forall. intros q Hq. apply (region_out_kept (v_mem v) _ A); [by apply Hout|].
    intros k Hk. split; [split; [done|by apply Hla]|]. apply Hk1; [done|by apply Hla]. }
  rewrite E2. cbn [mbind option_bind]. change (v_mem (set_heap v h1)) with (h_mem h1) in *.
  assert (kept j d (h_mem h1) (h_mem h2)) as Hkd2 by (by apply Hk2).
  change (v_mem (set_heap (set_heap v h1) h2)) with (h_mem h2). set (m3 := set_mm_regions (h_mem h2) d 0).
  assert (agree (fun x => ~ in_range d (nth j slab_sizes 0) x) (h_mem h2) m3) as Hm3.
  { apply agree_store. unfold in_range. intros; lia. }
  assert (heap_world (set_mem h2 m3) (fplus F (pages L)) (fun k y => (A k y /\ y <> a) /\ y ∉ l) G') as Hw3
    by (by apply (world_write_object h2 _ _ _ j d)).
  destruct (world_kfree j d (set_mem h2 m3) _ _ _ Hw3) as (h4 & E4 & Hw4 & _ & Hk4 & Ha4); [done| |].
  { change (load 8 m3 d <> FREED_PATTERN). unfold m3, set_mm_regions. rewrite load_store_ne by lia.
    rewrite <- (Z.add_0_r d), (kept_load j d _ _ 8 0 Hkd2), (kept_load j d _ _ 8 0 Hkd), Z.add_0_r by lia.
    change (load 8 (v_mem v) d) with (mm_as (v_mem v) d). rewrite Has. by apply even_not_pattern. }
  change (v_heap (set_vmem _ m3)) with (set_mem h2 m3). rewrite E4. cbn [mbind option_bind].
  exists h4. split; [done|]. split; [|split].
  - eapply world_objects; [|exact Hw4]. intros k y. cbv beta. rewrite !not_elem_of_cons. tauto.
  - intros k y Hy (Hyd & Hya & Hyl)%not_elem_of_two. transitivity (h_mem h1); [by apply Hk1|].
    transitivity (h_mem h2); [by apply Hk2|]. transitivity m3; [|by apply Hk4].
    eapply agree_sub; [exact Hm3|]. intros x Hx Hxd.
    destruct (repr_apart _ _ _ k y j d (world_repr _ _ _ _ Hw) Hy Hd Hyd); unfold in_range in *; lia.
  - transitivity (h_mem h1); [exact Ha1|]. transitivity (h_mem h2); [exact Ha2|]. transitivity m3; [|exact Ha4].
    eapply agree_sub; [exact Hm3|]. intros x Hx Hxd. apply (world_object_free _ _ _ _ j d x Hw2); [by split|done|done].
Qed.

(** ** The life of a task's memory, while there is room *)

(** In [v], the heap [h] of before with one task memory: the descriptor [d],
    the region nodes [l], an address space and its first table, taken from the
    free bytes [F]; [Fr] are free now. *)
Definition alive_in h (F Fr : Z -> Prop) (A : nat -> Z -> Prop) (G : Z -> Prop) v (d : Z) (l : list Z)
    (A' : nat -> Z -> Prop) (i j : nat) (a root : Z) : Prop :=
  heap_world (v_heap v) Fr A' (fplus G (in_range root 4096)) /\ mm_out v (fplus G (in_range root 4096)) A' i j d l a root /\
  space_pages (v_mem v) root = [] /\ (forall x, Fr x \/ in_range root 4096 x -> F x) /\
  (forall k y, A k y <-> A' k y /\ y ∉ d :: a :: l) /\
  (forall k y, A k y -> kept k y (h_mem h) (v_mem v)) /\ agree (image G) (h_mem h) (v_mem v).

Definition alive h F Fr A G v d l : Prop := exists A' i j a root, alive_in h F Fr A G v d l A' i j a root.

(** A step of the heap that leaves everything of the task alone but the fields
    of the descriptor after the first, and puts the nodes [new] in front. *)
Lemma alive_step h F Fr A G v d l A0 i j a root h' Fr' A1 new :
  let G0 := fplus G (in_range root 4096) in
  alive_in h F Fr A G v d l A0 i j a root ->
  heap_world h' Fr' A1 G0 -> (forall x, Fr' x -> Fr x) ->
  (forall q k, pa_block (h_pages h') q k <-> pa_block (h_pages (v_heap v)) q k) ->
  (forall k y, A0 k y -> A1 k y /\ y ∉ new) -> (forall k y, A1 k y -> A0 k y \/ y ∈ new) -> NoDup new ->
  (forall k y, A0 k y -> y <> d -> kept k y (v_mem v) (h_mem h')) -> agree (image G0) (v_mem v) (h_mem h') ->
  load 8 (h_mem h') d = load 8 (v_mem v) d ->
  (lchain 24 (h_mem h') (Memmgr.mm_regions (v_mem v) d) l -> lchain 24 (h_mem h') (Memmgr.mm_regions (h_mem h') d) (new ++ l)) ->
  Forall (region_out (h_mem h') A1) new -> alive_in h F Fr' A G (set_heap v h') d (new ++ l) A1 i j a root.
Proof.
  intros G0 (Hw & [[Hd Hsd] Has Hsp Hch Hout Hnd] & Hemp & HF & HA & Hk & Hg) Hw' HFr Hb H01 H10 Hnew Hk' Hg' Hld Hch' Hout'.
  rewrite !NoDup_cons, not_elem_of_cons in Hnd. destruct Hnd as ([Hda Hdl] & Hal & Hnd). rewrite Forall_forall in Hout.
  pose proof (proj1 (sp_object _ _ _ _ _ _ Hsp)) as Ha.
  assert (forall q, q ∈ l -> q <> d /\ q <> a) as Hl by (intros q Hq; split; intros ->; done).
  assert (forall q, q ∈ l -> region_out (h_mem h') A1 q) as Hol.
  { intros q Hq. apply (region_out_kept (v_mem v) _ A0); [by apply Hout|]. intros k Hkq. split; [by apply H01|]. apply Hk'; [done|by apply Hl]. }
  split; [exact Hw'|]. split; [split|split; [|split; [|split; [|split]]]].
  - split; [by apply H01|exact Hsd].
  - by rewrite <- Has.
  - apply (space_out_kept v h' G0 A0 A1 i a root Hsp); [by apply H01|apply Hk'; [done|by intros ->]|exact Hg'|exact Hb].
  - apply Hch'. eapply lchain_agree; [|exact Hch]. intros q Hq. eapply (region_next_kept _ _ A0); [by apply Hout|].
    intros k Hkq. apply Hk'; [done|by apply Hl].
  - apply Forall_app. split; [exact Hout'|]. by apply Forall_forall.
  - pose proof (proj2 (H01 _ _ Hd)) as Hdn. pose proof (proj2 (H01 _ _ Ha)) as Han.
    rewrite !NoDup_cons, not_elem_of_cons, !not_elem_of_app, NoDup_app. split_and!; try done.
    intros q Hq Hql. destruct (Hout q Hql) as (k & Hkq & _). by apply (H01 k q).
  - rewrite <- Hemp. apply space_pages_agree. eapply agree_sub; [exact Hg'|]. rewrite Hemp.
    intros x (p & ->%list_elem_of_singleton & Hx). by right.
  - intros x [Hx|Hx]; apply HF; [left; by apply HFr|by right].
  - intros k y. rewrite HA, !not_elem_of_cons, not_elem_of_app. split.
    + intros [Hy ?]. destruct (H01 k y Hy). tauto.
    + intros [[Hy|Hy]%H10 ?]; tauto.
  - intros k y Hy. transitivity (v_mem v); [by apply Hk|]. apply HA in Hy as [Hy Hn]. apply Hk'; [done|]. intros ->. apply Hn. by left.
  - transitivity (v_mem v); [exact Hg|]. eapply agree_sub; [exact Hg'|]. intros x Hx. by left.
Qed.

Lemma mm_alloc_alive n o v F A G :
  (1 <= o <= 20)%nat -> heap_world (v_heap v) F A G -> pa_room (h_pages (v_heap v)) F o (3 + n) ->
  exists h d Fr, mm_alloc 64 v = Some (set_heap v h, d) /\ alive (v_heap v) F Fr A G (set_heap v h) d [] /\
    pa_room (h_pages h) Fr o n.
Proof.
  intros Ho Hw Hr. unfold mm_alloc.
  destruct (world_kmalloc (2 + n) o sizeof_mem_descriptor (v_heap v) F A G Hw Hr) as
    (j & h1 & d & F1 & E1 & Hd0 & Hsz & Hnew & Hw1 & HF1 & Hr1 & _ & Hk1 & Hg1); [lia|by vm_compute|].
  rewrite E1. cbn [mbind option_bind].
  set (A1 := fun k x => A k x \/ (k = j /\ x = d)) in *.
  destruct (create_world n o (set_heap v h1) F1 A1 G Ho Hw1 Hr1) as
    (i & h2 & a & root & F2 & E2 & Ha0 & Han & Hw2 & Hsp & Hemp & _ & Hrt & HF2 & Hr2 & _ & Hk2 & Hg2).
  rewrite E2. cbn [mbind option_bind]. rewrite (proj2 (Z.eqb_neq a 0)) by done.
  match type of Hsp with space_out _ _ ?X _ _ _ => set (A2 := X) in * end. set (G2 := fplus G (in_range root 4096)) in *.
  assert (a <> d) as Had by (intros ->; apply (Han j); by right).
  assert (forall k y, A k y -> A2 k y /\ y <> d) as HA2.
  { intros k y Hy. split; [by do 2 left|]. intros ->. by apply (Hnew k). }
  assert (A2 j d) as Hd by (left; by right). assert (A2 i a) as Ha by (by right).
  change (v_mem (set_heap (set_heap v h1) h2)) with (h_mem h2). set (m := store 8 (store 8 (store 8 _ _ _) _ _) _ _).
  unfold sizeof_mem_descriptor in Hsz. destruct (object_write_kept h2 _ A2 G2 j d m Hw2 Hd) as (Hw3 & Hk3 & Hg3).
  { unfold m. repeat (etransitivity; [|apply agree_store; unfold in_range; intros; lia]). reflexivity. }
  exists (set_mem h2 m), d. eexists. split; [reflexivity|]. split; [|exact Hr2].
  pose proof (space_out_kept _ (set_mem h2 m) G2 A2 A2 i a root Hsp Ha) as Hsp'.
  change (h_mem (set_mem h2 m)) with m in Hsp'. specialize (Hsp' ltac:(by apply Hk3) Hg3 ltac:(done)).
  change (set_heap (set_heap (set_heap v h1) h2) (set_mem h2 m)) with (set_heap v (set_mem h2 m)) in Hsp'.
  exists A2, i, j, a, root. split; [exact Hw3|]. change (v_mem (set_heap v (set_mem h2 m))) with m.
  assert (load 8 m d = a) as Em.
  { unfold m. rewrite !load_store_ne by lia. apply load8_store8. exact (object_word h2 _ A2 G2 i a Hw2 Ha). }
  split; [split|split; [|split; [|split; [|split]]]].
  - done.
  - exact Em.
  - exact Hsp'.
  - change (Memmgr.mm_regions m d = 0). unfold Memmgr.mm_regions, m. rewrite !load_store_ne by lia. by apply load8_store8.
  - by constructor.
  - apply NoDup_cons. split; [by intros ->%list_elem_of_singleton|apply NoDup_singleton].
  - change (h_mem h2) with (v_mem (set_heap (set_heap v h1) h2)) in Hg3. rewrite <- Hemp. apply space_pages_agree.
    eapply agree_sub; [exact Hg3|]. rewrite Hemp. intros x (p & ->%list_elem_of_singleton & Hx). by right.
  - intros x [[Hx _]|Hx]; [by apply HF1, HF2|by apply HF1, HF2, Hrt].
  - intros k y. rewrite !not_elem_of_cons. split; [intros Hy|].
    + destruct (HA2 k y Hy) as [Hy2 Hne]. split; [done|]. split; [done|]. split; [|set_solver]. intros ->. apply (Han k). by left.
    + intros [[[Hy|[-> ->]]|[-> ->]] (Hyd & Hya & _)]; done.
  - intros k y Hy. destruct (HA2 k y Hy) as [Hy2 Hne]. transitivity (h_mem h1); [by apply Hk1|].
    transitivity (h_mem h2); [apply Hk2; by left|by apply Hk3].
  - transitivity (h_mem h1); [exact Hg1|]. transitivity (h_mem h2); [exact Hg2|]. eapply agree_sub; [exact Hg3|].
    intros x Hx. by left.
Qed.

(** A region that is accepted, and whose node [kfree] will not take for a free
    object: the start is its first word. *)
Definition plain_region (r : Z * Z * Z) : Prop := region_proper r /\ r.1.1 <> FREED_PATTERN.

(** The node [mm_add_region] links. *)
Definition linked_node (m : mem) (d r start stop flags : Z) : mem :=
  let m := store 8 m r start in
  let m := store 8 m (r + 8) stop in
  let m := store 8 m (r + 16) flags in
  store 8 m (r + 24) (Memmgr.mm_regions m d).

Lemma linked_node_spec m d r start stop flags :
  0 <= start < 2 ^ 64 -> (d + 48 <= r \/ r + 32 <= d) ->
  let m' := linked_node m d r start stop flags in
  load 8 m' r = start /\ load 8 m' (r + 24) = load 8 m (d + 8) /\ agree (fun x => ~ in_range r 32 x) m m'.
Proof.
  intros Hs Hap m'. unfold m', linked_node, Memmgr.mm_regions. split_and!.
  - rewrite !load_store_ne by lia. by apply load8_store8.
  - rewrite load8_store8 by apply load8_range. by rewrite !load_store_ne by lia.
  - repeat (etransitivity; [|apply agree_store; unfold in_range; intros; lia]). reflexivity.
Qed.

Lemma add_alive n o h F Fr A G v d l start stop flags :
  (1 <= o <= 20)%nat -> alive h F Fr A G v d l -> pa_room (h_pages (v_heap v)) Fr o (S n) -> plain_region (start, stop, flags) ->
  exists h' r Fr', mm_add_region 64 d start stop flags v = Some (set_heap v h', 0) /\
    alive h F Fr' A G (set_heap v h') d (r :: l) /\ pa_room (h_pages h') Fr' o n.
Proof.
  intros Ho (A0 & i & j & a & root & Hin) Hr [(Hlt & Hst & _) Hpat]. cbn [fst snd] in Hlt, Hst, Hpat.
  pose proof Hin as (Hw & [[Hd Hsd] _ _ _ _ _] & _). pose proof (object_even _ _ _ _ _ _ Hw Hd) as [Hd0 _].
  unfold mm_add_region. rewrite (proj2 (Z.eqb_neq d 0)), (proj2 (Z.leb_gt stop start)) by lia. cbn [orb].
  destruct (world_kmalloc n o sizeof_mem_region (v_heap v) Fr A0 _ Hw Hr) as
    (jr & h1 & r & F1 & E1 & Hr0 & Hsz & Hnew & Hw1 & HF1 & Hr1 & Hb1 & Hk1 & Hg1); [lia|by vm_compute|].
  rewrite E1. cbn [mbind option_bind]. set (A1 := fun k x => A0 k x \/ (k = jr /\ x = r)) in *. set (G0 := fplus _ _) in *.
  assert (A1 jr r) as Hrr by (by right). assert (A1 j d) as Hd1 by (by left).
  assert (forall k y, A0 k y -> A1 k y /\ y <> r) as HA1 by (intros k y Hy; split; [by left|intros ->; by apply (Hnew k)]).
  pose proof (proj2 (HA1 j d Hd)) as Hdr. unfold sizeof_mem_region, sizeof_mem_descriptor in *.
  fold (linked_node (h_mem h1) d r start stop flags). set (m4 := linked_node _ _ _ _ _ _).
  destruct (linked_node_spec (h_mem h1) d r start stop flags) as (Hl0 & Hl24 & Ha4); [lia| |].
  { destruct (repr_apart _ _ _ j d jr r (world_repr _ _ _ _ Hw1) Hd1 Hrr Hdr); lia. }
  fold m4 in Hl0, Hl24, Ha4.
  destruct (object_write_kept h1 F1 A1 G0 jr r m4 Hw1 Hrr) as (Hw4 & Hk4 & Hg4).
  { eapply agree_sub; [exact Ha4|]. unfold in_range. intros; lia. }
  destruct (object_write_kept (set_mem h1 m4) F1 A1 G0 j d (set_mm_regions m4 d r) Hw4 Hd1) as (Hw5 & Hk5 & Hg5).
  { apply agree_store. unfold in_range. intros; lia. }
  set (m5 := set_mm_regions m4 d r) in *. change (h_mem (set_mem h1 m4)) with m4 in *. change (set_mem (set_mem h1 m4) m5) with (set_mem h1 m5) in *.
  assert (forall k y, A0 k y -> kept k y (v_mem v) m4) as Hkm.
  { intros k y Hy. destruct (HA1 k y Hy). transitivity (h_mem h1); [by apply Hk1|by apply Hk4]. }
  exists (set_mem h1 m5), r, F1. split; [done|]. split; [|exact Hr1]. exists A1, i, j, a, root.
  apply (alive_step h F Fr A G v d l A0 i j a root (set_mem h1 m5) F1 A1 [r] Hin Hw5 HF1 Hb1); change (h_mem (set_mem h1 m5)) with m5.
  - intros k y Hy. destruct (HA1 k y Hy). split; [done|]. by rewrite list_elem_of_singleton.
  - intros k y [Hy|[_ ->]]; [by left|right; left].
  - apply NoDup_singleton.
  - intros k y Hy Hne. transitivity m4; [by apply Hkm|]. apply Hk5; [by left|done].
  - transitivity (h_mem h1); [exact Hg1|]. by transitivity m4.
  - unfold m5, set_mm_regions. rewrite load_store_ne by lia.
    by rewrite <- (Z.add_0_r d), (kept_load j d (v_mem v) m4 8 0), Z.add_0_r by (lia || by apply Hkm).
  - intros Hch. change (Memmgr.mm_regions m5 d) with (load 8 m5 (d + 8)).
    assert (load 8 m5 (d + 8) = r) as -> by (apply load8_store8; exact (object_word _ _ _ _ _ _ Hw1 Hrr)). split; [done|]. split; [done|].
    rewrite (kept_load jr r m4 m5 8 24), Hl24 by (lia || by apply Hk5). rewrite (kept_load j d _ _ 8 8 (Hk1 j d Hd)) by lia. exact Hch.
  - apply Forall_cons. split; [|by apply Forall_nil]. exists jr. split; [done|]. split; [done|]. change (load 8 m5 r <> FREED_PATTERN).
    by rewrite <- (Z.add_0_r r), (kept_load jr r m4 m5 8 0), Z.add_0_r, Hl0 by (lia || by apply Hk5).
Qed.

Lemma free_alive h F Fr A G v d l :
  (forall x, G x -> ~ F x) -> alive h F Fr A G v d l -> kernel_as v = 0 \/ (exists k, A k (kernel_as v)) ->
  exists h' F', mm_free (S (length l)) d v = Some (set_heap v h') /\ (forall x, F' x -> F x) /\ heap_world h' F' A G /\
    (forall k y, A k y -> kept k y (h_mem h) (h_mem h')) /\ agree (image G) (h_mem h) (h_mem h').
Proof.
  intros HGF (A0 & i & j & a & root & Hw & Hm & Hemp & HF & HA & Hk & Hg) Hkas.
  pose proof (mo_space _ _ _ _ _ _ _ _ _ Hm) as [[Ha _] _ _ _]. pose proof (object_even _ _ _ _ _ _ Hw Ha) as [Ha0 _].
  assert (a <> kernel_as v) as Hne.
  { intros E. destruct Hkas as [Ek|[k Hka]]; [lia|]. rewrite <- E in Hka. apply HA in Hka as [_ Hn]. apply Hn. right. left. }
  destruct (mm_free_spec (S (length l)) i j d l a root v Fr A0 _ Hw Hm Hne) as (h' & E & Hw' & Hk' & Hg'); [lia|].
  rewrite Hemp in *. cbn [app] in *. exists h', (fplus Fr (pages [root])). split; [exact E|]. split; [|split; [|split]].
  - intros x [Hx|Hx%pages_one]; apply HF; auto.
  - apply (world_weaken h' _ _ (fminus (fplus G (in_range root 4096)) (pages [root]))).
    + intros x Hx. split; [by left|]. rewrite pages_one. intros Hxr. apply (HGF x Hx), HF. by right.
    + eapply world_objects; [|exact Hw']. intros k y. symmetry. apply HA.
  - intros k y Hy. transitivity (v_mem v); [by apply Hk|]. apply HA in Hy as [Hy Hn]. by apply Hk'.
  - transitivity (v_mem v); [exact Hg|]. eapply agree_sub; [exact Hg'|]. intros x Hx. split; [by left|].
    rewrite pages_one. intros Hxr. apply (HGF _ Hx), HF. by right.
Qed.

Lemma add_regions_alive rs : forall n o h F Fr A G v d l,
  (1 <= o <= 20)%nat -> alive h F Fr A G v d l -> pa_room (h_pages (v_heap v)) Fr o (length rs + n) -> Forall plain_region rs ->
  exists h' Fr' l', add_regions 64 d rs v = Some (set_heap v h') /\ alive h F Fr' A G (set_heap v h') d l' /\
    length l' = (length rs + length l)%nat /\ pa_room (h_pages h') Fr' o n.
Proof.
  induction rs as [|[[start stop] flags] rs IH]; intros n o h F Fr A G v d l Ho Hal Hr Hf.
  { exists (v_heap v), Fr, l. assert (set_heap v (v_heap v) = v) as -> by (by destruct v). done. }
  apply Forall_cons in Hf as [Hp Hf]. cbn [add_regions].
  destruct (add_alive (length rs + n) o h F Fr A G v d l start stop flags Ho Hal Hr Hp) as (h1 & r & F1 & E1 & Hal1 & Hr1).
  rewrite E1. cbn [mbind option_bind].
  destruct (IH n o h F F1 A G (set_heap v h1) d (r :: l) Ho Hal1 Hr1 Hf) as (h2 & F2 & l2 & E2 & Hal2 & El & Hr2).
  exists h2, F2, l2. split; [exact E2|]. split; [exact Hal2|]. split; [simpl in El |- *; lia|exact Hr2].
Qed.

(** The break of the heap is written. *)
Lemma brk_alive h F Fr A G v d l brk :
  alive h F Fr A G v d l -> alive h F Fr A G (set_vmem v (set_mm_brk (v_mem v) d brk)) d l.
Proof.
  intros (A0 & i & j & a & root & Hin). pose proof Hin as (Hw & [[Hd Hsd] _ _ _ _ _] & _). unfold sizeof_mem_descriptor in Hsd.
  set (m := set_mm_brk (v_mem v) d brk). destruct (object_write_kept (v_heap v) Fr A0 _ j d m Hw Hd) as (Hw1 & Hk1 & Hg1).
  { apply agree_store. unfold in_range. intros; lia. }
  exists A0, i, j, a, root.
  apply (alive_step h F Fr A G v d l A0 i j a root (set_mem (v_heap v) m) Fr A0 [] Hin Hw1); change (h_mem (set_mem (v_heap v) m)) with m.
  - done.
  - done.
  - intros k y Hy. split; [done|]. set_solver.
  - by left.
  - constructor.
  - exact Hk1.
  - exact Hg1.
  - apply load_store_ne. lia.
  - intros Hch. unfold Memmgr.mm_regions. unfold m at 2, set_mm_brk. rewrite load_store_ne by lia. exact Hch.
  - constructor.
Qed.

(** The layout of an executable. *)
Lemma exec_layout_plain code_start code_end data_end :
  exec_ok code_start code_end data_end -> Forall plain_region (exec_layout code_start code_end data_end).
Proof.
  intros Hok. pose proof (exec_layout_proper _ _ _ Hok) as Hp. apply Forall_and; split; [exact Hp|]. clear Hp.
  destruct Hok as (H1 & H2 & _ & _ & H5 & H6). unfold exec_layout. rewrite !round_up_lnot.
  destruct (align_up_range code_end) as [Hc _]; [lia..|]. destruct (align_up_range data_end) as [Hd _]; [lia..|].
  unfold HEAP_SIZE, GUARD_SIZE, PAGE_SIZE, STACK_TOP, STACK_SIZE, FREED_PATTERN.
  rewrite !(wrap_small 64) by (repeat rewrite (wrap_small 64) by lia; lia).
  rewrite !Forall_cons. cbn [fst snd]. repeat first [apply Forall_nil_2 | lia | split].
Qed.

Lemma setup_alive n o h F Fr A G v d code_start code_end data_end :
  (1 <= o <= 20)%nat -> alive h F Fr A G v d [] -> pa_room (h_pages (v_heap v)) Fr o (6 + n) -> exec_ok code_start code_end data_end ->
  exists h' Fr' l, mm_setup_executable 64 d code_start code_end data_end v = Some (set_heap v h', 0) /\
    alive h F Fr' A G (set_heap v h') d l /\ length l = 6%nat /\ pa_room (h_pages h') Fr' o n.
Proof.
  intros Ho Hal Hr Hok. pose proof (exec_layout_plain _ _ _ Hok) as Hp. unfold mm_setup_executable. set (rs := exec_layout _ _ _) in *.
  assert (Forall plain_region (take 2 rs) /\ Forall plain_region (drop 2 rs)) as [Hp1 Hp2].
  { apply Forall_app. by rewrite take_drop. }
  destruct (add_regions_alive (take 2 rs) (4 + n) o h F Fr A G v d [] Ho Hal Hr Hp1) as (h1 & F1 & l1 & E1 & Hal1 & El1 & Hr1).
  rewrite E1. cbn [mbind option_bind]. set (brk := Z.land _ _). apply (brk_alive _ _ _ _ _ _ _ _ brk) in Hal1.
  destruct (add_regions_alive (drop 2 rs) n o h F F1 A G _ d l1 Ho Hal1 Hr1 Hp2) as (h2 & F2 & l2 & E2 & Hal2 & El2 & Hr2).
  rewrite E2. cbn [mbind option_bind]. exists h2, F2, l2. split; [reflexivity|]. split; [exact Hal2|]. split; [|exact Hr2].
  rewrite El2, El1. reflexivity.
Qed.

(** C15. Freeing a task's memory.  [mm_free] terminates and gives back the tables
    of the task, each exactly once, its region nodes, its address space and its
    descriptor: free memory grows by exactly the tables, exactly these objects
    leave the set of objects in use, every other object and page keeps its
    contents.  A frame the page tables map stays in use, although nothing
    points to it any more. *)
Theorem mm_free_correct fuel i j d l a root v F A G :
  heap_world (v_heap v) F A G -> mm_out v G A i j d l a root -> a <> kernel_as v -> (length l < fuel)%nat ->
  let L := space_pages (v_mem v) root ++ [root] in
  exists h', mm_free fuel d v = Some (set_heap v h') /\
    heap_world h' (fplus F (pages L)) (fun k y => A k y /\ y ∉ d :: a :: l) (fminus G (pages L)) /\
    (forall k y, A k y -> y ∉ d :: a :: l -> kept k y (v_mem v) (h_mem h')) /\
    agree (image (fminus G (pages L))) (v_mem v) (h_mem h') /\
    (forall x, G x -> ~ pages L x -> ~ fplus F (pages L) x).
Proof.
  intros Hw Hm Hak Hf L. destruct (mm_free_spec fuel i j d l a root v F A G Hw Hm Hak Hf) as (h' & E & Hw' & Hk & Hg).
  exists h'. split_and!; try done. intros x HG Hn [HF|Hp]; [|done]. by apply (world_page_free _ _ _ _ _ Hw HG).
Qed.

(** C16. The whole life of a task's memory.  With room in the heap, [mm_alloc]
    and [mm_setup_executable] succeed, and [mm_free] gives back all that was
    taken: the objects in use are those of before, no page stays with the task,
    no byte of an older object or page has changed, and the free memory at the
    end lies in the free memory of the start (slabs that grew stay with the
    heap). *)
Theorem mm_life_roundtrip o code_start code_end data_end v F A G :
  (1 <= o <= 20)%nat -> heap_world (v_heap v) F A G -> pa_room (h_pages (v_heap v)) F o 9 ->
  exec_ok code_start code_end data_end -> kernel_as v = 0 \/ (exists k, A k (kernel_as v)) ->
  exists h1 d h2 h3 F', mm_alloc 64 v = Some (set_heap v h1, d) /\
    mm_setup_executable 64 d code_start code_end data_end (set_heap v h1) = Some (set_heap v h2, 0) /\
    mm_free 7 d (set_heap v h2) = Some (set_heap v h3) /\
    heap_world h3 F' A G /\ (forall x, F' x -> F x) /\
    (forall k y, A k y -> kept k y (v_mem v) (h_mem h3)) /\ agree (image G) (v_mem v) (h_mem h3).
Proof.
  intros Ho Hw Hr Hok Hk. destruct (mm_alloc_alive 6 o v F A G Ho Hw Hr) as (h1 & d & F1 & E1 & Hal1 & Hr1).
  destruct (setup_alive 0 o (v_heap v) F F1 A G (set_heap v h1) d code_start code_end data_end Ho Hal1 Hr1 Hok)
    as (h2 & F2 & l & E2 & Hal2 & El & _).
  destruct (free_alive (v_heap v) F F2 A G (set_heap v h2) d l) as (h3 & F3 & E3 & HF & Hw3 & Hk3 & Hg3);
    [intros x; by apply (world_page_free _ _ _ _ _ Hw)|done|done|].
  rewrite El in E3. by exists h1, d, h2, h3, F3.
Qed.

End Free.

(** ** Witnesses: a machine with 32 MiB of memory *)

#[local] Existing Instance qemu_hhdm.
#[local] Existing Instance demo_linker.

Lemma demo_client_world : exists (v : vmm buddy_state) F,
  heap_world (v_heap v) F (fun _ _ => False) (fun _ => False) /\ pa_room (h_pages (v_heap v)) F room_order 10 /\ kernel_as v = 0.
Proof.
  destruct demo_boot_pages as (m & st & G & _ & Hok & _ & Hr).
  exists (mk_vmm (mk_heap m st slab_allocator_init) 0 0 0 []), (buddy_free st G). split; [|by split].
  apply repr_world, slab_init_repr. by exists G.
Qed.

Lemma demo_order : (1 <= room_order <= 20)%nat.
Proof. unfold room_order. lia. Qed.

(** An address space with a table below its first entry. *)
Lemma demo_tree_space : exists (v : vmm buddy_state) F A G i a root p,
  heap_world (v_heap v) F A G /\ space_out v G A i a root /\ a <> 0 /\ a <> kernel_as v /\ space_pages (v_mem v) root = [p].
Proof.
  destruct demo_client_world as (v & F & Hw & Hr & Hk).
  destruct (create_world 8 room_order v F _ _ demo_order Hw Hr) as
    (i & h & a & root & F1 & _ & Ha0 & _ & Hw1 & Hsp & Hemp & Hz & _ & _ & Hr1 & _).
  match type of Hsp with space_out _ ?X ?Y _ _ _ => set (G := X) in *; set (A := Y) in * end.
  destruct (pmm_alloc_page h) as [h2 p] eqn:E2.
  destruct (world_page 7 room_order h _ A G h2 p Hw1 Hr1) as (_ & Hw2 & Hp & _ & Hb2 & Hpf & Hk2 & Hg2); [apply demo_order|exact E2|].
  set (G2 := fplus G (in_range p 4096)) in *.
  assert (space_out (set_heap v h2) G A i a root) as Hsp2.
  { apply (space_out_kept (set_heap v h) h2 G A A i a root Hsp); [by right|apply Hk2; by right|exact Hg2|exact Hb2]. }
  assert (space_out (set_heap v h2) G2 A i a root) as Hsp3.
  { destruct Hsp2 as [H1 H2 H3 H4]. split; [exact H1|exact H2|exact H3|]. eapply Forall_impl; [exact H4|].
    intros q [Hq Hx]. split; [exact Hq|]. intros x Hxq. left. by apply Hx. }
  assert (p <> root) as Hne.
  { intros ->. destruct (Hpf root) as [_ Hn]; [unfold in_range; lia|]. apply Hn. unfold in_range. lia. }
  destruct (space_link h2 v _ A G2 i a root p (store 8 (memset (h_mem h2) (p + hhdm_offset) 0 4096) (root + hhdm_offset)
    (Z.lor (Z.lor (Z.lor p PTE_PRESENT) PTE_WRITABLE) PTE_USER)) Hw2 Hsp3 Hp Hne) as (Hw4 & Hsp4 & E4); [|reflexivity|].
  { intros j Hj. rewrite <- (Hz j Hj). symmetry. apply load_agree. eapply agree_sub; [exact Hg2|]. intros x Hx. right.
    unfold image, in_range, entry_addr in *. lia. }
  eexists (set_heap v (set_mem h2 _)), _, A, G2, i, a, root, p. split; [exact Hw4|]. split; [exact Hsp4|].
  split; [exact Ha0|]. split; [|exact E4]. change (a <> kernel_as v). by rewrite Hk.
Qed.

Lemma vmm_destroy_witness : exists (v : vmm buddy_state) h F A G a root p,
  vmm_destroy_address_space a v = Some (set_heap v h) /\ space_pages (v_mem v) root = [p] /\
  heap_world h (fplus F (pages [p; root])) A (fminus G (pages [p; root])).
Proof.
  destruct demo_tree_space as (v & F & A & G & i & a & root & p & Hw & Hsp & Ha & Hk & Ep).
  destruct (vmm_destroy_correct i a root v F A G Hw Hsp Ha) as [_ Hd].
  destruct (Hd Hk) as (h & E & Hw' & _). rewrite Ep in Hw'. cbn [app] in Hw'.
  exists v, h, F. eexists. exists G, a, root, p. split; [exact E|]. split; [exact Ep|]. exact Hw'.
Defined.

Lemma demo_exec : exec_ok 0x400000 0x40123f 0x4055ff.
Proof. unfold exec_ok. split_and!; try lia; vm_compute; congruence. Qed.

Lemma mm_free_witness : exists (v : vmm buddy_state) d (l : list Z) h F root,
  length l = 6%nat /\ mm_free 7 d v = Some (set_heap v h) /\
  heap_world h (fplus F (pages [root])) (fun _ _ => False) (fun _ => False).
Proof.
  destruct demo_client_world as (v & F & Hw & Hr & Hk).
  destruct (mm_alloc_alive 6 room_order v F _ _ demo_order Hw (pa_room_weaken _ _ _ _ Hr)) as (h1 & d & F1 & _ & Hal1 & Hr1).
  destruct (setup_alive 0 room_order _ F F1 _ _ (set_heap v h1) d _ _ _ demo_order Hal1 Hr1 demo_exec)
    as (h2 & F2 & l & _ & (A & i & j & a & root & Hw2 & Hm & Hemp & HF & HA & _) & El & _).
  pose proof (mo_space _ _ _ _ _ _ _ _ _ Hm) as Hsp. pose proof (object_even _ _ _ _ _ _ Hw2 (proj1 (sp_object _ _ _ _ _ _ Hsp))) as [Ha0 _].
  destruct (mm_free_correct 7 i j d l a root _ F2 A _ Hw2 Hm) as (h & E & Hw' & _).
  - change (a <> kernel_as v). rewrite Hk. lia.
  - rewrite El. lia.
  - rewrite Hemp in Hw'. cbn [app] in Hw'. exists (set_heap (set_heap v h1) h2), d, l, h, F2, root.
    split; [exact El|]. split; [exact E|]. apply (world_weaken h _ _ (fminus (fplus (fun _ => False) (in_range root 4096)) (pages [root]))); [done|].
    eapply world_objects; [|exact Hw']. intros k y. symmetry. apply HA.
Defined.

Lemma mm_life_witness : exists (v : vmm buddy_state) h1 d h2 h3 F,
  mm_alloc 64 v = Some (set_heap v h1, d) /\
  mm_setup_executable 64 d 0x400000 0x40123f 0x4055ff (set_heap v h1) = Some (set_heap v h2, 0) /\
  mm_free 7 d (set_heap v h2) = Some (set_heap v h3) /\ heap_world h3 F (fun _ _ => False) (fun _ => False).
Proof.
  destruct demo_client_world as (v & F & Hw & Hr & Hk).
  destruct (mm_life_roundtrip room_order 0x400000 0x40123f 0x4055ff v F _ _ demo_order Hw (pa_room_weaken _ _ _ _ Hr) demo_exec)
    as (h1 & d & h2 & h3 & F' & E1 & E2 & E3 & Hw3 & _); [by left|].
  exists v, h1, d, h2, h3, F'. split; [exact E1|]. split; [exact E2|]. split; [exact E3|exact Hw3].
Defined.
