(* ===== verification/StartSpec.v ===== *)
(** * Boot: the initialisers

    The steps of [_start] one by one: the heap over the usable memory, the
    address space of the kernel, the mapping of the local APIC and its
    calibration, each with the memory it may touch. *)
From Stdlib Require Import String.
From S2P Require Import Prelude Memory PageAlloc Slab SlabProofs SlabHeap SlabSpec Pmm KmallocSpec HeapFrame.
From S2P Require Import Klib KlibSpec Vmm VmmProofs VmmRange VmmRoute Memmgr Lists Tasks TasksSpec TasksClaims TaskHeap.
From S2P Require Import Console Klog Devices DevicesSpec TimerSpec BootClock Descr DescrSpec Interrupts.
From S2P Require Import Buddy BuddyProofs Progress BuddySpec HeapClaims Boot BootSpec.
Import Slab Pmm Klib Vmm Memmgr Lists Tasks Devices Descr Buddy Boot.

(** ** The heap *)

Section Heap.
Context `{Hhdm} `{Linker}.

(** After the first usable region, which the allocator skips, a region with an
    aligned run of blocks gives that much room. *)
Lemma boot_heap es e0 rest e p n m :
  filter (fun e => e_type e = 0) es = e0 :: rest -> (length rest <= 30)%nat ->
  Forall region_ok rest -> ForallOrdPairs regions_apart rest ->
  e ∈ rest -> (0 < n)%nat -> 0 < p -> p mod block_size room_order = 0 ->
  (forall x, in_range p (Z.of_nat n * block_size room_order) x -> region_pages e x) ->
  exists m' st B, buddy_allocator_init es m buddy_boot = Some (m', st) /\
    heap_at n (mk_heap m' st slab_allocator_init) B /\ (forall x, B x -> image (region_bytes rest) x) /\
    agree (fun x => ~ image (region_bytes rest) x) m m'.
Proof.
  intros Ef Hlen Hok Hap He Hn Hp Hal Hin.
  destruct (buddy_init_registered es e0 rest m Ef Hlen Hok Hap) as (m' & st & G & E & Hreg & Hfree).
  set (h := mk_heap m' st slab_allocator_init).
  assert (heap_ok h (buddy_free st G) (fun _ _ => []) (fun _ => [])) as Hh by (apply slab_init_ok; exists G; split; [apply Hreg|done]).
  exists m', st, (zone (buddy_free st G) (fun _ _ => []) (fun _ => [])). split_and!; [done| | |apply Hreg].
  - exists (buddy_free st G), (fun _ _ => []), (fun _ => []). split_and!; [done| |done].
    apply (registered_room _ _ _ _ _ _ _ e p room_order n Hreg); try done. unfold room_order. lia.
  - intros x [Hx|[(i & v & _ & Hv & _) _]]; [|set_solver]. apply Hfree in Hx as (f & Hf & Hx). exists f. split; [done|].
    rewrite Forall_forall in Hok. destruct (Hok f Hf) as (Hb & Hl & Hlim). pose proof hhdm_phys_bits.
    unfold region_pages in Hx. destruct (page_round_up_spec (e_base f)) as [_ Hr]; [lia|]. unfold in_range in *.
    pose proof (Z.mul_div_le (e_base f + e_length f - page_round_up (e_base f)) 4096). lia.
Qed.
End Heap.

(** ** The kernel's address space *)

Section Space.
Context `{Hhdm} `{Linker} {P : Type} `{!PageAllocator P}.

Implicit Types v : vmm P.

(** [vmm_init] with room in the heap. *)
Lemma vmm_init_room n v B :
  heap_at (S n) (v_heap v) B -> current_pml4 v = 0 -> phys_to_virt (cr3 v) <> 0 ->
  exists h' kas B', vmm_init 64 v = Some (mk_vmm h' kas (phys_to_virt (cr3 v)) (cr3 v) (mmu v), 0) /\
    0 < kas /\ kas + sizeof_addr_space <= 2 ^ 64 /\ heap_at n h' B' /\ (forall x, B' x -> B x) /\
    (forall x, in_range kas sizeof_addr_space x -> B x /\ ~ B' x) /\
    as_pml4 (h_mem h') kas = phys_to_virt (cr3 v) /\ agree (fun x => ~ B x) (v_mem v) (h_mem h').
Proof.
  intros HB Hcur Hpml. unfold vmm_init, get_current_pml4. rewrite Hcur. cbn [Z.eqb v_heap current_pml4 cr3 mmu].
  destruct (heap_at_room n sizeof_addr_space (v_heap v) B HB) as (h1 & kas & B1 & E & Hk & HB1 & Ho); [done..|].
  rewrite E. cbn [mbind option_bind]. destruct (ho_pos _ _ _ _ _ _ Ho) as [Hk0 Hk1].
  rewrite (proj2 (Z.eqb_neq kas 0)), (proj2 (Z.eqb_neq (phys_to_virt _) 0)) by done.
  set (m1 := memset (h_mem h1) kas 0 sizeof_addr_space). set (m2 := store 8 m1 kas (phys_to_virt (cr3 v))).
  exists (set_mem h1 m2), kas, B1. unfold sizeof_addr_space in *.
  assert (agree (fun x => ~ in_range kas 24 x) (h_mem h1) m2) as Ha.
  { transitivity m1; [by apply memset_outside|]. apply agree_store. unfold in_range. intros; lia. }
  split; [done|]. split_and!; try done.
  - apply heap_at_write; [done|]. eapply agree_sub; [exact Ha|]. intros x Hx. by apply (ho_apart _ _ _ _ _ _ Ho).
  - apply Ho.
  - intros x Hx. split; [by apply (ho_from _ _ _ _ _ _ Ho)|]. intros Hb. by apply (ho_apart _ _ _ _ _ _ Ho x Hb).
  - apply load8_store8. apply phys_to_virt_word.
  - transitivity (h_mem h1); [apply (ho_rest _ _ _ _ _ _ Ho)|]. eapply agree_sub; [exact Ha|].
    intros x Hx Hr. by apply Hx, (ho_from _ _ _ _ _ _ Ho).
Qed.

(** One page through [vmm_map_range]. *)
Lemma map_range_page n a va pa flags v B :
  mappable (v_mem v) B a va -> heap_at (3 + n) (v_heap v) B -> 0 <= va -> va + 2 * 4096 < 2 ^ 64 -> va mod 4096 = 0 ->
  0 <= pa < 2 ^ 64 -> pa mod 4096 = 0 -> 0 <= flags < 2 ^ 64 ->
  exists h' B', vmm_map_range a va pa 4096 flags v = Some (event FlushAll (set_heap v h'), 0) /\ heap_at n h' B' /\
    (forall x, B' x -> B x) /\ page_mapped (h_mem h') B' a va (Z.lor (Z.lor pa flags) PTE_PRESENT) /\
    (forall x, mapping_byte (h_mem h') a va x -> mapping_byte (v_mem v) a va x \/ B x) /\
    agree (fun x => ~ B x /\ ~ mapping_byte (v_mem v) a va x) (v_mem v) (h_mem h').
Proof.
  intros Hm HB Hva Hva' Hal Hpa Hpal Hfl.
  destruct (map_page_room n a va pa flags v B Hm HB Hva Hal Hpa Hpal Hfl) as (h' & B' & E & HB' & Hsub & Hpm & Hb & Hag & _).
  exists h', B'. split; [|done]. unfold vmm_map_range. pose proof (mp_struct _ _ _ _ Hm) as [Ha _].
  rewrite (proj2 (Z.eqb_neq a 0)) by lia. cbn [Z.eqb]. rewrite !align_down_spec, Hal, Hpal, !Z.sub_0_r, wrap_small by lia.
  assert ((va + 4096) mod 4096 = 0) as Hal2.
  { rewrite <- (Z.mul_1_l 4096) at 1. by rewrite Z.mod_add. }
  rewrite align_up_aligned by lia. unfold range_fuel, PAGE_SIZE. replace (va + 4096 - va) with 4096 by lia.
  change (S (Z.to_nat (4096 / 4096))) with 2%nat. cbn [map_loop]. rewrite (proj2 (Z.ltb_lt va _)) by lia.
  rewrite E. cbn [Z.eqb]. unfold PAGE_SIZE. rewrite wrap_small by lia. by rewrite Z.ltb_irrefl.
Qed.

(** [apic_global_init] on a clock that has not been calibrated yet. *)
Lemma apic_global_init_room `{Platform} wait limit n v B d :
  mappable (v_mem v) B (kernel_as v) apic_vaddr -> heap_at (3 + n) (v_heap v) B ->
  keeps_time wait limit -> cpu_cycles_per_10ms d = 0 -> (length (hist d) + 37 <= limit)%nat ->
  exists h' B' d', apic_global_init wait v d = Some (event FlushAll (set_heap v h'), d', 0) /\ heap_at n h' B' /\
    (forall x, B' x -> B x) /\
    page_mapped (h_mem h') B' (kernel_as v) apic_vaddr (Z.lor (Z.lor APIC_BASE_ADDR mmio_flags) PTE_PRESENT) /\
    (forall x, mapping_byte (h_mem h') (kernel_as v) apic_vaddr x -> mapping_byte (v_mem v) (kernel_as v) apic_vaddr x \/ B x) /\
    agree (fun x => ~ B x /\ ~ mapping_byte (v_mem v) (kernel_as v) apic_vaddr x) (v_mem v) (h_mem h') /\
    apic_base d' = apic_vaddr /\ 0 <= apic_timer_frequency d' < 2 ^ 32.
Proof.
  intros Hm HB Hk Hd Hl.
  destruct (map_range_page n (kernel_as v) apic_vaddr APIC_BASE_ADDR mmio_flags v B Hm HB)
    as (h' & B' & E & HB' & Hsub & Hmap & Hbytes & Ha);
    [by vm_compute|by vm_compute|done|by vm_compute|done|by vm_compute|].
  unfold apic_global_init, get_kernel_as. change 0x1000 with 4096. rewrite E. cbn [mbind option_bind Z.eqb negb].
  unfold klog. rewrite (bind_eq (set_base apic_vaddr) _ d _ tt eq_refl), emit_bind. set (d1 := log_event _ _).
  destruct (first_calibration wait limit d1) as (d' & E' & Hb' & Hf'); [done|done|done|unfold d1; fields; rewrite length_app; cbn; lia|].
  rewrite E'. cbn [mbind option_bind]. exists h', B', d'. split_and!; try done; lia.
Qed.
End Space.
