(* ===== verification/MemmgrClaims.v ===== *)
(** * The task memory manager: main theorem

    The memory of a user task from its creation to the first page of its
    stack: [mm_alloc], [mm_setup_executable], [mm_check_access] and
    [mm_expand_stack] in a row. *)
From S2P Require Import Prelude Memory PageAlloc Slab Pmm KmallocSpec HeapFrame.
From S2P Require Import Klib Vmm VmmProofs VmmRange VmmRoute Memmgr MemmgrSpec MemmgrHeap.
From S2P Require Import Buddy BuddyProofs BuddySpec HeapClaims Boot BootSpec BootClaims StartSpec.
Import Slab Pmm Klib Vmm Memmgr Buddy Boot.

Section Claims.
Context `{Hhdm} `{Linker} {P : Type} `{!PageAllocator P}.

Implicit Types v : vmm P.

Lemma user_index addr : 0 <= addr < 2 ^ 47 -> 0 <= PML4_INDEX addr < 256.
Proof.
  intros Ha. unfold PML4_INDEX. change 0x1FF with (2 ^ 9 - 1). rewrite land_pow2_pred, Z.shiftr_div_pow2 by lia.
  assert (addr / 2 ^ 39 < 2 ^ 8) by (apply Z.div_lt_upper_bound; lia).
  assert (0 <= addr / 2 ^ 39) by (apply Z.div_pos; lia). rewrite Z.mod_small by lia. lia.
Qed.

(** C26. With room in the heap the memory of a user task can be set up and its
    stack can grow: [mm_alloc] makes an address space that has the upper half
    of the kernel's and maps nothing below it, [mm_setup_executable] describes
    the executable, and [mm_expand_stack] maps a fresh frame at any user
    address.  From then on [mm_check_access] allows an access exactly if the
    layout of the executable does, the break is at the end of the data, and
    the page translates into the frame; descriptor, regions, tables, frame and
    the heap that remains are apart, and no other memory has changed. *)
Theorem task_memory_correct n v B code_start code_end data_end addr :
  heap_at (13 + n) (v_heap v) B -> kernel_clear (v_mem v) (kernel_as v) B ->
  exec_ok code_start code_end data_end -> 0 <= addr < 2 ^ 47 ->
  exists h1 h2 h3 d p B', mm_alloc 64 v = Some (set_heap v h1, d) /\ d <> 0 /\
    mm_setup_executable 64 d code_start code_end data_end (set_heap v h1) = Some (set_heap v h2, 0) /\
    (forall i, 0 <= i < 512 -> load 8 (h_mem h2) (entry_addr (as_pml4 (h_mem h2) (mm_as (h_mem h2) d)) i) = shared_entry v i) /\
    mm_expand_stack d addr (set_heap v h2) = (event (FlushPage (vmm_page_align_down addr)) (set_heap v h3), 0) /\
    heap_at n h3 B' /\ task_memory (h_mem h3) B' d (rev (exec_layout code_start code_end data_end)) /\
    (forall va access, exists b, mm_check_access 64 d va access (set_heap v h3) = Some b /\
       (b = true <-> allows (exec_layout code_start code_end data_end) va access)) /\
    (forall va, vpn va = vpn addr -> vmm_virt_to_phys (mm_as (h_mem h3) d) va (set_heap v h3) = p + va mod 4096) /\
    p <> 0 /\ (forall x, in_range (p + hhdm_offset) 4096 x -> B x /\ ~ B' x) /\
    mm_brk (h_mem h3) d = vmm_page_align_up data_end /\ agree (fun x => ~ B x) (v_mem v) (h_mem h3).
Proof.
  intros HB Hk Hok Haddr.
  destruct (mm_alloc_room (10 + n) v B HB Hk) as (h1 & d & B1 & E1 & Hd & HB1 & Hsub1 & Hm1 & Hown & Hz & Ha1).
  destruct (mm_setup_room (4 + n) d code_start code_end data_end (set_heap v h1) B1 HB1 Hm1 Hok)
    as (h2 & B2 & E2 & HB2 & Hsub2 & Hm2 & Hbrk & Ha2).
  change (v_mem (set_heap v h1)) with (h_mem h1) in *.
  assert (forall i, 0 <= i < 512 -> load 8 (h_mem h2) (entry_addr (as_pml4 (h_mem h2) (mm_as (h_mem h2) d)) i) = shared_entry v i) as Hz2.
  { intros i Hi. rewrite <- (Hz i Hi). eapply entries_kept; [exact Hm1| |done]. eapply agree_sub; [exact Ha2|].
    intros x [Hx Hd']. split; [done|]. unfold in_range in *. lia. }
  assert (forall x, space_byte (h_mem h2) (mm_as (h_mem h2) d) x -> space_byte (h_mem h1) (mm_as (h_mem h1) d) x) as Hsp.
  { apply (space_kept _ _ _ _ _ Hm1). eapply agree_sub; [exact Ha2|]. intros x [Hx Hd']. split; [done|]. unfold in_range in *. lia. }
  pose proof (user_index addr Haddr) as Hi.
  destruct (expand_stack_room n d addr (set_heap v h2) B2 _ HB2 Hm2) as (h3 & p & B3 & E3 & HB3 & Hsub3 & Hm3 & Ed & Hfr & Hp & Htr & Ha3).
  { lia. }
  { change (v_mem (set_heap v h2)) with (h_mem h2). rewrite Hz2 by lia. unfold shared_entry. by rewrite decide_False by lia. }
  change (v_mem (set_heap v h2)) with (h_mem h2) in *.
  exists h1, h2, h3, d, p, B3. split; [exact E1|]. split; [done|]. split; [exact E2|]. split; [exact Hz2|].
  split; [exact E3|]. split; [done|]. split; [done|]. split; [|split; [|split; [done|split; [|split]]]].
  - intros va access. apply (task_access (set_heap v h3) B3); [exact Hm3| |cbn; lia].
    destruct Hok as (? & ? & ? & ? & ? & ?). by apply exec_layout_ordered.
  - intros va Hva. rewrite Ed. by apply Htr.
  - intros x [Hx Hx']%Hfr. split; [auto|done].
  - unfold mm_brk in *. rewrite <- Hbrk. symmetry. apply load_agree.
    eapply agree_sub; [apply (descriptor_kept _ _ _ _ _ Hm2 Ha3)|]. unfold in_range, sizeof_mem_descriptor. intros; lia.
  - transitivity (h_mem h1); [exact Ha1|]. transitivity (h_mem h2); [eapply agree_sub; [exact Ha2|]|eapply agree_sub; [exact Ha3|]].
    + intros x Hx. split; [auto|]. intros Hr. apply Hx, Hown. left. unfold in_range, sizeof_mem_descriptor in *. lia.
    + intros x Hx. split; [auto|]. intros Hr. apply Hx, Hown. right. by apply Hsp.
Qed.

End Claims.

(** ** A first user task

    32 MiB of memory, a kernel address space at 0x3000 whose table at 0x5000
    maps the last entry, and a small executable. *)

#[local] Existing Instance qemu_hhdm.
#[local] Existing Instance demo_linker.

Definition demo_memory : mem := store 8 (store 8 ∅ 0x3000 0x5000) 0x5ff8 0x51003.

Lemma demo_task_heap : exists (v : vmm buddy_state) B,
  heap_at 14 (v_heap v) B /\ kernel_clear (v_mem v) (kernel_as v) B /\ shared_entry v 511 = 0x51003.
Proof.
  destruct (boot_heap demo_boot_map (mk_entry 0 0x9f000 0) [demo_region] demo_region 0x2000000 14 demo_memory)
    as (m & st & B & _ & HB & Hsub & Ha);
    [reflexivity|simpl; lia|exact demo_region_ok|repeat constructor|by left|lia|lia|reflexivity|intros x; apply (demo_pages 14); lia|].
  assert (forall x, 0x3000 <= x < 0x6000 -> ~ image (region_bytes [demo_region]) x) as Hlow by (intros x Hx Hr%demo_usable; lia).
  exists (mk_vmm (mk_heap m st slab_allocator_init) 0x3000 0 0 []), B. split; [exact HB|].
  assert (as_pml4 m 0x3000 = 0x5000) as Ep.
  { unfold as_pml4. rewrite <- (load_agree 8 demo_memory); [vm_compute; reflexivity|].
    eapply agree_sub; [exact Ha|]. intros x Hx. apply Hlow. unfold in_range in *. lia. }
  split.
  - right. change (v_mem _) with m. cbn [kernel_as]. rewrite Ep. intros x Hx Hb%Hsub.
    apply (Hlow x); [|exact Hb]. unfold in_range, sizeof_addr_space in *. lia.
  - unfold shared_entry. rewrite decide_True by (split; [lia|discriminate]). change (v_mem _) with m. cbn [kernel_as]. rewrite Ep.
    rewrite <- (load_agree 8 demo_memory); [vm_compute; reflexivity|].
    eapply agree_sub; [exact Ha|]. intros x Hx. apply Hlow. unfold in_range, entry_addr in *. lia.
Qed.

Lemma demo_exec_ok : exec_ok 0x400000 0x40123f 0x4055ff.
Proof. unfold exec_ok. split_and!; try lia; vm_compute; congruence. Qed.

Lemma task_memory_witness : exists (v : vmm buddy_state) h1 h2 h3 d p,
  mm_alloc 64 v = Some (set_heap v h1, d) /\
  mm_setup_executable 64 d 0x400000 0x40123f 0x4055ff (set_heap v h1) = Some (set_heap v h2, 0) /\
  mm_expand_stack d 0x7ffffffff008 (set_heap v h2) = (event (FlushPage 0x7ffffffff000) (set_heap v h3), 0) /\
  load 8 (h_mem h2) (entry_addr (as_pml4 (h_mem h2) (mm_as (h_mem h2) d)) 511) = 0x51003 /\
  vmm_virt_to_phys (mm_as (h_mem h3) d) 0x7ffffffff008 (set_heap v h3) = p + 8 /\
  mm_check_access 64 d 0x7ffffffff008 RP_WRITE (set_heap v h3) = Some true /\
  mm_check_access 64 d 0x400000 RP_WRITE (set_heap v h3) = Some false.
Proof.
  destruct demo_task_heap as (v & B & HB & Hk & Hs).
  destruct (task_memory_correct 1 v B 0x400000 0x40123f 0x4055ff 0x7ffffffff008 HB Hk demo_exec_ok)
    as (h1 & h2 & h3 & d & p & B' & E1 & _ & E2 & Hz & E3 & _ & _ & Hacc & Htr & _); [lia|].
  exists v, h1, h2, h3, d, p. split; [exact E1|]. split; [exact E2|]. split; [exact E3|].
  split; [rewrite <- Hs; apply Hz; lia|]. split; [apply (Htr 0x7ffffffff008); reflexivity|]. split.
  - destruct (Hacc 0x7ffffffff008 RP_WRITE) as (b & E & Hb). rewrite E. f_equal. apply Hb.
    exists (0x7fffff800000, 0x7fffffffffff, 19). split; [|split; [reflexivity|split; [discriminate|reflexivity]]].
    vm_compute. repeat first [left; reflexivity|right].
  - destruct (Hacc 0x400000 RP_WRITE) as ([] & E & Hb); [exfalso|exact E].
    destruct (proj1 Hb eq_refl) as (r & Hr & Hc & _ & Hl).
    assert (r = (0x400000, 0x40123f, 5)) as ->; [|vm_compute in Hl; discriminate Hl].
    apply (ordered_unique (exec_layout 0x400000 0x40123f 0x4055ff) r _ 0x400000); try assumption; try reflexivity.
    + apply exec_layout_ordered; first [lia|vm_compute; congruence].
    + left.
Defined.
