(* ===== verification/StartClaims.v ===== *)
(** * Boot: the kernel starts

    [_start] on what the boot loader hands over: all initialisers succeed, one
    after the other, none undoes the work of another, and the kernel enters the
    loop of [smp_init] in a state from which the theorems of BootClaims go on. *)
From Stdlib Require Import String.
From S2P Require Import Prelude Memory PageAlloc Slab SlabProofs SlabHeap SlabSpec Pmm KmallocSpec HeapFrame.
From S2P Require Import Klib Vmm VmmProofs VmmRoute Memmgr Lists Tasks TasksSpec TasksClaims TaskHeap.
From S2P Require Import Console ConsoleSpec ConsoleClaims Klog Devices DevicesSpec TimerSpec BootClock Descr DescrSpec Interrupts.
From S2P Require Import Buddy BuddyProofs BuddySpec HeapClaims Boot BootSpec Startup StartupSpec BootClaims StartSpec.
Import Slab Pmm Klib Vmm Memmgr Lists Tasks Devices Descr Buddy Boot Framebuffer Tty.

Section Start.
Context `{ApicReadback} `{Hhdm} `{Linker} `{TaskLinker} `{DescrLinker} `{BootLinker}.

(** The tables and list heads of the kernel image that [_start] fills in. *)
Definition table_byte (x : Z) : Prop := in_range idt_addr 4096 x \/ in_range gdt_addr 56 x \/ in_range tss_addr 104 x.

Definition image_byte (x : Z) : Prop := table_byte x \/ owned [] x.

(** The device events of [_start] before the clock is calibrated. *)
Definition boot_events : nat := 64.

(** What the boot loader and the machine provide: a screen the terminal can
    use, disjoint usable regions with fourteen aligned blocks of 32 KiB in one
    of them, processors the kernel can number, a clock, and page tables in which
    the page of the APIC registers is free; screen, usable memory, kernel image
    and the entries of those tables share no byte. *)
Record boot_world (wait : nat) (b : boot_info) (fb : framebuffer) (r : limine_smp_response)
    (rest : list memmap_entry) (m : mem) : Prop := {
  bw_revision : revision_supported b = true;
  bw_fb : exists fbs, framebuffers b = Some (fb :: fbs);
  bw_screen : screen_ok fb /\ rows fb * cols fb <= Z.of_nat TERM_CELLS;
  bw_usable : exists e0, filter (fun e => e_type e = 0) (memmap b) = e0 :: rest;
  bw_regions : (length rest <= 30)%nat /\ Forall region_ok rest /\ ForallOrdPairs regions_apart rest;
  bw_room : exists e p, e ∈ rest /\ 0 < p /\ p mod block_size room_order = 0 /\
    forall x, in_range p (14 * block_size room_order) x -> region_pages e x;
  bw_smp : smp_response b = Some r /\ served r;
  bw_time : keeps_time wait boot_events;
  bw_image x : image_byte x -> ~ image (region_bytes rest) x;
  bw_tables x : table_byte x -> ~ owned [] x;
  bw_pixels x : fb_byte fb x -> ~ image_byte x /\ ~ image (region_bytes rest) x;
  bw_cr3 : phys_to_virt (boot_cr3 b) <> 0;
  bw_route : route_clear (fun x => image (region_bytes rest) x \/ image_byte x \/ fb_byte fb x)
    (route m (indices apic_vaddr) (phys_to_virt (boot_cr3 b)));
  bw_unmapped : present (load 8 m (route_end (route m (indices apic_vaddr) (phys_to_virt (boot_cr3 b))))) = false;
}.

(** The terminal and the descriptor tables, before there is a heap. *)
Lemma start_console wait b fb r rest m :
  boot_world wait b fb r rest m ->
  exists tty m1 idtr d1 d2 d, terminal_initialize 0xFFFFFF 0x000035 (bss_terminal (Some fb) (fb_clear (Some fb) 0x000000 m)) = Some tty /\
    klog Klog.Success "Terminal initialized properly\n" [] (mk_dev [] 0 0 0) = Some (d1, tt) /\
    (exists m0, init_gdt (t_mem tty) d1 = Some (m0, d2) /\ init_idt m0 d2 = Some (m1, idtr, d)) /\
    term_ok fb tty (g_blank (mk_cell 32 0xFFFFFF 0x000035)) /\ idtr = mk_idtr 4095 idt_addr /\
    cpu_cycles_per_10ms d = 0 /\ (length (hist d) <= 26)%nat /\
    (forall i, 0 <= i < 256 -> gate_at m1 i =
       if decide (i < 32) then mk_gate (isr (Z.to_nat i)) 0x08 0 0x8E else mk_gate 0 0 0 0) /\
    map (fun i => segment_at m1 (DescrSpec.entry_addr i)) (seq 0 5) =
      [mk_segment 0 0 0 0; mk_segment 0 0 0x9A 2; mk_segment 0 0 0x92 0;
       mk_segment 0 0 0xFA 2; mk_segment 0 0 0xF2 0] /\
    agree (fb_byte fb) (t_mem tty) m1 /\ agree (fun x => ~ fb_byte fb x /\ ~ table_byte x) m m1.
Proof.
  intros W. destruct (bw_screen _ _ _ _ _ _ W) as [Hfb Hfit].
  set (m0 := fb_clear (Some fb) 0 m). set (t0 := bss_terminal (Some fb) m0).
  destruct (terminal_initialize_spec fb t0 0xFFFFFF 0x000035 Hfb eq_refl) as [Hinit _].
  { unfold t0, bss_terminal. cbn [terminal_buffer]. apply length_replicate. }
  destruct (Hinit Hfit) as (tty & E & Hok & _ & _ & Ha).
  set (d1 := log_event (mk_dev [] 0 0 0) (Log Klog.Success "Terminal initialized properly\n" [])).
  destruct (init_gdt_spec (t_mem tty) d1)
    as (m1 & d2 & E1 & Hseg & _ & _ & _ & _ & Hh & Ha1).
  destruct (init_idt_spec m1 d2 (mk_pic 0 0 0 0 0, mk_pic 0 0 0 0 0)) as (m2 & idtr & d3 & E2 & Hg & Ha2 & Hlim & Hbase & _ & _ & Hcyc & Hlen).
  exists tty, m2, idtr, d1, d2, d3. split; [exact E|]. split; [reflexivity|]. split; [exists m1; split; [exact E1|exact E2]|].
  split; [exact Hok|]. split; [rewrite <- Hlim, <- Hbase; destruct idtr; reflexivity|].
  pose proof (init_gdt_cycles _ _ _ _ E1) as Hcyc1. split; [rewrite Hcyc, Hcyc1; reflexivity|].
  split; [rewrite Hlen, Hh, length_app; cbn; lia|]. split; [exact Hg|].
  pose proof tables_apart as (_ & Hig & _). split_and!.
  - rewrite <- Hseg. apply map_ext_in. intros i Hi%in_seq. symmetry. eapply segment_agree; [exact Ha2|].
    intros x Hx. unfold DescrSpec.entry_addr, in_range in *. lia.
  - transitivity m1; [eapply agree_sub; [exact Ha1|]|eapply agree_sub; [exact Ha2|]];
      intros x [Hn _]%(bw_pixels _ _ _ _ _ _ W); [split|]; intros Hx; apply Hn; left; unfold table_byte; auto.
  - transitivity m0; [eapply agree_sub; [apply fb_clear_agree; done|by intros x []]|].
    transitivity (t_mem tty); [eapply agree_sub; [exact Ha|by intros x []]|].
    transitivity m1; [eapply agree_sub; [exact Ha1|]|eapply agree_sub; [exact Ha2|]];
      intros x [_ Hn]; [split|]; intros Hx; apply Hn; unfold table_byte; auto.
Qed.
(** The entries on the way to the APIC page in the tables of the boot loader. *)
Definition boot_route (b : boot_info) (m : mem) : list Z := route m (indices apic_vaddr) (phys_to_virt (boot_cr3 b)).

Definition apic_pte : Z := Z.lor (Z.lor APIC_BASE_ADDR mmio_flags) PTE_PRESENT.

(** The route is still there once the heap is set up and the kernel's address
    space has been allocated from it. *)
Lemma boot_mappable wait b fb r rest m m' kas (B B' : Z -> Prop) :
  boot_world wait b fb r rest m ->
  agree (fun x => ~ image (region_bytes rest) x /\ ~ image_byte x /\ ~ fb_byte fb x) m m' ->
  (forall x, B x -> image (region_bytes rest) x) -> (forall x, B' x -> B x) ->
  0 < kas -> kas + sizeof_addr_space <= 2 ^ 64 -> (forall x, in_range kas sizeof_addr_space x -> B x /\ ~ B' x) ->
  as_pml4 m' kas = phys_to_virt (boot_cr3 b) ->
  route m' (indices apic_vaddr) (as_pml4 m' kas) = boot_route b m /\ mappable m' B' kas apic_vaddr.
Proof.
  intros W Ha HB HB' Hk Hk' Hin Ep. pose proof (bw_route _ _ _ _ _ _ W) as Hc. fold (boot_route b m) in Hc.
  assert (agree (entry_byte (boot_route b m)) m m') as Hr.
  { eapply agree_sub; [exact Ha|]. intros x Hx%(rc_foreign _ _ Hc). split_and!; intros ?; apply Hx; auto. }
  assert (route m' (indices apic_vaddr) (as_pml4 m' kas) = boot_route b m) as Er by (rewrite Ep; by apply route_agree).
  split; [exact Er|]. split; rewrite ?Er, ?Ep.
  - lia.
  - apply (bw_cr3 _ _ _ _ _ _ W).
  - eapply clear_weaken; [|exact Hc]. intros x Hx. left. auto.
  - intros x [Hx HnB]%Hin. split; [done|]. intros Hx'%(rc_foreign _ _ Hc). apply Hx'. left. auto.
  - rewrite <- (load_agree 8 m m'); [apply (bw_unmapped _ _ _ _ _ _ W)|].
    eapply agree_sub; [exact Hr|]. intros x Hx. exists (route_end (boot_route b m)). split; [by apply route_end_in|done].
Qed.

Lemma start_paging wait b fb r rest m m1 d :
  boot_world wait b fb r rest m -> agree (fun x => ~ fb_byte fb x /\ ~ table_byte x) m m1 ->
  cpu_cycles_per_10ms d = 0 -> (length (hist d) <= 27)%nat ->
  exists m2 st v3 v4 d4 B, buddy_allocator_init (memmap b) m1 buddy_boot = Some (m2, st) /\
    vmm_init 64 (mk_vmm (mk_heap m2 st slab_allocator_init) 0 0 (boot_cr3 b) []) = Some (v3, 0) /\
    apic_global_init wait v3 d = Some (v4, d4, 0) /\
    heap_at 10 (v_heap v4) B /\ (forall x, B x -> image (region_bytes rest) x) /\
    page_mapped (v_mem v4) B (kernel_as v4) apic_vaddr apic_pte /\
    (forall x, mapping_byte (v_mem v4) (kernel_as v4) apic_vaddr x -> ~ image_byte x) /\
    agree (fun x => ~ image (region_bytes rest) x /\ ~ entry_byte (boot_route b m) x) m1 (v_mem v4) /\
    apic_base d4 = apic_vaddr /\ 0 <= apic_timer_frequency d4 < 2 ^ 32.
Proof.
  intros W Ha1 Hd Hl. destruct (bw_usable _ _ _ _ _ _ W) as [e0 Ef]. destruct (bw_regions _ _ _ _ _ _ W) as (Hlen & Hok & Hap).
  destruct (bw_room _ _ _ _ _ _ W) as (e & p & He & Hp & Hal & Hin). pose proof (bw_image _ _ _ _ _ _ W) as Himg.
  destruct (boot_heap (memmap b) e0 rest e p 14 m1 Ef Hlen Hok Hap He) as (m2 & st & B2 & E2 & HB2 & Hsub2 & Ha2);
    [lia|done|done|exact Hin|].
  destruct (vmm_init_room 13 (mk_vmm (mk_heap m2 st slab_allocator_init) 0 0 (boot_cr3 b) []) B2 HB2 eq_refl (bw_cr3 _ _ _ _ _ _ W))
    as (h3 & kas & B3 & E3 & Hk & Hk' & HB3 & Hsub3 & Hkas & Epml & Ha3).
  set (v3 := mk_vmm h3 kas _ _ _) in E3.
  assert (agree (fun x => ~ image (region_bytes rest) x) m1 (v_mem v3)) as Ha13.
  { transitivity m2; [exact Ha2|]. eapply agree_sub; [exact Ha3|]. intros x Hx Hb. by apply Hx, Hsub2. }
  destruct (boot_mappable wait b fb r rest m (v_mem v3) kas B2 B3 W) as [Er Hmap]; try done.
  { transitivity m1; [eapply agree_sub; [exact Ha1|]|eapply agree_sub; [exact Ha13|by intros x []]].
    intros x (_ & Hx & Hfb). split; [done|]. intros Ht. apply Hx. by left. }
  destruct (apic_global_init_room wait boot_events 10 v3 B3 d Hmap HB3 (bw_time _ _ _ _ _ _ W) Hd)
    as (h4 & B4 & d4 & E4 & HB4 & Hsub4 & Hpm & Hbytes & Ha4 & Hbase & Hfreq); [unfold boot_events; lia|].
  change (kernel_as v3) with kas in *.
  assert (forall x, mapping_byte (v_mem v3) kas apic_vaddr x -> image (region_bytes rest) x \/ entry_byte (boot_route b m) x) as Hmb.
  { intros x [[Hx _]%Hkas|Hx]; [left; auto|right]. by rewrite Er in Hx. }
  exists m2, st, v3, (event FlushAll (set_heap v3 h4)), d4, B4. split_and!; try done.
  - auto.
  - intros x [[Hx|Hx]%Hmb|Hx]%Hbytes Hi.
    + by apply (Himg x Hi).
    + apply (rc_foreign _ _ (bw_route _ _ _ _ _ _ W) x Hx). auto.
    + apply (Himg x Hi). auto.
  - transitivity (v_mem v3); [eapply agree_sub; [exact Ha13|by intros x []]|]. eapply agree_sub; [exact Ha4|].
    intros x [Hx Hr]. split; [intros Hb; by apply Hx, Hsub2, Hsub3|]. by intros [?|?]%Hmb.
  - apply Hfreq.
  - apply Hfreq.
Qed.

(** The machine when [_start] calls [smp_init]. *)
Definition start_machine (v : vmm buddy_state) (d : dev) : machine (P := buddy_state) :=
  mk_machine (scheduler_init (mk_kernel v 1 (replicate MAX_CORES 0) (replicate MAX_CORES 0)))
    (mk_idtr 4095 idt_addr) (replicate MAX_CORES 0) 0 0 d.

(** The handler of the timer and the scheduler, and with them the state
    [smp_init] starts from. *)
Lemma start_scheduler rest (v : vmm buddy_state) d B :
  heap_at 10 (v_heap v) B -> (forall x, B x -> image (region_bytes rest) x) ->
  (forall x, image_byte x -> ~ image (region_bytes rest) x) -> (forall x, table_byte x -> ~ owned [] x) ->
  apic_base d = apic_vaddr -> 0 <= apic_timer_frequency d < 2 ^ 32 ->
  (forall i, 0 <= i < 256 -> gate_at (v_mem v) i =
     if decide (i < 32) then mk_gate (isr (Z.to_nat i)) 0x08 0 0x8E else mk_gate 0 0 0 0) ->
  let s := start_machine (set_vmem v (apic_timer_register_handler (v_mem v))) d in
  initialised s B /\
  (forall i, 0 <= i < 256 -> gate_at (k_mem (m_kernel s)) i =
     if decide (i < 32 \/ i = 64) then mk_gate (isr (Z.to_nat i)) 0x08 0 0x8E else mk_gate 0 0 0 0) /\
  agree (fun x => ~ in_range idt_addr 4096 x /\ ~ owned [] x) (v_mem v) (k_mem (m_kernel s)).
Proof.
  intros HB Hsub Himg Htab Hb Hf Hg s. destruct (register_handler_spec (v_mem v) Hg) as [Hg1 Ha1].
  set (m1 := apic_timer_register_handler (v_mem v)) in *.
  set (k1 := mk_kernel (set_vmem v m1) 1 (replicate MAX_CORES 0) (replicate MAX_CORES 0)).
  assert (forall x, in_range all_tasks 16 x \/ in_range percpu_cpu_runqueue 64 x -> owned [] x) as Hown.
  { intros x [Hx|Hx]; [by exists AllTasks, (all_tasks, 16)|by exists RunQueues, (percpu_cpu_runqueue, 64)]. }
  destruct (start_world 10 boot_idle_task_addr k1 B) as [W Ha2].
  { apply heap_at_write; [done|]. eapply agree_sub; [exact Ha1|]. intros x Hx Hi.
    apply (Himg x); [left; by left|by apply Hsub]. }
  { intros x Hx%Hown Hx'%Hsub. apply (Himg x); [by right|done]. }
  assert (agree (fun x => ~ owned [] x) m1 (k_mem (m_kernel s))) as Ha2'.
  { eapply agree_sub; [exact Ha2|]. intros x Hx. split; intros Hr; apply Hx, Hown; auto. }
  split_and!.
  - split; try done.
    + split; [change (apic_base d <> 0); by rewrite Hb|exact Hf].
    + intros x Hx. assert (table_byte x) as Ht by (unfold table_byte; tauto). split; [|by apply Htab].
      intros Hx'%Hsub. apply (Himg x); [by left|done].
  - intros i Hi. rewrite <- Hg1 by done. apply gate_agree. eapply agree_sub; [exact Ha2'|]. intros x Hx. apply Htab. left.
    rewrite gate_addr_eq in Hx. unfold in_range in *. lia.
  - transitivity m1; [eapply agree_sub; [exact Ha1|by intros x []]|eapply agree_sub; [exact Ha2'|by intros x []]].
Qed.

Lemma some_bind {A B} (f : A -> option B) a : Some a ≫= f = f a.
Proof. done. Qed.

Lemma reload_idt_run d :
  reload_idt (mk_idtr 4095 idt_addr) d = Some (log_event (log_event d (Lidt 4095 idt_addr)) Sti, tt).
Proof. done. Qed.

(** The calls of [_start], in order. *)
Lemma start_calls fuel wait b m fb fbs tty d1 m1 d2 m2 d3 m3 pages v3 v4 d4 r4 :
  revision_supported b = true -> framebuffers b = Some (fb :: fbs) ->
  terminal_initialize 0xFFFFFF 0x000035 (bss_terminal (Some fb) (fb_clear (Some fb) 0x000000 m)) = Some tty ->
  klog Klog.Success "Terminal initialized properly\n" [] (mk_dev [] 0 0 0) = Some (d1, tt) ->
  init_gdt (t_mem tty) d1 = Some (m1, d2) -> init_idt m1 d2 = Some (m2, mk_idtr 4095 idt_addr, d3) ->
  buddy_allocator_init (memmap b) m2 buddy_boot = Some (m3, pages) ->
  vmm_init fuel (mk_vmm (mk_heap m3 pages slab_allocator_init) 0 0 (boot_cr3 b) []) = Some (v3, 0) ->
  apic_global_init wait v3 (log_event d3 (Log Klog.Success "Virtual memory manager initialized properly\n" [])) = Some (v4, d4, r4) ->
  _start fuel wait b m =
    o ← smp_init fuel (smp_response b) (start_machine (set_vmem v4 (apic_timer_register_handler (v_mem v4)))
          (log_event (log_event d4 (Lidt 4095 idt_addr)) Sti));
    Some (Started tty o).
Proof.
  intros Er Ef Et El Eg Ei Eb Ev Ea.
  assert (fb_init (framebuffers b) = (Some fb, 0)) as Efb by (by rewrite Ef).
  assert (forall v (d : dev), klog Klog.Success v [] d = Some (log_event d (Log Klog.Success v []), tt)) as Elog by done.
  unfold _start. rewrite Er, Efb. cbv beta iota zeta delta [negb]. rewrite Z.eqb_refl. cbv iota.
  rewrite Et, some_bind. cbv beta zeta. rewrite El, some_bind. cbv beta iota. rewrite Eg, some_bind. cbv beta iota.
  rewrite Ei, some_bind. cbv beta iota. rewrite Eb, some_bind. cbv beta iota zeta. rewrite Ev, some_bind. cbv beta iota.
  rewrite Z.eqb_refl. cbv iota. rewrite Elog, some_bind. cbv beta iota. rewrite Ea, some_bind. cbv beta iota zeta.
  rewrite reload_idt_run, some_bind. cbv beta iota zeta. reflexivity.
Qed.

(** The kernel image and the screen lie apart from what the memory manager uses. *)
Lemma boot_apart wait b fb r rest m x :
  boot_world wait b fb r rest m -> image_byte x \/ fb_byte fb x ->
  ~ image (region_bytes rest) x /\ ~ entry_byte (boot_route b m) x.
Proof.
  intros W Hx. split.
  - destruct Hx as [Hx|Hx]; [by apply (bw_image _ _ _ _ _ _ W)|by apply (bw_pixels _ _ _ _ _ _ W)].
  - intros Hr. apply (rc_foreign _ _ (bw_route _ _ _ _ _ _ W) x Hr). tauto.
Qed.

(** What the stages of [_start] leave of each other's work: the console ([m1]),
    paging and the APIC ([m4]), the scheduler ([m5]), the boot tasks ([m6]). *)
Lemma start_kept wait b fb r rest m mt m1 m4 m5 m6 B :
  boot_world wait b fb r rest m -> (forall x, B x -> image (region_bytes rest) x) ->
  agree (fb_byte fb) mt m1 -> agree (fun x => ~ fb_byte fb x /\ ~ table_byte x) m m1 ->
  agree (fun x => ~ image (region_bytes rest) x /\ ~ entry_byte (boot_route b m) x) m1 m4 ->
  agree (fun x => ~ in_range idt_addr 4096 x /\ ~ owned [] x) m4 m5 ->
  agree (fun x => ~ B x /\ ~ owned [] x) m5 m6 ->
  agree (fb_byte fb) mt m6 /\ (forall i, 0 <= i < 256 -> gate_at m6 i = gate_at m5 i) /\
  (forall i, (i < 5)%nat -> segment_at m6 (DescrSpec.entry_addr i) = segment_at m1 (DescrSpec.entry_addr i)) /\
  agree (fun x => ~ image (region_bytes rest) x /\ ~ image_byte x /\ ~ fb_byte fb x /\
                  ~ entry_byte (boot_route b m) x) m m6.
Proof.
  intros W Hsub Hfb Ha1 Ha4 Ha5 Ha6.
  assert (agree (fun x => (~ image (region_bytes rest) x /\ ~ entry_byte (boot_route b m) x) /\
      ~ in_range idt_addr 4096 x /\ ~ owned [] x) m1 m6) as Ha.
  { transitivity m4; [eapply agree_sub; [exact Ha4|tauto]|].
    transitivity m5; [eapply agree_sub; [exact Ha5|tauto]|eapply agree_sub; [exact Ha6|]].
    intros x ((Hx & _) & _ & Ho). split; [|done]. intros Hb. by apply Hx, Hsub. }
  split; [|split; [|split]].
  - transitivity m1; [exact Hfb|]. eapply agree_sub; [exact Ha|]. intros x Hx.
    split; [apply (boot_apart _ _ _ _ _ _ x W); by right|].
    destruct (bw_pixels _ _ _ _ _ _ W x Hx) as [Hn _]. split; intros Hr; apply Hn; [left; by left|by right].
  - intros i Hi. apply gate_agree. eapply agree_sub; [exact Ha6|]. intros x Hx.
    assert (table_byte x) as Htx by (left; rewrite gate_addr_eq in Hx; unfold in_range in *; lia).
    split; [|by apply (bw_tables _ _ _ _ _ _ W)]. intros Hb%Hsub. by apply (bw_image _ _ _ _ _ _ W x (or_introl Htx)).
  - intros i Hi. symmetry. eapply segment_agree; [exact Ha|]. intros x Hx.
    pose proof tables_apart as (_ & Hig & _).
    assert (in_range gdt_addr 56 x) as Hgx by (unfold DescrSpec.entry_addr, in_range in *; lia).
    assert (table_byte x) as Htx by (right; by left). split; [apply (boot_apart _ _ _ _ _ _ x W); left; by left|].
    split; [unfold in_range in *; lia|by apply (bw_tables _ _ _ _ _ _ W)].
  - transitivity m1; [eapply agree_sub; [exact Ha1|]|eapply agree_sub; [exact Ha|]].
    + intros x (_ & Hx & Hp' & _). split; [exact Hp'|]. intros Htx. apply Hx. left. exact Htx.
    + intros x (Hx & Hi & _ & Hr). split; [exact (conj Hx Hr)|].
      split; intros Hr'; apply Hi; [left; left; exact Hr'|right; exact Hr'].
Qed.


(** Without the base revision, or a framebuffer, the kernel stops at once. *)
Lemma start_halts fuel wait b m :
  revision_supported b = false \/ framebuffers b = None \/ framebuffers b = Some [] ->
  _start fuel wait b m = Some StartHalted.
Proof.
  intros Hb. unfold _start. destruct (revision_supported b); [|reflexivity].
  by destruct Hb as [?|[->| ->]].
Qed.

End Start.

(** ** A machine that starts

    32 MiB of usable memory, two processors, a small screen, and page tables in
    which the last entry of the PML4 leads to a table without entries. *)

#[local] Existing Instance qemu_hhdm.
#[local] Existing Instance demo_linker.
#[local] Existing Instance demo_task_linker.
#[local] Existing Instance TimerSpec.demo_platform.
#[local] Existing Instance TimerSpec.demo_readback.
#[local] Existing Instance DescrSpec.demo_descr.
#[local] Existing Instance demo_boot_linker.

Definition demo_info : boot_info :=
  mk_boot_info true (Some [demo_fb]) demo_boot_map (Some demo_response) 0x50000.

Definition demo_tables : mem := store 8 ∅ (0xffff800000050000 + 8 * 511) 0x51003.

Lemma demo_keeps_time : keeps_time 11 boot_events.
Proof.
  split.
  - exists 2%nat. split; [exact TimerSpec.demo_rtc|lia].
  - exists 10000000, (2 ^ 63). split; [exact TimerSpec.demo_tsc|]. intros c Hc. change (cpuid_mhz * 10000) with 0 in Hc.
    split; [cbn; lia|]. intros h Hh. cbn [tsc TimerSpec.demo_platform]. unfold boot_events in Hh. lia.
Qed.

Lemma demo_owned x : owned [] x -> in_range all_tasks 16 x \/ in_range percpu_cpu_runqueue 64 x.
Proof.
  intros ([| |i|i] & rg & Eo & Hrg); cbn [region] in Eo.
  - injection Eo as <-. left. exact Hrg.
  - injection Eo as <-. right. exact Hrg.
  - rewrite lookup_nil in Eo. discriminate Eo.
  - rewrite lookup_nil in Eo. discriminate Eo.
Qed.

Lemma demo_image x : image_byte x -> 0x10000 <= x < 0x21068 \/ in_range all_tasks 16 x \/ in_range percpu_cpu_runqueue 64 x.
Proof.
  intros [Ht|Ho%demo_owned]; [left|by right]. unfold table_byte, in_range in Ht. cbn in Ht. lia.
Qed.

Lemma demo_pixels x : fb_byte demo_fb x -> 0x1000 <= x < 0x1c00.
Proof. intros Hx. unfold fb_byte, in_range in Hx. cbn in Hx. lia. Qed.

(** The route to the page of the APIC registers ends in the empty table. *)
Lemma demo_route : route demo_tables (indices apic_vaddr) (phys_to_virt (boot_cr3 demo_info)) =
  [0xffff800000050ff8; 0xffff800000051000].
Proof. vm_compute. reflexivity. Qed.

Lemma demo_clear : route_clear (fun x => image (region_bytes [demo_region]) x \/ image_byte x \/ fb_byte demo_fb x)
  [0xffff800000050ff8; 0xffff800000051000].
Proof.
  assert (forall e, e ∈ [0xffff800000050ff8; 0xffff800000051000] -> e = 0xffff800000050ff8 \/ e = 0xffff800000051000) as He.
  { intros e Hin. apply elem_of_cons in Hin as [Hin|Hin%list_elem_of_singleton]; [left|right]; exact Hin. }
  split.
  - intros e [-> | ->]%He; lia.
  - intros x (e & Hin%He & Hx) Hb. unfold in_range in Hx.
    assert (0xffff800000050000 <= x < 0xffff800000052000) by lia.
    destruct Hb as [Hb%demo_usable|[Hb%demo_image|Hb%demo_pixels]]; [lia| |lia].
    unfold in_range in Hb. cbn in Hb. lia.
  - intros e f Hx%He Hy%He; lia.
Qed.

Lemma demo_boot_world : boot_world 11 demo_info demo_fb demo_response [demo_region] demo_tables.
Proof.
  split.
  - reflexivity.
  - exists []. reflexivity.
  - exact (conj demo_screen demo_fit).
  - exists (mk_entry 0 0x9f000 0). reflexivity.
  - split; [simpl; lia|]. split; [exact demo_region_ok|repeat constructor].
  - exists demo_region, 0x2000000. split; [by left|]. split; [lia|]. split; [reflexivity|].
    intros x. apply (demo_pages 14). lia.
  - split; [reflexivity|exact demo_served].
  - exact demo_keeps_time.
  - intros x Hx%demo_image Hr%demo_usable. unfold in_range in Hx. cbn in Hx. lia.
  - intros x Ht Ho%demo_owned. unfold table_byte, in_range in *. cbn in *. lia.
  - intros x Hx%demo_pixels. split; [intros Hi%demo_image|intros Hr%demo_usable; lia].
    unfold in_range in Hi. cbn in Hi. lia.
  - vm_compute. discriminate.
  - rewrite demo_route. exact demo_clear.
  - rewrite demo_route. vm_compute. reflexivity.
Qed.

