(* ===== verification/Diag.v ===== *)
(** * Diagnostics: operations

    The reports the kernel prints about its own state: [print_buddy_arena] and
    [print_arena_summary] (buddy_allocator.c), [slab_print_cache_stats] and
    [slab_print_all_stats] (slab_allocator.c), [debug_print_runqueue] and
    [debug_print_all_runqueues] (scheduler.c), [vfs_debug_print_mounts] (vfs.c), the self-tests
    [test_timing_methods] and [run_pit_tests] (timer.c) and [test_vmm] (vmm.c).
    A report is the sequence of its [kprintf] calls; a pointer argument is the
    address.  Doubles are those of the Standard Library's SpecFloat (53 bits of
    precision, round to nearest even); a conversion to [int] that is out of
    range is undefined, and [None]. *)
From Stdlib Require Import String SpecFloat.
From S2P Require Import Prelude Memory Buddy PageAlloc Slab Pmm Klib Vmm Lists Tasks Console Klog Devices.
Import Slab Vmm Lists Tasks Devices.

Module Diag.

Definition lift {A} (o : option A) : io A := fun d => a ← o; Some (d, a).

(** A [for] loop over the elements of a list. *)
Fixpoint for_each {A} (f : A -> io unit) (l : list A) : io unit :=
  match l with [] => mret tt | a :: l => f a;; for_each f l end.

(** ** buddy_allocator.c *)

(** The walk over one free list, at most 21 blocks. *)
Fixpoint print_blocks (fuel : nat) (m : mem) (block count : Z) : io unit :=
  match fuel with
  | O => lift None
  | S fuel =>
    if block =? 0 then mret tt else
    kprintf "[phys: 0x%lx] -> " [Num (Buddy.fb_phys_addr m block)];;
    let block := Buddy.fb_next m block in
    let count := count + 1 in
    if 20 <? count then kprintf "..." [] else print_blocks fuel m block count
  end.

Definition print_buddy_arena (arena_idx : nat) (m : mem) (st : Buddy.buddy_state) : io unit :=
  let arena := Buddy.get_arena st arena_idx in
  for_each (fun order =>
    kprintf "Order %d: " [Num (Z.of_nat order)];;
    print_blocks 21 m (Buddy.head arena order) 0;;
    kprintf "NULL\n" []) (seq 0 (S (Buddy.max_arena_order arena))).

Fixpoint count_blocks (fuel : nat) (m : mem) (block block_count : Z) : option Z :=
  match fuel with
  | O => None
  | S fuel =>
    if block =? 0 then Some block_count else count_blocks fuel m (Buddy.fb_next m block) (w64 (block_count + 1))
  end.

(** The loop over the orders; the result is [total_free_bytes]. *)
Fixpoint summary_loop (fuel : nat) (m : mem) (arena : Buddy.buddy_arena) (orders : list nat) (total : Z) : io Z :=
  match orders with
  | [] => mret total
  | order :: orders =>
    block_count ← lift (count_blocks fuel m (Buddy.head arena order) 0);
    let block_size := Buddy.block_size order in
    let order_total := w64 (block_count * block_size) in
    let total := w64 (total + order_total) in
    kprintf "     Order %d: %lu blocks x %lu bytes = %lu bytes\n"
      [Num (Z.of_nat order); Num block_count; Num block_size; Num order_total];;
    summary_loop fuel m arena orders total
  end.

Definition print_arena_summary (fuel : nat) (arena_idx : nat) (m : mem) (st : Buddy.buddy_state) : io unit :=
  let arena := Buddy.get_arena st arena_idx in
  let length := Buddy.arena_length arena in
  kprintf "\n[+] Arena %d Free Summary:\n" [Num (Z.of_nat arena_idx)];;
  total_free_bytes ← summary_loop fuel m arena (seq 0 (S (Buddy.max_arena_order arena))) 0;
  kprintf "     -----------------------------------------------\n" [];;
  kprintf "     Total free memory: %lu bytes (%lu KiB) and (%lu MiB)\n"
    [Num total_free_bytes; Num (total_free_bytes / 1024); Num (total_free_bytes / (1024 * 1024))];;
  kprintf "     Arena length:      %lu bytes (%lu KiB) and (%lu MiB)\n"
    [Num length; Num (length / 1024); Num (total_free_bytes / (1024 * 1024))];;
  let lost := w64 (length - total_free_bytes) in
  kprintf "     Difference (rounding/fragmentation): %lu bytes\n\n" [Num lost].

(** ** slab_allocator.c *)

Definition slab_print_cache_stats (cache : slab_cache) : io unit :=
  kprintf "Slab Cache Stats (object_size=%lu):\n" [Num (object_size cache)];;
  kprintf "  Total objects: %lu\n" [Num (total_objects cache)];;
  kprintf "  Allocated objects: %lu\n" [Num (allocated_objects cache)];;
  kprintf "  Free objects: %lu\n" [Num (w64 (total_objects cache - allocated_objects cache))];;
  kprintf "  Total slabs: %lu\n" [Num (total_slabs cache)];;
  kprintf "  Utilization: %lu%%\n"
    [Num (if total_objects cache =? 0 then 0 else w64 (allocated_objects cache * 100) / total_objects cache)].

Definition slab_print_all_stats {P} (h : heap P) : io unit :=
  kprintf "\n=== Slab Allocator Statistics ===\n" [];;
  for_each (fun i => slab_print_cache_stats (get_cache h i);; kprintf "\n" []) (seq 0 NUM_SLAB_SIZES).

(** ** scheduler.c *)

Section Queues.
Context `{TaskLinker}.

(** The walk along the queue, at most 101 tasks; the result is [count]. *)
Fixpoint print_tasks (fuel : nat) (m : mem) (runqueue current count : Z) : io Z :=
  match fuel with
  | O => lift None
  | S fuel =>
    if current =? runqueue then mret count else
    let task := container_of current t_tasks_runnable in
    kprintf "  [%d] Task PID: %d, addr: %p, node: %p (next: %p, prev: %p)\n"
      [Num count; Num (task_pid m task); Num task; Num current; Num (next m current); Num (prev m current)];;
    let current := next m current in
    let count := count + 1 in
    if 100 <? count then
      kprintf "  ERROR: Runqueue traversal exceeded 100 nodes - possible corruption!\n" [];;
      mret count
    else print_tasks fuel m runqueue current count
  end.

Definition debug_print_runqueue (cpu_id : nat) (m : mem) : io unit :=
  kprintf "=== CPU %d Runqueue ===\n" [Num (Z.of_nat cpu_id)];;
  let runqueue := runqueue cpu_id in
  if list_empty m runqueue then kprintf "  Runqueue is EMPTY\n" [] else
  kprintf "  Runqueue head: %p (next: %p, prev: %p)\n" [Num runqueue; Num (next m runqueue); Num (prev m runqueue)];;
  count ← print_tasks 101 m runqueue (next m runqueue) 0;
  kprintf "  Total tasks in runqueue: %d\n" [Num count].

Definition debug_print_all_runqueues (m : mem) : io unit := for_each (fun i => debug_print_runqueue i m) (seq 0 4).
End Queues.

(** ** vfs.c *)

(** The string at [p] as [%s] prints it: [None] when no zero byte comes within
    the fuel. *)
Fixpoint c_string (fuel : nat) (m : mem) (p : Z) : option string :=
  match fuel with
  | O => None
  | S fuel =>
    let ch := load 1 m p in
    if ch =? 0 then Some EmptyString else
    rest ← c_string fuel m (p + 1);
    Some (String (Ascii.ascii_of_N (Z.to_N ch)) rest)
  end.

(** struct mount_point: { path; sb; next }; struct super_block and struct
    filesystem begin with [fs] and [name]. *)
Fixpoint print_mounts (fuel : nat) (m : mem) (mp : Z) : io unit :=
  match fuel with
  | O => lift None
  | S fuel =>
    if mp =? 0 then mret tt else
    path ← lift (c_string fuel m (load 8 m mp));
    let fs := load 8 m (load 8 m (mp + 8)) in
    name ← lift (c_string fuel m (load 8 m fs));
    kprintf "  %s -> %s\n" [Str path; Str name];;
    print_mounts fuel m (load 8 m (mp + 16))
  end.

Definition vfs_debug_print_mounts (fuel : nat) (mount_table : Z) (m : mem) : io unit :=
  kprintf "Mount table:\n" [];;
  print_mounts fuel m mount_table.

(** ** apic.c: the per-CPU tick counters *)

Definition apic_timer_get_ticks (core : nat) (timer_ticks : list Z) : Z := nth core timer_ticks 0.

(** ** timer.c: the self-test *)

Notation double := spec_float.

Definition to_double (x : Z) : double := binary_normalize 53 1024 x 0 false.
Definition double_div (a b : double) : double := SFdiv 53 1024 a b.
Definition double_mul (a b : double) : double := SFmul 53 1024 a b.

(** [(int)d]: truncation. *)
Definition to_int (d : double) : option Z :=
  match d with
  | S754_zero _ => Some 0
  | S754_finite s m e =>
    let n := if 0 <=? e then Z.pos m * 2 ^ e else Z.pos m / 2 ^ (- e) in
    let n := if s then - n else n in
    if (- 2 ^ 31 <=? n) && (n <? 2 ^ 31) then Some n else None
  | _ => None
  end.

Section Timing.
Context `{Platform}.

(** One measured wait. *)
Definition timed_wait (fuel : nat) : io Z :=
  start ← get_cpu_cycles;
  cpu_wait_10ms fuel;;
  end_ ← get_cpu_cycles;
  mret (w64 (end_ - start)).

(** The five turns of the loop, from turn [i]: total, least and greatest. *)
Fixpoint timing_loop (n : nat) (i : Z) (fuel : nat) (total min max : Z) : io (Z * Z * Z) :=
  match n with
  | O => mret (total, min, max)
  | S n =>
    elapsed ← timed_wait fuel;
    let total := w64 (total + elapsed) in
    let min := if elapsed <? min then elapsed else min in
    let max := if max <? elapsed then elapsed else max in
    kprintf "  Test %d: %lu cycles\n" [Num (i + 1); Num elapsed];;
    timing_loop n (i + 1) fuel total min max
  end.

Definition test_timing_methods (fuel : nat) : io unit :=
  kprintf "=== Comprehensive Timing Test ===\n" [];;
  calibrate_cpu_timing fuel;;
  kprintf "\nTesting calibration 5 times:\n" [];;
  '(total_cycles, min_cycles, max_cycles) ← timing_loop 5 0 fuel 0 (2 ^ 64 - 1) 0;
  let avg_cycles := total_cycles / 5 in
  let variance := w64 (max_cycles - min_cycles) in
  kprintf "  Average: %lu cycles\n" [Num avg_cycles];;
  kprintf "  Min: %lu, Max: %lu, Variance: %lu\n" [Num min_cycles; Num max_cycles; Num variance];;
  let consistency :=
    double_mul (double_div (to_double (w64 (avg_cycles - variance / 2))) (to_double avg_cycles)) (to_double 100) in
  n ← lift (to_int consistency);
  kprintf "  Consistency: %d%%\n" [Num n];;
  kprintf "\n=== CPU Calibration Validation ===\n" [];;
  c ← get cpu_cycles_per_10ms;
  kprintf "Expected cycles per 10ms: %lu\n" [Num c];;
  actual ← timed_wait fuel;
  c ← get cpu_cycles_per_10ms;
  let accuracy := double_mul (double_div (to_double c) (to_double actual)) (to_double 100) in
  kprintf "Actual cycles used: %lu\n" [Num actual];;
  n ← lift (to_int accuracy);
  kprintf "Accuracy: %d%%\n" [Num n];;
  if SFltb (to_double 95) accuracy && SFltb accuracy (to_double 105)
  then kprintf "CPU calibration appears accurate\n" []
  else kprintf "CPU calibration may be inaccurate\n" [].

Definition run_pit_tests (fuel : nat) : io unit :=
  kprintf "Starting comprehensive timing tests...\n" [];;
  kprintf "CPU TSC frequency detection and calibration in progress...\n" [];;
  test_timing_methods fuel.
End Timing.

(** ** vmm.c: the self-test *)

Section VmmTest.
Context `{Hhdm} `{Linker} {P : Type} `{!PageAllocator P}.

Definition test_vmm (fuel : nat) (v : vmm P) : io (vmm P) :=
  kprintf "Testing VMM...\n" [];;
  '(v, test_as) ← lift (vmm_create_address_space fuel v);
  if test_as =? 0 then kprintf "FAIL: Could not create address space\n" [];; mret v else
  '(v, result) ← lift (vmm_map_range test_as 0x400000 0x100000 PAGE_SIZE
                         (Z.lor (Z.lor PTE_PRESENT PTE_WRITABLE) PTE_USER) v);
  kprintf "Map result: %s\n" [Str (if result =? 0 then "SUCCESS" else "FAILED")];;
  let v := vmm_switch_address_space test_as v in
  kprintf "Switched to test address space - kernel still accessible!\n" [];;
  let v := vmm_switch_address_space (kernel_as v) v in
  v ← lift (vmm_destroy_address_space test_as v);
  kprintf "VMM test completed\n" [];;
  mret v.
End VmmTest.

End Diag.
