(* ===== verification/DiagSpec.v ===== *)
(** * Diagnostics: correctness

    What the reports say is true of the state they report on: the free memory
    of an arena is the number of its free bytes, the tasks of a run queue come
    out in queue order, and the walks end on every state the allocator and the
    scheduler keep, and after a bounded number of steps on any other. *)
From Stdlib Require Import String.
From S2P Require Import Prelude Memory PageAlloc Chain Buddy BuddyProofs BuddySpec.
From S2P Require Import Slab Pmm HeapClaims Klib Vmm VmmClaims Lists Tasks TasksSpec TasksClaims Console Klog Devices DevicesSpec TimerSpec Diag.
Import Lists Tasks Devices Diag.

(** ** Programs that only print *)

Definition after (d : dev) (es : history) : dev :=
  mk_dev (hist d ++ es) (apic_base d) (apic_timer_frequency d) (cpu_cycles_per_10ms d).

Lemma after_nil d : after d [] = d.
Proof. unfold after. rewrite app_nil_r. by destruct d. Qed.

Lemma after_app d es es' : after (after d es) es' = after d (es ++ es').
Proof. unfold after. cbn. by rewrite app_assoc. Qed.

Lemma print_then {A} f a (k : unit -> io A) d : (kprintf f a ≫= k) d = k tt (after d [Kprintf f a]).
Proof. done. Qed.

Lemma print_end f a d : kprintf f a d = Some (after d [Kprintf f a], tt).
Proof. done. Qed.

Lemma ret_end {A} (a : A) d : (mret a : io A) d = Some (after d [], a).
Proof. by rewrite after_nil. Qed.

Lemma lift_bind {A B} (a : A) (k : A -> io B) d : (lift (Some a) ≫= k) d = k a d.
Proof. done. Qed.

Lemma for_each_report {A} (f : A -> io unit) (report : A -> history) l d :
  (forall a d, a ∈ l -> f a d = Some (after d (report a), tt)) ->
  for_each f l d = Some (after d (l ≫= report), tt).
Proof.
  revert d. induction l as [|a l IH]; intros d Hf; [exact (ret_end tt d)|]. cbn [for_each].
  rewrite (bind_eq _ _ _ _ _ (Hf a d ltac:(left))). rewrite IH, after_app; [done|].
  intros b d' Hb. apply Hf. by right.
Qed.

(** ** The summary of an arena *)

Section Arena.
Context `{Hhdm}.

Implicit Types (L : nat -> list Z) (ar : Buddy.buddy_arena).

Definition bytes_of (L : nat -> list Z) (o : nat) : list Z := L o ≫= (fun p => seqZ p (Buddy.block_size o)).

(** The free bytes of the orders up to [n], listed. *)
Definition byte_list L (n : nat) : list Z := seq 0 (S n) ≫= bytes_of L.

Lemma length_blocks n (l : list Z) : 0 <= n -> Z.of_nat (length (l ≫= (fun p => seqZ p n))) = Z.of_nat (length l) * n.
Proof.
  intros Hn. induction l as [|p l IH]; [done|]. rewrite bind_cons, length_app, length_seqZ. cbn [length]. lia.
Qed.

Lemma elem_bytes_of L o x : x ∈ bytes_of L o <-> exists p, p ∈ L o /\ in_range p (Buddy.block_size o) x.
Proof.
  unfold bytes_of. rewrite list_elem_of_bind. unfold in_range. split.
  - intros (p & Hx%elem_of_seqZ & Hp). exists p. split; [done|lia].
  - intros (p & Hp & Hx). exists p. split; [apply elem_of_seqZ; lia|done].
Qed.

Lemma elem_byte_list m ar L x : arena_ok m ar L -> x ∈ byte_list L (Buddy.max_arena_order ar) <-> free_bytes L x.
Proof.
  intros Hok. unfold byte_list, free_bytes. rewrite list_elem_of_bind. split.
  - intros (o & Hx%elem_bytes_of & _). naive_solver.
  - intros (o & p & Hp & Hx). exists o. split; [apply elem_bytes_of; eauto|]. apply elem_of_seq.
    pose proof (proj1 (ok_block _ _ _ Hok o p Hp)). lia.
Qed.

Lemma same_block m ar L o o' p p' x :
  arena_ok m ar L -> p ∈ L o -> p' ∈ L o' -> in_range p (Buddy.block_size o) x ->
  in_range p' (Buddy.block_size o') x -> o = o' /\ p = p'.
Proof.
  intros Hok Hp Hp' Hx Hx'. unfold in_range in *.
  destruct (ok_disj _ _ _ Hok o p o' p' Hp Hp') as [?|[?|?]]; [done|lia|lia].
Qed.

Lemma byte_list_nodup m ar L : arena_ok m ar L -> NoDup (byte_list L (Buddy.max_arena_order ar)).
Proof.
  intros Hok. apply NoDup_bind; [| |apply NoDup_seq].
  - intros o o' x _ _ (p & Hp & Hx)%elem_bytes_of (p' & Hp' & Hx')%elem_bytes_of.
    by destruct (same_block m ar L o o' p p' x Hok).
  - intros o _. apply NoDup_bind; [|intros; apply NoDup_seqZ|apply (ok_nodup _ _ _ Hok)].
    intros p p' x Hp Hp' Hx%elem_of_seqZ Hx'%elem_of_seqZ.
    apply (same_block m ar L o o p p' x Hok Hp Hp'); unfold in_range; lia.
Qed.

(** The free bytes fit into the arena. *)
Lemma byte_list_bound m ar L :
  arena_ok m ar L -> Z.of_nat (length (byte_list L (Buddy.max_arena_order ar))) <= Buddy.arena_length ar.
Proof.
  intros Hok. pose proof (ok_length _ _ _ Hok) as [Hl _].
  pose proof (submseteq_length _ _ (NoDup_submseteq _ (seqZ (Buddy.base ar) (Buddy.arena_length ar)) (byte_list_nodup m ar L Hok)
    ltac:(intros x (o & p & Hp & Hx)%(elem_byte_list m ar L x Hok); apply elem_of_seqZ;
          destruct (ok_block _ _ _ Hok o p Hp) as (_ & _ & ? & ?); unfold in_range in Hx; lia))) as Hle.
  rewrite length_seqZ in Hle. lia.
Qed.

(** ** The walk over the lists *)

(** The line of one order. *)
Definition order_line L (o : nat) : dev_event :=
  let n := Z.of_nat (length (L o)) in
  Kprintf "     Order %d: %lu blocks x %lu bytes = %lu bytes\n"
    [Num (Z.of_nat o); Num n; Num (Buddy.block_size o); Num (n * Buddy.block_size o)].

Lemma count_chain fuel m o h l c :
  chain m o h l -> (forall p, p ∈ l -> phys_to_virt p <> 0) -> (length l < fuel)%nat ->
  0 <= c -> c + Z.of_nat (length l) < 2 ^ 64 -> count_blocks fuel m h c = Some (c + Z.of_nat (length l)).
Proof.
  revert h l c. induction fuel as [|fuel IH]; intros h l c Hc Hp Hf H0 Hb; [lia|]. cbn [count_blocks].
  destruct l as [|p l]; [rewrite Hc; simpl; by rewrite Z.add_0_r|]. destruct Hc as (-> & _ & _ & Hc).
  rewrite (proj2 (Z.eqb_neq _ _)) by (apply Hp; by left). cbn [length] in *.
  rewrite wrap_small by lia. rewrite (IH _ l) by (done || lia || (intros; apply Hp; by right)). f_equal. lia.
Qed.

Lemma count_order fuel m ar L o :
  arena_ok m ar L -> (o <= Buddy.max_arena_order ar)%nat -> Buddy.arena_length ar / 4096 < Z.of_nat fuel ->
  count_blocks fuel m (Buddy.head ar o) 0 = Some (Z.of_nat (length (L o))) /\
  Z.of_nat (length (L o)) * Buddy.block_size o = Z.of_nat (length (bytes_of L o)).
Proof.
  intros Hok Ho Hf. pose proof (ok_max _ _ _ Hok) as Hmax. unfold Buddy.MAX_SUPPORTED_ORDER in Hmax.
  pose proof (block_size_ge o ltac:(lia)) as Hge. pose proof (ok_length _ _ _ Hok) as [Hl Hlim]. pose proof hhdm_phys_bits.
  pose proof (ok_base _ _ _ Hok) as [Hb _].
  assert (Z.of_nat (length (bytes_of L o)) = Z.of_nat (length (L o)) * Buddy.block_size o) as El by (apply length_blocks; lia).
  assert (Z.of_nat (length (bytes_of L o)) <= Buddy.arena_length ar) as Hle.
  { etransitivity; [|apply (byte_list_bound m ar L Hok)]. apply inj_le, submseteq_length, NoDup_submseteq.
    - apply NoDup_bind; [|intros; apply NoDup_seqZ|apply (ok_nodup _ _ _ Hok)].
      intros p p' x Hp Hp' Hx%elem_of_seqZ Hx'%elem_of_seqZ.
      apply (same_block m ar L o o p p' x Hok Hp Hp'); unfold in_range; lia.
    - intros x (p & Hp & Hx)%elem_bytes_of. apply (elem_byte_list m ar L x Hok). by exists o, p. }
  assert (Z.of_nat (length (L o)) <= Buddy.arena_length ar / 4096) as Hn by (apply Z.div_le_lower_bound; nia).
  split; [|done]. rewrite (count_chain fuel m o _ (L o) 0); [done|apply (ok_chain _ _ _ Hok); unfold Buddy.MAX_SUPPORTED_ORDER; lia|..].
  - intros p Hp. destruct (arena_block_facts _ _ _ _ _ Hok (ok_block _ _ _ Hok o p Hp)) as (_ & _ & ? & _ & ? & _).
    apply phys_to_virt_nonzero. lia.
  - lia.
  - lia.
  - assert (Buddy.arena_length ar / 4096 <= Buddy.arena_length ar) by (apply Z.div_le_upper_bound; lia). lia.
Qed.

Lemma summary_loop_report fuel m ar L orders : forall pre d,
  arena_ok m ar L -> pre ++ orders = seq 0 (S (Buddy.max_arena_order ar)) -> Buddy.arena_length ar / 4096 < Z.of_nat fuel ->
  summary_loop fuel m ar orders (Z.of_nat (length (pre ≫= bytes_of L))) d =
    Some (after d (order_line L <$> orders), Z.of_nat (length ((pre ++ orders) ≫= bytes_of L))).
Proof.
  induction orders as [|o orders IH]; intros pre d Hok Epre Hf.
  { rewrite app_nil_r. exact (ret_end _ d). }
  assert (o <= Buddy.max_arena_order ar)%nat as Ho.
  { assert (o ∈ seq 0 (S (Buddy.max_arena_order ar))) as Hin%elem_of_seq by (rewrite <- Epre; set_solver). lia. }
  destruct (count_order fuel m ar L o Hok Ho Hf) as [Ec El]. cbn [summary_loop]. rewrite Ec, lift_bind, El.
  pose proof (byte_list_bound m ar L Hok) as Hb. unfold byte_list in Hb. rewrite <- Epre, bind_app, bind_cons, !length_app in Hb.
  pose proof (ok_length _ _ _ Hok) as [_ Hlim]. pose proof hhdm_phys_bits. pose proof (ok_base _ _ _ Hok) as [Hbase _].
  rewrite (wrap_small 64 (Z.of_nat (length (bytes_of L o)))) by lia. rewrite wrap_small by lia.
  rewrite print_then. rewrite <- Nat2Z.inj_add, <- length_app.
  replace ((pre ≫= bytes_of L) ++ bytes_of L o) with ((pre ++ [o]) ≫= bytes_of L)
    by (by rewrite bind_app, bind_singleton).
  rewrite (IH (pre ++ [o])); [|done|by rewrite <- app_assoc|done]. rewrite after_app, <- app_assoc. cbn [app fmap list_fmap].
  unfold order_line at 2. by rewrite El.
Qed.

(** The report of an arena with the free lists [L]. *)
Definition summary_report (i : nat) ar L (total : Z) : history :=
  let length := Buddy.arena_length ar in
  Kprintf "\n[+] Arena %d Free Summary:\n" [Num (Z.of_nat i)] ::
  (order_line L <$> seq 0 (S (Buddy.max_arena_order ar))) ++
  [ Kprintf "     -----------------------------------------------\n" [];
    Kprintf "     Total free memory: %lu bytes (%lu KiB) and (%lu MiB)\n" [Num total; Num (total / 1024); Num (total / (1024 * 1024))];
    Kprintf "     Arena length:      %lu bytes (%lu KiB) and (%lu MiB)\n" [Num length; Num (length / 1024); Num (total / (1024 * 1024))];
    Kprintf "     Difference (rounding/fragmentation): %lu bytes\n\n" [Num (length - total)] ].

(** C35. [print_arena_summary] tells the truth: on an allocator in order it ends,
    prints for every order the number and size of the blocks on its free list,
    and the total it prints is the number of free bytes of the arena (the
    elements, without repetition, of a list of exactly these bytes); no
    intermediate result wraps, and the difference to the length of the arena is
    not negative.  The megabytes it prints for the length are those of the free
    memory. *)
Theorem print_arena_summary_correct fuel i m st G d :
  buddy_ok m st G -> (i < arena_count st)%nat ->
  Buddy.arena_length (Buddy.get_arena st i) / 4096 < Z.of_nat fuel ->
  exists bytes, NoDup bytes /\ (forall x, x ∈ bytes <-> free_bytes (G i) x) /\
    Z.of_nat (length bytes) <= Buddy.arena_length (Buddy.get_arena st i) /\
    print_arena_summary fuel i m st d =
      Some (after d (summary_report i (Buddy.get_arena st i) (G i) (Z.of_nat (length bytes))), tt).
Proof.
  intros Hok Hi Hf. pose proof (ok_arena _ _ _ Hok i Hi) as Ha. set (ar := Buddy.get_arena st i) in *.
  exists (byte_list (G i) (Buddy.max_arena_order ar)).
  pose proof (byte_list_bound m ar (G i) Ha) as Hle. split_and!; [by eapply byte_list_nodup|intros x; by eapply elem_byte_list|done|].
  unfold print_arena_summary. fold ar. rewrite print_then.
  rewrite (bind_eq _ _ _ _ _ (summary_loop_report fuel m ar (G i) _ [] _ Ha eq_refl Hf)).
  rewrite !print_then, print_end, !after_app. cbn [app]. fold (byte_list (G i) (Buddy.max_arena_order ar)).
  pose proof (ok_length _ _ _ Ha) as [_ Hlim]. pose proof (ok_base _ _ _ Ha) as [Hbase _]. pose proof hhdm_phys_bits.
  rewrite (wrap_small 64 (_ - _)) by lia. done.
Qed.

(** [print_buddy_arena] ends whatever the memory contains. *)
Lemma print_blocks_ends fuel m block count d :
  (21 <= Z.of_nat fuel + count) -> (0 < fuel)%nat -> exists es, print_blocks fuel m block count d = Some (after d es, tt).
Proof.
  revert block count d. induction fuel as [|fuel IH]; intros block count d Hf H0; [lia|]. cbn [print_blocks].
  destruct (_ =? 0); [eexists; exact (ret_end tt d)|]. rewrite print_then.
  destruct (Z.ltb_spec 20 (count + 1)); [eexists; by rewrite print_end, after_app|].
  destruct (IH (Buddy.fb_next m block) (count + 1) (after d [Kprintf "[phys: 0x%lx] -> " [Num (Buddy.fb_phys_addr m block)]]))
    as [es E]; [lia|lia|]. rewrite E, after_app. eauto.
Qed.
End Arena.

(** ** The run queues *)

Section Queues.
Context `{TaskLinker}.

Definition task_line (m : mem) (i : nat) (t : Z) : dev_event :=
  Kprintf "  [%d] Task PID: %d, addr: %p, node: %p (next: %p, prev: %p)\n"
    [Num (Z.of_nat i); Num (task_pid m t); Num t; Num (node t); Num (next m (node t)); Num (prev m (node t))].

Definition queue_error : dev_event :=
  Kprintf "  ERROR: Runqueue traversal exceeded 100 nodes - possible corruption!\n" [].

Definition queue_report (m : mem) (c : nat) (l : list Z) : history :=
  Kprintf "=== CPU %d Runqueue ===\n" [Num (Z.of_nat c)] ::
  match l with
  | [] => [Kprintf "  Runqueue is EMPTY\n" []]
  | _ =>
    Kprintf "  Runqueue head: %p (next: %p, prev: %p)\n"
      [Num (runqueue c); Num (next m (runqueue c)); Num (prev m (runqueue c))] ::
    imap (task_line m) (take 101 l) ++ (if (100 <? length l)%nat then [queue_error] else []) ++
    [Kprintf "  Total tasks in runqueue: %d\n" [Num (Z.of_nat (length l `min` 101))]]
  end.

(** The walk from position [i] of the queue. *)
Lemma print_tasks_report m c q : sched_ok m q -> (c < MAX_CORES)%nat -> forall fuel i d,
  (i + fuel = 101)%nat -> (0 < fuel)%nat -> (i <= length (q c))%nat ->
  print_tasks fuel m (runqueue c) (default (runqueue c) (node <$> q c !! i)) (Z.of_nat i) d =
    Some (after d (imap (fun j => task_line m (i + j)) (take fuel (drop i (q c))) ++
            (if (100 <? length (q c))%nat then [queue_error] else [])), Z.of_nat (length (q c) `min` 101)).
Proof.
  intros Hs Hc. induction fuel as [|fuel IH]; intros i d Ei H0 Hi; [lia|]. cbn [print_tasks].
  destruct (q c !! i) as [t|] eqn:Et.
  - cbn [fmap option_fmap option_map default id]. pose proof (list_elem_of_lookup_2 _ _ _ Et) as Hin.
    rewrite (proj2 (Z.eqb_neq _ _)) by (apply (so_heads _ _ Hs c c t); done). rewrite container_of_node, print_then.
    fold (task_line m i t). pose proof (lookup_lt_Some _ _ _ Et) as Hlt. rewrite (drop_S _ _ _ Et).
    cbn [take]. rewrite imap_cons. rewrite Nat.add_0_r.
    destruct (Z.ltb_spec 100 (Z.of_nat i + 1)).
    + assert (i = 100%nat) as -> by lia. assert (fuel = 0%nat) as -> by lia. rewrite print_then.
      rewrite (proj2 (Nat.ltb_lt _ _)) by done. cbn [take imap app]. fold queue_error.
      rewrite (ret_end (100 + 1)), !after_app. cbn [app]. replace (length (q c) `min` 101)%nat with 101%nat by lia. done.
    + pose proof (so_ring _ _ Hs c Hc) as Hr. pose proof (ring_next_at _ _ _ i (node t) Hr) as En. cbn in En.
      rewrite En by (change (map node (q c)) with (node <$> q c); by rewrite list_lookup_fmap, Et).
      change (map node (q c)) with (node <$> q c). rewrite list_lookup_fmap.
      replace (Z.of_nat i + 1) with (Z.of_nat (S i)) by lia. rewrite IH by lia. rewrite after_app. cbn [app].
      do 4 f_equal. f_equal. apply imap_ext. intros j u _. cbn. by rewrite Nat.add_succ_r.
  - apply lookup_ge_None in Et. assert (i = length (q c)) as -> by lia. cbn [fmap option_fmap option_map default id].
    rewrite Z.eqb_refl, (ret_end (Z.of_nat _)), drop_all, (proj2 (Nat.ltb_ge _ _)) by lia. cbn.
    by replace (length (q c) `min` 101)%nat with (length (q c)) by lia.
Qed.

(** [debug_print_runqueue] prints the queue: on run queues in order it ends
    and its report lists the tasks of the queue with their process numbers, in
    queue order, and their number; beyond a hundred it lists 101 of them, takes
    the queue for corrupt and prints 101. *)
Theorem debug_print_runqueue_correct m q c d :
  sched_ok m q -> (c < MAX_CORES)%nat ->
  debug_print_runqueue c m d = Some (after d (queue_report m c (q c)), tt).
Proof.
  intros Hs Hc. unfold debug_print_runqueue, list_empty. rewrite print_then.
  pose proof (so_ring _ _ Hs c Hc) as Hr. pose proof (ring_next _ _ _ Hr) as En. cbn in En.
  unfold queue_report. destruct (q c) as [|t l] eqn:Eq.
  - cbn in En. rewrite En, Z.eqb_refl, print_end, after_app. done.
  - cbn in En. rewrite En, (proj2 (Z.eqb_neq _ _)) by (apply (so_heads _ _ Hs c c t); [done|done|rewrite Eq; by left]).
    rewrite print_then. pose proof (print_tasks_report m c q Hs Hc 101 0) as Hw. rewrite Eq in Hw.
    cbn [lookup list_lookup fmap option_fmap option_map default id] in Hw.
    rewrite (bind_eq _ _ _ _ _ (Hw _ ltac:(lia) ltac:(lia) ltac:(lia))), print_end, !after_app. by rewrite <- (app_assoc (imap _ _)).
Qed.
End Queues.

(** ** One measured wait *)

(** With a calibrated clock [timed_wait] ends, and measures at least the
    calibrated number of cycles. *)
Lemma timed_wait_correct `{Platform} rate limit n d :
  tsc_advances rate limit -> 0 < cpu_cycles_per_10ms d <= rate * Z.of_nat n ->
  tsc (hist d ++ [Rdtsc]) + cpu_cycles_per_10ms d <= limit ->
  (forall h j, tsc h <= tsc (h ++ replicate j Rdtsc)) ->
  exists d' elapsed, timed_wait (S n) d = Some (d', elapsed) /\ cpu_cycles_per_10ms d <= elapsed < 2 ^ 64 /\
    cpu_cycles_per_10ms d' = cpu_cycles_per_10ms d.
Proof.
  intros Hadv Hn Hlim Hmono. unfold timed_wait. rewrite get_cpu_cycles_bind.
  destruct (cpu_wait_10ms_correct rate limit n (log_event d Rdtsc)) as (d' & j & E & Eh & Hj & _ & _ & Hc);
    [done|by fields|by fields|]. fields.
  rewrite (bind_eq _ _ _ _ _ E), get_cpu_cycles_bind.
  pose proof (Hmono (hist d) 1%nat) as Hm1. cbn [replicate] in Hm1.
  pose proof (Hmono (((hist d ++ [Rdtsc]) ++ [Rdtsc]) ++ replicate j Rdtsc) 1%nat) as Hm2. cbn [replicate] in Hm2.
  rewrite <- (app_assoc _ (replicate j Rdtsc)) in Hm2. rewrite <- (replicate_cons_app j) in Hm2.
  change (Rdtsc :: replicate j Rdtsc) with (replicate (S j) Rdtsc) in Hm2. rewrite <- Eh in Hm2.
  pose proof (tsc_range (hist d)). pose proof (tsc_range (hist d')).
  rewrite wrap_small by lia. eexists _, _. split; [reflexivity|]. split; [lia|done].
Qed.

(** ** Concrete reports *)

#[local] Existing Instance qemu_hhdm.
#[local] Existing Instance demo_linker.
#[local] Existing Instance demo_task_linker.
#[local] Existing Instance TimerSpec.demo_platform.

Lemma print_arena_summary_witness : exists m st G bytes d', buddy_ok m st G /\
  print_arena_summary 20 2 m st (mk_dev [] 0 0 0) = Some (d', tt) /\
  hist d' = summary_report 2 (Buddy.get_arena st 2) (G 2%nat) (Z.of_nat (length bytes)) /\
  (forall x, x ∈ bytes <-> free_bytes (G 2%nat) x).
Proof.
  destruct demo_state as (m & st & G & E & Hok).
  assert (arena_count st = 4%nat /\ Buddy.arena_length (Buddy.get_arena st 2) = 0x10000) as [Ec El].
  { assert ((fun r : mem * Buddy.buddy_state => (arena_count r.2, Buddy.arena_length (Buddy.get_arena r.2 2))) <$>
      Buddy.buddy_allocator_init demo_map ∅ Buddy.buddy_boot = Some (4%nat, 0x10000)) as E' by (vm_compute; reflexivity).
    rewrite E in E'. cbn [fmap option_fmap option_map snd] in E'. by injection E' as -> ->. }
  destruct (print_arena_summary_correct 20 2 m st G (mk_dev [] 0 0 0) Hok) as (bytes & _ & Hb & _ & Ep);
    [lia|rewrite El; reflexivity|].
  exists m, st, G, bytes, (after (mk_dev [] 0 0 0) (summary_report 2 (Buddy.get_arena st 2) (G 2%nat) (Z.of_nat (length bytes)))).
  split_and!; [exact Hok|exact Ep|reflexivity|exact Hb].
Defined.

Lemma debug_print_runqueue_witness : exists d', debug_print_runqueue 1 (k_mem demo_running) (mk_dev [] 0 0 0) = Some (d', tt) /\
  last (hist d') = Some (Kprintf "  Total tasks in runqueue: %d\n" [Num 2]).
Proof.
  eexists. split; [apply (debug_print_runqueue_correct (k_mem demo_running) demo_queues 1 _ demo_running_ok); unfold MAX_CORES; lia|].
  reflexivity.
Defined.

(** The timer self-test where a wait overshoots by two per cent. *)
Example run_pit_tests_demo :
  (fun r : dev * unit => skipn (length (hist r.1) - 3) (hist r.1)) <$> run_pit_tests 150 (mk_dev [] 0 0 1000000000) =
  Some [Kprintf "Actual cycles used: %lu\n" [Num 1020000000]; Kprintf "Accuracy: %d%%\n" [Num 98];
        Kprintf "CPU calibration appears accurate\n" []].
Proof. vm_compute. reflexivity. Qed.

(** The self-test of the virtual memory manager on a booted machine. *)
Example test_vmm_demo :
  (r ← Buddy.buddy_allocator_init demo_map ∅ Buddy.buddy_boot;
   '(v, _) ← Vmm.vmm_init 64 (Vmm.mk_vmm (Slab.mk_heap r.1 r.2 Slab.slab_allocator_init) 0 0 demo_pml4 []);
   '(d, v) ← test_vmm 64 v (mk_dev [] 0 0 0);
   Some (hist d, Vmm.mmu v)) =
  Some ([Kprintf "Testing VMM...\n" []; Kprintf "Map result: %s\n" [Str "SUCCESS"];
         Kprintf "Switched to test address space - kernel still accessible!\n" []; Kprintf "VMM test completed\n" []],
        [Vmm.FlushAll; Vmm.LoadCr3 0x102000; Vmm.LoadCr3 demo_pml4]).
Proof. vm_compute. reflexivity. Qed.
